(** * XiangqiGame: a shallow embedding of the Xiangqi rule engine

    The development follows [XiangqiGame.py] class by class: the Python
    primitives the program relies on, [Board], the piece classes,
    [Pieces] (the registry and the attack maps) and [XiangqiGame] (the
    move protocol and the termination controller).  Python strings are
    strings over the code points 0 to 255 ([String.string]), Python
    integers are [Z], a Python [dict] is an association list in insertion
    order, and a call that may raise returns a [res]. *)

From Stdlib Require Import ZArith List String Ascii Bool Lia Permutation.
From Stdlib Require Import DecimalString.
Import ListNotations.

Local Open Scope string_scope.
Local Open Scope Z_scope.

(** ** Exceptions *)

Inductive exn : Type :=
| ValueError
| IndexError
| AttributeError
| TypeError
| KeyError.

Inductive res (A : Type) : Type :=
| Ok (a : A)
| Raise (e : exn).

Arguments Ok {A} a.
Arguments Raise {A} e.

Definition bind {A B : Type} (m : res A) (k : A -> res B) : res B :=
  match m with
  | Ok a => k a
  | Raise e => Raise e
  end.

Notation "x <- m ;; k" := (bind m (fun x => k))
  (at level 61, m at next level, right associativity).
Notation "' p <- m ;; k" := (bind m (fun x => let p := x in k))
  (at level 61, p pattern, m at next level, right associativity).

Definition raises {A : Type} (m : res A) : bool :=
  match m with
  | Ok _ => false
  | Raise _ => true
  end.

(** ** Python primitives *)

(** [s[0]]: the first character as a one-character string. *)
Definition str_get0 (s : string) : res string :=
  match s with
  | EmptyString => Raise IndexError
  | String c _ => Ok (String c EmptyString)
  end.

(** [s[1]]. *)
Definition str_get1 (s : string) : res string :=
  match s with
  | String _ (String c _) => Ok (String c EmptyString)
  | _ => Raise IndexError
  end.

(** [s[1:]]. *)
Definition str_tail (s : string) : string :=
  match s with
  | EmptyString => EmptyString
  | String _ r => r
  end.

(** [ord(c)] of a one-character string. *)
Definition py_ord (c : string) : res Z :=
  match c with
  | String a EmptyString => Ok (Z.of_N (N_of_ascii a))
  | _ => Raise TypeError
  end.

(** [chr(n)].  A code point above 255 is outside the strings of the
    model; the squares of the board never produce one. *)
Definition py_chr (n : Z) : res string :=
  if (0 <=? n) && (n <? 256)
  then Ok (String (ascii_of_N (Z.to_N n)) EmptyString)
  else Raise ValueError.

(** [str(n)] of an integer. *)
Definition py_str (n : Z) : string :=
  NilZero.string_of_int (Z.to_int n).

Definition is_py_space (c : ascii) : bool :=
  let n := N_of_ascii c in
  (((9 <=? n) && (n <=? 13)) || ((28 <=? n) && (n <=? 32))
   || (n =? 133) || (n =? 160))%N.

Definition is_py_digit (c : ascii) : bool :=
  let n := N_of_ascii c in ((48 <=? n) && (n <=? 57))%N.

Definition digit_val (c : ascii) : Z := Z.of_N (N_of_ascii c) - 48.

Fixpoint lstrip (l : list ascii) : list ascii :=
  match l with
  | c :: r => if is_py_space c then lstrip r else l
  | [] => []
  end.

Definition strip (l : list ascii) : list ascii :=
  rev (lstrip (rev (lstrip l))).

(** Digits with single underscores between them, as [int] accepts. *)
Fixpoint digits_val (acc : Z) (after_digit : bool) (l : list ascii) : option Z :=
  match l with
  | [] => if after_digit then Some acc else None
  | c :: r =>
      if is_py_digit c then digits_val (10 * acc + digit_val c) true r
      else if Ascii.eqb c "_" && after_digit then digits_val acc false r
      else None
  end.

(** [int(s)] in base ten. *)
Definition py_int (s : string) : res Z :=
  let body := strip (list_ascii_of_string s) in
  let parsed :=
    match body with
    | "+"%char :: r => digits_val 0 false r
    | "-"%char :: r => option_map Z.opp (digits_val 0 false r)
    | _ => digits_val 0 false body
    end in
  match parsed with
  | Some n => Ok n
  | None => Raise ValueError
  end.

(** [s.lower()]: the capital letters of the code points 0 to 255. *)
Definition lower_ascii (c : ascii) : ascii :=
  let n := N_of_ascii c in
  if (((65 <=? n) && (n <=? 90))
      || ((192 <=? n) && (n <=? 222) && negb (n =? 215)))%N
  then ascii_of_N (n + 32) else c.

Fixpoint py_lower (s : string) : string :=
  match s with
  | EmptyString => EmptyString
  | String c r => String (lower_ascii c) (py_lower r)
  end.

(** [max(a, b)] on strings: the first argument wins a tie. *)
Definition str_max (a b : string) : string :=
  if String.ltb a b then b else a.

(** [x in l] for a list of strings. *)
Definition str_in (x : string) (l : list string) : bool :=
  existsb (String.eqb x) l.

(** [l.index(x)]. *)
Fixpoint list_index (x : string) (l : list string) : res nat :=
  match l with
  | [] => Raise ValueError
  | y :: r => if String.eqb y x then Ok O else n <- list_index x r ;; Ok (S n)
  end.

(** [l[i]] for a non-negative index. *)
Definition list_get {A : Type} (l : list A) (i : nat) : res A :=
  match nth_error l i with
  | Some a => Ok a
  | None => Raise IndexError
  end.

(** A Python index: a negative one counts from the end. *)
Definition norm_index (len i : Z) : Z := if i <? 0 then i + len else i.

(** [l[i] = v]. *)
Fixpoint set_nth {A : Type} (l : list A) (i : nat) (v : A) : list A :=
  match l, i with
  | [], _ => []
  | _ :: r, O => v :: r
  | a :: r, S j => a :: set_nth r j v
  end.

Definition py_list_set {A : Type} (l : list A) (i : Z) (v : A) : res (list A) :=
  let len := Z.of_nat (List.length l) in
  let j := norm_index len i in
  if (0 <=? j) && (j <? len) then Ok (set_nth l (Z.to_nat j) v)
  else Raise IndexError.

(** [l[lo:hi]]. *)
Definition clamp_index (len i : Z) : nat :=
  Z.to_nat (Z.min len (Z.max 0 (norm_index len i))).

Definition py_slice {A : Type} (l : list A) (lo hi : Z) : list A :=
  let len := Z.of_nat (List.length l) in
  let a := clamp_index len lo in
  let b := clamp_index len hi in
  firstn (b - a) (skipn a l).

(** ** Dictionaries: association lists in insertion order *)

Definition dict (V : Type) : Type := list (string * V).

Fixpoint dict_get {V : Type} (d : dict V) (k : string) : option V :=
  match d with
  | [] => None
  | (k', v) :: r => if String.eqb k' k then Some v else dict_get r k
  end.

(** [d[k] = v]: an existing key keeps its place, a new key goes last. *)
Fixpoint dict_set {V : Type} (d : dict V) (k : string) (v : V) : dict V :=
  match d with
  | [] => [(k, v)]
  | (k', v') :: r =>
      if String.eqb k' k then (k', v) :: r else (k', v') :: dict_set r k v
  end.

(** [del d[k]]. *)
Fixpoint dict_del {V : Type} (d : dict V) (k : string) : res (dict V) :=
  match d with
  | [] => Raise KeyError
  | (k', v') :: r =>
      if String.eqb k' k then Ok r
      else r' <- dict_del r k ;; Ok ((k', v') :: r')
  end.

Definition dict_keys {V : Type} (d : dict V) : list string := map fst d.
Definition dict_values {V : Type} (d : dict V) : list V := map snd d.

Definition dict_mem {V : Type} (d : dict V) (k : string) : bool :=
  match dict_get d k with
  | Some _ => true
  | None => false
  end.

(** ** Board *)

Definition Layout : Type := list (list string).

Definition Board_start_layout : Layout :=
  [ ["CR1"; "HR1"; "ER1"; "AR1"; "GR1"; "AR2"; "ER2"; "HR2"; "CR2"];
    ["---"; "---"; "---"; "---"; "---"; "---"; "---"; "---"; "---"];
    ["---"; "NR1"; "---"; "---"; "---"; "---"; "---"; "NR2"; "---"];
    ["SR1"; "---"; "SR2"; "---"; "SR3"; "---"; "SR4"; "---"; "SR5"];
    ["---"; "---"; "---"; "---"; "---"; "---"; "---"; "---"; "---"];
    ["---"; "---"; "---"; "---"; "---"; "---"; "---"; "---"; "---"];
    ["SB1"; "---"; "SB2"; "---"; "SB3"; "---"; "SB4"; "---"; "SB5"];
    ["---"; "NB1"; "---"; "---"; "---"; "---"; "---"; "NB2"; "---"];
    ["---"; "---"; "---"; "---"; "---"; "---"; "---"; "---"; "---"];
    ["CB1"; "HB1"; "EB1"; "AB1"; "GB1"; "AB2"; "EB2"; "HB2"; "CB2"] ].

Definition Board_red : string := "R".
Definition Board_black : string := "B".
Definition Board_empty : string := "---".
Definition Board_width : nat := 9.
Definition Board_height : nat := 10.
Definition Board_columns : list string :=
  ["a"; "b"; "c"; "d"; "e"; "f"; "g"; "h"; "i"].
Definition Board_rows : list string :=
  ["1"; "2"; "3"; "4"; "5"; "6"; "7"; "8"; "9"; "10"].
Definition Board_red_palace : list string :=
  ["d1"; "e1"; "f1"; "d2"; "e2"; "f2"; "d3"; "e3"; "f3"].
Definition Board_black_palace : list string :=
  ["d8"; "e8"; "f8"; "d9"; "e9"; "f9"; "d10"; "e10"; "f10"].

(** [get_coordinates_from_pos]: the bare [except] turns every exception
    into [None]. *)
Definition Board_get_coordinates_from_pos (pos : string) : option (nat * nat) :=
  let attempt :=
    i <- list_index (str_tail pos) Board_rows ;;
    c <- str_get0 pos ;;
    j <- list_index c Board_columns ;;
    Ok (i, j) in
  match attempt with
  | Ok ij => Some ij
  | Raise _ => None
  end.

Definition Board_is_valid_pos (pos : string) : bool :=
  match Board_get_coordinates_from_pos pos with
  | Some _ => true
  | None => false
  end.

(** [get_value_at_pos]: [None] when the position is invalid or the
    layout has no such cell ([IndexError] is caught). *)
Definition Board_get_value_at_pos (layout : Layout) (pos : string) : option string :=
  match Board_get_coordinates_from_pos pos with
  | None => None
  | Some (i, j) =>
      match nth_error layout i with
      | None => None
      | Some row => nth_error row j
      end
  end.

(** [get_pos_from_coordinates] for the non-negative indices that
    [enumerate] produces. *)
Definition Board_get_pos_from_coordinates (row col : nat) : option string :=
  match nth_error Board_columns col, nth_error Board_rows row with
  | Some c, Some r => Some (c ++ r)
  | _, _ => None
  end.

(** [get_row]: [Ok None] is Python's [None]. *)
Definition Board_get_row (layout : Layout) (row pos1 pos2 : string)
  : res (option (list string)) :=
  if negb (str_in row Board_rows) || negb (str_in pos1 Board_columns)
     || negb (str_in pos2 Board_columns)
  then Ok None
  else
    r <- py_int row ;;
    a <- py_ord pos1 ;;
    b <- py_ord pos2 ;;
    line <- (let len := Z.of_nat (List.length layout) in
             let j := norm_index len (r - 1) in
             if (0 <=? j) && (j <? len) then list_get layout (Z.to_nat j)
             else Raise IndexError) ;;
    Ok (Some (py_slice line (a - 97) (b - 97 + 1))).

Definition Board_get_row_positions (row pos1 pos2 : string)
  : res (option (list string)) :=
  if negb (str_in row Board_rows) || negb (str_in pos1 Board_columns)
     || negb (str_in pos2 Board_columns)
  then Ok None
  else
    a <- py_ord pos1 ;;
    b <- py_ord pos2 ;;
    Ok (Some (map (fun col => col ++ row)
                (py_slice Board_columns (a - 97) (b - 97 + 1)))).

(** The double loop of [get_column]: the cells of file [j] on the rows
    [lo..hi] of the layout, from the low one to the high one.  The inner
    loop over the files meets [j] once, because [j] is an index of
    [Board_columns]. *)
Fixpoint column_cells (layout : Layout) (i : nat) (j lo hi : nat) (rows : nat)
  : res (list string) :=
  match rows with
  | O => Ok []
  | S n =>
      here <- (if Nat.leb lo i && Nat.leb i hi
               then line <- list_get layout i ;;
                    v <- list_get line j ;; Ok [v]
               else Ok []) ;;
      rest <- column_cells layout (S i) j lo hi n ;;
      Ok (here ++ rest)%list
  end.

(** [get_column]: [list.reverse()] returns [None], so a descending range
    yields [None]. *)
Definition Board_get_column (layout : Layout) (col pos1 pos2 : string)
  : res (option (list string)) :=
  if negb (str_in col Board_columns) || negb (str_in pos1 Board_rows)
     || negb (str_in pos2 Board_rows)
  then Ok None
  else
    a <- py_int pos1 ;;
    b <- py_int pos2 ;;
    match Board_get_coordinates_from_pos (col ++ py_str (Z.min a b)),
          Board_get_coordinates_from_pos (col ++ py_str (Z.max a b)) with
    | Some pos_lo, Some pos_hi =>
        column <- column_cells layout 0 (snd pos_lo) (fst pos_lo) (fst pos_hi)
                    Board_height ;;
        Ok (if b <? a then None else Some column)
    | _, _ => Raise TypeError
    end.

Definition Board_get_column_positions (col pos1 pos2 : string)
  : res (option (list string)) :=
  if negb (str_in col Board_columns) || negb (str_in pos1 Board_rows)
     || negb (str_in pos2 Board_rows)
  then Ok None
  else
    a <- py_int pos1 ;;
    b <- py_int pos2 ;;
    Ok (Some (map (fun row => col ++ row) (py_slice Board_rows (a - 1) b))).

Definition Board_is_in_palace (pos color : string) : bool :=
  if String.eqb color Board_red then str_in pos Board_red_palace
  else str_in pos Board_black_palace.

(** [is_behind_river]: [int(pos[1:])] is evaluated only when the color
    test before it succeeds. *)
Definition Board_is_behind_river (pos color : string) : res bool :=
  red_side <- (if String.eqb color Board_red
               then r <- py_int (str_tail pos) ;; Ok (r <=? 5)
               else Ok false) ;;
  if red_side then Ok true
  else
    black_side <- (if String.eqb color Board_black
                   then r <- py_int (str_tail pos) ;; Ok (6 <=? r)
                   else Ok false) ;;
    if black_side then Ok true else Ok false.

(** ** Pieces of the game *)

Inductive PieceClass : Type :=
| General
| Advisor
| Elephant
| Horse
| Chariot
| Cannon
| Soldier.

Definition Offset : Type := (Z * Z)%type.

(** The attributes of a [Piece] object.  [p_pos_range],
    [p_horizontal_range] and [p_vertical_range] are the extra attributes
    of a [Chariot] (and [Cannon]); they stay empty in the other classes. *)
Record Piece : Type := mkPiece {
  p_class : PieceClass;
  p_label : string;
  p_type : string;
  p_color : string;
  p_count : string;
  p_pos : string;
  p_range : list Offset;
  p_attack_range : list string;
  p_pos_range : list string;
  p_horizontal_range : list Offset;
  p_vertical_range : list Offset
}.

Definition update_pos (p : Piece) (pos : string) : Piece :=
  mkPiece (p_class p) (p_label p) (p_type p) (p_color p) (p_count p) pos
    (p_range p) (p_attack_range p) (p_pos_range p)
    (p_horizontal_range p) (p_vertical_range p).

Definition set_attack_range (p : Piece) (ar : list string) : Piece :=
  mkPiece (p_class p) (p_label p) (p_type p) (p_color p) (p_count p) (p_pos p)
    (p_range p) ar (p_pos_range p)
    (p_horizontal_range p) (p_vertical_range p).

Definition set_ranges (p : Piece) (pos_range : list string)
  (h v rng : list Offset) : Piece :=
  mkPiece (p_class p) (p_label p) (p_type p) (p_color p) (p_count p) (p_pos p)
    rng (p_attack_range p) pos_range h v.

Definition offset_eqb (a b : Offset) : bool :=
  (fst a =? fst b) && (snd a =? snd b).

Definition offset_in (a : Offset) (l : list Offset) : bool :=
  existsb (offset_eqb a) l.

(** The [_range] every class sets in its [__init__]. *)
Definition class_range (c : PieceClass) : list Offset :=
  match c with
  | General => [(-1, 0); (0, -1); (0, 1); (1, 0)]
  | Advisor => [(-1, -1); (-1, 1); (1, -1); (1, 1)]
  | Elephant => [(-2, -2); (-2, 2); (2, -2); (2, 2)]
  | Horse => [(2, 1); (2, -1); (1, 2); (1, -2); (-1, 2); (-1, -2); (-2, 1); (-2, -1)]
  | Chariot | Cannon | Soldier => []
  end.

(** [Soldier._range_lo] and [Soldier._range_hi], indexed by color. *)
Definition Soldier_range_lo (color : string) : res (list Offset) :=
  if String.eqb color "R" then Ok [(0, 1)]
  else if String.eqb color "B" then Ok [(0, -1)]
  else Raise KeyError.

Definition Soldier_range_hi (color : string) : res (list Offset) :=
  if String.eqb color "R" then Ok [(0, 1); (-1, 1); (1, 1)]
  else if String.eqb color "B" then Ok [(0, -1); (-1, -1); (1, -1)]
  else Raise KeyError.

(** [ord(pos[0])] and [int(pos[1:])]. *)
Definition ord0 (pos : string) : res Z := c <- str_get0 pos ;; py_ord c.
Definition int_tail (pos : string) : res Z := py_int (str_tail pos).

(** [Pieces.get_piece_by_pos]: the first piece, in the order of the
    dictionary, that stands on [pos]. *)
Definition Pieces_get_piece_by_pos (ps : dict Piece) (pos : string) : option Piece :=
  find (fun p => String.eqb (p_pos p) pos) (dict_values ps).

Definition Pieces_get_piece_by_label (ps : dict Piece) (label : string) : option Piece :=
  dict_get ps label.

Definition is_some {A : Type} (o : option A) : bool :=
  match o with
  | Some _ => true
  | None => false
  end.

(** *** General *)

(** [all(point[0] == t for point in column)]. *)
Fixpoint all_start_with (t : string) (column : list string) : res bool :=
  match column with
  | [] => Ok true
  | point :: r =>
      c <- str_get0 point ;;
      if String.eqb c t then all_start_with t r else Ok false
  end.

(** The "one point orthogonally" test, with Python's short-circuits. *)
Definition one_point_orthogonally (pos1 pos2 : string) : res bool :=
  c1 <- ord0 pos1 ;;
  c2 <- ord0 pos2 ;;
  vertical <- (if Z.abs (c1 - c2) =? 0
               then r1 <- int_tail pos1 ;; r2 <- int_tail pos2 ;;
                    Ok (Z.abs (r1 - r2) =? 1)
               else Ok false) ;;
  if vertical then Ok true
  else
    c1' <- ord0 pos1 ;;
    c2' <- ord0 pos2 ;;
    if Z.abs (c1' - c2') =? 1
    then r1 <- int_tail pos1 ;; r2 <- int_tail pos2 ;;
         Ok (Z.abs (r1 - r2) =? 0)
    else Ok false.

Definition General_is_valid_move (self : Piece) (pos1 pos2 : string)
  (layout : Layout) (ps : dict Piece) (current_player : string) : res bool :=
  if negb (Board_is_in_palace pos2 current_player) then Ok false
  else
    step <- one_point_orthogonally pos1 pos2 ;;
    if negb step then Ok false
    else
      match Pieces_get_piece_by_label ps
              (if String.eqb current_player Board_red then "GB1" else "GR1") with
      | None => Ok true
      | Some enemy_general =>
          let enemy_pos := p_pos enemy_general in
          e0 <- str_get0 enemy_pos ;;
          c0 <- str_get0 pos2 ;;
          if String.eqb e0 c0 then
            f <- str_get0 pos2 ;;
            got <- Board_get_column layout f "1" "10" ;;
            match got with
            | None => Raise TypeError
            | Some column =>
                r2 <- int_tail pos2 ;;
                column <- py_list_set column (r2 - 1) (p_type self) ;;
                r2a <- int_tail pos2 ;;
                re <- int_tail enemy_pos ;;
                let column_lo := Z.min (r2a - 1) (re - 1) in
                r2b <- int_tail pos2 ;;
                re' <- int_tail enemy_pos ;;
                let column_hi := Z.max r2b re' in
                let column :=
                  filter (fun point => negb (String.eqb point "---"))
                    (py_slice column column_lo column_hi) in
                seen <- all_start_with (p_type self) column ;;
                if seen then Ok false else Ok true
            end
          else Ok true
      end.

(** *** Advisor *)

Definition Advisor_is_valid_move (pos1 pos2 : string)
  (layout : Layout) (ps : dict Piece) (current_player : string) : res bool :=
  if negb (Board_is_in_palace pos2 current_player) then Ok false
  else
    c1 <- ord0 pos1 ;;
    c2 <- ord0 pos2 ;;
    if negb (Z.abs (c1 - c2) =? 1) then Ok false
    else
      r1 <- int_tail pos1 ;;
      r2 <- int_tail pos2 ;;
      if negb (Z.abs (r1 - r2) =? 1) then Ok false else Ok true.

(** *** Elephant *)

Definition Elephant_is_valid_move (pos1 pos2 : string)
  (layout : Layout) (ps : dict Piece) (current_player : string) : res bool :=
  behind <- Board_is_behind_river pos2 current_player ;;
  if negb behind then Ok false
  else
    c1 <- ord0 pos1 ;;
    c2 <- ord0 pos2 ;;
    far <- (if negb (Z.abs (c1 - c2) =? 2) then Ok true
            else r1 <- int_tail pos1 ;; r2 <- int_tail pos2 ;;
                 Ok (negb (Z.abs (r1 - r2) =? 2))) ;;
    if far then Ok false
    else
      a <- str_get0 pos1 ;;
      b <- str_get0 pos2 ;;
      m <- py_ord (str_max a b) ;;
      col <- py_chr (m - 1) ;;
      r1 <- int_tail pos1 ;;
      r2 <- int_tail pos2 ;;
      let middle_pos := col ++ py_str (Z.max r1 r2 - 1) in
      if is_some (Pieces_get_piece_by_pos ps middle_pos) then Ok false
      else Ok true.

(** *** Horse *)

Definition Horse_is_valid_move (self : Piece) (pos1 pos2 : string)
  (layout : Layout) (ps : dict Piece) (current_player : string) : res bool :=
  c1 <- ord0 pos1 ;;
  c2 <- ord0 pos2 ;;
  r1 <- int_tail pos1 ;;
  r2 <- int_tail pos2 ;;
  if negb (offset_in (c1 - c2, r1 - r2) (p_range self)) then Ok false
  else
    c1 <- ord0 pos1 ;;
    c2 <- ord0 pos2 ;;
    blocked_row <-
      (if Z.abs (c1 - c2) =? 2
       then a <- ord0 pos1 ;; b <- ord0 pos2 ;;
            col <- py_chr (Z.max (a - 1) (b - 1)) ;;
            Ok (is_some (Pieces_get_piece_by_pos ps (col ++ str_tail pos1)))
       else Ok false) ;;
    if blocked_row then Ok false
    else
      r1 <- int_tail pos1 ;;
      r2 <- int_tail pos2 ;;
      blocked_col <-
        (if Z.abs (r1 - r2) =? 2
         then f <- str_get0 pos1 ;;
              a <- int_tail pos1 ;; b <- int_tail pos2 ;;
              Ok (is_some (Pieces_get_piece_by_pos ps
                             (f ++ py_str (Z.min (a + 1) (b + 1)))))
         else Ok false) ;;
      if blocked_col then Ok false else Ok true.

(** *** Chariot and Cannon *)

Definition Chariot_is_valid_move (self : Piece) (pos1 pos2 : string)
  (layout : Layout) (ps : dict Piece) (current_player : string) : res bool :=
  if negb (str_in pos2 (p_pos_range self)) then Ok false else Ok true.

(** [Chariot._filter_side_of_piece]: the squares up to and including the
    first one that is not empty. *)
Fixpoint Chariot_filter_side_of_piece (side_arr : list string) (layout : Layout)
  : list string :=
  match side_arr with
  | [] => []
  | point :: r =>
      match Board_get_value_at_pos layout point with
      | Some label =>
          if String.eqb label Board_empty
          then point :: Chariot_filter_side_of_piece r layout
          else [point]
      | None => [point]
      end
  end.

(** [Cannon._filter_side_of_piece]; [piece_leaped] is the flag of the
    loop. *)
Fixpoint Cannon_filter_side_loop (color : string) (piece_leaped : bool)
  (side_arr : list string) (layout : Layout) : res (list string) :=
  match side_arr with
  | [] => Ok []
  | point :: r =>
      match Board_get_value_at_pos layout point with
      | Some label =>
          if negb (String.eqb label Board_empty) then
            if negb piece_leaped then
              c <- str_get1 label ;;
              rest <- Cannon_filter_side_loop color true r layout ;;
              if String.eqb c color then Ok (point :: rest) else Ok rest
            else
              c <- str_get1 label ;;
              if negb (String.eqb c color) then Ok [point] else Ok []
          else
            rest <- Cannon_filter_side_loop color piece_leaped r layout ;;
            if negb piece_leaped then Ok (point :: rest) else Ok rest
      | None => Raise TypeError
      end
  end.

Definition Cannon_filter_side_of_piece (self : Piece) (side_arr : list string)
  (layout : Layout) : res (list string) :=
  Cannon_filter_side_loop (p_color self) false side_arr layout.

(** Dynamic dispatch of [self._filter_side_of_piece]. *)
Definition filter_side_of_piece (self : Piece) (side_arr : list string)
  (layout : Layout) : res (list string) :=
  match p_class self with
  | Cannon => Cannon_filter_side_of_piece self side_arr layout
  | _ => Ok (Chariot_filter_side_of_piece side_arr layout)
  end.

(** The index of [pos] in [pos_arr] as a number of elements before it. *)
Definition Chariot_filter_range_by_closest_pieces (self : Piece) (pos : string)
  (pos_arr : option (list string)) (layout : Layout) : res (list string) :=
  match pos_arr with
  | None => Raise TypeError
  | Some arr =>
      i <- list_index pos arr ;;
      left_of_pos <- filter_side_of_piece self (rev (firstn i arr)) layout ;;
      i' <- list_index pos arr ;;
      right_of_pos <- filter_side_of_piece self (skipn (i' + 1) arr) layout ;;
      Ok (rev left_of_pos ++ [pos] ++ right_of_pos)%list
  end.

Fixpoint get_offsets_from_positions (target_pos : string) (pos_list : list string)
  : res (list Offset) :=
  match pos_list with
  | [] => Ok []
  | move :: r =>
      a <- ord0 move ;;
      b <- ord0 target_pos ;;
      c <- int_tail move ;;
      d <- int_tail target_pos ;;
      rest <- get_offsets_from_positions target_pos r ;;
      Ok ((a - b, c - d) :: rest)
  end.

(** *** Soldier *)

Definition Soldier_is_valid_move (self : Piece) (pos1 pos2 : string)
  (layout : Layout) (ps : dict Piece) (current_player : string) : res bool :=
  is_behind_river <- Board_is_behind_river pos2 current_player ;;
  low_ok <-
    (if is_behind_river then
       range_lo <- Soldier_range_lo (p_color self) ;;
       a <- str_get0 pos1 ;;
       b <- str_get0 pos2 ;;
       if negb (String.eqb a b) then Ok false
       else
         r2 <- int_tail pos2 ;;
         r1 <- int_tail pos1 ;;
         step <- list_get range_lo 0 ;;
         Ok (r2 - r1 =? snd step)
     else Ok true) ;;
  if negb low_ok then Ok false
  else if negb is_behind_river then
    range_hi <- Soldier_range_hi (p_color self) ;;
    c1 <- ord0 pos1 ;;
    c2 <- ord0 pos2 ;;
    sideways <- (if Z.abs (c1 - c2) =? 1
                 then r2 <- int_tail pos2 ;; r1 <- int_tail pos1 ;;
                      Ok (r2 - r1 =? 0)
                 else Ok false) ;;
    if sideways then Ok true
    else
      c1' <- ord0 pos1 ;;
      c2' <- ord0 pos2 ;;
      if Z.abs (c1' - c2') =? 0
      then r2 <- int_tail pos2 ;; r1 <- int_tail pos1 ;;
           step <- list_get range_hi 0 ;;
           Ok (r2 - r1 =? snd step)
      else Ok false
  else Ok true.

(** ** The registry [Pieces] and the game *)

Record Pieces : Type := mkPieces {
  pieces_dict : dict Piece;
  red_attack_map : dict (list string);
  black_attack_map : dict (list string);
  captured_piece : option Piece
}.

Inductive GameState : Type :=
| UNFINISHED
| RED_WON
| BLACK_WON.

Record XiangqiGame : Type := mkGame {
  board : Layout;
  pieces : Pieces;
  current_game_state : GameState;
  current_player : string
}.

Definition Pieces_get_attack_map (P : Pieces) (color : string) : dict (list string) :=
  if String.eqb color Board_red then red_attack_map P else black_attack_map P.

(** [Pieces.is_valid_move]: the checks shared by all pieces, then the
    rule of the piece that stands on [pos1]. *)
Definition Pieces_is_valid_move (layout : Layout) (ps : dict Piece)
  (pos1 pos2 : string) (current_player : string) : res bool :=
  if negb (Board_is_valid_pos pos1) || negb (Board_is_valid_pos pos2) then Ok false
  else if String.eqb pos1 pos2 then Ok false
  else
    match Pieces_get_piece_by_pos ps pos1 with
    | None => Ok false
    | Some pos1_piece =>
        if negb (String.eqb (p_color pos1_piece) current_player) then Ok false
        else
          let pos2_piece := Pieces_get_piece_by_pos ps pos2 in
          if match pos2_piece with
             | Some q => String.eqb (p_color q) current_player
             | None => false
             end
          then Ok false
          else
            match p_class pos1_piece with
            | General => General_is_valid_move pos1_piece pos1 pos2 layout ps current_player
            | Advisor => Advisor_is_valid_move pos1 pos2 layout ps current_player
            | Elephant => Elephant_is_valid_move pos1 pos2 layout ps current_player
            | Horse => Horse_is_valid_move pos1_piece pos1 pos2 layout ps current_player
            | Chariot | Cannon =>
                Chariot_is_valid_move pos1_piece pos1 pos2 layout ps current_player
            | Soldier => Soldier_is_valid_move pos1_piece pos1 pos2 layout ps current_player
            end
    end.

(** [Piece._map_attack_range_from_offsets]: the destinations, among the
    offsets, that [Pieces.is_valid_move] accepts; the caller stores the
    list in [_attack_range]. *)
Fixpoint Piece_map_attack_range_from_offsets (self : Piece) (layout : Layout)
  (ps : dict Piece) (offsets : list Offset) : res (list string) :=
  match offsets with
  | [] => Ok []
  | offset :: r =>
      let current_pos := p_pos self in
      c <- ord0 current_pos ;;
      offset_col <- py_chr (c + fst offset) ;;
      n <- int_tail current_pos ;;
      let offset_row := py_str (n + snd offset) in
      let dest_pos := offset_col ++ offset_row in
      ok <- Pieces_is_valid_move layout ps current_pos dest_pos (p_color self) ;;
      rest <- Piece_map_attack_range_from_offsets self layout ps r ;;
      Ok (if ok then dest_pos :: rest else rest)
  end.

(** [Pieces._update_attack_ranges]. *)
Definition add_attacker (m : dict (list string)) (sq label : string)
  : dict (list string) :=
  match dict_get m sq with
  | None => dict_set m sq [label]
  | Some attackers => dict_set m sq (attackers ++ [label])%list
  end.

Definition fold_piece_attacks (maps : dict (list string) * dict (list string))
  (piece : Piece) : dict (list string) * dict (list string) :=
  fold_left
    (fun '(red_map, black_map) attacked_sq =>
       if String.eqb (p_color piece) "R"
       then (add_attacker red_map attacked_sq (p_label piece), black_map)
       else if String.eqb (p_color piece) "B"
       then (red_map, add_attacker black_map attacked_sq (p_label piece))
       else (red_map, black_map))
    (p_attack_range piece) maps.

Definition Pieces_update_attack_ranges (P : Pieces) : Pieces :=
  let '(red_map, black_map) :=
    fold_left fold_piece_attacks (dict_values (pieces_dict P)) ([], []) in
  mkPieces (pieces_dict P) red_map black_map (captured_piece P).

(** [Pieces.get_pieces_by_pos] and [Board.update_layout]. *)
Definition Pieces_get_pieces_by_pos (ps : dict Piece) : dict Piece :=
  fold_left (fun acc piece => dict_set acc (p_pos piece) piece)
    (dict_values ps) [].

Definition layout_cell (pieces_by_pos : dict Piece) (i j : nat) : string :=
  match Board_get_pos_from_coordinates i j with
  | Some pos =>
      match dict_get pieces_by_pos pos with
      | Some piece => p_label piece
      | None => Board_empty
      end
  | None => Board_empty
  end.

Fixpoint mapi {A B : Type} (f : nat -> A -> B) (i : nat) (l : list A) : list B :=
  match l with
  | [] => []
  | a :: r => f i a :: mapi f (S i) r
  end.

Definition Board_update_layout (layout : Layout) (ps : dict Piece) : Layout :=
  let pieces_by_pos := Pieces_get_pieces_by_pos ps in
  mapi (fun i row => mapi (fun j _ => layout_cell pieces_by_pos i j) 0%nat row)
    0%nat layout.

(** [Pieces.is_in_check]: [Ok None] is Python's [None]. *)
Definition Pieces_is_in_check (P : Pieces) (color : string) : res (option bool) :=
  if String.eqb (py_lower color) "black" || String.eqb color Board_black then
    match Pieces_get_piece_by_label (pieces_dict P) "GB1" with
    | None => Raise AttributeError
    | Some g => Ok (Some (dict_mem (red_attack_map P) (p_pos g)))
    end
  else if String.eqb (py_lower color) "red" || String.eqb color Board_red then
    match Pieces_get_piece_by_label (pieces_dict P) "GR1" with
    | None => Raise AttributeError
    | Some g => Ok (Some (dict_mem (black_attack_map P) (p_pos g)))
    end
  else Ok None.

(** [Pieces._remove_captured_piece]. *)
Definition Pieces_remove_captured_piece (P : Pieces) (pos current_player : string)
  : res Pieces :=
  match Pieces_get_piece_by_pos (pieces_dict P) pos with
  | Some piece_at_dest =>
      if negb (String.eqb (p_color piece_at_dest) current_player) then
        match dict_get (pieces_dict P) (p_label piece_at_dest) with
        | None => Raise KeyError
        | Some captured =>
            d <- dict_del (pieces_dict P) (p_label piece_at_dest) ;;
            Ok (mkPieces d (red_attack_map P) (black_attack_map P) (Some captured))
        end
      else Ok (mkPieces (pieces_dict P) (red_attack_map P) (black_attack_map P) None)
  | None => Ok (mkPieces (pieces_dict P) (red_attack_map P) (black_attack_map P) None)
  end.

(** [Pieces._restore_captured_piece]. *)
Definition Pieces_restore_captured_piece (P : Pieces) : Pieces :=
  match captured_piece P with
  | Some c =>
      mkPieces (dict_set (pieces_dict P) (p_label c) c)
        (red_attack_map P) (black_attack_map P) None
  | None => P
  end.

(** [get_piece_by_pos(pos).update_pos(new_pos)]: the first piece on [pos]
    is the object that changes. *)
Fixpoint move_piece_at (ps : dict Piece) (pos new_pos : string) : res (dict Piece) :=
  match ps with
  | [] => Raise AttributeError
  | (k, p) :: r =>
      if String.eqb (p_pos p) pos then Ok ((k, update_pos p new_pos) :: r)
      else r' <- move_piece_at r pos new_pos ;; Ok ((k, p) :: r')
  end.

(** [Pieces.get_all_possible_moves]. *)
Fixpoint moves_of_labels (ps : dict Piece) (pos2 : string) (labels : list string)
  : res (list (string * string)) :=
  match labels with
  | [] => Ok []
  | label :: r =>
      match Pieces_get_piece_by_label ps label with
      | None => Raise AttributeError
      | Some piece =>
          rest <- moves_of_labels ps pos2 r ;;
          Ok ((p_pos piece, pos2) :: rest)
      end
  end.

Fixpoint moves_of_items (ps : dict Piece) (items : dict (list string))
  : res (list (string * string)) :=
  match items with
  | [] => Ok []
  | (pos2, labels) :: r =>
      here <- moves_of_labels ps pos2 labels ;;
      rest <- moves_of_items ps r ;;
      Ok (here ++ rest)%list
  end.

Definition Pieces_get_all_possible_moves (P : Pieces) (color : string)
  : res (list (string * string)) :=
  moves_of_items (pieces_dict P) (Pieces_get_attack_map P color).

Section Engine.

(** [list(set(l))]: the order in which CPython lists the elements of a
    set is fixed by the hashes and the history of the set, not by the
    language; the engine is therefore parameterised by it. *)
Variable list_of_set : list Offset -> list Offset.

(** [Chariot._update_ranges]. *)
Definition Chariot_update_ranges (self : Piece) (pos : string) (layout : Layout)
  : res Piece :=
  row_positions <- Board_get_row_positions (str_tail pos) "a" "i" ;;
  row <- Chariot_filter_range_by_closest_pieces self pos row_positions layout ;;
  f <- str_get0 pos ;;
  col_positions <- Board_get_column_positions f "1" "10" ;;
  col <- Chariot_filter_range_by_closest_pieces self pos col_positions layout ;;
  h <- get_offsets_from_positions pos row ;;
  v <- get_offsets_from_positions pos col ;;
  Ok (set_ranges self (row ++ col)%list h v (list_of_set (h ++ v)%list)).

(** [map_attack_range], by class, for the piece stored under the head
    key of [todo]; [done] are the entries of the dictionary before it.
    The piece validates its destinations against the live dictionary, in
    which it has its ranges already updated. *)
Definition map_attack_range_entry (layout : Layout)
  (done : dict Piece) (k : string) (self : Piece) (todo : dict Piece)
  : res Piece :=
  match p_class self with
  | Chariot | Cannon =>
      self1 <- Chariot_update_ranges self (p_pos self) layout ;;
      ar <- Piece_map_attack_range_from_offsets self1 layout
              (done ++ (k, self1) :: todo)%list (p_range self1) ;;
      Ok (set_attack_range self1 ar)
  | Soldier =>
      behind <- Board_is_behind_river (p_pos self) (p_color self) ;;
      offsets <- (if negb behind then Soldier_range_hi (p_color self)
                  else Soldier_range_lo (p_color self)) ;;
      ar <- Piece_map_attack_range_from_offsets self layout
              (done ++ (k, self) :: todo)%list offsets ;;
      Ok (set_attack_range self ar)
  | _ =>
      ar <- Piece_map_attack_range_from_offsets self layout
              (done ++ (k, self) :: todo)%list (p_range self) ;;
      Ok (set_attack_range self ar)
  end.

Fixpoint map_attack_ranges_loop (layout : Layout) (done todo : dict Piece)
  : res (dict Piece) :=
  match todo with
  | [] => Ok done
  | (k, self) :: r =>
      self' <- map_attack_range_entry layout done k self r ;;
      map_attack_ranges_loop layout (done ++ [(k, self')])%list r
  end.

(** [Pieces.map_all_attack_ranges]. *)
Definition Pieces_map_all_attack_ranges (layout : Layout) (P : Pieces) : res Pieces :=
  d <- map_attack_ranges_loop layout [] (pieces_dict P) ;;
  Ok (Pieces_update_attack_ranges
        (mkPieces d (red_attack_map P) (black_attack_map P) (captured_piece P))).

(** ** XiangqiGame *)

Definition set_pieces (g : XiangqiGame) (P : Pieces) : XiangqiGame :=
  mkGame (board g) P (current_game_state g) (current_player g).

Definition set_board (g : XiangqiGame) (layout : Layout) : XiangqiGame :=
  mkGame layout (pieces g) (current_game_state g) (current_player g).

Definition set_game_state (g : XiangqiGame) (s : GameState) : XiangqiGame :=
  mkGame (board g) (pieces g) s (current_player g).

Definition set_pieces_dict (P : Pieces) (d : dict Piece) : Pieces :=
  mkPieces d (red_attack_map P) (black_attack_map P) (captured_piece P).

(** [self._board.update_layout(self._pieces)] followed by
    [self._pieces.map_all_attack_ranges(self._board, self._pieces)]. *)
Definition refresh (g : XiangqiGame) : res XiangqiGame :=
  let layout := Board_update_layout (board g) (pieces_dict (pieces g)) in
  P <- Pieces_map_all_attack_ranges layout (pieces g) ;;
  Ok (mkGame layout P (current_game_state g) (current_player g)).

Definition XiangqiGame_is_in_check (g : XiangqiGame) (color : string)
  : res (option bool) :=
  Pieces_is_in_check (pieces g) color.

(** [XiangqiGame._undo_move]. *)
Definition XiangqiGame_undo_move (g : XiangqiGame) (pos1 pos2 : string)
  : res XiangqiGame :=
  d <- move_piece_at (pieces_dict (pieces g)) pos2 pos1 ;;
  let P := Pieces_restore_captured_piece (set_pieces_dict (pieces g) d) in
  refresh (set_pieces g P).

(** [XiangqiGame._switch_player]. *)
Definition XiangqiGame_switch_player (g : XiangqiGame) : XiangqiGame :=
  mkGame (board g) (pieces g) (current_game_state g)
    (if String.eqb (current_player g) Board_red then Board_black else Board_red).

(** The speculative part of [make_move]: capture, relocation and
    recomputation, once [Pieces.is_valid_move] has accepted the move. *)
Definition apply_move (g : XiangqiGame) (pos1 pos2 : string) : res XiangqiGame :=
  P <- Pieces_remove_captured_piece (pieces g) pos2 (current_player g) ;;
  d <- move_piece_at (pieces_dict P) pos1 pos2 ;;
  refresh (set_pieces g (set_pieces_dict P d)).

(** The body of [make_move].  [after_accept] is what the last branch
    runs when [test] is false: [_switch_player] and [_update_game_state]. *)
Definition make_move_body (after_accept : XiangqiGame -> res XiangqiGame)
  (g : XiangqiGame) (pos1 pos2 : string) (test : bool)
  : res (bool * XiangqiGame) :=
  match current_game_state g with
  | UNFINISHED =>
      valid <- Pieces_is_valid_move (board g) (pieces_dict (pieces g))
                 pos1 pos2 (current_player g) ;;
      if valid then
        g1 <- apply_move g pos1 pos2 ;;
        check <- XiangqiGame_is_in_check g1 (current_player g1) ;;
        match check with
        | Some true =>
            g2 <- XiangqiGame_undo_move g1 pos1 pos2 ;;
            Ok (false, g2)
        | _ =>
            if test then
              g2 <- XiangqiGame_undo_move g1 pos1 pos2 ;;
              Ok (true, g2)
            else
              g2 <- after_accept g1 ;;
              Ok (true, g2)
        end
      else Ok (false, g)
  | _ => Ok (false, g)
  end.

(** [make_move(pos1, pos2, True)], the probe of [_is_game_over]: with
    [test] set the branch that calls [_update_game_state] is not taken,
    which is where the recursion of the source ends. *)
Definition probe_move (g : XiangqiGame) (pos1 pos2 : string)
  : res (bool * XiangqiGame) :=
  make_move_body (fun g' => Ok g') g pos1 pos2 true.

(** The loop of [_is_game_over] over the moves listed before it. *)
Fixpoint probe_moves (g : XiangqiGame) (all_moves : list (string * string))
  : res (bool * XiangqiGame) :=
  match all_moves with
  | [] => Ok (true, g)
  | move :: r =>
      '(ok, g') <- probe_move g (fst move) (snd move) ;;
      if ok then Ok (false, g') else probe_moves g' r
  end.

(** [XiangqiGame._is_game_over]. *)
Definition XiangqiGame_is_game_over (g : XiangqiGame) : res (bool * XiangqiGame) :=
  all_moves <- Pieces_get_all_possible_moves (pieces g) (current_player g) ;;
  probe_moves g all_moves.

(** [XiangqiGame._update_game_state]. *)
Definition XiangqiGame_update_game_state (g : XiangqiGame) : res XiangqiGame :=
  '(over, g') <- XiangqiGame_is_game_over g ;;
  if over then
    if String.eqb (current_player g') Board_red
    then Ok (set_game_state g' BLACK_WON)
    else Ok (set_game_state g' RED_WON)
  else Ok g'.

(** [XiangqiGame.make_move]. *)
Definition XiangqiGame_make_move (g : XiangqiGame) (pos1 pos2 : string)
  (test : bool) : res (bool * XiangqiGame) :=
  make_move_body
    (fun g' => XiangqiGame_update_game_state (XiangqiGame_switch_player g'))
    g pos1 pos2 test.

(** *** Construction of a game *)

Definition Piece_init (c : PieceClass) (label pos : string) : res Piece :=
  t <- str_get0 label ;;
  col <- str_get1 label ;;
  n <- (match label with
        | String _ (String _ (String x _)) => Ok (String x EmptyString)
        | _ => Raise IndexError
        end) ;;
  Ok (mkPiece c label t col n pos (class_range c) [] [] [] []).

Definition class_of_square (t : string) : option PieceClass :=
  if String.eqb t "C" then Some Chariot
  else if String.eqb t "N" then Some Cannon
  else if String.eqb t "H" then Some Horse
  else if String.eqb t "E" then Some Elephant
  else if String.eqb t "A" then Some Advisor
  else if String.eqb t "G" then Some General
  else if String.eqb t "S" then Some Soldier
  else None.

(** One square of [Pieces._initialize_pieces]. *)
Definition initialize_square (layout : Layout) (acc : dict Piece)
  (i j : nat) (square : string) : res (dict Piece) :=
  t <- str_get0 square ;;
  match class_of_square t with
  | None => Ok acc
  | Some c =>
      match Board_get_pos_from_coordinates i j with
      | None => Raise TypeError
      | Some pos =>
          p <- Piece_init c square pos ;;
          p' <- (match c with
                 | Chariot | Cannon => Chariot_update_ranges p pos layout
                 | _ => Ok p
                 end) ;;
          Ok (dict_set acc square p')
      end
  end.

Fixpoint initialize_row (layout : Layout) (acc : dict Piece) (i j : nat)
  (row : list string) : res (dict Piece) :=
  match row with
  | [] => Ok acc
  | square :: r =>
      acc' <- initialize_square layout acc i j square ;;
      initialize_row layout acc' i (S j) r
  end.

Fixpoint initialize_rows (layout : Layout) (acc : dict Piece) (i : nat)
  (rows : Layout) : res (dict Piece) :=
  match rows with
  | [] => Ok acc
  | row :: r =>
      acc' <- initialize_row layout acc i 0%nat row ;;
      initialize_rows layout acc' (S i) r
  end.

(** [Pieces.__init__]. *)
Definition Pieces_init (layout : Layout) : res Pieces :=
  d <- initialize_rows layout [] 0%nat layout ;;
  Ok (mkPieces d [] [] None).

(** [XiangqiGame.__init__]. *)
Definition XiangqiGame_init : res XiangqiGame :=
  P <- Pieces_init Board_start_layout ;;
  P' <- Pieces_map_all_attack_ranges Board_start_layout P ;;
  Ok (mkGame Board_start_layout P' UNFINISHED Board_red).

End Engine.

Definition offset_eq_dec (a b : Offset) : {a = b} + {a <> b}.
Proof. decide equality; apply Z.eq_dec. Defined.

(** One admissible order for [list(set(l))]: first occurrences. *)
Definition first_occurrences (l : list Offset) : list Offset :=
  rev (nodup offset_eq_dec (rev l)).

(** ** Sequences of attempts and reference games *)

(** A caller that submits [attempts] one after the other and collects the
    answers of [make_move]. *)
Fixpoint make_moves (los : list Offset -> list Offset) (g : XiangqiGame)
  (attempts : list (string * string * bool)) : res (list bool * XiangqiGame) :=
  match attempts with
  | [] => Ok ([], g)
  | (pos1, pos2, test) :: r =>
      '(answer, g1) <- XiangqiGame_make_move los g pos1 pos2 test ;;
      '(answers, g2) <- make_moves los g1 r ;;
      Ok (answer :: answers, g2)
  end.

Definition empty_game : XiangqiGame :=
  mkGame [] (mkPieces [] [] [] None) UNFINISHED Board_red.

Definition game_of (r : res XiangqiGame) : XiangqiGame :=
  match r with
  | Ok g => g
  | Raise _ => empty_game
  end.

Definition game_after (g : XiangqiGame) (moves : list (string * string))
  : XiangqiGame :=
  match make_moves first_occurrences g (map (fun m => (m, false)) moves) with
  | Ok (_, g') => g'
  | Raise _ => empty_game
  end.

(** The game after [XiangqiGame()]. *)
Definition start_game : XiangqiGame :=
  Eval vm_compute in game_of (XiangqiGame_init first_occurrences).

(** Six accepted moves after which Red's cannon on [b5] mates on [e5]. *)
Definition cannon_mate_moves : list (string * string) :=
  [("h3", "e3"); ("a10", "a9"); ("e3", "e7"); ("a9", "a10"); ("b3", "b5");
   ("a10", "a9")].

Definition before_mate_game : XiangqiGame :=
  Eval vm_compute in game_after start_game cannon_mate_moves.

Definition red_won_game : XiangqiGame :=
  Eval vm_compute in game_after before_mate_game [("b5", "e5")].

(** Six accepted moves after which Red's soldier on [e4] is pinned by the
    cannon on [e8]: the capture [e4]-[e5] would uncover Red's General. *)
Definition pinned_soldier_moves : list (string * string) :=
  [("a1", "a2"); ("h8", "e8"); ("a2", "a1"); ("e7", "e6"); ("a1", "a2");
   ("e6", "e5")].

Definition pinned_soldier_game : XiangqiGame :=
  Eval vm_compute in game_after start_game pinned_soldier_moves.

(** What a color argument of [is_in_check] denotes. *)
Definition denotes_black (color : string) : Prop :=
  py_lower color = "black" \/ color = Board_black.

Definition denotes_red (color : string) : Prop :=
  py_lower color = "red" \/ color = Board_red.

(** Every move of the list, probed in turn, is answered [False]. *)
Inductive all_probes_fail (los : list Offset -> list Offset)
  : XiangqiGame -> list (string * string) -> XiangqiGame -> Prop :=
| probes_nil : forall g, all_probes_fail los g [] g
| probes_cons : forall g g1 g2 pos1 pos2 r,
    XiangqiGame_make_move los g pos1 pos2 true = Ok (false, g1) ->
    all_probes_fail los g1 r g2 ->
    all_probes_fail los g ((pos1, pos2) :: r) g2.

(** The ninety squares of the board. *)
Definition all_positions : list string :=
  flat_map (fun c => map (fun r => c ++ r) Board_rows) Board_columns.

Definition res_bool_eqb (a b : res bool) : bool :=
  match a, b with
  | Ok x, Ok y => Bool.eqb x y
  | _, _ => false
  end.

(** A layout of ten rows of nine cells. *)
Definition well_shaped (layout : Layout) : Prop :=
  List.length layout = 10%nat /\ Forall (fun row => List.length row = 9%nat) layout.

(** The Soldier's rule as the specification words it, on the indices of
    the squares: row index [i] is rank [i + 1], column index [j] is file
    [a] + [j]. *)
Definition on_own_side (color : string) (i : nat) : bool :=
  if String.eqb color Board_red then Nat.leb i 4 else Nat.leb 5 i.

Definition one_forward (color : string) (i1 j1 i2 j2 : nat) : bool :=
  Nat.eqb j1 j2
  && (if String.eqb color Board_red then Nat.eqb i2 (S i1) else Nat.eqb i1 (S i2)).

Definition one_sideways (i1 j1 i2 j2 : nat) : bool :=
  Nat.eqb i1 i2 && (Nat.eqb j1 (S j2) || Nat.eqb j2 (S j1)).

Definition soldier_rule (color pos1 pos2 : string) : bool :=
  match Board_get_coordinates_from_pos pos1, Board_get_coordinates_from_pos pos2 with
  | Some (i1, j1), Some (i2, j2) =>
      if on_own_side color i1 then one_forward color i1 j1 i2 j2
      else one_forward color i1 j1 i2 j2 || one_sideways i1 j1 i2 j2
  | _, _ => false
  end.

Definition soldier_of (color : string) : Piece :=
  mkPiece Soldier ("S" ++ color ++ "1") "S" color "1" "a1" [] [] [] [] [].

(** The winner the specification names when the side to act has no
    move left: the side that has just moved. *)
Definition winner_when_stuck (side_to_act : string) : GameState :=
  if String.eqb side_to_act Board_red then BLACK_WON else RED_WON.

(** The cell of the layout in row [i] and column [j]. *)
Definition cell_at (layout : Layout) (i j : nat) : option string :=
  match nth_error layout i with
  | Some row => nth_error row j
  | None => None
  end.

Definition cells_nonempty (layout : Layout) : Prop :=
  Forall (Forall (fun cell => cell <> "")) layout.

Definition starts_with (t cell : string) : bool :=
  match str_get0 cell with
  | Ok c => String.eqb c t
  | Raise _ => false
  end.

(** A piece other than a General stands on the cell. *)
Definition non_general_piece (cell : string) : bool :=
  negb (String.eqb cell Board_empty) && negb (starts_with "G" cell).

(** Some row strictly between [lo] and [hi] holds, on file [j], a piece
    that is not a General. *)
Definition non_general_between (layout : Layout) (j lo hi : nat) : bool :=
  existsb (fun i => match cell_at layout i j with
                    | Some cell => non_general_piece cell
                    | None => false
                    end)
    (seq (S lo) (hi - lo - 1)).

(** The two Generals would stand on one file with nothing but Generals
    between them. *)
Definition generals_face (layout : Layout) (pos2 enemy_pos : string) : bool :=
  match Board_get_coordinates_from_pos pos2,
        Board_get_coordinates_from_pos enemy_pos with
  | Some (i2, j2), Some (ie, je) =>
      Nat.eqb j2 je
      && negb (non_general_between layout j2 (Nat.min i2 ie) (Nat.max i2 ie))
  | _, _ => false
  end.

Definition enemy_general_label (player : string) : string :=
  if String.eqb player Board_red then "GB1" else "GR1".

Definition flying_general (layout : Layout) (ps : dict Piece)
  (player pos2 : string) : bool :=
  match Pieces_get_piece_by_label ps (enemy_general_label player) with
  | Some enemy_general => generals_face layout pos2 (p_pos enemy_general)
  | None => false
  end.

(** One square along a rank or a file, on the indices of the squares. *)
Definition one_orthogonal_step (pos1 pos2 : string) : bool :=
  match Board_get_coordinates_from_pos pos1, Board_get_coordinates_from_pos pos2 with
  | Some (i1, j1), Some (i2, j2) =>
      (Nat.eqb j1 j2 && (Nat.eqb i1 (S i2) || Nat.eqb i2 (S i1)))
      || (Nat.eqb i1 i2 && (Nat.eqb j1 (S j2) || Nat.eqb j2 (S j1)))
  | _, _ => false
  end.

(** The layout shows a General on the square. *)
Definition general_shown (layout : Layout) (pos : string) : Prop :=
  exists cell, Board_get_value_at_pos layout pos = Some cell
               /\ starts_with "G" cell = true.

Definition file_cells (layout : Layout) (j : nat) : list string :=
  map (fun row => nth j row Board_empty) layout.

Definition red_general : Piece :=
  mkPiece General "GR1" "G" "R" "1" "e1" (class_range General) ["e2"] [] [] [].

Definition empty_row : list string :=
  ["---"; "---"; "---"; "---"; "---"; "---"; "---"; "---"; "---"].

(** A bare board: the Red General on [d1], the Black General on [e10]. *)
Definition open_file_layout : Layout :=
  [ ["---"; "---"; "---"; "GR1"; "---"; "---"; "---"; "---"; "---"];
    empty_row; empty_row; empty_row; empty_row; empty_row; empty_row;
    empty_row; empty_row;
    ["---"; "---"; "---"; "---"; "GB1"; "---"; "---"; "---"; "---"] ].

Definition open_file_pieces : dict Piece :=
  [ ("GR1", mkPiece General "GR1" "G" "R" "1" "d1" (class_range General) [] [] [] []);
    ("GB1", mkPiece General "GB1" "G" "B" "1" "e10" (class_range General) [] [] [] []) ].

(** The same board with a Red Soldier on [e4]. *)
Definition screened_file_layout : Layout :=
  [ ["---"; "---"; "---"; "GR1"; "---"; "---"; "---"; "---"; "---"];
    empty_row; empty_row;
    ["---"; "---"; "---"; "---"; "SR3"; "---"; "---"; "---"; "---"];
    empty_row; empty_row; empty_row; empty_row; empty_row;
    ["---"; "---"; "---"; "---"; "GB1"; "---"; "---"; "---"; "---"] ].

Definition screened_file_pieces : dict Piece :=
  [ ("GR1", mkPiece General "GR1" "G" "R" "1" "d1" (class_range General) [] [] [] []);
    ("SR3", mkPiece Soldier "SR3" "S" "R" "3" "e4" [] [] [] [] []);
    ("GB1", mkPiece General "GB1" "G" "B" "1" "e10" (class_range General) [] [] [] []) ].

(** Every cell is a label of at least two characters (["---"] included),
    so that [label[1]] is defined. *)
Definition cells_labelled (layout : Layout) : Prop :=
  Forall (Forall (fun cell => exists c, str_get1 cell = Ok c)) layout.

(** What the layout shows on a square. *)
Definition occupied (layout : Layout) (pos : string) : bool :=
  match Board_get_value_at_pos layout pos with
  | Some cell => negb (String.eqb cell Board_empty)
  | None => false
  end.

Definition holds_enemy (layout : Layout) (pos color : string) : bool :=
  match Board_get_value_at_pos layout pos with
  | Some cell =>
      negb (String.eqb cell Board_empty)
      && match str_get1 cell with
         | Ok c => negb (String.eqb c color)
         | Raise _ => false
         end
  | None => false
  end.

(** The square in row [i] and column [j]. *)
Definition square (i j : nat) : string :=
  nth j Board_columns "" ++ nth i Board_rows "".

Definition same_line (pos1 pos2 : string) : bool :=
  match Board_get_coordinates_from_pos pos1, Board_get_coordinates_from_pos pos2 with
  | Some (i1, j1), Some (i2, j2) => Nat.eqb i1 i2 || Nat.eqb j1 j2
  | _, _ => false
  end.

(** The squares strictly between two squares of one rank or file. *)
Definition squares_between (pos1 pos2 : string) : list string :=
  match Board_get_coordinates_from_pos pos1, Board_get_coordinates_from_pos pos2 with
  | Some (i1, j1), Some (i2, j2) =>
      if Nat.eqb i1 i2
      then map (square i1) (seq (S (Nat.min j1 j2)) (Nat.max j1 j2 - Nat.min j1 j2 - 1))
      else if Nat.eqb j1 j2
      then map (fun i => square i j1)
             (seq (S (Nat.min i1 i2)) (Nat.max i1 i2 - Nat.min i1 i2 - 1))
      else []
  | _, _ => []
  end.

Definition pieces_between (layout : Layout) (pos1 pos2 : string) : nat :=
  List.length (filter (occupied layout) (squares_between pos1 pos2)).

(** The rank and the file through a square, and the four directions the
    scan of [_update_ranges] follows from it. *)
Definition row_line (pos : string) : list string :=
  match Board_get_row_positions (str_tail pos) "a" "i" with
  | Ok (Some l) => l
  | _ => []
  end.

Definition col_line (pos : string) : list string :=
  match str_get0 pos with
  | Ok f => match Board_get_column_positions f "1" "10" with
            | Ok (Some l) => l
            | _ => []
            end
  | Raise _ => []
  end.

Definition index_in (pos : string) (arr : list string) : nat :=
  match list_index pos arr with
  | Ok i => i
  | Raise _ => O
  end.

Definition side_before (pos : string) (arr : list string) : list string :=
  rev (firstn (index_in pos arr) arr).

Definition side_after (pos : string) (arr : list string) : list string :=
  skipn (index_in pos arr + 1) arr.

Fixpoint list_string_eqb (a b : list string) : bool :=
  match a, b with
  | [], [] => true
  | x :: a', y :: b' => String.eqb x y && list_string_eqb a' b'
  | _, _ => false
  end.

(** The part of a direction that lies before [pos2], when [pos2] is on it. *)
Fixpoint before_in (pos2 : string) (side : list string) : option (list string) :=
  match side with
  | [] => None
  | p :: r =>
      if String.eqb p pos2 then Some []
      else option_map (cons p) (before_in pos2 r)
  end.

(** [pos2] lies on the direction [side] and the squares before it are the
    squares between the two positions, in one order or the other. *)
Definition reaches (pos1 pos2 : string) (side : list string) : bool :=
  match before_in pos2 side with
  | Some pre =>
      list_string_eqb pre (squares_between pos1 pos2)
      || list_string_eqb pre (rev (squares_between pos1 pos2))
  | None => false
  end.

Definition off_side (pos2 : string) (side : list string) : bool :=
  negb (str_in pos2 side).

(** The geometry the scan relies on, for a pair of squares of one line:
    the destination lies in exactly one of the four directions, behind
    the squares between. *)
Definition directions_checked (pos1 pos2 : string) : bool :=
  if String.eqb pos1 pos2 || negb (same_line pos1 pos2) then true
  else
    let l := side_before pos1 (row_line pos1) in
    let r := side_after pos1 (row_line pos1) in
    let d := side_before pos1 (col_line pos1) in
    let u := side_after pos1 (col_line pos1) in
    (reaches pos1 pos2 l && off_side pos2 r && off_side pos2 d && off_side pos2 u)
    || (off_side pos2 l && reaches pos1 pos2 r && off_side pos2 d && off_side pos2 u)
    || (off_side pos2 l && off_side pos2 r && reaches pos1 pos2 d && off_side pos2 u)
    || (off_side pos2 l && off_side pos2 r && off_side pos2 d && reaches pos1 pos2 u).

Fixpoint nodup_strings (l : list string) : bool :=
  match l with
  | [] => true
  | x :: r => negb (str_in x r) && nodup_strings r
  end.

(** What the program finds when it looks up the lines of a square. *)
Definition lines_checked (pos : string) : bool :=
  match Board_get_row_positions (str_tail pos) "a" "i", str_get0 pos with
  | Ok (Some row), Ok f =>
      match Board_get_column_positions f "1" "10" with
      | Ok (Some col) =>
          match list_index pos row, list_index pos col with
          | Ok _, Ok _ =>
              forallb Board_is_valid_pos row && forallb Board_is_valid_pos col
              && nodup_strings row && nodup_strings col
          | _, _ => false
          end
      | _ => false
      end
  | _, _ => false
  end.

(** Whether the Cannon's scan keeps a square: [n] pieces were met before
    it and [cell] is what the layout shows on it. *)
Definition cannon_keeps (color : string) (n : nat) (cell : string) : bool :=
  if String.eqb cell Board_empty then Nat.eqb n 0
  else match str_get1 cell with
       | Ok c => if String.eqb c color then Nat.eqb n 0 else Nat.eqb n 1
       | Raise _ => false
       end.

Definition count_occupied (layout : Layout) (l : list string) : nat :=
  List.length (filter (occupied layout) l).

Definition flag_count (piece_leaped : bool) : nat :=
  if piece_leaped then 1%nat else 0%nat.

(** The layout shows a label with a color on the square. *)
Definition scannable (layout : Layout) (p : string) : Prop :=
  exists cell c, Board_get_value_at_pos layout p = Some cell /\ str_get1 cell = Ok c.

Definition piece_at (g : XiangqiGame) (pos : string) : Piece :=
  match Pieces_get_piece_by_pos (pieces_dict (pieces g)) pos with
  | Some p => p
  | None => soldier_of ""
  end.

(** Red's Cannon on [b3] at the start of the game. *)
Definition red_cannon : Piece := Eval vm_compute in piece_at start_game "b3".

(** Two records of one piece: everything but the cached ranges agrees. *)
Definition same_core (p q : Piece) : Prop :=
  p_class p = p_class q /\ p_label p = p_label q /\ p_type p = p_type q
  /\ p_color p = p_color q /\ p_count p = p_count q /\ p_pos p = p_pos q.

Definition core_eq (a b : dict Piece) : Prop :=
  Forall2 (fun x y => fst x = fst y /\ same_core (snd x) (snd y)) a b.

(** The dictionary is keyed by the labels of its pieces. *)
Definition keyed_by_label (ps : dict Piece) : Prop :=
  Forall (fun e => fst e = p_label (snd e)) ps.

(** No two pieces stand on one square. *)
Definition positions_unique (ps : dict Piece) : Prop :=
  NoDup (map p_pos (dict_values ps)).

(** The checks of [Pieces.is_valid_move] that do not depend on the kind
    of the piece. *)
Definition candidate_checks (ps : dict Piece) (pos1 pos2 player : string) : bool :=
  Board_is_valid_pos pos1 && Board_is_valid_pos pos2
  && negb (String.eqb pos1 pos2)
  && match Pieces_get_piece_by_pos ps pos1 with
     | Some p =>
         String.eqb (p_color p) player
         && negb match Pieces_get_piece_by_pos ps pos2 with
                 | Some q => String.eqb (p_color q) player
                 | None => false
                 end
     | None => false
     end.

(** The labels [_update_attack_ranges] files under a square for a color:
    one per piece of the color and per occurrence of the square in its
    attack range, in the order of the dictionary. *)
Definition attacks_of (color sq : string) (p : Piece) : list string :=
  if String.eqb (p_color p) color
  then map (fun _ => p_label p) (filter (String.eqb sq) (p_attack_range p))
  else [].

Definition attackers (color sq : string) (ps : list Piece) : list string :=
  flat_map (attacks_of color sq) ps.

Definition to_opt {A : Type} (l : list A) : option (list A) :=
  match l with
  | [] => None
  | _ => Some l
  end.

(** Every destination in the attack range of the piece passes the shared
    checks from the square of the piece. *)
Definition attacks_checked (ps : dict Piece) (p : Piece) : Prop :=
  forall d, In d (p_attack_range p) ->
            candidate_checks ps (p_pos p) d (p_color p) = true.

(** A map that files, under every square, the labels [f] lists for it. *)
Definition files (m : dict (list string)) (f : string -> list string) : Prop :=
  forall sq, dict_get m sq = to_opt (f sq).

(** Relations between two optional results. *)
Definition opt_rel {A : Type} (R : A -> A -> Prop) (x y : option A) : Prop :=
  match x, y with
  | Some a, Some b => R a b
  | None, None => True
  | _, _ => False
  end.

(** The attributes the rule of a piece reads from its own record. *)
Definition same_rule (p q : Piece) : Prop :=
  p_class p = p_class q /\ p_color p = p_color q /\ p_type p = p_type q
  /\ p_range p = p_range q /\ p_pos_range p = p_pos_range q.

Definition is_chariot_class (c : PieceClass) : bool :=
  match c with
  | Chariot | Cannon => true
  | _ => false
  end.

(** Two records of one piece on one square that differ at most in what
    [map_attack_range] recomputes: the attack range and, for a Chariot or
    a Cannon, the ranges of [_update_ranges]. *)
Definition sim (p q : Piece) : Prop :=
  same_core p q
  /\ (is_chariot_class (p_class p) = false ->
      p_range p = p_range q /\ p_pos_range p = p_pos_range q
      /\ p_horizontal_range p = p_horizontal_range q
      /\ p_vertical_range p = p_vertical_range q).

Definition sim_eq (a b : dict Piece) : Prop :=
  Forall2 (fun x y => fst x = fst y /\ sim (snd x) (snd y)) a b.

(** Two registries that answer every lookup, by square and by label,
    with records of the same piece. *)
Definition lookup_equiv (a b : dict Piece) : Prop :=
  (forall pos, opt_rel same_core (Pieces_get_piece_by_pos a pos)
                 (Pieces_get_piece_by_pos b pos))
  /\ (forall label, opt_rel same_core (Pieces_get_piece_by_label a label)
                      (Pieces_get_piece_by_label b label)).

(** [map_attack_range] of one entry against a registry given as a whole. *)
Definition fresh_entry (los : list Offset -> list Offset) (layout : Layout)
  (ctx : dict Piece) (e : string * Piece) : res Piece :=
  map_attack_range_entry los layout [] (fst e) (snd e) ctx.

Fixpoint map_res {A B : Type} (f : A -> res B) (l : list A) : res (list B) :=
  match l with
  | [] => Ok []
  | a :: r => b <- f a ;; bs <- map_res f r ;; Ok (b :: bs)
  end.

(** Python's [==] on two attack maps, and the same up to the order in
    which the attackers of a square are listed. *)
Definition same_map (m m' : dict (list string)) : Prop :=
  forall sq, dict_get m sq = dict_get m' sq.

Definition same_attackers (m m' : dict (list string)) : Prop :=
  forall sq, opt_rel (@Permutation string) (dict_get m sq) (dict_get m' sq).

(** Python's [==] on two registries: the same piece under every label. *)
Definition same_registry (a b : dict Piece) : Prop :=
  forall label, Pieces_get_piece_by_label a label = Pieces_get_piece_by_label b label.

(** The state of a game between two calls of [make_move]: a registry
    keyed by the labels, one piece per square, and a layout, caches and
    attack maps that are the ones [update_layout] and
    [map_all_attack_ranges] compute. *)
Definition consistent (los : list Offset -> list Offset) (g : XiangqiGame) : Prop :=
  NoDup (dict_keys (pieces_dict (pieces g)))
  /\ keyed_by_label (pieces_dict (pieces g))
  /\ positions_unique (pieces_dict (pieces g))
  /\ refresh los g = Ok g.

(** The attempt reaches the branch of [make_move] that rejects it for
    leaving the mover's General in check. *)
Definition rejected_for_check (los : list Offset -> list Offset)
  (g : XiangqiGame) (pos1 pos2 : string) : Prop :=
  current_game_state g = UNFINISHED
  /\ Pieces_is_valid_move (board g) (pieces_dict (pieces g)) pos1 pos2
       (current_player g) = Ok true
  /\ exists g1, apply_move los g pos1 pos2 = Ok g1
                /\ XiangqiGame_is_in_check g1 (current_player g1) = Ok (Some true).

(** The claim as the specification states it, for one attempt. *)
Definition undo_leaves_identical (los : list Offset -> list Offset)
  (g : XiangqiGame) (pos1 pos2 : string) (test : bool) : Prop :=
  rejected_for_check los g pos1 pos2 ->
  exists g2,
    XiangqiGame_make_move los g pos1 pos2 test = Ok (false, g2)
    /\ same_registry (pieces_dict (pieces g2)) (pieces_dict (pieces g))
    /\ board g2 = board g
    /\ same_map (red_attack_map (pieces g2)) (red_attack_map (pieces g))
    /\ same_map (black_attack_map (pieces g2)) (black_attack_map (pieces g))
    /\ captured_piece (pieces g2) = captured_piece (pieces g).

(** Two records that agree on everything but the attack range. *)
Definition eq_but_attack (p q : Piece) : Prop :=
  same_core p q /\ p_range p = p_range q /\ p_pos_range p = p_pos_range q
  /\ p_horizontal_range p = p_horizontal_range q
  /\ p_vertical_range p = p_vertical_range q.

(** The loop of [map_all_attack_ranges] as a map over the entries. *)
Definition fresh_pair (los : list Offset -> list Offset) (layout : Layout)
  (ctx : dict Piece) (e : string * Piece) : res (string * Piece) :=
  r <- fresh_entry los layout ctx e ;; Ok (fst e, r).

(** Case analysis on the membership of a string in a literal list. *)
Ltac split_membership H :=
  simpl in H;
  repeat (destruct H as [H|H]; [symmetry in H; subst |]); try contradiction.

(** Another admissible order for [list(set(l))]: last occurrences. *)
Definition last_occurrences (l : list Offset) : list Offset :=
  nodup offset_eq_dec l.

(** A new game followed by a list of moves that are all accepted. *)
Definition replay (los : list Offset -> list Offset)
  (moves : list (string * string)) : res XiangqiGame :=
  g <- XiangqiGame_init los ;;
  '(answers, g') <- make_moves los g (map (fun m => (m, false)) moves) ;;
  if forallb (fun a => a) answers then Ok g' else Raise ValueError.

(** The attackers of [e4] in Black's map before and after Red's attempt
    [e4]-[e5] in the game reached by [pinned_soldier_moves]. *)
Definition pinned_soldier_attackers (los : list Offset -> list Offset)
  : option (bool * option (list string) * option (list string)) :=
  match replay los pinned_soldier_moves with
  | Ok g =>
      match XiangqiGame_make_move los g "e4" "e5" false with
      | Ok (answer, g2) =>
          Some (answer, dict_get (black_attack_map (pieces g)) "e4",
                dict_get (black_attack_map (pieces g2)) "e4")
      | Raise _ => None
      end
  | Raise _ => None
  end.

(** ** The steps of the other pieces, on the indices of the squares *)

Definition apart (a b : nat) : nat := Nat.max a b - Nat.min a b.

(** The bank of the river on which [player] starts. *)
Definition on_own_bank (player pos : string) : bool :=
  match Board_get_coordinates_from_pos pos with
  | Some (i, _) =>
      (String.eqb player Board_red && Nat.leb i 4)
      || (String.eqb player Board_black && Nat.leb 5 i)
  | None => false
  end.

Definition one_diagonal_step (pos1 pos2 : string) : bool :=
  match Board_get_coordinates_from_pos pos1, Board_get_coordinates_from_pos pos2 with
  | Some (i1, j1), Some (i2, j2) =>
      Nat.eqb (apart i1 i2) 1 && Nat.eqb (apart j1 j2) 1
  | _, _ => false
  end.

Definition two_diagonal_steps (pos1 pos2 : string) : bool :=
  match Board_get_coordinates_from_pos pos1, Board_get_coordinates_from_pos pos2 with
  | Some (i1, j1), Some (i2, j2) =>
      Nat.eqb (apart i1 i2) 2 && Nat.eqb (apart j1 j2) 2
  | _, _ => false
  end.

(** The square half-way between two squares two diagonal steps apart. *)
Definition elephant_eye (pos1 pos2 : string) : string :=
  match Board_get_coordinates_from_pos pos1, Board_get_coordinates_from_pos pos2 with
  | Some (i1, j1), Some (i2, j2) => square (S (Nat.min i1 i2)) (S (Nat.min j1 j2))
  | _, _ => ""
  end.

(** Two squares along a rank or a file and one square sideways. *)
Definition horse_step (pos1 pos2 : string) : bool :=
  match Board_get_coordinates_from_pos pos1, Board_get_coordinates_from_pos pos2 with
  | Some (i1, j1), Some (i2, j2) =>
      (Nat.eqb (apart i1 i2) 1 && Nat.eqb (apart j1 j2) 2)
      || (Nat.eqb (apart i1 i2) 2 && Nat.eqb (apart j1 j2) 1)
  | _, _ => false
  end.

(** The square next to the origin in the direction of the long side of
    the step. *)
Definition horse_leg (pos1 pos2 : string) : string :=
  match Board_get_coordinates_from_pos pos1, Board_get_coordinates_from_pos pos2 with
  | Some (i1, j1), Some (i2, j2) =>
      if Nat.eqb (apart j1 j2) 2 then square i1 (S (Nat.min j1 j2))
      else square (S (Nat.min i1 i2)) j1
  | _, _ => ""
  end.

(** [Elephant.is_valid_move] up to its lookup in the registry: the
    square it asks the registry about, when the tests before pass. *)
Definition Elephant_eye_lookup (pos1 pos2 current_player : string)
  : res (option string) :=
  behind <- Board_is_behind_river pos2 current_player ;;
  if negb behind then Ok None
  else
    c1 <- ord0 pos1 ;;
    c2 <- ord0 pos2 ;;
    far <- (if negb (Z.abs (c1 - c2) =? 2) then Ok true
            else r1 <- int_tail pos1 ;; r2 <- int_tail pos2 ;;
                 Ok (negb (Z.abs (r1 - r2) =? 2))) ;;
    if far then Ok None
    else
      a <- str_get0 pos1 ;;
      b <- str_get0 pos2 ;;
      m <- py_ord (str_max a b) ;;
      col <- py_chr (m - 1) ;;
      r1 <- int_tail pos1 ;;
      r2 <- int_tail pos2 ;;
      Ok (Some (col ++ py_str (Z.max r1 r2 - 1))).

(** [Horse.is_valid_move] up to its lookups: the test of the offset with
    the square of the first lookup, and the square of the second. *)
Definition Horse_row_lookup (range : list Offset) (pos1 pos2 : string)
  : res (option (option string)) :=
  c1 <- ord0 pos1 ;;
  c2 <- ord0 pos2 ;;
  r1 <- int_tail pos1 ;;
  r2 <- int_tail pos2 ;;
  if negb (offset_in (c1 - c2, r1 - r2) range) then Ok None
  else
    c1 <- ord0 pos1 ;;
    c2 <- ord0 pos2 ;;
    if Z.abs (c1 - c2) =? 2
    then a <- ord0 pos1 ;; b <- ord0 pos2 ;;
         col <- py_chr (Z.max (a - 1) (b - 1)) ;;
         Ok (Some (Some (col ++ str_tail pos1)))
    else Ok (Some None).

Definition Horse_col_lookup (pos1 pos2 : string) : res (option string) :=
  r1 <- int_tail pos1 ;;
  r2 <- int_tail pos2 ;;
  if Z.abs (r1 - r2) =? 2
  then f <- str_get0 pos1 ;;
       a <- int_tail pos1 ;; b <- int_tail pos2 ;;
       Ok (Some (f ++ py_str (Z.min (a + 1) (b + 1))))
  else Ok None.

Definition option_string_eqb (a b : option string) : bool :=
  match a, b with
  | Some x, Some y => String.eqb x y
  | None, None => true
  | _, _ => false
  end.

Definition res_option_eqb (a b : res (option string)) : bool :=
  match a, b with
  | Ok x, Ok y => option_string_eqb x y
  | _, _ => false
  end.

(** A player as the tests on colors see it. *)
Definition side_of (player : string) : string :=
  if String.eqb player Board_red then Board_red
  else if String.eqb player Board_black then Board_black
  else "".

Definition red_advisor : Piece :=
  mkPiece Advisor "AR1" "A" "R" "1" "d1" (class_range Advisor) [] [] [] [].
(** What the two lookups of [Horse.is_valid_move] ask for, against the
    step and the leg of the move. *)
Definition horse_lookups_checked (pos1 pos2 : string) : bool :=
  match Horse_row_lookup (class_range Horse) pos1 pos2, Horse_col_lookup pos1 pos2 with
  | Ok None, _ => negb (horse_step pos1 pos2)
  | Ok (Some (Some sq)), Ok None =>
      horse_step pos1 pos2 && String.eqb sq (horse_leg pos1 pos2)
  | Ok (Some None), Ok (Some sq) =>
      horse_step pos1 pos2 && String.eqb sq (horse_leg pos1 pos2)
  | _, _ => false
  end.

Definition red_horse : Piece :=
  mkPiece Horse "HR1" "H" "R" "1" "b1" (class_range Horse) [] [] [] [].
(** Every square of the two lines through a square shares its rank or
    its file. *)
Definition lines_on_line (pos : string) : bool :=
  forallb (same_line pos) (row_line pos ++ col_line pos).

(** Red's Chariot on [a1] at the start of the game. *)
Definition red_chariot : Piece := Eval vm_compute in piece_at start_game "a1".
(** One step forward on the same file, for the color of the Soldier. *)
Definition soldier_forward (color pos1 pos2 : string) : bool :=
  match Board_get_coordinates_from_pos pos1, Board_get_coordinates_from_pos pos2 with
  | Some (i1, j1), Some (i2, j2) => one_forward color i1 j1 i2 j2
  | _, _ => false
  end.

(** The destination [_map_attack_range_from_offsets] computes for one
    offset. *)
Definition offset_destination (current_pos : string) (offset : Offset) : res string :=
  c <- ord0 current_pos ;;
  offset_col <- py_chr (c + fst offset) ;;
  n <- int_tail current_pos ;;
  Ok (offset_col ++ py_str (n + snd offset)).

Definition offsets_of (r : res (list Offset)) : list Offset :=
  match r with
  | Ok l => l
  | Raise _ => []
  end.

(** No offset of a Soldier leads to a square that its rule accepts and
    that is not straight ahead. *)
Definition soldier_offsets_checked (pos : string) : bool :=
  forallb
    (fun color =>
       forallb
         (fun offset =>
            match offset_destination pos offset with
            | Ok d =>
                implb (Board_is_valid_pos d && soldier_rule color pos d)
                  (soldier_forward color pos d)
            | Raise _ => true
            end)
         (offsets_of (Soldier_range_hi color) ++ offsets_of (Soldier_range_lo color)))
    [Board_red; Board_black].

(** A Red Soldier that has crossed the river, on [e6], with the Black
    Soldier of the start on [e7] gone. *)
Definition crossed_soldier_pieces : dict Piece :=
  [ ("GR1", mkPiece General "GR1" "G" "R" "1" "d1" (class_range General) [] [] [] []);
    ("SR3", mkPiece Soldier "SR3" "S" "R" "3" "e6" [] [] [] [] []);
    ("GB1", mkPiece General "GB1" "G" "B" "1" "e10" (class_range General) [] [] [] []) ].

Definition crossed_soldier_layout : Layout :=
  Eval vm_compute in Board_update_layout Board_start_layout crossed_soldier_pieces.

Definition crossed_soldier_registry : Pieces :=
  Eval vm_compute in
    match Pieces_map_all_attack_ranges first_occurrences crossed_soldier_layout
            (mkPieces crossed_soldier_pieces [] [] None) with
    | Ok P => P
    | Raise _ => mkPieces [] [] [] None
    end.
(** The labels an attack map lists under a square. *)
Definition labels_at (m : dict (list string)) (sq : string) : list string :=
  match dict_get m sq with
  | Some labels => labels
  | None => []
  end.

(** A piece of [color] in the registry attacks the square. *)
Definition attacked_by (ps : dict Piece) (color sq : string) (p : Piece) : Prop :=
  In p (dict_values ps) /\ p_color p = color /\ In sq (p_attack_range p).
(** ** The state of the game before and after a call *)

(** Nothing a caller can see has changed from [g] to [g']: the same
    board, the same entries in the registry (which answers every lookup
    as before), attack maps with the same attackers under the same
    squares, the same player to move and the same game state. *)
Definition unchanged (g g' : XiangqiGame) : Prop :=
  board g' = board g
  /\ Permutation (pieces_dict (pieces g)) (pieces_dict (pieces g'))
  /\ (forall pos, Pieces_get_piece_by_pos (pieces_dict (pieces g')) pos
                  = Pieces_get_piece_by_pos (pieces_dict (pieces g)) pos)
  /\ (forall label, Pieces_get_piece_by_label (pieces_dict (pieces g')) label
                    = Pieces_get_piece_by_label (pieces_dict (pieces g)) label)
  /\ same_attackers (red_attack_map (pieces g')) (red_attack_map (pieces g))
  /\ same_attackers (black_attack_map (pieces g')) (black_attack_map (pieces g))
  /\ current_player g' = current_player g.

(** The registry [ps'] is [ps] after the piece on [pos1] has gone to
    [pos2], taking what stood there. *)
Definition relocated (ps ps' : dict Piece) (pos1 pos2 : string) : Prop :=
  Pieces_get_piece_by_pos ps' pos1 = None
  /\ (exists mover mover',
         Pieces_get_piece_by_pos ps pos1 = Some mover
         /\ Pieces_get_piece_by_pos ps' pos2 = Some mover'
         /\ same_core (update_pos mover pos2) mover')
  /\ (forall sq, sq <> pos1 -> sq <> pos2 ->
                 opt_rel same_core (Pieces_get_piece_by_pos ps sq)
                   (Pieces_get_piece_by_pos ps' sq))
  /\ List.length ps'
     = (List.length ps
        - if is_some (Pieces_get_piece_by_pos ps pos2) then 1 else 0)%nat.
(** The game a probe of Red's Cannon move [b3]-[b10] leaves behind at the
    start. *)
Definition probed_start_game : XiangqiGame :=
  Eval vm_compute in
    match XiangqiGame_make_move first_occurrences start_game "b3" "b10" true with
    | Ok (_, g) => g
    | Raise _ => empty_game
    end.

Definition own_general_label (player : string) : string :=
  if String.eqb player Board_red then "GR1" else "GB1".
(** Fourteen accepted moves that bring Red's Soldier from [c4] to [d10],
    next to the Black General on [e10], while Black's Chariot goes back
    and forth. *)
Definition soldier_raid_moves : list (string * string) :=
  [("c4", "c5"); ("a10", "a9"); ("c5", "c6"); ("a9", "a10"); ("c6", "c7");
   ("a10", "a9"); ("c7", "c8"); ("a9", "a10"); ("c8", "c9"); ("a10", "a9");
   ("c9", "c10"); ("a9", "a10"); ("c10", "d10"); ("a10", "a9")].

Definition soldier_raid_game : XiangqiGame :=
  Eval vm_compute in game_after start_game soldier_raid_moves.

(** The same game once the Soldier has taken the General on [e10]. *)
Definition general_taken_game : XiangqiGame :=
  Eval vm_compute in game_of (apply_move first_occurrences soldier_raid_game "d10" "e10").
(** ** What the engine needs in order not to raise *)

(** [list(set(l))] lists elements of [l] and nothing else. *)
Definition lists_members (los : list Offset -> list Offset) : Prop :=
  forall l x, In x (los l) -> In x l.

(** A piece as [Piece.__init__] and the classes make it, standing on a
    square of the board: a color [R] or [B] that is the second character
    of its label, a type that is not empty and, outside [Chariot] and
    [Cannon], the range of its class. *)
Definition piece_sound (p : Piece) : Prop :=
  Board_is_valid_pos (p_pos p) = true
  /\ (p_color p = Board_red \/ p_color p = Board_black)
  /\ str_get1 (p_label p) = Ok (p_color p)
  /\ p_type p <> ""
  /\ (is_chariot_class (p_class p) = false -> p_range p = class_range (p_class p)).

Definition pieces_sound (ps : dict Piece) : Prop :=
  Forall (fun e => piece_sound (snd e)) ps.

Definition offsets_bounded (offsets : list Offset) : Prop :=
  Forall (fun offset => -8 <= fst offset <= 8) offsets.

Definition both_generals (ps : dict Piece) : Prop :=
  Pieces_get_piece_by_label ps "GR1" <> None
  /\ Pieces_get_piece_by_label ps "GB1" <> None.

(** A game in which a move can be asked for: a consistent game on a
    board of ten rows of nine cells, sound pieces, a player [R] or [B]
    and both Generals in the registry. *)
Definition playable (los : list Offset -> list Offset) (g : XiangqiGame) : Prop :=
  consistent los g
  /\ well_shaped (board g)
  /\ pieces_sound (pieces_dict (pieces g))
  /\ (current_player g = Board_red \/ current_player g = Board_black)
  /\ both_generals (pieces_dict (pieces g)).

(** The attempt does not aim at the square of a General. *)
Definition spares_generals (ps : dict Piece) (pos : string) : Prop :=
  forall q, Pieces_get_piece_by_pos ps pos = Some q ->
            p_label q <> "GR1" /\ p_label q <> "GB1".

(** [piece_sound], decided. *)
Definition piece_soundb (p : Piece) : bool :=
  Board_is_valid_pos (p_pos p)
  && (String.eqb (p_color p) Board_red || String.eqb (p_color p) Board_black)
  && match str_get1 (p_label p) with
     | Ok c => String.eqb c (p_color p)
     | Raise _ => false
     end
  && negb (String.eqb (p_type p) "")
  && (is_chariot_class (p_class p)
      || if list_eq_dec offset_eq_dec (p_range p) (class_range (p_class p))
         then true else false).

Definition pieces_soundb (ps : dict Piece) : bool :=
  forallb (fun e => piece_soundb (snd e)) ps.

(** Two registries with the same pieces under the same keys, up to the
    ranges of the Chariots and Cannons, which [_update_ranges] orders as
    [list(set(..))] does. *)
Definition same_make (a b : dict Piece) : Prop :=
  Forall2 (fun x y =>
             fst x = fst y /\ same_core (snd x) (snd y)
             /\ (is_chariot_class (p_class (snd x)) = false ->
                 p_range (snd y) = p_range (snd x))) a b.

(** * Properties of the engine *)

(** ** Reference games *)

Lemma start_game_init : XiangqiGame_init first_occurrences = Ok start_game.
Proof. vm_compute. reflexivity. Qed.

Lemma before_mate_game_reached :
  make_moves first_occurrences start_game
    (map (fun m => (m, false)) cannon_mate_moves)
  = Ok ([true; true; true; true; true; true], before_mate_game).
Proof. vm_compute. reflexivity. Qed.

Lemma red_won_game_reached :
  XiangqiGame_make_move first_occurrences before_mate_game "b5" "e5" false
  = Ok (true, red_won_game)
  /\ current_game_state red_won_game = RED_WON.
Proof. split; vm_compute; reflexivity. Qed.

Lemma pinned_soldier_game_reached :
  make_moves first_occurrences start_game
    (map (fun m => (m, false)) pinned_soldier_moves)
  = Ok ([true; true; true; true; true; true], pinned_soldier_game).
Proof. vm_compute. reflexivity. Qed.

(** ** Elementary facts *)

Lemma eqb_eq_true (a b : string) : String.eqb a b = true <-> a = b.
Proof. apply String.eqb_eq. Qed.

Lemma bind_ok {A B : Type} (m : res A) (k : A -> res B) (b : B) :
  bind m k = Ok b -> exists a, m = Ok a /\ k a = Ok b.
Proof. destruct m as [a|e]; simpl; intros H; [eauto | discriminate]. Qed.

Lemma dict_mem_keys {V : Type} (d : dict V) (k : string) :
  dict_mem d k = true <-> In k (dict_keys d).
Proof.
  unfold dict_mem. induction d as [|[k' v] d IH]; simpl.
  - split; [discriminate | tauto].
  - destruct (String.eqb k' k) eqn:E.
    + apply String.eqb_eq in E. split; auto.
    + apply String.eqb_neq in E. rewrite IH. split; [auto | intros [H|H]; [contradiction | assumption]].
Qed.

Section Properties.

Variable list_of_set : list Offset -> list Offset.

(** ** Termination monotonicity *)

Lemma make_move_finished (g : XiangqiGame) (pos1 pos2 : string) (test : bool) :
  current_game_state g <> UNFINISHED ->
  XiangqiGame_make_move list_of_set g pos1 pos2 test = Ok (false, g).
Proof.
  intros H. unfold XiangqiGame_make_move, make_move_body.
  destruct (current_game_state g); [contradiction | reflexivity | reflexivity].
Qed.

(** C7.  Once the game state is not [UNFINISHED], [make_move] answers
    [False] for every pair of arguments and leaves the whole game record
    as it was; hence any sequence of further attempts is answered
    [False] throughout and ends in the same state. *)
Theorem C7_finished_game_rejects_every_move (g : XiangqiGame) :
  current_game_state g <> UNFINISHED ->
  (forall pos1 pos2 test,
      XiangqiGame_make_move list_of_set g pos1 pos2 test = Ok (false, g))
  /\ (forall attempts,
         make_moves list_of_set g attempts
         = Ok (map (fun _ => false) attempts, g)).
Proof.
  intros H. split.
  - intros. now apply make_move_finished.
  - induction attempts as [|[[pos1 pos2] test] r IH]; simpl.
    + reflexivity.
    + rewrite make_move_finished by assumption. simpl. rewrite IH. reflexivity.
Qed.

(** ** Check queries *)

Lemma denotes_red_not_black (color : string) :
  denotes_red color -> ~ denotes_black color.
Proof.
  unfold denotes_red, denotes_black, Board_red, Board_black.
  intros [Hr|Hr] [Hb|Hb]; subst; try discriminate.
  rewrite Hr in Hb. discriminate.
Qed.

(** C2.  After the attack maps have been recomputed, [is_in_check] of a
    color returns a boolean, and it is [True] exactly when the position
    of that color's General is a key of the other color's attack map. *)
Theorem C2_is_in_check_iff_general_attacked (layout : Layout) (P0 P : Pieces)
  (color own_general : string) (opponent_map : dict (list string)) (gen : Piece) :
  Pieces_map_all_attack_ranges list_of_set layout P0 = Ok P ->
  (denotes_red color /\ own_general = "GR1"
   /\ opponent_map = black_attack_map P)
  \/ (denotes_black color /\ own_general = "GB1"
      /\ opponent_map = red_attack_map P) ->
  Pieces_get_piece_by_label (pieces_dict P) own_general = Some gen ->
  exists b, Pieces_is_in_check P color = Ok (Some b)
            /\ (b = true <-> In (p_pos gen) (dict_keys opponent_map)).
Proof.
  intros _ Hc Hg. unfold Pieces_is_in_check.
  destruct Hc as [(Hr & -> & ->) | (Hb & -> & ->)].
  - pose proof (denotes_red_not_black color Hr) as Hnb.
    unfold denotes_red, denotes_black in *.
    assert (Eb : String.eqb (py_lower color) "black" || String.eqb color Board_black = false).
    { apply orb_false_iff. split; apply String.eqb_neq; intros E; apply Hnb; auto. }
    assert (Er : String.eqb (py_lower color) "red" || String.eqb color Board_red = true).
    { apply orb_true_iff. destruct Hr as [E|E]; [left | right]; now apply String.eqb_eq. }
    rewrite Eb, Er, Hg. eexists. split; [reflexivity | apply dict_mem_keys].
  - unfold denotes_black in Hb.
    assert (Eb : String.eqb (py_lower color) "black" || String.eqb color Board_black = true).
    { apply orb_true_iff. destruct Hb as [E|E]; [left | right]; now apply String.eqb_eq. }
    rewrite Eb, Hg. eexists. split; [reflexivity | apply dict_mem_keys].
Qed.

(** C8.  For a color argument that denotes neither Red nor Black,
    [is_in_check] returns [None], which is neither of the two boolean
    answers. *)
Theorem C8_is_in_check_unknown_color (P : Pieces) (color : string) :
  ~ denotes_red color -> ~ denotes_black color ->
  Pieces_is_in_check P color = Ok None
  /\ forall b : bool, Pieces_is_in_check P color <> Ok (Some b).
Proof.
  intros Hr Hb. unfold denotes_red, denotes_black in *.
  assert (E : Pieces_is_in_check P color = Ok None).
  { unfold Pieces_is_in_check.
    assert (Eb : String.eqb (py_lower color) "black" || String.eqb color Board_black = false).
    { apply orb_false_iff. split; apply String.eqb_neq; intros E; apply Hb; auto. }
    assert (Er : String.eqb (py_lower color) "red" || String.eqb color Board_red = false).
    { apply orb_false_iff. split; apply String.eqb_neq; intros E; apply Hr; auto. }
    now rewrite Eb, Er. }
  split; [exact E | intros b; rewrite E; discriminate].
Qed.

End Properties.

Lemma C7_witness :
  current_game_state red_won_game <> UNFINISHED
  /\ (forall pos1 pos2 test,
         XiangqiGame_make_move first_occurrences red_won_game pos1 pos2 test
         = Ok (false, red_won_game))
  /\ (forall attempts,
         make_moves first_occurrences red_won_game attempts
         = Ok (map (fun _ => false) attempts, red_won_game)).
Proof.
  split; [vm_compute; discriminate |].
  apply (C7_finished_game_rejects_every_move first_occurrences red_won_game).
  vm_compute; discriminate.
Defined.

Lemma C8_witness :
  Pieces_is_in_check (pieces start_game) "green" = Ok None
  /\ forall b : bool, Pieces_is_in_check (pieces start_game) "green" <> Ok (Some b).
Proof.
  apply (C8_is_in_check_unknown_color (pieces start_game) "green").
  - vm_compute. intros [H|H]; discriminate.
  - vm_compute. intros [H|H]; discriminate.
Defined.

Lemma C2_witness :
  exists b, Pieces_is_in_check (pieces pinned_soldier_game) "black" = Ok (Some b)
            /\ (b = true <->
                In "e10" (dict_keys (red_attack_map (pieces pinned_soldier_game)))).
Proof.
  eapply (C2_is_in_check_iff_general_attacked first_occurrences
            (board pinned_soldier_game) (pieces pinned_soldier_game)
            (pieces pinned_soldier_game) "black" "GB1"
            (red_attack_map (pieces pinned_soldier_game))
            (mkPiece General "GB1" "G" "B" "1" "e10" (class_range General)
               ["e9"] [] [] [])).
  - vm_compute. reflexivity.
  - right. repeat split. left. reflexivity.
  - vm_compute. reflexivity.
Defined.

(** ** Board geometry *)

Lemma str_in_In (x : string) (l : list string) : str_in x l = true <-> In x l.
Proof.
  unfold str_in. rewrite existsb_exists. split.
  - intros (y & Hy & E). apply String.eqb_eq in E. now subst.
  - intros H. exists x. split; [assumption | apply String.eqb_refl].
Qed.

Lemma list_index_nth (x : string) (l : list string) (n : nat) :
  list_index x l = Ok n -> nth_error l n = Some x.
Proof.
  revert n. induction l as [|y l IH]; simpl; intros n H; [discriminate |].
  destruct (String.eqb y x) eqn:E.
  - apply String.eqb_eq in E. inversion H. subst. reflexivity.
  - apply bind_ok in H. destruct H as (m & Hm & H). inversion H. subst.
    simpl. now apply IH.
Qed.

Lemma str_get0_tail (pos c : string) :
  str_get0 pos = Ok c -> pos = c ++ str_tail pos.
Proof. destruct pos; simpl; intros H; inversion H. reflexivity. Qed.

Lemma coordinates_some (pos : string) (i j : nat) :
  Board_get_coordinates_from_pos pos = Some (i, j) ->
  exists c, str_get0 pos = Ok c
            /\ list_index (str_tail pos) Board_rows = Ok i
            /\ list_index c Board_columns = Ok j.
Proof.
  unfold Board_get_coordinates_from_pos. intros H.
  destruct (list_index (str_tail pos) Board_rows) as [i'|] eqn:Hi;
    [|discriminate H].
  destruct (str_get0 pos) as [c|] eqn:Hc; [|discriminate H].
  unfold bind in H.
  destruct (list_index c Board_columns) as [j'|] eqn:Hj; [|discriminate H].
  inversion H; subst. exists c. auto.
Qed.

Lemma valid_pos_in (pos : string) :
  Board_is_valid_pos pos = true -> In pos all_positions.
Proof.
  unfold Board_is_valid_pos. intros H.
  destruct (Board_get_coordinates_from_pos pos) as [[i j]|] eqn:E; [|discriminate H].
  apply coordinates_some in E. destruct E as (c & Hc & Hi & Hj).
  apply list_index_nth in Hi, Hj. apply nth_error_In in Hi, Hj.
  apply str_get0_tail in Hc. rewrite Hc. unfold all_positions.
  apply in_flat_map. exists c. split; [assumption |].
  apply in_map_iff. exists (str_tail pos). split; [reflexivity | assumption].
Qed.

Lemma forall_valid_positions (f : string -> string -> bool) :
  forallb (fun p => forallb (f p) all_positions) all_positions = true ->
  forall p q, Board_is_valid_pos p = true -> Board_is_valid_pos q = true ->
              f p q = true.
Proof.
  intros H p q Hp Hq. rewrite forallb_forall in H.
  specialize (H p (valid_pos_in p Hp)). rewrite forallb_forall in H.
  exact (H q (valid_pos_in q Hq)).
Qed.

Lemma res_bool_eqb_eq (a b : res bool) : res_bool_eqb a b = true -> a = b.
Proof.
  destruct a as [x|], b as [y|]; simpl; try discriminate.
  intros H. apply Bool.eqb_prop in H. now subst.
Qed.

(** C9.  [is_behind_river] is not total on malformed coordinates: the
    rank of ["ex"] is not a number and [int] raises [ValueError], where
    the claim promises [False]. *)
Theorem C9_is_behind_river_raises :
  Board_is_valid_pos "ex" = false
  /\ Board_is_behind_river "ex" "R" = Raise ValueError
  /\ Board_is_behind_river "ex" "B" = Raise ValueError
  /\ Board_is_behind_river "e" "R" = Raise ValueError.
Proof. repeat split; vm_compute; reflexivity. Qed.

(** The other queries of the claim answer without raising.  The ones
    that catch their exceptions are total by construction; the row and
    column slices are total on a board of ten rows of nine cells. *)
Lemma column_cells_total (layout : Layout) (j lo hi : nat) :
  (j < 9)%nat -> Forall (fun row => List.length row = 9%nat) layout ->
  forall rows i, (i + rows <= List.length layout)%nat ->
                 exists cells, column_cells layout i j lo hi rows = Ok cells.
Proof.
  intros Hj Hrows. induction rows as [|n IH]; intros i Hi; simpl.
  - eexists. reflexivity.
  - destruct (IH (S i)) as (rest & Hrest); [lia |]. rewrite Hrest.
    destruct (Nat.leb lo i && Nat.leb i hi).
    + unfold list_get.
      destruct (nth_error layout i) as [line|] eqn:Hl.
      * simpl. rewrite Forall_forall in Hrows.
        specialize (Hrows line (nth_error_In _ _ Hl)).
        destruct (nth_error line j) as [v|] eqn:Hv.
        -- simpl. eexists. reflexivity.
        -- apply nth_error_None in Hv. lia.
      * apply nth_error_None in Hl. lia.
    + simpl. eexists. reflexivity.
Qed.

Lemma rows_int (r : string) :
  In r Board_rows -> exists n, py_int r = Ok n /\ 1 <= n <= 10.
Proof.
  intros H. split_membership H; eexists; (split; [vm_compute; reflexivity | lia]).
Qed.

Lemma columns_ord (c : string) :
  In c Board_columns -> exists n, py_ord c = Ok n /\ 97 <= n <= 105.
Proof.
  intros H. split_membership H; eexists; (split; [vm_compute; reflexivity | lia]).
Qed.

Lemma column_rank_coordinates (c : string) (n : Z) :
  In c Board_columns -> 1 <= n <= 10 ->
  exists j, Board_get_coordinates_from_pos (c ++ py_str n) = Some (Z.to_nat (n - 1), j)
            /\ (j < 9)%nat.
Proof.
  intros Hc Hn.
  assert (Hcases : n = 1 \/ n = 2 \/ n = 3 \/ n = 4 \/ n = 5 \/ n = 6 \/ n = 7
                   \/ n = 8 \/ n = 9 \/ n = 10) by lia.
  repeat (destruct Hcases as [Hcases|Hcases]; [subst n | ]); try subst n;
    split_membership Hc; eexists; (split; [vm_compute; reflexivity | lia]).
Qed.

Lemma Board_get_column_total (layout : Layout) (col pos1 pos2 : string) :
  well_shaped layout ->
  exists answer, Board_get_column layout col pos1 pos2 = Ok answer.
Proof.
  intros [Hlen Hrows]. unfold Board_get_column.
  destruct (str_in col Board_columns) eqn:Hc; cbn [negb orb]; [|eexists; reflexivity].
  destruct (str_in pos1 Board_rows) eqn:H1; cbn [negb orb]; [|eexists; reflexivity].
  destruct (str_in pos2 Board_rows) eqn:H2; cbn [negb orb]; [|eexists; reflexivity].
  apply str_in_In in Hc, H1, H2.
  destruct (rows_int pos1 H1) as (a & -> & Ha).
  destruct (rows_int pos2 H2) as (b & -> & Hb). cbn [bind].
  destruct (column_rank_coordinates col (Z.min a b) Hc) as (j & -> & Hj); [lia |].
  destruct (column_rank_coordinates col (Z.max a b) Hc) as (j' & -> & Hj'); [lia |].
  cbn [fst snd].
  destruct (column_cells_total layout j (Z.to_nat (Z.min a b - 1))
              (Z.to_nat (Z.max a b - 1)) Hj Hrows Board_height 0%nat) as (cells & ->).
  { unfold Board_height. lia. }
  cbn [bind]. eexists. reflexivity.
Qed.

Lemma Board_get_row_total (layout : Layout) (row pos1 pos2 : string) :
  well_shaped layout ->
  exists answer, Board_get_row layout row pos1 pos2 = Ok answer.
Proof.
  intros [Hlen Hrows]. unfold Board_get_row.
  destruct (str_in row Board_rows) eqn:Hr; cbn [negb orb]; [|eexists; reflexivity].
  destruct (str_in pos1 Board_columns) eqn:H1; cbn [negb orb]; [|eexists; reflexivity].
  destruct (str_in pos2 Board_columns) eqn:H2; cbn [negb orb]; [|eexists; reflexivity].
  apply str_in_In in Hr, H1, H2.
  destruct (rows_int row Hr) as (r & -> & Hrr).
  destruct (columns_ord pos1 H1) as (a & -> & Ha).
  destruct (columns_ord pos2 H2) as (b & -> & Hb). cbn [bind].
  rewrite Hlen. unfold norm_index.
  replace (r - 1 <? 0) with false by (symmetry; apply Z.ltb_ge; lia).
  replace ((0 <=? r - 1) && (r - 1 <? Z.of_nat 10)) with true
    by (symmetry; apply andb_true_iff; split; [apply Z.leb_le | apply Z.ltb_lt]; lia).
  unfold list_get.
  destruct (nth_error layout (Z.to_nat (r - 1))) as [line|] eqn:Hl.
  - cbn [bind]. eexists. reflexivity.
  - apply nth_error_None in Hl. lia.
Qed.

(** ** The Soldier *)

Lemma Soldier_is_valid_move_color (self self' : Piece) (pos1 pos2 : string)
  (layout layout' : Layout) (ps ps' : dict Piece) (player : string) :
  p_color self = p_color self' ->
  Soldier_is_valid_move self pos1 pos2 layout ps player
  = Soldier_is_valid_move self' pos1 pos2 layout' ps' player.
Proof. intros H. unfold Soldier_is_valid_move. rewrite H. reflexivity. Qed.

Lemma soldier_rule_checked (color : string) :
  color = Board_red \/ color = Board_black ->
  forall pos1 pos2,
    Board_is_valid_pos pos1 = true -> Board_is_valid_pos pos2 = true ->
    Soldier_is_valid_move (soldier_of color) pos1 pos2 [] [] color
    = Ok (soldier_rule color pos1 pos2).
Proof.
  intros Hc pos1 pos2 H1 H2. apply res_bool_eqb_eq.
  revert pos1 pos2 H1 H2.
  apply (forall_valid_positions
           (fun p q => res_bool_eqb
                         (Soldier_is_valid_move (soldier_of color) p q [] [] color)
                         (Ok (soldier_rule color p q)))).
  destruct Hc; subst color; vm_compute; reflexivity.
Qed.

(** C5.  The Soldier's own validation accepts a move between two squares
    of the board exactly when it is one square forward (towards higher
    ranks for Red, lower ranks for Black) or, for a Soldier that has
    crossed the river, one square to the left or to the right; backward
    moves and sideways moves on the own side are rejected. *)
Theorem C5_soldier_rule (self : Piece) (pos1 pos2 : string) (layout : Layout)
  (ps : dict Piece) (color : string) :
  color = Board_red \/ color = Board_black ->
  p_color self = color ->
  Board_is_valid_pos pos1 = true -> Board_is_valid_pos pos2 = true ->
  Soldier_is_valid_move self pos1 pos2 layout ps color
  = Ok (soldier_rule color pos1 pos2).
Proof.
  intros Hc Hs H1 H2.
  rewrite (Soldier_is_valid_move_color self (soldier_of color) pos1 pos2
             layout [] ps [] color) by exact Hs.
  now apply soldier_rule_checked.
Qed.

Lemma C5_witness :
  Soldier_is_valid_move (soldier_of "B") "e5" "d5" Board_start_layout [] "B"
  = Ok (soldier_rule "B" "e5" "d5")
  /\ soldier_rule "B" "e5" "d5" = true
  /\ soldier_rule "B" "e6" "d6" = false
  /\ soldier_rule "B" "e5" "e6" = false.
Proof.
  split; [| repeat split; vm_compute; reflexivity].
  apply (C5_soldier_rule (soldier_of "B") "e5" "d5" Board_start_layout [] "B").
  - right. reflexivity.
  - reflexivity.
  - vm_compute. reflexivity.
  - vm_compute. reflexivity.
Defined.

(** ** The termination controller *)

Section Termination.

Variable list_of_set : list Offset -> list Offset.

Lemma make_move_test_is_probe (g : XiangqiGame) (pos1 pos2 : string) :
  XiangqiGame_make_move list_of_set g pos1 pos2 true
  = probe_move list_of_set g pos1 pos2.
Proof.
  unfold XiangqiGame_make_move, probe_move, make_move_body.
  destruct (current_game_state g); reflexivity.
Qed.

Lemma refresh_player (g g' : XiangqiGame) :
  refresh list_of_set g = Ok g' ->
  current_player g' = current_player g
  /\ current_game_state g' = current_game_state g.
Proof.
  unfold refresh. intros H. apply bind_ok in H. destruct H as (P & _ & H).
  inversion H. subst. simpl. auto.
Qed.

Lemma apply_move_player (g g' : XiangqiGame) (pos1 pos2 : string) :
  apply_move list_of_set g pos1 pos2 = Ok g' ->
  current_player g' = current_player g
  /\ current_game_state g' = current_game_state g.
Proof.
  unfold apply_move. intros H.
  apply bind_ok in H. destruct H as (P & _ & H).
  apply bind_ok in H. destruct H as (d & _ & H).
  apply refresh_player in H. exact H.
Qed.

Lemma undo_move_player (g g' : XiangqiGame) (pos1 pos2 : string) :
  XiangqiGame_undo_move list_of_set g pos1 pos2 = Ok g' ->
  current_player g' = current_player g
  /\ current_game_state g' = current_game_state g.
Proof.
  unfold XiangqiGame_undo_move. intros H.
  apply bind_ok in H. destruct H as (d & _ & H).
  apply refresh_player in H. exact H.
Qed.

Lemma probe_move_player (g g' : XiangqiGame) (pos1 pos2 : string) (answer : bool) :
  probe_move list_of_set g pos1 pos2 = Ok (answer, g') ->
  current_player g' = current_player g
  /\ current_game_state g' = current_game_state g.
Proof.
  unfold probe_move, make_move_body. intros H.
  destruct (current_game_state g) eqn:Hs;
    try (inversion H; subst; auto; fail).
  apply bind_ok in H. destruct H as (valid & _ & H).
  destruct valid; [| inversion H; subst; auto].
  apply bind_ok in H. destruct H as (g1 & H1 & H).
  apply bind_ok in H. destruct H as (check & _ & H).
  apply apply_move_player in H1. destruct H1 as [Hp1 Hs1].
  assert (Hundo : forall r, (g2 <- XiangqiGame_undo_move list_of_set g1 pos1 pos2 ;;
                             Ok (r, g2)) = Ok (answer, g') ->
                            current_player g' = current_player g
                            /\ current_game_state g' = current_game_state g).
  { intros r Hr. apply bind_ok in Hr. destruct Hr as (g2 & H2 & Hr).
    inversion Hr. subst. apply undo_move_player in H2. destruct H2.
    split; congruence. }
  rewrite <- Hs. destruct check as [[|]|]; eapply Hundo; exact H.
Qed.

Lemma all_probes_fail_loop (g g' : XiangqiGame) (moves : list (string * string)) :
  all_probes_fail list_of_set g moves g' <->
  probe_moves list_of_set g moves = Ok (true, g').
Proof.
  split.
  - induction 1 as [g | g g1 g2 pos1 pos2 r Hp _ IH]; simpl.
    + reflexivity.
    + rewrite make_move_test_is_probe in Hp. rewrite Hp. simpl. exact IH.
  - revert g. induction moves as [|[pos1 pos2] r IH]; simpl; intros g H.
    + inversion H. subst. constructor.
    + apply bind_ok in H. destruct H as ([ok g1] & Hp & H). simpl in H.
      destruct ok; [discriminate H |].
      econstructor; [rewrite make_move_test_is_probe; exact Hp | now apply IH].
Qed.

Lemma all_probes_fail_player (g g' : XiangqiGame) (moves : list (string * string)) :
  all_probes_fail list_of_set g moves g' ->
  current_player g' = current_player g.
Proof.
  induction 1 as [g | g g1 g2 pos1 pos2 r Hp _ IH].
  - reflexivity.
  - rewrite make_move_test_is_probe in Hp. apply probe_move_player in Hp.
    destruct Hp. congruence.
Qed.

(** [_update_game_state] when every probe fails. *)
Lemma update_game_state_stuck (g g' : XiangqiGame) (moves : list (string * string)) :
  Pieces_get_all_possible_moves (pieces g) (current_player g) = Ok moves ->
  all_probes_fail list_of_set g moves g' ->
  XiangqiGame_update_game_state list_of_set g
  = Ok (set_game_state g' (winner_when_stuck (current_player g))).
Proof.
  intros Hm Hp. pose proof (all_probes_fail_player _ _ _ Hp) as Hpl.
  apply all_probes_fail_loop in Hp.
  unfold XiangqiGame_update_game_state, XiangqiGame_is_game_over.
  rewrite Hm. simpl. rewrite Hp. simpl. rewrite Hpl. unfold winner_when_stuck.
  destruct (String.eqb (current_player g) Board_red); reflexivity.
Qed.

(** C6.  When a move that is not a probe has been accepted and the
    player switched, and every move listed from the attack map of the
    new side to act is answered [False] by [make_move] in test mode,
    [make_move] returns [True] and the game state becomes the win of the
    side that has just moved: [BLACK_WON] when Red is to act, [RED_WON]
    when Black is.  Whether the side to act is in check plays no part. *)
Theorem C6_no_probe_succeeds_other_side_wins (g g1 g2 : XiangqiGame)
  (pos1 pos2 : string) (check : option bool) (moves : list (string * string)) :
  current_game_state g = UNFINISHED ->
  Pieces_is_valid_move (board g) (pieces_dict (pieces g)) pos1 pos2
    (current_player g) = Ok true ->
  apply_move list_of_set g pos1 pos2 = Ok g1 ->
  XiangqiGame_is_in_check g1 (current_player g1) = Ok check ->
  check <> Some true ->
  Pieces_get_all_possible_moves (pieces (XiangqiGame_switch_player g1))
    (current_player (XiangqiGame_switch_player g1)) = Ok moves ->
  all_probes_fail list_of_set (XiangqiGame_switch_player g1) moves g2 ->
  XiangqiGame_make_move list_of_set g pos1 pos2 false
  = Ok (true,
        set_game_state g2
          (winner_when_stuck (current_player (XiangqiGame_switch_player g1))))
  /\ (current_player (XiangqiGame_switch_player g1) = Board_red ->
      current_game_state
        (set_game_state g2
           (winner_when_stuck (current_player (XiangqiGame_switch_player g1))))
      = BLACK_WON)
  /\ (current_player (XiangqiGame_switch_player g1) = Board_black ->
      current_game_state
        (set_game_state g2
           (winner_when_stuck (current_player (XiangqiGame_switch_player g1))))
      = RED_WON).
Proof.
  intros Hs Hv Ha Hc Hn Hm Hp. split; [| split].
  - unfold XiangqiGame_make_move, make_move_body.
    rewrite Hs, Hv. simpl. rewrite Ha. simpl. rewrite Hc. simpl.
    rewrite (update_game_state_stuck _ _ _ Hm Hp).
    destruct check as [[|]|]; [contradiction Hn; reflexivity | reflexivity | reflexivity].
  - intros ->. reflexivity.
  - intros ->. reflexivity.
Qed.

End Termination.

Lemma C6_witness :
  XiangqiGame_make_move first_occurrences before_mate_game "b5" "e5" false
  = Ok (true, red_won_game)
  /\ current_game_state red_won_game = RED_WON.
Proof.
  pose (g1 := game_of (apply_move first_occurrences before_mate_game "b5" "e5")).
  pose (moves := match Pieces_get_all_possible_moves
                         (pieces (XiangqiGame_switch_player g1))
                         (current_player (XiangqiGame_switch_player g1)) with
                 | Ok l => l
                 | Raise _ => []
                 end).
  pose (g2 := match probe_moves first_occurrences (XiangqiGame_switch_player g1) moves with
              | Ok (_, g') => g'
              | Raise _ => empty_game
              end).
  destruct (C6_no_probe_succeeds_other_side_wins first_occurrences
              before_mate_game g1 g2 "b5" "e5" (Some false) moves) as (H & _ & Hw).
  - reflexivity.
  - vm_compute. reflexivity.
  - vm_compute. reflexivity.
  - vm_compute. reflexivity.
  - discriminate.
  - vm_compute. reflexivity.
  - apply all_probes_fail_loop. vm_compute. reflexivity.
  - split.
    + rewrite H. vm_compute. reflexivity.
    + vm_compute. reflexivity.
Defined.

(** ** The General *)

Lemma one_point_orthogonally_checked (pos1 pos2 : string) :
  Board_is_valid_pos pos1 = true -> Board_is_valid_pos pos2 = true ->
  one_point_orthogonally pos1 pos2 = Ok (one_orthogonal_step pos1 pos2).
Proof.
  intros H1 H2. apply res_bool_eqb_eq. revert pos1 pos2 H1 H2.
  apply (forall_valid_positions
           (fun p q => res_bool_eqb (one_point_orthogonally p q)
                         (Ok (one_orthogonal_step p q)))).
  vm_compute. reflexivity.
Qed.

Lemma valid_pos_coordinates (pos : string) :
  Board_is_valid_pos pos = true ->
  exists i j, Board_get_coordinates_from_pos pos = Some (i, j).
Proof.
  unfold Board_is_valid_pos.
  destruct (Board_get_coordinates_from_pos pos) as [[i j]|]; [eauto | discriminate].
Qed.

Lemma rows_index_int (r : string) (i : nat) :
  list_index r Board_rows = Ok i ->
  py_int r = Ok (Z.of_nat i + 1) /\ (i < 10)%nat.
Proof.
  intros H. pose proof (list_index_nth _ _ _ H) as Hn.
  apply nth_error_In in Hn. split_membership Hn;
    vm_compute in H; inversion H; subst; split; (reflexivity || lia).
Qed.

Lemma columns_index_ord (c : string) (j : nat) :
  list_index c Board_columns = Ok j ->
  py_ord c = Ok (97 + Z.of_nat j) /\ (j < 9)%nat
  /\ nth_error Board_columns j = Some c.
Proof.
  intros H. pose proof (list_index_nth _ _ _ H) as Hn.
  split; [| split; [| exact Hn]];
    apply nth_error_In in Hn; split_membership Hn;
    vm_compute in H; inversion H; subst; (reflexivity || lia).
Qed.

(** What the program reads off a square of the board. *)
Lemma coordinates_facts (pos : string) (i j : nat) :
  Board_get_coordinates_from_pos pos = Some (i, j) ->
  int_tail pos = Ok (Z.of_nat i + 1) /\ (i < 10)%nat /\ (j < 9)%nat
  /\ exists c, str_get0 pos = Ok c /\ nth_error Board_columns j = Some c
               /\ py_ord c = Ok (97 + Z.of_nat j).
Proof.
  intros H. apply coordinates_some in H. destruct H as (c & Hc & Hi & Hj).
  apply rows_index_int in Hi. apply columns_index_ord in Hj.
  destruct Hi as (Hi & Hlt), Hj as (Ho & Hj & Hn).
  unfold int_tail. repeat split; try assumption. exists c. auto.
Qed.

Lemma column_cells_file (layout : Layout) (j hi : nat) :
  (j < 9)%nat -> Forall (fun row => List.length row = 9%nat) layout ->
  (List.length layout <= S hi)%nat ->
  forall rows i, (i + rows = List.length layout)%nat ->
                 column_cells layout i j 0 hi rows = Ok (skipn i (file_cells layout j)).
Proof.
  intros Hj Hrows Hhi. induction rows as [|n IH]; intros i Hi; simpl.
  - rewrite skipn_all2; [reflexivity |]. unfold file_cells. rewrite length_map. lia.
  - rewrite (IH (S i)) by lia.
    replace (Nat.leb i hi) with true by (symmetry; apply Nat.leb_le; lia).
    simpl. unfold list_get.
    destruct (nth_error layout i) as [line|] eqn:Hl;
      [| apply nth_error_None in Hl; lia].
    simpl. rewrite Forall_forall in Hrows.
    specialize (Hrows line (nth_error_In _ _ Hl)).
    destruct (nth_error line j) as [v|] eqn:Hv;
      [| apply nth_error_None in Hv; lia].
    simpl. f_equal. unfold file_cells.
    assert (Hn : nth_error (map (fun row => nth j row Board_empty) layout) i = Some v).
    { rewrite nth_error_map, Hl. simpl. f_equal. now apply nth_error_nth. }
    clear - Hn. revert i Hn.
    generalize (map (fun row : list string => nth j row Board_empty) layout).
    induction l as [|a l IHl]; intros [|i] Hn; simpl in *; try discriminate.
    + inversion Hn. reflexivity.
    + now apply IHl.
Qed.

Lemma file_ends_coordinates (c : string) (j : nat) :
  nth_error Board_columns j = Some c ->
  Board_get_coordinates_from_pos (c ++ py_str 1) = Some (0%nat, j)
  /\ Board_get_coordinates_from_pos (c ++ py_str 10) = Some (9%nat, j).
Proof.
  intros H.
  do 9 (destruct j as [|j]; [inversion H; subst; split; vm_compute; reflexivity |]).
  simpl in H. destruct j; discriminate H.
Qed.

Lemma Board_get_column_file (layout : Layout) (c : string) (j : nat) :
  well_shaped layout -> nth_error Board_columns j = Some c ->
  Board_get_column layout c "1" "10" = Ok (Some (file_cells layout j)).
Proof.
  intros [Hlen Hrows] Hc. unfold Board_get_column.
  assert (Hin : str_in c Board_columns = true)
    by (apply str_in_In; eapply nth_error_In; exact Hc).
  rewrite Hin.
  replace (str_in "1" Board_rows) with true by reflexivity.
  replace (str_in "10" Board_rows) with true by reflexivity.
  cbn [negb orb].
  replace (py_int "1") with (Ok (A := Z) 1) by reflexivity.
  replace (py_int "10") with (Ok (A := Z) 10) by reflexivity.
  cbn [bind]. replace (Z.min 1 10) with 1 by reflexivity.
  replace (Z.max 1 10) with 10 by reflexivity.
  destruct (file_ends_coordinates c j Hc) as [-> ->]. cbn [fst snd].
  assert (Hj : (j < List.length Board_columns)%nat).
  { apply nth_error_Some. rewrite Hc. discriminate. }
  rewrite (column_cells_file layout j 9 Hj Hrows) by (unfold Board_height; lia).
  reflexivity.
Qed.

Lemma py_slice_range {A : Type} (l : list A) (lo hi : nat) :
  (lo <= hi <= List.length l)%nat ->
  py_slice l (Z.of_nat lo) (Z.of_nat hi) = firstn (hi - lo) (skipn lo l).
Proof.
  intros H. unfold py_slice, clamp_index, norm_index.
  replace (Z.of_nat lo <? 0) with false by (symmetry; apply Z.ltb_ge; lia).
  replace (Z.of_nat hi <? 0) with false by (symmetry; apply Z.ltb_ge; lia).
  replace (Z.to_nat (Z.min (Z.of_nat (List.length l)) (Z.max 0 (Z.of_nat lo))))
    with lo by lia.
  replace (Z.to_nat (Z.min (Z.of_nat (List.length l)) (Z.max 0 (Z.of_nat hi))))
    with hi by lia.
  reflexivity.
Qed.

Lemma all_start_with_filter (t : string) (l : list string) :
  Forall (fun cell => cell <> "") l ->
  all_start_with t (filter (fun point => negb (String.eqb point "---")) l)
  = Ok (forallb (fun cell => String.eqb cell "---" || starts_with t cell) l).
Proof.
  induction 1 as [|cell l Hc _ IH]; [reflexivity |].
  cbn [filter forallb].
  destruct (String.eqb cell "---") eqn:E; cbn [negb orb andb]; [exact IH |].
  unfold starts_with. destruct cell as [|a r]; [contradiction Hc; reflexivity |].
  cbn [all_start_with str_get0 bind].
  destruct (String.eqb (String a "") t); cbn [andb]; [exact IH | reflexivity].
Qed.

Lemma forallb_slice {A : Type} (f : A -> bool) (d : A) (l : list A) (lo n : nat) :
  (lo + n <= List.length l)%nat ->
  forallb f (firstn n (skipn lo l)) = forallb (fun i => f (nth i l d)) (seq lo n).
Proof.
  revert l lo. induction n as [|n IH]; intros l lo H; simpl; [reflexivity |].
  destruct (skipn lo l) as [|a r] eqn:E.
  - assert (List.length (skipn lo l) = 0%nat) by (rewrite E; reflexivity).
    rewrite length_skipn in H0. lia.
  - simpl. assert (Ha : nth lo l d = a).
    { rewrite <- (firstn_skipn lo l) at 1. rewrite app_nth2; rewrite length_firstn;
        [| lia]. replace (lo - Nat.min lo (List.length l))%nat with 0%nat by lia.
      rewrite E. reflexivity. }
    rewrite Ha. f_equal.
    assert (Hr : r = skipn (S lo) l).
    { replace (S lo) with (1 + lo)%nat by lia. rewrite <- skipn_skipn, E. reflexivity. }
    rewrite Hr. apply IH. lia.
Qed.

Lemma nth_set_nth {A : Type} (l : list A) (k i : nat) (v d : A) :
  (k < List.length l)%nat ->
  nth i (set_nth l k v) d = if Nat.eqb i k then v else nth i l d.
Proof.
  revert k i. induction l as [|a l IH]; intros k i H; simpl in H; [lia |].
  destruct k as [|k], i as [|i]; simpl; try reflexivity.
  apply IH. lia.
Qed.

Lemma length_set_nth {A : Type} (l : list A) (k : nat) (v : A) :
  List.length (set_nth l k v) = List.length l.
Proof.
  revert k. induction l as [|a l IH]; intros [|k]; simpl; auto.
Qed.

Lemma Forall_set_nth {A : Type} (P : A -> Prop) (l : list A) (k : nat) (v : A) :
  Forall P l -> P v -> Forall P (set_nth l k v).
Proof.
  intros Hl Hv. revert k.
  induction Hl as [|a l Ha Hl IH]; intros [|k]; simpl; constructor; auto.
Qed.

Lemma cell_at_file (layout : Layout) (i j : nat) :
  well_shaped layout -> (i < 10)%nat -> (j < 9)%nat ->
  cell_at layout i j = Some (nth i (file_cells layout j) Board_empty).
Proof.
  intros [Hlen Hrows] Hi Hj. unfold cell_at, file_cells.
  destruct (nth_error layout i) as [row|] eqn:Hr;
    [| apply nth_error_None in Hr; lia].
  rewrite Forall_forall in Hrows. specialize (Hrows row (nth_error_In _ _ Hr)).
  erewrite nth_error_nth; [| rewrite nth_error_map, Hr; reflexivity].
  apply nth_error_nth'. lia.
Qed.

Lemma file_cells_nonempty (layout : Layout) (j : nat) :
  well_shaped layout -> cells_nonempty layout -> (j < 9)%nat ->
  Forall (fun cell => cell <> "") (file_cells layout j).
Proof.
  intros [Hlen Hrows] Hne Hj. unfold file_cells, cells_nonempty in *.
  rewrite Forall_forall in *. intros cell Hin. apply in_map_iff in Hin.
  destruct Hin as (row & <- & Hrow). specialize (Hne row Hrow).
  rewrite Forall_forall in Hne. apply Hne. apply nth_In.
  rewrite (Hrows row Hrow). exact Hj.
Qed.

Lemma columns_injective (j j' : nat) (c : string) :
  nth_error Board_columns j = Some c -> nth_error Board_columns j' = Some c ->
  j = j'.
Proof.
  intros H H'.
  do 9 (destruct j as [|j];
        [inversion H; subst;
         do 9 (destruct j' as [|j']; [first [reflexivity | discriminate H'] |]);
         simpl in H'; destruct j'; discriminate H' |]).
  simpl in H. destruct j; discriminate H.
Qed.

Lemma forallb_negb_existsb {A : Type} (g h : A -> bool) (l : list A) :
  (forall x, In x l -> g x = negb (h x)) ->
  forallb g l = negb (existsb h l).
Proof.
  induction l as [|a l IH]; intros H; simpl; [reflexivity |].
  rewrite (H a) by (left; reflexivity). rewrite IH by (intros; apply H; right; assumption).
  now rewrite negb_orb.
Qed.

Lemma forallb_seq_ends (g : nat -> bool) (lo n : nat) :
  g lo = true -> g (lo + S n)%nat = true ->
  forallb g (seq lo (S (S n))) = forallb g (seq (S lo) n).
Proof.
  intros Hlo Hhi. change (seq lo (S (S n))) with (lo :: seq (S lo) (S n)).
  rewrite seq_S. cbn [forallb]. rewrite forallb_app, Hlo.
  replace (S lo + n)%nat with (lo + S n)%nat by lia.
  cbn [forallb andb]. rewrite Hhi. now rewrite !andb_true_r.
Qed.

(** The test at the heart of the flying-general rule: on the file with
    the destination marked, every cell from one General to the other is
    empty or a General exactly when no other piece stands strictly
    between them. *)
Lemma generals_see_each_other (layout : Layout) (j i2 ie : nat) :
  well_shaped layout -> (i2 < 10)%nat -> (ie < 10)%nat -> (j < 9)%nat ->
  starts_with "G" (nth ie (file_cells layout j) Board_empty) = true ->
  forallb (fun cell => String.eqb cell "---" || starts_with "G" cell)
    (firstn (S (Nat.max i2 ie) - Nat.min i2 ie)
       (skipn (Nat.min i2 ie) (set_nth (file_cells layout j) i2 "G")))
  = negb (non_general_between layout j (Nat.min i2 ie) (Nat.max i2 ie)).
Proof.
  intros Hw H2 He Hj Hg.
  assert (Hlen : List.length (file_cells layout j) = 10%nat).
  { unfold file_cells. rewrite length_map. apply Hw. }
  rewrite (forallb_slice _ Board_empty)
    by (rewrite length_set_nth, Hlen; lia).
  set (g := fun i => String.eqb (nth i (set_nth (file_cells layout j) i2 "G") Board_empty) "---"
                     || starts_with "G" (nth i (set_nth (file_cells layout j) i2 "G") Board_empty)).
  assert (G2 : g i2 = true).
  { unfold g. rewrite nth_set_nth by lia. rewrite Nat.eqb_refl. reflexivity. }
  assert (Ge : g ie = true).
  { destruct (Nat.eq_dec ie i2) as [->|Hne]; [exact G2 |].
    unfold g. rewrite nth_set_nth by lia.
    apply Nat.eqb_neq in Hne. rewrite Hne, Hg. apply orb_true_r. }
  assert (Gmin : g (Nat.min i2 ie) = true)
    by (destruct (Nat.min_dec i2 ie) as [->| ->]; assumption).
  assert (Gmax : g (Nat.max i2 ie) = true)
    by (destruct (Nat.max_dec i2 ie) as [->| ->]; assumption).
  assert (Hmid : forallb g (seq (S (Nat.min i2 ie)) (Nat.max i2 ie - Nat.min i2 ie - 1))
                 = negb (non_general_between layout j (Nat.min i2 ie) (Nat.max i2 ie))).
  { unfold non_general_between. apply forallb_negb_existsb.
    intros i Hi. apply in_seq in Hi.
    rewrite cell_at_file by (assumption || lia).
    unfold g. rewrite nth_set_nth by lia.
    replace (Nat.eqb i i2) with false by (symmetry; apply Nat.eqb_neq; lia).
    unfold non_general_piece, Board_empty.
    rewrite negb_andb, !negb_involutive. reflexivity. }
  destruct (Nat.eq_dec i2 ie) as [->|Hne].
  - rewrite Nat.min_id, Nat.max_id in *.
    replace (S ie - ie)%nat with 1%nat by lia.
    rewrite <- Hmid. replace (ie - ie - 1)%nat with 0%nat by lia.
    cbn [seq forallb]. fold g. now rewrite Gmin.
  - rewrite <- Hmid.
    replace (S (Nat.max i2 ie) - Nat.min i2 ie)%nat
      with (S (S (Nat.max i2 ie - Nat.min i2 ie - 1))) by lia.
    apply (forallb_seq_ends g); [exact Gmin |].
    replace (Nat.min i2 ie + S (Nat.max i2 ie - Nat.min i2 ie - 1))%nat
      with (Nat.max i2 ie) by lia.
    exact Gmax.
Qed.

(** C3.  For a General's move of one orthogonal square into the mover's
    own palace, the General's validation answers [False] when the two
    Generals would then stand on one file with no piece other than a
    General between them, and [True] otherwise. *)
Theorem C3_general_flying_rule (self : Piece) (pos1 pos2 : string)
  (layout : Layout) (ps : dict Piece) (player : string) :
  p_type self = "G" ->
  well_shaped layout -> cells_nonempty layout ->
  Board_is_valid_pos pos1 = true ->
  Board_is_valid_pos pos2 = true ->
  Board_is_in_palace pos2 player = true ->
  one_orthogonal_step pos1 pos2 = true ->
  (forall enemy_general,
      Pieces_get_piece_by_label ps (enemy_general_label player) = Some enemy_general ->
      Board_is_valid_pos (p_pos enemy_general) = true
      /\ general_shown layout (p_pos enemy_general)) ->
  General_is_valid_move self pos1 pos2 layout ps player
  = Ok (negb (flying_general layout ps player pos2)).
Proof.
  intros Ht Hw Hne H1 H2 Hpal Hstep Henemy.
  unfold General_is_valid_move, flying_general.
  rewrite Hpal. cbn [negb].
  rewrite (one_point_orthogonally_checked pos1 pos2 H1 H2), Hstep. cbn [bind negb].
  fold (enemy_general_label player).
  destruct (Pieces_get_piece_by_label ps (enemy_general_label player))
    as [eg|] eqn:Heg; [| reflexivity].
  destruct (Henemy eg eq_refl) as (Hev & cell & Hcell & HG).
  destruct (valid_pos_coordinates _ H2) as (i2 & j2 & C2).
  destruct (valid_pos_coordinates _ Hev) as (ie & je & Ce).
  destruct (coordinates_facts _ _ _ C2) as (I2 & L2 & J2 & c2 & G2 & N2 & O2).
  destruct (coordinates_facts _ _ _ Ce) as (Ie & Le & Je & ce & Ge & Ne & Oe).
  unfold generals_face. rewrite C2, Ce.
  rewrite Ge, G2. cbn [bind].
  destruct (String.eqb ce c2) eqn:Efile.
  - apply String.eqb_eq in Efile. subst ce.
    assert (je = j2) by (eapply columns_injective; eassumption). subst je.
    rewrite Nat.eqb_refl. cbn [andb].
    rewrite (Board_get_column_file layout c2 j2 Hw N2). cbn [bind].
    rewrite I2, Ie. cbn [bind].
    assert (Hlen : List.length (file_cells layout j2) = 10%nat).
    { unfold file_cells. rewrite length_map. apply Hw. }
    unfold py_list_set, norm_index. rewrite Hlen.
    replace (Z.of_nat i2 + 1 - 1) with (Z.of_nat i2) by lia.
    replace (Z.of_nat ie + 1 - 1) with (Z.of_nat ie) by lia.
    replace (Z.of_nat i2 <? 0) with false by (symmetry; apply Z.ltb_ge; lia).
    replace ((0 <=? Z.of_nat i2) && (Z.of_nat i2 <? Z.of_nat 10)) with true
      by (symmetry; apply andb_true_iff; split; [apply Z.leb_le | apply Z.ltb_lt]; lia).
    cbn [bind]. rewrite Nat2Z.id.
    replace (Z.min (Z.of_nat i2) (Z.of_nat ie)) with (Z.of_nat (Nat.min i2 ie)) by lia.
    replace (Z.max (Z.of_nat i2 + 1) (Z.of_nat ie + 1))
      with (Z.of_nat (S (Nat.max i2 ie))) by lia.
    rewrite py_slice_range by (rewrite length_set_nth, Hlen; lia).
    rewrite Ht.
    rewrite all_start_with_filter.
    + cbn [bind].
      assert (HG' : starts_with "G" (nth ie (file_cells layout j2) Board_empty) = true).
      { unfold Board_get_value_at_pos in Hcell. rewrite Ce in Hcell.
        fold (cell_at layout ie j2) in Hcell.
        rewrite cell_at_file in Hcell by assumption.
        inversion Hcell. subst. exact HG. }
      rewrite (generals_see_each_other layout j2 i2 ie Hw L2 Le J2 HG').
      destruct (non_general_between layout j2 (Nat.min i2 ie) (Nat.max i2 ie));
        reflexivity.
    + apply Forall_forall. intros x Hx.
      apply In_nth with (d := Board_empty) in Hx. destruct Hx as (n & Hn & <-).
      rewrite length_firstn, length_skipn, length_set_nth, Hlen in Hn.
      rewrite nth_firstn.
      replace (Nat.ltb n (S (Nat.max i2 ie) - Nat.min i2 ie)) with true
        by (symmetry; apply Nat.ltb_lt; lia).
      rewrite nth_skipn.
      assert (Hall : Forall (fun cell => cell <> "")
                       (set_nth (file_cells layout j2) i2 "G")).
      { apply Forall_set_nth; [now apply file_cells_nonempty | discriminate]. }
      rewrite Forall_forall in Hall. apply Hall. apply nth_In.
      rewrite length_set_nth, Hlen. lia.
  - assert (je <> j2).
    { intros ->. rewrite N2 in Ne. inversion Ne. subst.
      rewrite String.eqb_refl in Efile. discriminate. }
    replace (Nat.eqb j2 je) with false by (symmetry; apply Nat.eqb_neq; auto).
    reflexivity.
Qed.

Lemma start_layout_well_shaped : well_shaped Board_start_layout.
Proof. split; [reflexivity | repeat constructor]. Qed.

Lemma start_layout_cells_nonempty : cells_nonempty Board_start_layout.
Proof. repeat constructor; discriminate. Qed.

Lemma C3_witness :
  General_is_valid_move red_general "e1" "e2" (board start_game)
    (pieces_dict (pieces start_game)) "R"
  = Ok (negb (flying_general (board start_game) (pieces_dict (pieces start_game))
                "R" "e2"))
  /\ flying_general (board start_game) (pieces_dict (pieces start_game)) "R" "e2"
     = false.
Proof.
  split; [| vm_compute; reflexivity].
  apply (C3_general_flying_rule red_general "e1" "e2" (board start_game)
           (pieces_dict (pieces start_game)) "R").
  - reflexivity.
  - exact start_layout_well_shaped.
  - exact start_layout_cells_nonempty.
  - vm_compute. reflexivity.
  - vm_compute. reflexivity.
  - vm_compute. reflexivity.
  - vm_compute. reflexivity.
  - intros eg Heg. vm_compute in Heg. inversion Heg. subst. split.
    + vm_compute. reflexivity.
    + exists "GB1". split; vm_compute; reflexivity.
Defined.

(** The rule at work on a bare board: with nothing on the [e] file but
    the Black General, the Red General may not step from [d1] to [e1],
    and it may once a piece stands between. *)
Example flying_general_rejected :
  General_is_valid_move red_general "d1" "e1" open_file_layout
    open_file_pieces "R" = Ok false
  /\ General_is_valid_move red_general "d1" "e1" screened_file_layout
       screened_file_pieces "R" = Ok true.
Proof. split; vm_compute; reflexivity. Qed.

(** ** The Cannon *)

Lemma directions_checked_all (pos1 pos2 : string) :
  Board_is_valid_pos pos1 = true -> Board_is_valid_pos pos2 = true ->
  directions_checked pos1 pos2 = true.
Proof.
  revert pos1 pos2. apply forall_valid_positions. vm_compute. reflexivity.
Qed.

Lemma lines_checked_all (pos : string) :
  Board_is_valid_pos pos = true -> lines_checked pos = true.
Proof.
  intros H. apply valid_pos_in in H. revert pos H. apply forallb_forall.
  vm_compute. reflexivity.
Qed.

Lemma nodup_strings_NoDup (l : list string) : nodup_strings l = true -> NoDup l.
Proof.
  induction l as [|x r IH]; simpl; intros H; constructor.
  - apply andb_true_iff in H. destruct H as [H _].
    intros Hin. apply str_in_In in Hin. rewrite Hin in H. discriminate.
  - apply IH. apply andb_true_iff in H. apply H.
Qed.

Lemma value_at_valid (layout : Layout) (pos : string) :
  well_shaped layout -> Board_is_valid_pos pos = true ->
  exists cell row, Board_get_value_at_pos layout pos = Some cell
                   /\ In row layout /\ In cell row.
Proof.
  intros [Hlen Hrows] Hv. destruct (valid_pos_coordinates _ Hv) as (i & j & C).
  destruct (coordinates_facts _ _ _ C) as (_ & Hi & Hj & _).
  unfold Board_get_value_at_pos. rewrite C.
  destruct (nth_error layout i) as [row|] eqn:Hr;
    [| apply nth_error_None in Hr; lia].
  rewrite Forall_forall in Hrows.
  pose proof (Hrows row (nth_error_In _ _ Hr)) as Hl.
  destruct (nth_error row j) as [cell|] eqn:Hc;
    [| apply nth_error_None in Hc; lia].
  exists cell, row. repeat split; eauto using nth_error_In.
Qed.

Lemma value_at_labelled (layout : Layout) (pos : string) :
  well_shaped layout -> cells_labelled layout -> Board_is_valid_pos pos = true ->
  exists cell c, Board_get_value_at_pos layout pos = Some cell
                 /\ str_get1 cell = Ok c.
Proof.
  intros Hw Hl Hv. destruct (value_at_valid layout pos Hw Hv) as (cell & row & Hc & Hr & Hin).
  unfold cells_labelled in Hl. rewrite Forall_forall in Hl.
  specialize (Hl row Hr). rewrite Forall_forall in Hl.
  destruct (Hl cell Hin) as (c & Hcc). eauto.
Qed.

Section CannonScan.

Variable layout : Layout.
Variable color : string.

(** The scan never raises on squares of the board and keeps only squares
    of the direction it follows. *)
Lemma Cannon_filter_side_loop_ok (side : list string) :
  Forall (scannable layout) side ->
  forall leaped,
  exists out, Cannon_filter_side_loop color leaped side layout = Ok out
              /\ forall p, In p out -> In p side.
Proof.
  induction 1 as [|q r (cell & c & Hv & Hc) _ IH]; intros leaped; simpl.
  - exists []. auto.
  - rewrite Hv. destruct (String.eqb cell Board_empty) eqn:E; cbn [negb].
    + destruct (IH leaped) as (rest & -> & Hsub). cbn [bind].
      destruct leaped; cbn [negb]; eexists; (split; [reflexivity |]);
        simpl; intuition.
    + destruct leaped; cbn [negb]; rewrite Hc; cbn [bind].
      * destruct (String.eqb c color); cbn [negb]; eexists;
          (split; [reflexivity |]); simpl; intuition.
      * destruct (IH true) as (rest & -> & Hsub). cbn [bind].
        destruct (String.eqb c color); eexists; (split; [reflexivity |]);
          simpl; intuition.
Qed.

(** A square of the direction is kept exactly when the pieces met before
    it and its own content allow it. *)
Lemma Cannon_filter_side_loop_keeps (side : list string) :
  Forall (scannable layout) side -> NoDup side ->
  forall leaped p pre cell out,
    before_in p side = Some pre ->
    Board_get_value_at_pos layout p = Some cell ->
    Cannon_filter_side_loop color leaped side layout = Ok out ->
    (In p out <->
     cannon_keeps color (count_occupied layout pre + flag_count leaped) cell = true).
Proof.
  induction 1 as [|q r (qcell & c & Hv & Hc) Hr IH];
    intros Hnd leaped p pre cell out Hpre Hcell Hout; [discriminate Hpre |].
  inversion Hnd as [|? ? Hq Hnd']; subst.
  cbn [before_in] in Hpre. cbn [Cannon_filter_side_loop] in Hout.
  rewrite Hv in Hout.
  destruct (Cannon_filter_side_loop_ok r Hr leaped) as (rest & Hrest & Hsub).
  destruct (Cannon_filter_side_loop_ok r Hr true) as (rest1 & Hrest1 & Hsub1).
  destruct (String.eqb q p) eqn:Eqp.
  - apply String.eqb_eq in Eqp. subst q. inversion Hpre; subst pre.
    rewrite Hv in Hcell. inversion Hcell; subst qcell.
    unfold cannon_keeps, count_occupied. cbn [filter List.length Nat.add].
    destruct (String.eqb cell Board_empty) eqn:E; cbn [negb] in Hout.
    + rewrite Hrest in Hout. cbn [bind] in Hout.
      destruct leaped; cbn [negb flag_count] in *; inversion Hout; subst out.
      * split; [intros Hin; exfalso; apply Hq, Hsub, Hin | discriminate].
      * split; [reflexivity | intros _; left; reflexivity].
    + rewrite Hc in *. cbn [bind] in Hout.
      destruct leaped; cbn [negb flag_count] in *.
      * destruct (String.eqb c color); cbn [negb] in Hout; inversion Hout; subst out.
        -- split; [intros [] | discriminate].
        -- split; [reflexivity | intros _; left; reflexivity].
      * rewrite Hrest1 in Hout. cbn [bind] in Hout.
        destruct (String.eqb c color); inversion Hout; subst out.
        -- split; [reflexivity | intros _; left; reflexivity].
        -- split; [intros Hin; exfalso; apply Hq, Hsub1, Hin | discriminate].
  - destruct (before_in p r) as [pre'|] eqn:Hpre'; [| discriminate Hpre].
    cbn [option_map] in Hpre. inversion Hpre; subst pre.
    assert (Hne : q <> p) by (apply String.eqb_neq; exact Eqp).
    unfold count_occupied. cbn [filter]. unfold occupied at 1. rewrite Hv.
    destruct (String.eqb qcell Board_empty) eqn:E; cbn [negb] in *.
    + rewrite Hrest in Hout. cbn [bind] in Hout.
      fold (count_occupied layout pre').
      rewrite <- (IH Hnd' leaped p pre' cell rest Hpre' Hcell Hrest).
      destruct leaped; cbn [negb] in Hout; inversion Hout; subst out;
        simpl; intuition.
    + rewrite Hc in Hout. cbn [bind] in Hout. cbn [List.length].
      fold (count_occupied layout pre').
      destruct leaped; cbn [negb flag_count] in *.
      * assert (Hno : cannon_keeps color (S (count_occupied layout pre') + 1) cell = false).
        { unfold cannon_keeps. replace (S (count_occupied layout pre') + 1)%nat
            with (S (S (count_occupied layout pre'))) by lia.
          destruct (String.eqb cell Board_empty); [reflexivity |].
          destruct (str_get1 cell); [| reflexivity].
          destruct (String.eqb a color); reflexivity. }
        rewrite Hno.
        destruct (String.eqb c color); cbn [negb] in Hout; inversion Hout; subst out;
          simpl; split; try discriminate; intuition.
      * rewrite Hrest1 in Hout. cbn [bind] in Hout.
        replace (S (count_occupied layout pre') + 0)%nat
          with (count_occupied layout pre' + flag_count true)%nat
          by (cbn [flag_count]; lia).
        rewrite <- (IH Hnd' true p pre' cell rest1 Hpre' Hcell Hrest1).
        destruct (String.eqb c color); inversion Hout; subst out; simpl; intuition.
Qed.

End CannonScan.

Lemma list_string_eqb_eq (a b : list string) : list_string_eqb a b = true -> a = b.
Proof.
  revert b. induction a as [|x a IH]; intros [|y b]; simpl; intros H;
    try discriminate; [reflexivity |].
  apply andb_true_iff in H. destruct H as [H1 H2].
  apply String.eqb_eq in H1. f_equal; auto.
Qed.

Lemma filter_rev_length {A : Type} (f : A -> bool) (l : list A) :
  List.length (filter f (rev l)) = List.length (filter f l).
Proof.
  induction l as [|a l IH]; simpl; [reflexivity |].
  rewrite filter_app, length_app, IH. simpl.
  destruct (f a); simpl; lia.
Qed.

Lemma ord0_valid (pos : string) :
  Board_is_valid_pos pos = true -> exists n, ord0 pos = Ok n.
Proof.
  intros H. destruct (valid_pos_coordinates _ H) as (i & j & C).
  destruct (coordinates_facts _ _ _ C) as (_ & _ & _ & c & Hc & _ & Ho).
  unfold ord0. rewrite Hc. cbn [bind]. eauto.
Qed.

Lemma int_tail_valid (pos : string) :
  Board_is_valid_pos pos = true -> exists n, int_tail pos = Ok n.
Proof.
  intros H. destruct (valid_pos_coordinates _ H) as (i & j & C).
  destruct (coordinates_facts _ _ _ C) as (Hi & _). eauto.
Qed.

Lemma get_offsets_from_positions_ok (target_pos : string) (pos_list : list string) :
  Board_is_valid_pos target_pos = true ->
  Forall (fun p => Board_is_valid_pos p = true) pos_list ->
  exists offsets, get_offsets_from_positions target_pos pos_list = Ok offsets.
Proof.
  intros Ht. destruct (ord0_valid _ Ht) as (b & Hb).
  destruct (int_tail_valid _ Ht) as (d & Hd).
  induction 1 as [|move r Hm _ (rest & IH)]; simpl; [eauto |].
  destruct (ord0_valid _ Hm) as (a & ->). destruct (int_tail_valid _ Hm) as (c & ->).
  rewrite Hb, Hd, IH. cbn [bind]. eauto.
Qed.

(** The lines of a square of the board, as [_update_ranges] obtains them. *)
Lemma lines_facts (pos : string) :
  Board_is_valid_pos pos = true ->
  exists f,
    Board_get_row_positions (str_tail pos) "a" "i" = Ok (Some (row_line pos))
    /\ str_get0 pos = Ok f
    /\ Board_get_column_positions f "1" "10" = Ok (Some (col_line pos))
    /\ list_index pos (row_line pos) = Ok (index_in pos (row_line pos))
    /\ list_index pos (col_line pos) = Ok (index_in pos (col_line pos))
    /\ Forall (fun p => Board_is_valid_pos p = true) (row_line pos)
    /\ Forall (fun p => Board_is_valid_pos p = true) (col_line pos)
    /\ NoDup (row_line pos) /\ NoDup (col_line pos).
Proof.
  intros H. pose proof (lines_checked_all pos H) as L.
  unfold lines_checked in L. unfold row_line, col_line, index_in.
  destruct (Board_get_row_positions (str_tail pos) "a" "i") as [[row|]|] eqn:Er;
    try discriminate L.
  destruct (str_get0 pos) as [f|] eqn:Ef; try discriminate L.
  destruct (Board_get_column_positions f "1" "10") as [[col|]|] eqn:Ec;
    try discriminate L.
  destruct (list_index pos row) as [i|] eqn:Ei; try discriminate L.
  destruct (list_index pos col) as [k|] eqn:Ek; try discriminate L.
  apply andb_true_iff in L. destruct L as [L Nc].
  apply andb_true_iff in L. destruct L as [L Nr].
  apply andb_true_iff in L. destruct L as [Vr Vc].
  exists f. rewrite Ec.
  split; [reflexivity |]. split; [reflexivity |]. split; [reflexivity |].
  split; [reflexivity |]. split; [reflexivity |].
  split; [apply Forall_forall; now apply forallb_forall |].
  split; [apply Forall_forall; now apply forallb_forall |].
  split; now apply nodup_strings_NoDup.
Qed.

Lemma side_before_sub (pos : string) (arr : list string) (p : string) :
  In p (side_before pos arr) -> In p arr.
Proof.
  unfold side_before. intros H. apply in_rev in H.
  rewrite <- (firstn_skipn (index_in pos arr) arr). apply in_or_app. now left.
Qed.

Lemma side_after_sub (pos : string) (arr : list string) (p : string) :
  In p (side_after pos arr) -> In p arr.
Proof.
  unfold side_after. intros H.
  rewrite <- (firstn_skipn (index_in pos arr + 1) arr). apply in_or_app. now right.
Qed.

Lemma side_before_NoDup (pos : string) (arr : list string) :
  NoDup arr -> NoDup (side_before pos arr).
Proof.
  unfold side_before. intros H. apply NoDup_rev.
  rewrite <- (firstn_skipn (index_in pos arr) arr) in H.
  now apply NoDup_app_remove_r in H.
Qed.

Lemma side_after_NoDup (pos : string) (arr : list string) :
  NoDup arr -> NoDup (side_after pos arr).
Proof.
  unfold side_after. intros H.
  rewrite <- (firstn_skipn (index_in pos arr + 1) arr) in H.
  now apply NoDup_app_remove_l in H.
Qed.

Section CannonRange.

Variable layout : Layout.
Hypothesis layout_shape : well_shaped layout.
Hypothesis layout_labels : cells_labelled layout.

Lemma valid_scannable (l : list string) :
  Forall (fun p => Board_is_valid_pos p = true) l -> Forall (scannable layout) l.
Proof.
  intros H. eapply Forall_impl; [| exact H].
  intros p Hp. now apply value_at_labelled.
Qed.

(** One line of [_filter_range_by_closest_pieces] for a Cannon. *)
Lemma Cannon_filter_range (self : Piece) (pos : string) (arr : list string) :
  p_class self = Cannon ->
  list_index pos arr = Ok (index_in pos arr) ->
  Forall (fun p => Board_is_valid_pos p = true) arr ->
  exists before after,
    Cannon_filter_side_loop (p_color self) false (side_before pos arr) layout = Ok before
    /\ Cannon_filter_side_loop (p_color self) false (side_after pos arr) layout = Ok after
    /\ Chariot_filter_range_by_closest_pieces self pos (Some arr) layout
       = Ok (rev before ++ [pos] ++ after)%list.
Proof.
  intros Hc Hi Hv.
  assert (Hb : Forall (scannable layout) (side_before pos arr)).
  { apply valid_scannable. rewrite Forall_forall in *. intros p Hp.
    apply Hv. eapply side_before_sub. exact Hp. }
  assert (Ha : Forall (scannable layout) (side_after pos arr)).
  { apply valid_scannable. rewrite Forall_forall in *. intros p Hp.
    apply Hv. eapply side_after_sub. exact Hp. }
  destruct (Cannon_filter_side_loop_ok layout (p_color self) _ Hb false)
    as (before & Eb & _).
  destruct (Cannon_filter_side_loop_ok layout (p_color self) _ Ha false)
    as (after & Ea & _).
  exists before, after. repeat split; try assumption.
  unfold Chariot_filter_range_by_closest_pieces, filter_side_of_piece,
    Cannon_filter_side_of_piece.
  rewrite Hc, Hi. cbn [bind].
  fold (side_before pos arr). rewrite Eb. cbn [bind].
  fold (side_after pos arr). rewrite Ea. reflexivity.
Qed.

Lemma side_off (color pos2 : string) (side out : list string) :
  Forall (scannable layout) side ->
  off_side pos2 side = true ->
  Cannon_filter_side_loop color false side layout = Ok out ->
  ~ In pos2 out.
Proof.
  intros Hs Hoff Hout Hin.
  destruct (Cannon_filter_side_loop_ok layout color side Hs false) as (out' & E & Hsub).
  rewrite E in Hout. inversion Hout; subst out'.
  apply Hsub in Hin. apply str_in_In in Hin.
  unfold off_side in Hoff. rewrite Hin in Hoff. discriminate.
Qed.

Lemma side_reach (color pos1 pos2 cell : string) (side out : list string) :
  Forall (scannable layout) side -> NoDup side ->
  reaches pos1 pos2 side = true ->
  Board_get_value_at_pos layout pos2 = Some cell ->
  Cannon_filter_side_loop color false side layout = Ok out ->
  (In pos2 out <-> cannon_keeps color (pieces_between layout pos1 pos2) cell = true).
Proof.
  intros Hs Hnd Hr Hcell Hout. unfold reaches in Hr.
  destruct (before_in pos2 side) as [pre|] eqn:Hpre; [| discriminate Hr].
  rewrite (Cannon_filter_side_loop_keeps layout color side Hs Hnd false pos2 pre
             cell out Hpre Hcell Hout).
  cbn [flag_count]. rewrite Nat.add_0_r.
  assert (Hcount : count_occupied layout pre = pieces_between layout pos1 pos2).
  { unfold count_occupied, pieces_between.
    apply orb_true_iff in Hr. destruct Hr as [E|E];
      apply list_string_eqb_eq in E; subst pre;
      [reflexivity | apply filter_rev_length]. }
  rewrite Hcount. reflexivity.
Qed.

End CannonRange.

Lemma bool_eq_iff (a b : bool) : (a = true <-> b = true) -> a = b.
Proof.
  destruct a, b; intros [H1 H2]; try reflexivity.
  - symmetry. now apply H1.
  - now apply H2.
Qed.

Section CannonRule.

Variable list_of_set : list Offset -> list Offset.

(** The range of a Cannon after [_update_ranges]: a square of one of its
    lines other than its own is in [_pos_range] exactly when the scan
    keeps it. *)
Lemma Cannon_update_ranges (self : Piece) (layout : Layout) (pos1 : string) :
  p_class self = Cannon ->
  well_shaped layout -> cells_labelled layout ->
  Board_is_valid_pos pos1 = true ->
  exists self1,
    Chariot_update_ranges list_of_set self pos1 layout = Ok self1
    /\ forall pos2 cell,
         Board_is_valid_pos pos2 = true -> pos1 <> pos2 ->
         same_line pos1 pos2 = true ->
         Board_get_value_at_pos layout pos2 = Some cell ->
         str_in pos2 (p_pos_range self1)
         = cannon_keeps (p_color self) (pieces_between layout pos1 pos2) cell.
Proof.
  intros Hc Hw Hl H1.
  destruct (lines_facts pos1 H1) as (f & Er & Ef & Ec & Ir & Ic & Vr & Vc & Nr & Nc).
  destruct (Cannon_filter_range layout Hw Hl self pos1 (row_line pos1) Hc Ir Vr)
    as (l & r & Ll & Lr & Erow).
  destruct (Cannon_filter_range layout Hw Hl self pos1 (col_line pos1) Hc Ic Vc)
    as (d & u & Ld & Lu & Ecol).
  assert (Sl : Forall (scannable layout) (side_before pos1 (row_line pos1))).
  { apply valid_scannable; try assumption. rewrite Forall_forall in *.
    intros p Hp. apply Vr. eapply side_before_sub. exact Hp. }
  assert (Sr : Forall (scannable layout) (side_after pos1 (row_line pos1))).
  { apply valid_scannable; try assumption. rewrite Forall_forall in *.
    intros p Hp. apply Vr. eapply side_after_sub. exact Hp. }
  assert (Sd : Forall (scannable layout) (side_before pos1 (col_line pos1))).
  { apply valid_scannable; try assumption. rewrite Forall_forall in *.
    intros p Hp. apply Vc. eapply side_before_sub. exact Hp. }
  assert (Su : Forall (scannable layout) (side_after pos1 (col_line pos1))).
  { apply valid_scannable; try assumption. rewrite Forall_forall in *.
    intros p Hp. apply Vc. eapply side_after_sub. exact Hp. }
  assert (Vrow : Forall (fun p => Board_is_valid_pos p = true)
                   (rev l ++ [pos1] ++ r)%list).
  { destruct (Cannon_filter_side_loop_ok layout (p_color self) _ Sl false)
      as (l' & El & Hsl).
    destruct (Cannon_filter_side_loop_ok layout (p_color self) _ Sr false)
      as (r' & Er' & Hsr).
    rewrite El in Ll. inversion Ll; subst l'.
    rewrite Er' in Lr. inversion Lr; subst r'.
    rewrite Forall_forall in *. intros p Hp.
    apply in_app_or in Hp. destruct Hp as [Hp|Hp].
    - apply in_rev in Hp. apply Vr. eapply side_before_sub. apply Hsl. exact Hp.
    - simpl in Hp. destruct Hp as [Hp|Hp]; [subst p; exact H1 |].
      apply Vr. eapply side_after_sub. apply Hsr. exact Hp. }
  assert (Vcol : Forall (fun p => Board_is_valid_pos p = true)
                   (rev d ++ [pos1] ++ u)%list).
  { destruct (Cannon_filter_side_loop_ok layout (p_color self) _ Sd false)
      as (d' & Ed & Hsd).
    destruct (Cannon_filter_side_loop_ok layout (p_color self) _ Su false)
      as (u' & Eu & Hsu).
    rewrite Ed in Ld. inversion Ld; subst d'.
    rewrite Eu in Lu. inversion Lu; subst u'.
    rewrite Forall_forall in *. intros p Hp.
    apply in_app_or in Hp. destruct Hp as [Hp|Hp].
    - apply in_rev in Hp. apply Vc. eapply side_before_sub. apply Hsd. exact Hp.
    - simpl in Hp. destruct Hp as [Hp|Hp]; [subst p; exact H1 |].
      apply Vc. eapply side_after_sub. apply Hsu. exact Hp. }
  destruct (get_offsets_from_positions_ok pos1 _ H1 Vrow) as (h & Eh).
  destruct (get_offsets_from_positions_ok pos1 _ H1 Vcol) as (v & Ev).
  eexists. split.
  - unfold Chariot_update_ranges.
    rewrite Er. cbn [bind]. rewrite Erow. cbn [bind].
    rewrite Ef. cbn [bind]. rewrite Ec. cbn [bind]. rewrite Ecol. cbn [bind].
    rewrite Eh. cbn [bind]. rewrite Ev. cbn [bind]. reflexivity.
  - intros pos2 cell H2 Hne Hline Hcell. cbn [set_ranges p_pos_range].
    apply bool_eq_iff. rewrite str_in_In.
    pose proof (directions_checked_all pos1 pos2 H1 H2) as D.
    unfold directions_checked in D.
    replace (String.eqb pos1 pos2) with false in D
      by (symmetry; apply String.eqb_neq; exact Hne).
    rewrite Hline in D. cbn [negb orb] in D.
    assert (Ol : off_side pos2 (side_before pos1 (row_line pos1)) = true ->
                 (In pos2 l <-> False)).
    { intros H. split; [| tauto]. exact (side_off layout _ pos2 _ l Sl H Ll). }
    assert (Or : off_side pos2 (side_after pos1 (row_line pos1)) = true ->
                 (In pos2 r <-> False)).
    { intros H. split; [| tauto]. exact (side_off layout _ pos2 _ r Sr H Lr). }
    assert (Od : off_side pos2 (side_before pos1 (col_line pos1)) = true ->
                 (In pos2 d <-> False)).
    { intros H. split; [| tauto]. exact (side_off layout _ pos2 _ d Sd H Ld). }
    assert (Ou : off_side pos2 (side_after pos1 (col_line pos1)) = true ->
                 (In pos2 u <-> False)).
    { intros H. split; [| tauto]. exact (side_off layout _ pos2 _ u Su H Lu). }
    pose proof (fun H => side_reach layout (p_color self) pos1 pos2 cell _ l Sl
                           (side_before_NoDup pos1 _ Nr) H Hcell Ll) as Rl.
    pose proof (fun H => side_reach layout (p_color self) pos1 pos2 cell _ r Sr
                           (side_after_NoDup pos1 _ Nr) H Hcell Lr) as Rr.
    pose proof (fun H => side_reach layout (p_color self) pos1 pos2 cell _ d Sd
                           (side_before_NoDup pos1 _ Nc) H Hcell Ld) as Rd.
    pose proof (fun H => side_reach layout (p_color self) pos1 pos2 cell _ u Su
                           (side_after_NoDup pos1 _ Nc) H Hcell Lu) as Ru.
    assert (Hin : In pos2 ((rev l ++ [pos1] ++ r) ++ rev d ++ [pos1] ++ u)%list
                  <-> In pos2 l \/ In pos2 r \/ In pos2 d \/ In pos2 u).
    { rewrite !in_app_iff. rewrite <- !in_rev. simpl. intuition. }
    rewrite Hin.
    repeat (apply orb_true_iff in D; destruct D as [D|D]);
      repeat (apply andb_true_iff in D;
              let H := fresh "D" in destruct D as [D H]);
      repeat match goal with
             | H : ?X = true, F : ?X = true -> (_ <-> _) |- _ =>
                 rewrite (F H); clear F
             end;
      tauto.
Qed.


Lemma Chariot_update_ranges_color (self self1 : Piece) (pos : string)
  (layout : Layout) :
  Chariot_update_ranges list_of_set self pos layout = Ok self1 ->
  p_color self1 = p_color self /\ p_class self1 = p_class self
  /\ p_pos self1 = p_pos self.
Proof.
  unfold Chariot_update_ranges. intros H.
  repeat (apply bind_ok in H; destruct H as (? & _ & H)).
  inversion H. subst. auto.
Qed.

(** C4.  A Cannon whose ranges have been updated on the current layout
    and that is asked for a square of its rank or file, the shared checks
    of the registry passed: onto an enemy piece the move is valid exactly
    when one piece stands strictly between origin and destination, onto
    an empty square exactly when none does. *)
Theorem C4_cannon_screen_rule (self : Piece) (layout : Layout)
  (pos1 pos2 : string) :
  p_class self = Cannon ->
  well_shaped layout -> cells_labelled layout ->
  Board_is_valid_pos pos1 = true -> Board_is_valid_pos pos2 = true ->
  pos1 <> pos2 -> same_line pos1 pos2 = true ->
  exists self1,
    Chariot_update_ranges list_of_set self pos1 layout = Ok self1
    /\ forall (ps : dict Piece) (player : string),
         Pieces_get_piece_by_pos ps pos1 = Some self1 ->
         p_color self1 = player ->
         (forall q, Pieces_get_piece_by_pos ps pos2 = Some q -> p_color q <> player) ->
         (holds_enemy layout pos2 player = true ->
          Pieces_is_valid_move layout ps pos1 pos2 player
          = Ok (Nat.eqb (pieces_between layout pos1 pos2) 1))
         /\ (occupied layout pos2 = false ->
             Pieces_is_valid_move layout ps pos1 pos2 player
             = Ok (Nat.eqb (pieces_between layout pos1 pos2) 0)).
Proof.
  intros Hc Hw Hl H1 H2 Hne Hline.
  destruct (Cannon_update_ranges self layout pos1 Hc Hw Hl H1) as (self1 & Hu & Hr).
  exists self1. split; [exact Hu |].
  intros ps player Hp1 Hcol Hdest.
  destruct (Chariot_update_ranges_color _ _ _ _ Hu) as (Hcolor & Hclass & _).
  destruct (value_at_labelled layout pos2 Hw Hl H2) as (cell & c & Hcell & Hc1).
  assert (Hvalid : Pieces_is_valid_move layout ps pos1 pos2 player
                   = Ok (cannon_keeps player (pieces_between layout pos1 pos2) cell)).
  { unfold Pieces_is_valid_move. rewrite H1, H2. cbn [negb orb].
    replace (String.eqb pos1 pos2) with false
      by (symmetry; apply String.eqb_neq; exact Hne).
    rewrite Hp1, Hcol, String.eqb_refl. cbn [negb].
    assert (Hfriend : match Pieces_get_piece_by_pos ps pos2 with
                      | Some q => String.eqb (p_color q) player
                      | None => false
                      end = false).
    { destruct (Pieces_get_piece_by_pos ps pos2) as [q|] eqn:Hq; [| reflexivity].
      apply String.eqb_neq. now apply Hdest. }
    rewrite Hfriend, Hclass, Hc.
    unfold Chariot_is_valid_move.
    rewrite (Hr pos2 cell H2 Hne Hline Hcell).
    rewrite <- Hcolor, Hcol.
    destruct (cannon_keeps player (pieces_between layout pos1 pos2) cell); reflexivity. }
  rewrite Hvalid. unfold cannon_keeps, holds_enemy, occupied. rewrite Hcell, Hc1.
  split; intros H.
  - apply andb_true_iff in H. destruct H as [He Hc2].
    apply negb_true_iff in He, Hc2. rewrite He, Hc2. reflexivity.
  - apply negb_false_iff in H. rewrite H. reflexivity.
Qed.

End CannonRule.

Lemma start_layout_cells_labelled : cells_labelled Board_start_layout.
Proof. repeat constructor; eexists; reflexivity. Qed.

Lemma C4_witness :
  Pieces_is_valid_move (board start_game) (pieces_dict (pieces start_game))
    "b3" "b10" "R" = Ok true
  /\ Pieces_is_valid_move (board start_game) (pieces_dict (pieces start_game))
       "b3" "b9" "R" = Ok false
  /\ pieces_between (board start_game) "b3" "b10" = 1%nat.
Proof.
  destruct (C4_cannon_screen_rule first_occurrences red_cannon (board start_game)
              "b3" "b10") as (self1 & Hu & H);
    [ reflexivity | exact start_layout_well_shaped
    | exact start_layout_cells_labelled
    | vm_compute; reflexivity | vm_compute; reflexivity | discriminate
    | vm_compute; reflexivity | ].
  vm_compute in Hu. inversion Hu; subst self1.
  destruct (H (pieces_dict (pieces start_game)) "R") as [He _].
  - vm_compute. reflexivity.
  - reflexivity.
  - intros q Hq. vm_compute in Hq. inversion Hq; subst q. discriminate.
  - split; [| split].
    + rewrite He by (vm_compute; reflexivity). vm_compute. reflexivity.
    + vm_compute. reflexivity.
    + vm_compute. reflexivity.
Defined.

(** ** Dictionaries and the registry *)

Lemma dict_get_set {V : Type} (d : dict V) (k k' : string) (v : V) :
  dict_get (dict_set d k v) k' = if String.eqb k k' then Some v else dict_get d k'.
Proof.
  induction d as [|[k0 v0] d IH]; simpl.
  - destruct (String.eqb k k'); reflexivity.
  - destruct (String.eqb k0 k) eqn:E0; simpl.
    + apply String.eqb_eq in E0. subst k0.
      destruct (String.eqb k k'); reflexivity.
    + destruct (String.eqb k0 k') eqn:E1.
      * apply String.eqb_eq in E1. subst k0.
        rewrite String.eqb_sym, E0. reflexivity.
      * exact IH.
Qed.

Lemma same_core_refl (p : Piece) : same_core p p.
Proof. unfold same_core. auto 10. Qed.

Lemma same_core_sym (p q : Piece) : same_core p q -> same_core q p.
Proof. unfold same_core. intuition congruence. Qed.

Lemma same_core_trans (p q r : Piece) :
  same_core p q -> same_core q r -> same_core p r.
Proof. unfold same_core. intuition congruence. Qed.

Lemma core_eq_refl (a : dict Piece) : core_eq a a.
Proof.
  induction a; constructor; auto. split; [reflexivity | apply same_core_refl].
Qed.

Lemma core_eq_sym (a b : dict Piece) : core_eq a b -> core_eq b a.
Proof.
  induction 1 as [|x y a b [H1 H2] _ IH]; constructor; auto.
  split; [congruence | now apply same_core_sym].
Qed.

Lemma core_eq_trans (a b c : dict Piece) :
  core_eq a b -> core_eq b c -> core_eq a c.
Proof.
  intros H. revert c. induction H as [|x y a b [H1 H2] _ IH]; intros c Hc;
    inversion Hc as [|? z ? c' [H3 H4] Hc']; subst; constructor.
  - split; [congruence | eapply same_core_trans; eassumption].
  - now apply IH.
Qed.

Lemma core_eq_app (a a' b b' : dict Piece) :
  core_eq a a' -> core_eq b b' -> core_eq (a ++ b)%list (a' ++ b')%list.
Proof. unfold core_eq. apply Forall2_app. Qed.

Lemma get_piece_by_pos_core (a b : dict Piece) (pos : string) :
  core_eq a b ->
  match Pieces_get_piece_by_pos a pos, Pieces_get_piece_by_pos b pos with
  | Some p, Some q => same_core p q
  | None, None => True
  | _, _ => False
  end.
Proof.
  unfold Pieces_get_piece_by_pos, dict_values.
  induction 1 as [|[k p] [k' q] a b [Hk Hc] _ IH]; simpl; [exact I |].
  simpl in Hc. destruct Hc as (? & ? & ? & ? & ? & Hpos) eqn:E. clear E.
  rewrite <- Hpos. destruct (String.eqb (p_pos p) pos); [| exact IH].
  unfold same_core. auto 10.
Qed.

Lemma candidate_checks_core (a b : dict Piece) (pos1 pos2 player : string) :
  core_eq a b ->
  candidate_checks a pos1 pos2 player = candidate_checks b pos1 pos2 player.
Proof.
  intros H. unfold candidate_checks.
  pose proof (get_piece_by_pos_core a b pos1 H) as H1.
  pose proof (get_piece_by_pos_core a b pos2 H) as H2.
  destruct (Pieces_get_piece_by_pos a pos1) as [p|],
           (Pieces_get_piece_by_pos b pos1) as [p'|]; try contradiction;
    [| reflexivity].
  destruct (Pieces_get_piece_by_pos a pos2) as [q|],
           (Pieces_get_piece_by_pos b pos2) as [q'|]; try contradiction.
  - destruct H1 as (_ & _ & _ & -> & _), H2 as (_ & _ & _ & -> & _). reflexivity.
  - destruct H1 as (_ & _ & _ & -> & _). reflexivity.
Qed.

(** A move that [Pieces.is_valid_move] accepts has passed the shared
    checks. *)
Lemma is_valid_move_candidate (layout : Layout) (ps : dict Piece)
  (pos1 pos2 player : string) :
  Pieces_is_valid_move layout ps pos1 pos2 player = Ok true ->
  candidate_checks ps pos1 pos2 player = true.
Proof.
  unfold Pieces_is_valid_move, candidate_checks. intros H.
  destruct (Board_is_valid_pos pos1); [| discriminate H].
  destruct (Board_is_valid_pos pos2); [| discriminate H].
  cbn [negb orb andb] in *.
  destruct (String.eqb pos1 pos2); [discriminate H |]. cbn [negb andb].
  destruct (Pieces_get_piece_by_pos ps pos1) as [p|]; [| discriminate H].
  destruct (String.eqb (p_color p) player); [| discriminate H].
  cbn [negb andb] in *.
  destruct (match Pieces_get_piece_by_pos ps pos2 with
            | Some q => String.eqb (p_color q) player
            | None => false
            end); [discriminate H | reflexivity].
Qed.

Lemma core_eq_keys (a b : dict Piece) : core_eq a b -> dict_keys a = dict_keys b.
Proof.
  unfold dict_keys. induction 1 as [|x y a b [H _] _ IH]; simpl; congruence.
Qed.

Lemma core_eq_positions (a b : dict Piece) :
  core_eq a b -> map p_pos (dict_values a) = map p_pos (dict_values b).
Proof.
  unfold dict_values.
  induction 1 as [|x y a b [_ H] _ IH]; simpl; [reflexivity |].
  destruct H as (_ & _ & _ & _ & _ & ->). now rewrite IH.
Qed.

Lemma core_eq_keyed (a b : dict Piece) :
  core_eq a b -> keyed_by_label a -> keyed_by_label b.
Proof.
  unfold keyed_by_label.
  induction 1 as [|x y a b [Hk H] _ IH]; intros Ha; inversion Ha; subst;
    constructor; auto.
  destruct H as (_ & <- & _). congruence.
Qed.

Lemma dict_get_In {V : Type} (d : dict V) (k : string) (v : V) :
  NoDup (dict_keys d) -> In (k, v) d -> dict_get d k = Some v.
Proof.
  unfold dict_keys. induction d as [|[k0 v0] d IH]; simpl; intros Hnd Hin;
    [contradiction |].
  inversion Hnd as [|? ? Hk Hnd']; subst.
  destruct Hin as [E|Hin].
  - inversion E; subst. now rewrite String.eqb_refl.
  - destruct (String.eqb k0 k) eqn:E; [| now apply IH].
    apply String.eqb_eq in E. subst k0. exfalso. apply Hk.
    apply in_map_iff. exists (k, v). auto.
Qed.

Lemma get_piece_by_label_keyed (ps : dict Piece) (p : Piece) :
  NoDup (dict_keys ps) -> keyed_by_label ps -> In p (dict_values ps) ->
  Pieces_get_piece_by_label ps (p_label p) = Some p.
Proof.
  intros Hnd Hk Hin. unfold dict_values in Hin. apply in_map_iff in Hin.
  destruct Hin as ([k q] & <- & Hin). simpl.
  unfold keyed_by_label in Hk. rewrite Forall_forall in Hk.
  specialize (Hk _ Hin). simpl in Hk. subst k.
  now apply dict_get_In.
Qed.

Lemma get_piece_by_pos_In (ps : dict Piece) (pos : string) (p : Piece) :
  Pieces_get_piece_by_pos ps pos = Some p -> In p (dict_values ps) /\ p_pos p = pos.
Proof.
  unfold Pieces_get_piece_by_pos. intros H. apply find_some in H.
  destruct H as [H1 H2]. apply String.eqb_eq in H2. auto.
Qed.

Lemma get_piece_by_pos_unique (ps : dict Piece) (p : Piece) :
  positions_unique ps -> In p (dict_values ps) ->
  Pieces_get_piece_by_pos ps (p_pos p) = Some p.
Proof.
  unfold positions_unique, Pieces_get_piece_by_pos.
  induction (dict_values ps) as [|q l IH]; simpl; intros Hnd Hin; [contradiction |].
  inversion Hnd as [|? ? Hq Hnd']; subst.
  destruct Hin as [->|Hin].
  - now rewrite String.eqb_refl.
  - destruct (String.eqb (p_pos q) (p_pos p)) eqn:E; [| now apply IH].
    apply String.eqb_eq in E. exfalso. apply Hq. rewrite E. now apply in_map.
Qed.

Section AttackRanges.

Variable list_of_set : list Offset -> list Offset.

Lemma Chariot_update_ranges_core (self self1 : Piece) (pos : string)
  (layout : Layout) :
  Chariot_update_ranges list_of_set self pos layout = Ok self1 ->
  same_core self self1.
Proof.
  unfold Chariot_update_ranges. intros H.
  repeat (apply bind_ok in H; destruct H as (? & _ & H)).
  inversion H. subst. unfold same_core. simpl. auto 10.
Qed.

(** Every destination kept in an attack range was accepted by
    [Pieces.is_valid_move]. *)
Lemma map_attack_range_from_offsets_sound (self : Piece) (layout : Layout)
  (ps : dict Piece) (offsets : list Offset) (ar : list string) :
  Piece_map_attack_range_from_offsets self layout ps offsets = Ok ar ->
  forall d, In d ar ->
            Pieces_is_valid_move layout ps (p_pos self) d (p_color self) = Ok true.
Proof.
  revert ar. induction offsets as [|offset r IH]; simpl; intros ar H d Hd.
  - inversion H; subst. contradiction.
  - apply bind_ok in H. destruct H as (c & _ & H).
    apply bind_ok in H. destruct H as (col & _ & H).
    apply bind_ok in H. destruct H as (n & _ & H).
    apply bind_ok in H. destruct H as (ok & Hok & H).
    apply bind_ok in H. destruct H as (rest & Hrest & H).
    inversion H; subst ar. destruct ok.
    + destruct Hd as [<-|Hd]; [exact Hok | now apply (IH rest)].
    + now apply (IH rest).
Qed.

Lemma map_attack_range_entry_sound (layout : Layout) (done todo : dict Piece)
  (k : string) (self self' : Piece) :
  map_attack_range_entry list_of_set layout done k self todo = Ok self' ->
  same_core self self' /\ attacks_checked (done ++ (k, self) :: todo)%list self'.
Proof.
  unfold map_attack_range_entry, attacks_checked. intros H.
  assert (Plain : forall offsets ar,
             Piece_map_attack_range_from_offsets self layout
               (done ++ (k, self) :: todo)%list offsets = Ok ar ->
             same_core self (set_attack_range self ar)
             /\ forall d, In d (p_attack_range (set_attack_range self ar)) ->
                          candidate_checks (done ++ (k, self) :: todo)%list
                            (p_pos (set_attack_range self ar)) d
                            (p_color (set_attack_range self ar)) = true).
  { intros offsets ar Har. split; [unfold same_core; simpl; auto 10 |].
    intros d Hd. simpl in *. eapply is_valid_move_candidate.
    eapply map_attack_range_from_offsets_sound; eassumption. }
  destruct (p_class self).
  1-4: apply bind_ok in H; destruct H as (ar & Har & H); inversion H; subst self';
       eapply Plain; exact Har.
  3: { apply bind_ok in H. destruct H as (behind & _ & H).
       apply bind_ok in H. destruct H as (offsets & _ & H).
       apply bind_ok in H. destruct H as (ar & Har & H). inversion H; subst self'.
       eapply Plain; exact Har. }
  all: apply bind_ok in H; destruct H as (self1 & Hu & H);
    apply bind_ok in H; destruct H as (ar & Har & H); inversion H; subst self';
    pose proof (Chariot_update_ranges_core _ _ _ _ Hu) as Hcore;
    (split; [exact Hcore |]);
    intros d Hd; simpl in *;
    rewrite (candidate_checks_core (done ++ (k, self) :: todo)%list
               (done ++ (k, self1) :: todo)%list)
      by (apply core_eq_app; [apply core_eq_refl |];
          constructor; [split; [reflexivity | exact Hcore] | apply core_eq_refl]);
    eapply is_valid_move_candidate;
    eapply map_attack_range_from_offsets_sound; eassumption.
Qed.

Lemma map_attack_ranges_loop_sound (layout : Layout) (todo : dict Piece) :
  forall done out,
    map_attack_ranges_loop list_of_set layout done todo = Ok out ->
    exists todo', out = (done ++ todo')%list
                  /\ core_eq todo todo'
                  /\ Forall (fun e => attacks_checked (done ++ todo)%list (snd e)) todo'.
Proof.
  induction todo as [|[k self] r IH]; simpl; intros done out H.
  - inversion H; subst. exists []. rewrite app_nil_r. repeat split; constructor.
  - apply bind_ok in H. destruct H as (self' & He & H).
    apply map_attack_range_entry_sound in He. destruct He as [Hcore Hchk].
    apply IH in H. destruct H as (r' & -> & Hr & Hall).
    exists ((k, self') :: r'). split; [now rewrite <- app_assoc |].
    split; [constructor; [split; [reflexivity | exact Hcore] | exact Hr] |].
    constructor; [exact Hchk |].
    eapply Forall_impl; [| exact Hall].
    intros e He d Hd. rewrite <- (He d Hd). rewrite <- app_assoc. simpl.
    apply candidate_checks_core. apply core_eq_app; [apply core_eq_refl |].
    constructor; [split; [reflexivity | exact Hcore] | apply core_eq_refl].
Qed.

End AttackRanges.

(** ** The attack maps *)

Lemma to_opt_app_cons {A : Type} (l : list A) (a : A) :
  to_opt (l ++ [a]) = Some (l ++ [a])%list.
Proof. destruct l; reflexivity. Qed.

Lemma add_attacker_files (m : dict (list string)) (f : string -> list string)
  (sq label : string) :
  files m f ->
  files (add_attacker m sq label)
    (fun sq' => f sq' ++ (if String.eqb sq' sq then [label] else []))%list.
Proof.
  intros Hm sq'. unfold add_attacker.
  pose proof (Hm sq) as Hsq.
  destruct (dict_get m sq) as [attackers|] eqn:E; rewrite dict_get_set;
    rewrite (String.eqb_sym sq' sq);
    destruct (String.eqb sq sq') eqn:E';
    try (rewrite app_nil_r; apply Hm).
  - apply String.eqb_eq in E'. subst sq'. rewrite to_opt_app_cons.
    destruct (f sq); simpl in Hsq; [discriminate | congruence].
  - apply String.eqb_eq in E'. subst sq'. rewrite to_opt_app_cons.
    destruct (f sq); simpl in Hsq; [reflexivity | discriminate].
Qed.

Lemma files_ext (m : dict (list string)) (f f' : string -> list string) :
  files m f -> (forall sq, f sq = f' sq) -> files m f'.
Proof. intros H E sq. rewrite <- E. apply H. Qed.

Lemma fold_attack_range_files (piece : Piece) (ar : list string) :
  forall maps fr fb,
    files (fst maps) fr -> files (snd maps) fb ->
    let maps' :=
      fold_left
        (fun '(red_map, black_map) attacked_sq =>
           if String.eqb (p_color piece) "R"
           then (add_attacker red_map attacked_sq (p_label piece), black_map)
           else if String.eqb (p_color piece) "B"
           then (red_map, add_attacker black_map attacked_sq (p_label piece))
           else (red_map, black_map))
        ar maps in
    files (fst maps')
      (fun sq => fr sq
                 ++ if String.eqb (p_color piece) "R"
                    then map (fun _ => p_label piece) (filter (String.eqb sq) ar)
                    else [])%list
    /\ files (snd maps')
         (fun sq => fb sq
                    ++ if String.eqb (p_color piece) "B"
                       then map (fun _ => p_label piece) (filter (String.eqb sq) ar)
                       else [])%list.
Proof.
  cbv zeta.
  destruct (String.eqb (p_color piece) "R") eqn:ER.
  - assert (EB : String.eqb (p_color piece) "B" = false).
    { apply String.eqb_eq in ER. rewrite ER. reflexivity. }
    rewrite EB.
    induction ar as [|x ar IH]; intros [red black] fr fb Hr Hb.
    + simpl. split; eapply files_ext; try eassumption; intros sq;
        now rewrite app_nil_r.
    + cbn [fold_left].
      specialize (IH (add_attacker red x (p_label piece), black) _ fb
                    (add_attacker_files red fr x (p_label piece) Hr) Hb).
      destruct IH as [IHr IHb].
      split; [| exact IHb].
      eapply files_ext; [exact IHr |]. intros sq. cbn [filter].
      destruct (String.eqb sq x); simpl; now rewrite <- app_assoc.
  - destruct (String.eqb (p_color piece) "B") eqn:EB.
    + induction ar as [|x ar IH]; intros [red black] fr fb Hr Hb.
      * simpl. split; eapply files_ext; try eassumption; intros sq;
          now rewrite app_nil_r.
      * cbn [fold_left].
        specialize (IH (red, add_attacker black x (p_label piece)) fr _ Hr
                      (add_attacker_files black fb x (p_label piece) Hb)).
        destruct IH as [IHr IHb].
        split; [exact IHr |].
        eapply files_ext; [exact IHb |]. intros sq. cbn [filter].
        destruct (String.eqb sq x); simpl; now rewrite <- app_assoc.
    + induction ar as [|x ar IH]; intros [red black] fr fb Hr Hb.
      * simpl. split; eapply files_ext; try eassumption; intros sq;
          now rewrite app_nil_r.
      * cbn [fold_left]. exact (IH (red, black) fr fb Hr Hb).
Qed.

Lemma fold_piece_attacks_files (ps : list Piece) :
  forall maps fr fb,
    files (fst maps) fr -> files (snd maps) fb ->
    files (fst (fold_left fold_piece_attacks ps maps))
      (fun sq => fr sq ++ attackers "R" sq ps)%list
    /\ files (snd (fold_left fold_piece_attacks ps maps))
         (fun sq => fb sq ++ attackers "B" sq ps)%list.
Proof.
  induction ps as [|p ps IH]; intros maps fr fb Hr Hb.
  - simpl. split; eapply files_ext; try eassumption; intros sq;
      now rewrite app_nil_r.
  - cbn [fold_left].
    pose proof (fold_attack_range_files p (p_attack_range p) maps fr fb Hr Hb) as Hp.
    cbv zeta in Hp. destruct Hp as [Hr1 Hb1].
    specialize (IH (fold_piece_attacks maps p) _ _ Hr1 Hb1).
    destruct IH as [IHr IHb].
    split; eapply files_ext; try eassumption; intros sq;
      unfold attackers; cbn [flat_map]; unfold attacks_of;
      now rewrite <- app_assoc.
Qed.

(** The attack maps after [_update_attack_ranges]. *)
Lemma update_attack_ranges_files (P : Pieces) :
  files (red_attack_map (Pieces_update_attack_ranges P))
    (fun sq => attackers "R" sq (dict_values (pieces_dict P)))
  /\ files (black_attack_map (Pieces_update_attack_ranges P))
       (fun sq => attackers "B" sq (dict_values (pieces_dict P)))
  /\ pieces_dict (Pieces_update_attack_ranges P) = pieces_dict P
  /\ captured_piece (Pieces_update_attack_ranges P) = captured_piece P.
Proof.
  unfold Pieces_update_attack_ranges.
  pose proof (fold_piece_attacks_files (dict_values (pieces_dict P)) ([], [])
                (fun _ => []) (fun _ => [])
                (fun sq => eq_refl) (fun sq => eq_refl)) as H.
  destruct (fold_left fold_piece_attacks (dict_values (pieces_dict P)) ([], []))
    as [red black].
  destruct H as [Hr Hb]. simpl in *. repeat split; assumption.
Qed.

Lemma attackers_In (color sq label : string) (ps : list Piece) :
  In label (attackers color sq ps) ->
  exists p, In p ps /\ p_color p = color /\ p_label p = label
            /\ In sq (p_attack_range p).
Proof.
  unfold attackers. intros H. apply in_flat_map in H.
  destruct H as (p & Hp & H). unfold attacks_of in H.
  destruct (String.eqb (p_color p) color) eqn:E; [| contradiction].
  apply String.eqb_eq in E. apply in_map_iff in H.
  destruct H as (x & <- & Hx). apply filter_In in Hx. destruct Hx as [Hx E'].
  apply String.eqb_eq in E'. subst x. exists p. auto.
Qed.

Lemma dict_set_keys {V : Type} (d : dict V) (k : string) (v : V) :
  dict_keys (dict_set d k v)
  = if dict_mem d k then dict_keys d else (dict_keys d ++ [k])%list.
Proof.
  unfold dict_mem, dict_keys. induction d as [|[k0 v0] d IH]; simpl; [reflexivity |].
  destruct (String.eqb k0 k) eqn:E; simpl; [reflexivity |].
  rewrite IH. destruct (dict_get d k); reflexivity.
Qed.

Lemma dict_set_NoDup {V : Type} (d : dict V) (k : string) (v : V) :
  NoDup (dict_keys d) -> NoDup (dict_keys (dict_set d k v)).
Proof.
  intros H. rewrite dict_set_keys. destruct (dict_mem d k) eqn:E; [exact H |].
  apply NoDup_app; [exact H | repeat constructor; intros [] |].
  intros x Hx [<-|[]]. apply dict_mem_keys in Hx. congruence.
Qed.

Lemma add_attacker_NoDup (m : dict (list string)) (sq label : string) :
  NoDup (dict_keys m) -> NoDup (dict_keys (add_attacker m sq label)).
Proof.
  intros H. unfold add_attacker. destruct (dict_get m sq); now apply dict_set_NoDup.
Qed.

Lemma fold_piece_attacks_NoDup (ps : list Piece) :
  forall maps,
    NoDup (dict_keys (fst maps)) -> NoDup (dict_keys (snd maps)) ->
    NoDup (dict_keys (fst (fold_left fold_piece_attacks ps maps)))
    /\ NoDup (dict_keys (snd (fold_left fold_piece_attacks ps maps))).
Proof.
  induction ps as [|p ps IH]; intros maps Hr Hb; [simpl; auto |].
  cbn [fold_left]. apply IH; unfold fold_piece_attacks;
    revert maps Hr Hb; induction (p_attack_range p) as [|x ar IHa];
    intros [red black] Hr Hb; try assumption; cbn [fold_left];
    (destruct (String.eqb (p_color p) "R");
     [| destruct (String.eqb (p_color p) "B")]);
    apply IHa; simpl in *; auto using add_attacker_NoDup.
Qed.

Lemma update_attack_ranges_NoDup (P : Pieces) :
  NoDup (dict_keys (red_attack_map (Pieces_update_attack_ranges P)))
  /\ NoDup (dict_keys (black_attack_map (Pieces_update_attack_ranges P))).
Proof.
  unfold Pieces_update_attack_ranges.
  pose proof (fold_piece_attacks_NoDup (dict_values (pieces_dict P)) ([], [])
                (NoDup_nil _) (NoDup_nil _)) as H.
  destruct (fold_left fold_piece_attacks (dict_values (pieces_dict P)) ([], []))
    as [red black].
  exact H.
Qed.

Lemma moves_of_labels_ok (ps : dict Piece) (pos2 : string) (labels : list string)
  (Q : string -> Prop) :
  (forall label, In label labels ->
                 exists p, Pieces_get_piece_by_label ps label = Some p /\ Q (p_pos p)) ->
  exists moves, moves_of_labels ps pos2 labels = Ok moves
                /\ forall o d, In (o, d) moves -> d = pos2 /\ Q o.
Proof.
  induction labels as [|label r IH]; intros H; simpl.
  - exists []. split; [reflexivity | intros o d []].
  - destruct (H label (or_introl eq_refl)) as (p & -> & Hq).
    destruct IH as (rest & -> & Hrest); [intros l Hl; apply H; now right |].
    cbn [bind]. eexists. split; [reflexivity |].
    intros o d [E|Hin]; [inversion E; subst; auto | now apply Hrest].
Qed.

Lemma moves_of_items_ok (ps : dict Piece) (items : dict (list string))
  (Q : string -> string -> Prop) :
  (forall pos2 labels label,
      In (pos2, labels) items -> In label labels ->
      exists p, Pieces_get_piece_by_label ps label = Some p /\ Q (p_pos p) pos2) ->
  exists moves, moves_of_items ps items = Ok moves
                /\ forall o d, In (o, d) moves -> Q o d.
Proof.
  induction items as [|[pos2 labels] r IH]; intros H; simpl.
  - exists []. split; [reflexivity | intros o d []].
  - destruct (moves_of_labels_ok ps pos2 labels (fun o => Q o pos2))
      as (here & -> & Hhere).
    { intros label Hl. apply (H pos2 labels label); [now left | exact Hl]. }
    destruct IH as (rest & -> & Hrest).
    { intros p2 ls l Hin Hl. apply (H p2 ls l); [now right | exact Hl]. }
    cbn [bind]. eexists. split; [reflexivity |].
    intros o d Hin. apply in_app_or in Hin. destruct Hin as [Hin|Hin].
    + destruct (Hhere o d Hin) as [-> Hq]. exact Hq.
    + now apply Hrest.
Qed.

Lemma to_opt_Some {A : Type} (l l' : list A) : to_opt l = Some l' -> l = l' /\ l <> [].
Proof. destruct l; simpl; intros H; inversion H; subst. split; [auto | discriminate]. Qed.

Section AttackMapInvariant.

Variable list_of_set : list Offset -> list Offset.

(** What [map_all_attack_ranges] leaves behind: the registry, up to its
    caches; maps that file the attackers of every square; and attack
    ranges that passed the shared checks. *)
Lemma map_all_attack_ranges_result (layout : Layout) (P P' : Pieces) :
  Pieces_map_all_attack_ranges list_of_set layout P = Ok P' ->
  core_eq (pieces_dict P) (pieces_dict P')
  /\ captured_piece P' = captured_piece P
  /\ files (red_attack_map P')
       (fun sq => attackers "R" sq (dict_values (pieces_dict P')))
  /\ files (black_attack_map P')
       (fun sq => attackers "B" sq (dict_values (pieces_dict P')))
  /\ NoDup (dict_keys (red_attack_map P'))
  /\ NoDup (dict_keys (black_attack_map P'))
  /\ Forall (fun e => attacks_checked (pieces_dict P') (snd e)) (pieces_dict P').
Proof.
  unfold Pieces_map_all_attack_ranges. intros H.
  apply bind_ok in H. destruct H as (d & Hd & H). inversion H; subst P'. clear H.
  apply map_attack_ranges_loop_sound in Hd.
  destruct Hd as (d' & -> & Hcore & Hall). simpl app in *.
  set (Q := mkPieces d' (red_attack_map P) (black_attack_map P) (captured_piece P)).
  destruct (update_attack_ranges_files Q) as (Fr & Fb & Ed & Ec).
  destruct (update_attack_ranges_NoDup Q) as (Nr & Nb).
  rewrite Ed, Ec. simpl. repeat split; try assumption.
  eapply Forall_impl; [| exact Hall].
  intros e He dd Hdd. rewrite <- (He dd Hdd). symmetry.
  now apply candidate_checks_core.
Qed.

(** C10.  After [map_all_attack_ranges], for either color: every key of
    the color's attack map is a square of the board on which no piece of
    that color stands, and [get_all_possible_moves] returns pairs that
    all pass the checks [Pieces.is_valid_move] applies to every piece. *)
Theorem C10_attack_map_invariant (layout : Layout) (P P' : Pieces) (color : string) :
  NoDup (dict_keys (pieces_dict P)) ->
  keyed_by_label (pieces_dict P) ->
  positions_unique (pieces_dict P) ->
  Pieces_map_all_attack_ranges list_of_set layout P = Ok P' ->
  color = Board_red \/ color = Board_black ->
  (forall key,
      In key (dict_keys (Pieces_get_attack_map P' color)) ->
      Board_is_valid_pos key = true
      /\ forall q, In q (dict_values (pieces_dict P')) -> p_pos q = key ->
                   p_color q <> color)
  /\ exists moves,
      Pieces_get_all_possible_moves P' color = Ok moves
      /\ forall pos1 pos2, In (pos1, pos2) moves ->
                           candidate_checks (pieces_dict P') pos1 pos2 color = true.
Proof.
  intros Hnd Hkey Hpos Hmap Hcolor.
  destruct (map_all_attack_ranges_result layout P P' Hmap)
    as (Hcore & _ & Fr & Fb & Nr & Nb & Hall).
  assert (Hnd' : NoDup (dict_keys (pieces_dict P')))
    by (rewrite <- (core_eq_keys _ _ Hcore); exact Hnd).
  assert (Hkey' : keyed_by_label (pieces_dict P'))
    by (eapply core_eq_keyed; eassumption).
  assert (Hpos' : positions_unique (pieces_dict P')).
  { unfold positions_unique. rewrite <- (core_eq_positions _ _ Hcore). exact Hpos. }
  assert (Hmapc : files (Pieces_get_attack_map P' color)
                    (fun sq => attackers color sq (dict_values (pieces_dict P')))
                  /\ NoDup (dict_keys (Pieces_get_attack_map P' color))).
  { unfold Pieces_get_attack_map.
    destruct Hcolor as [-> | ->]; simpl; split; assumption. }
  destruct Hmapc as [Fc Nc].
  assert (Hattack : forall sq label,
             In label (attackers color sq (dict_values (pieces_dict P'))) ->
             exists p, Pieces_get_piece_by_label (pieces_dict P') label = Some p
                       /\ candidate_checks (pieces_dict P') (p_pos p) sq color = true).
  { intros sq label Hl. apply attackers_In in Hl.
    destruct Hl as (p & Hp & Hpc & Hpl & Hsq). exists p. split.
    - rewrite <- Hpl. now apply get_piece_by_label_keyed.
    - rewrite <- Hpc. unfold dict_values in Hp. apply in_map_iff in Hp.
      destruct Hp as (e & <- & He). rewrite Forall_forall in Hall.
      exact (Hall e He sq Hsq). }
  split.
  - intros key Hk. apply dict_mem_keys in Hk. unfold dict_mem in Hk.
    rewrite (Fc key) in Hk.
    destruct (attackers color key (dict_values (pieces_dict P'))) as [|label rest] eqn:E;
      [discriminate Hk |].
    destruct (Hattack key label) as (p & _ & Hchk); [rewrite E; now left |].
    unfold candidate_checks in Hchk.
    apply andb_true_iff in Hchk. destruct Hchk as [Hchk Hp].
    apply andb_true_iff in Hchk. destruct Hchk as [Hchk _].
    apply andb_true_iff in Hchk. destruct Hchk as [_ Hv].
    split; [exact Hv |]. intros q Hq Hqpos Hqc.
    destruct (Pieces_get_piece_by_pos (pieces_dict P') (p_pos p)); [| discriminate Hp].
    apply andb_true_iff in Hp. destruct Hp as [_ Hp].
    rewrite <- Hqpos, (get_piece_by_pos_unique _ q Hpos' Hq) in Hp.
    rewrite Hqc, String.eqb_refl in Hp. discriminate Hp.
  - unfold Pieces_get_all_possible_moves.
    apply (moves_of_items_ok (pieces_dict P') (Pieces_get_attack_map P' color)
             (fun o d => candidate_checks (pieces_dict P') o d color = true)).
    intros pos2 labels label Hin Hl.
    pose proof (dict_get_In _ _ _ Nc Hin) as Hget. rewrite (Fc pos2) in Hget.
    apply to_opt_Some in Hget. destruct Hget as [<- _].
    now apply Hattack.
Qed.

End AttackMapInvariant.

Lemma C10_witness :
  (forall key,
      In key (dict_keys (Pieces_get_attack_map (pieces pinned_soldier_game) "B")) ->
      Board_is_valid_pos key = true
      /\ forall q, In q (dict_values (pieces_dict (pieces pinned_soldier_game))) ->
                   p_pos q = key -> p_color q <> "B")
  /\ exists moves,
      Pieces_get_all_possible_moves (pieces pinned_soldier_game) "B" = Ok moves
      /\ forall pos1 pos2,
           In (pos1, pos2) moves ->
           candidate_checks (pieces_dict (pieces pinned_soldier_game)) pos1 pos2 "B"
           = true.
Proof.
  apply (C10_attack_map_invariant first_occurrences (board pinned_soldier_game)
           (pieces pinned_soldier_game) (pieces pinned_soldier_game) "B").
  - apply nodup_strings_NoDup. vm_compute. reflexivity.
  - repeat constructor.
  - apply nodup_strings_NoDup. vm_compute. reflexivity.
  - vm_compute. reflexivity.
  - right. reflexivity.
Defined.

(** ** Undoing a rejected move *)

(** C1, as stated, fails.  In the game reached by [pinned_soldier_moves]
    Red's capture [e4]-[e5] is rejected for check; the captured Soldier
    returns to the registry behind every other piece, and the attackers
    of [e4] are listed in another order than before the attempt. *)
Lemma C1_counterexample :
  ~ undo_leaves_identical first_occurrences pinned_soldier_game "e4" "e5" false.
Proof.
  intros H. destruct H as (g2 & Hm & _ & _ & _ & Hb & _).
  - split; [reflexivity |]. split; [vm_compute; reflexivity |].
    eexists. split; vm_compute; reflexivity.
  - vm_compute in Hm. inversion Hm; subst g2. clear Hm.
    specialize (Hb "e4"). vm_compute in Hb. discriminate Hb.
Qed.

(** The reordering does not depend on the order chosen for
    [list(set(l))]. *)
Example pinned_soldier_attackers_reordered :
  pinned_soldier_attackers first_occurrences
  = Some (false, Some ["SB3"; "NB2"], Some ["NB2"; "SB3"])
  /\ pinned_soldier_attackers last_occurrences
     = Some (false, Some ["SB3"; "NB2"], Some ["NB2"; "SB3"]).
Proof. split; vm_compute; reflexivity. Qed.

(** *** Lookups *)

Lemma opt_rel_refl {A : Type} (R : A -> A -> Prop) (x : option A) :
  (forall a, R a a) -> opt_rel R x x.
Proof. intros H. destruct x; simpl; auto. Qed.

Lemma opt_rel_sym {A : Type} (R : A -> A -> Prop) (x y : option A) :
  (forall a b, R a b -> R b a) -> opt_rel R x y -> opt_rel R y x.
Proof. intros H. destruct x, y; simpl; auto. Qed.

Lemma opt_rel_trans {A : Type} (R : A -> A -> Prop) (x y z : option A) :
  (forall a b c, R a b -> R b c -> R a c) ->
  opt_rel R x y -> opt_rel R y z -> opt_rel R x z.
Proof. intros H. destruct x, y, z; simpl; eauto; contradiction. Qed.

Lemma lookup_equiv_refl (a : dict Piece) : lookup_equiv a a.
Proof. split; intros; apply opt_rel_refl, same_core_refl. Qed.

Lemma lookup_equiv_sym (a b : dict Piece) : lookup_equiv a b -> lookup_equiv b a.
Proof.
  intros [H1 H2]. split; intros; apply opt_rel_sym; auto using same_core_sym.
Qed.

Lemma lookup_equiv_trans (a b c : dict Piece) :
  lookup_equiv a b -> lookup_equiv b c -> lookup_equiv a c.
Proof.
  intros [H1 H2] [H3 H4]. split; intros x;
    eapply opt_rel_trans; eauto using same_core_trans.
Qed.

Lemma get_piece_by_label_core (a b : dict Piece) (label : string) :
  core_eq a b ->
  opt_rel same_core (Pieces_get_piece_by_label a label)
    (Pieces_get_piece_by_label b label).
Proof.
  unfold Pieces_get_piece_by_label.
  induction 1 as [|[k p] [k' q] a b [Hk Hc] _ IH]; simpl; [exact I |].
  simpl in Hk. subst k'. destruct (String.eqb k label); [exact Hc | exact IH].
Qed.

Lemma core_eq_lookup (a b : dict Piece) : core_eq a b -> lookup_equiv a b.
Proof.
  intros H. split; intros x.
  - pose proof (get_piece_by_pos_core a b x H) as Hp. exact Hp.
  - now apply get_piece_by_label_core.
Qed.

Lemma sim_core (p q : Piece) : sim p q -> same_core p q.
Proof. intros [H _]. exact H. Qed.

Lemma sim_refl (p : Piece) : sim p p.
Proof. split; [apply same_core_refl | auto]. Qed.

Lemma sim_sym (p q : Piece) : sim p q -> sim q p.
Proof.
  intros [Hc H]. split; [now apply same_core_sym |].
  destruct Hc as (Hcl & _). rewrite <- Hcl. intros E.
  destruct (H E) as (? & ? & ? & ?). auto.
Qed.

Lemma sim_trans (p q r : Piece) : sim p q -> sim q r -> sim p r.
Proof.
  intros [Hc H] [Hc' H']. split; [eapply same_core_trans; eassumption |].
  intros E. destruct (H E) as (? & ? & ? & ?).
  destruct Hc as (Hcl & _). rewrite Hcl in E.
  destruct (H' E) as (? & ? & ? & ?). repeat split; congruence.
Qed.

Lemma sim_eq_core (a b : dict Piece) : sim_eq a b -> core_eq a b.
Proof.
  induction 1 as [|x y a b [Hk Hs] _ IH]; constructor; auto.
  split; [exact Hk | now apply sim_core].
Qed.

Lemma sim_eq_refl (a : dict Piece) : sim_eq a a.
Proof. induction a; constructor; auto. split; [reflexivity | apply sim_refl]. Qed.

Lemma sim_eq_sym (a b : dict Piece) : sim_eq a b -> sim_eq b a.
Proof.
  induction 1 as [|x y a b [Hk Hs] _ IH]; constructor; auto.
  split; [congruence | now apply sim_sym].
Qed.

Lemma sim_eq_trans (a b c : dict Piece) : sim_eq a b -> sim_eq b c -> sim_eq a c.
Proof.
  intros H. revert c. induction H as [|x y a b [H1 H2] _ IH]; intros c Hc;
    inversion Hc as [|? z ? c' [H3 H4] Hc']; subst; constructor.
  - split; [congruence | eapply sim_trans; eassumption].
  - now apply IH.
Qed.

Lemma sim_eq_app (a a' b b' : dict Piece) :
  sim_eq a a' -> sim_eq b b' -> sim_eq (a ++ b)%list (a' ++ b')%list.
Proof. unfold sim_eq. apply Forall2_app. Qed.

(** *** The rules read the registry through its lookups only *)

Lemma bind_ext {A B : Type} (m : res A) (k k' : A -> res B) :
  (forall a, m = Ok a -> k a = k' a) -> bind m k = bind m k'.
Proof. intros H. destruct m; simpl; auto. Qed.

Lemma is_some_equiv (a b : dict Piece) (pos : string) :
  lookup_equiv a b ->
  is_some (Pieces_get_piece_by_pos a pos) = is_some (Pieces_get_piece_by_pos b pos).
Proof.
  intros [H _]. specialize (H pos).
  destruct (Pieces_get_piece_by_pos a pos), (Pieces_get_piece_by_pos b pos);
    simpl in *; try reflexivity; contradiction.
Qed.

Lemma General_is_valid_move_ext (self self' : Piece) (pos1 pos2 : string)
  (layout : Layout) (a b : dict Piece) (player : string) :
  lookup_equiv a b -> p_type self = p_type self' ->
  General_is_valid_move self pos1 pos2 layout a player
  = General_is_valid_move self' pos1 pos2 layout b player.
Proof.
  intros [_ Hl] Ht. unfold General_is_valid_move. rewrite Ht.
  destruct (negb (Board_is_in_palace pos2 player)); [reflexivity |].
  apply bind_ext. intros step _. destruct (negb step); [reflexivity |].
  specialize (Hl (if String.eqb player Board_red then "GB1" else "GR1")).
  destruct (Pieces_get_piece_by_label a _) as [e|],
           (Pieces_get_piece_by_label b _) as [e'|];
    simpl in Hl; try contradiction; [| reflexivity].
  destruct Hl as (_ & _ & _ & _ & _ & ->). reflexivity.
Qed.

Lemma Elephant_is_valid_move_ext (pos1 pos2 : string) (layout : Layout)
  (a b : dict Piece) (player : string) :
  lookup_equiv a b ->
  Elephant_is_valid_move pos1 pos2 layout a player
  = Elephant_is_valid_move pos1 pos2 layout b player.
Proof.
  intros H. unfold Elephant_is_valid_move.
  repeat (apply bind_ext; intros ? _;
          try match goal with |- (if ?c then _ else _) = _ => destruct c; [reflexivity |] end).
  now rewrite (is_some_equiv a b _ H).
Qed.

Lemma Horse_is_valid_move_ext (self self' : Piece) (pos1 pos2 : string)
  (layout : Layout) (a b : dict Piece) (player : string) :
  lookup_equiv a b -> p_range self = p_range self' ->
  Horse_is_valid_move self pos1 pos2 layout a player
  = Horse_is_valid_move self' pos1 pos2 layout b player.
Proof.
  intros H Hr. unfold Horse_is_valid_move. rewrite Hr.
  do 4 (apply bind_ext; intros ? _).
  destruct (negb (offset_in _ _)); [reflexivity |].
  do 2 (apply bind_ext; intros ? _).
  assert (E : forall c1 c2,
             (if Z.abs (c1 - c2) =? 2
              then a1 <- ord0 pos1 ;; b1 <- ord0 pos2 ;;
                   col <- py_chr (Z.max (a1 - 1) (b1 - 1)) ;;
                   Ok (is_some (Pieces_get_piece_by_pos a (col ++ str_tail pos1)))
              else Ok false)
             = (if Z.abs (c1 - c2) =? 2
                then a1 <- ord0 pos1 ;; b1 <- ord0 pos2 ;;
                     col <- py_chr (Z.max (a1 - 1) (b1 - 1)) ;;
                     Ok (is_some (Pieces_get_piece_by_pos b (col ++ str_tail pos1)))
                else Ok false)).
  { intros c1 c2. destruct (Z.abs (c1 - c2) =? 2); [| reflexivity].
    do 3 (apply bind_ext; intros ? _). now rewrite (is_some_equiv a b _ H). }
  rewrite E. apply bind_ext. intros blocked _.
  destruct blocked; [reflexivity |].
  do 2 (apply bind_ext; intros ? _).
  assert (E' : forall r1 r2,
             (if Z.abs (r1 - r2) =? 2
              then f <- str_get0 pos1 ;; a1 <- int_tail pos1 ;; b1 <- int_tail pos2 ;;
                   Ok (is_some (Pieces_get_piece_by_pos a
                                  (f ++ py_str (Z.min (a1 + 1) (b1 + 1)))))
              else Ok false)
             = (if Z.abs (r1 - r2) =? 2
                then f <- str_get0 pos1 ;; a1 <- int_tail pos1 ;; b1 <- int_tail pos2 ;;
                     Ok (is_some (Pieces_get_piece_by_pos b
                                    (f ++ py_str (Z.min (a1 + 1) (b1 + 1)))))
                else Ok false)).
  { intros r1 r2. destruct (Z.abs (r1 - r2) =? 2); [| reflexivity].
    do 3 (apply bind_ext; intros ? _). now rewrite (is_some_equiv a b _ H). }
  rewrite E'. reflexivity.
Qed.

Lemma Pieces_is_valid_move_ext (layout : Layout) (a b : dict Piece)
  (pos1 pos2 player : string) :
  lookup_equiv a b ->
  opt_rel same_rule (Pieces_get_piece_by_pos a pos1) (Pieces_get_piece_by_pos b pos1) ->
  Pieces_is_valid_move layout a pos1 pos2 player
  = Pieces_is_valid_move layout b pos1 pos2 player.
Proof.
  intros H H1. unfold Pieces_is_valid_move.
  destruct (negb (Board_is_valid_pos pos1) || negb (Board_is_valid_pos pos2));
    [reflexivity |].
  destruct (String.eqb pos1 pos2); [reflexivity |].
  destruct (Pieces_get_piece_by_pos a pos1) as [p|],
           (Pieces_get_piece_by_pos b pos1) as [p'|];
    simpl in H1; try contradiction; [| reflexivity].
  destruct H1 as (Hcl & Hco & Hty & Hra & Hpr). rewrite <- Hco.
  destruct (negb (String.eqb (p_color p) player)); [reflexivity |].
  assert (E : match Pieces_get_piece_by_pos a pos2 with
              | Some q => String.eqb (p_color q) player
              | None => false
              end
              = match Pieces_get_piece_by_pos b pos2 with
                | Some q => String.eqb (p_color q) player
                | None => false
                end).
  { destruct H as [Hp _]. specialize (Hp pos2).
    destruct (Pieces_get_piece_by_pos a pos2), (Pieces_get_piece_by_pos b pos2);
      simpl in Hp; try contradiction; [| reflexivity].
    destruct Hp as (_ & _ & _ & -> & _). reflexivity. }
  rewrite E. destruct (match Pieces_get_piece_by_pos b pos2 with
                       | Some q => String.eqb (p_color q) player
                       | None => false
                       end); [reflexivity |].
  rewrite <- Hcl. destruct (p_class p).
  - now apply General_is_valid_move_ext.
  - reflexivity.
  - now apply Elephant_is_valid_move_ext.
  - now apply Horse_is_valid_move_ext.
  - unfold Chariot_is_valid_move. now rewrite Hpr.
  - unfold Chariot_is_valid_move. now rewrite Hpr.
  - unfold Soldier_is_valid_move. now rewrite Hco.
Qed.

Lemma map_attack_range_from_offsets_ext (self self' : Piece) (layout : Layout)
  (a b : dict Piece) (offsets : list Offset) :
  lookup_equiv a b ->
  opt_rel same_rule (Pieces_get_piece_by_pos a (p_pos self))
    (Pieces_get_piece_by_pos b (p_pos self)) ->
  p_pos self = p_pos self' -> p_color self = p_color self' ->
  Piece_map_attack_range_from_offsets self layout a offsets
  = Piece_map_attack_range_from_offsets self' layout b offsets.
Proof.
  intros H H1 Hp Hc. induction offsets as [|offset r IH]; simpl; [reflexivity |].
  rewrite <- Hp, <- Hc.
  do 3 (apply bind_ext; intros ? _).
  rewrite (Pieces_is_valid_move_ext layout a b _ _ _ H H1).
  apply bind_ext. intros ok _. rewrite IH. reflexivity.
Qed.

(** *** [map_attack_range] of one entry *)

Lemma eq_but_attack_set (p q : Piece) (ar : list string) :
  eq_but_attack p q -> set_attack_range p ar = set_attack_range q ar.
Proof.
  destruct p, q. unfold eq_but_attack, same_core, set_attack_range. simpl.
  intros ((? & ? & ? & ? & ? & ?) & ? & ? & ? & ?). subst. reflexivity.
Qed.

Lemma eq_but_attack_rule (p q : Piece) : eq_but_attack p q -> same_rule p q.
Proof.
  unfold eq_but_attack, same_core, same_rule. intuition.
Qed.

Lemma sim_eq_but_attack (p q : Piece) :
  sim p q -> is_chariot_class (p_class p) = false -> eq_but_attack p q.
Proof.
  intros [Hc H] E. destruct (H E) as (? & ? & ? & ?).
  unfold eq_but_attack. auto.
Qed.

Lemma filter_side_of_piece_ext (self self' : Piece) (side : list string)
  (layout : Layout) :
  p_class self = p_class self' -> p_color self = p_color self' ->
  filter_side_of_piece self side layout = filter_side_of_piece self' side layout.
Proof.
  intros Hc Hk. unfold filter_side_of_piece, Cannon_filter_side_of_piece.
  now rewrite Hc, Hk.
Qed.

Lemma filter_range_ext (self self' : Piece) (pos : string)
  (arr : option (list string)) (layout : Layout) :
  p_class self = p_class self' -> p_color self = p_color self' ->
  Chariot_filter_range_by_closest_pieces self pos arr layout
  = Chariot_filter_range_by_closest_pieces self' pos arr layout.
Proof.
  intros Hc Hk. unfold Chariot_filter_range_by_closest_pieces.
  destruct arr as [arr|]; [| reflexivity].
  apply bind_ext. intros i _.
  rewrite (filter_side_of_piece_ext self self' _ _ Hc Hk).
  apply bind_ext. intros l _. apply bind_ext. intros i' _.
  now rewrite (filter_side_of_piece_ext self self' _ _ Hc Hk).
Qed.

Section EntryExt.

Variable list_of_set : list Offset -> list Offset.

(** [_update_ranges] on two records of one piece. *)
Lemma Chariot_update_ranges_ext (self self' : Piece) (pos : string)
  (layout : Layout) :
  same_core self self' ->
  match Chariot_update_ranges list_of_set self pos layout,
        Chariot_update_ranges list_of_set self' pos layout with
  | Ok s, Ok s' => eq_but_attack s s'
  | Raise e, Raise e' => e = e'
  | _, _ => False
  end.
Proof.
  intros Hcore. pose proof Hcore as (Hc & _ & _ & Hk & _).
  unfold Chariot_update_ranges.
  destruct (Board_get_row_positions (str_tail pos) "a" "i") as [rp|]; simpl;
    [| reflexivity].
  rewrite <- (filter_range_ext self self' pos rp layout Hc Hk).
  destruct (Chariot_filter_range_by_closest_pieces self pos rp layout) as [row|];
    simpl; [| reflexivity].
  destruct (str_get0 pos) as [f|]; simpl; [| reflexivity].
  destruct (Board_get_column_positions f "1" "10") as [cp|]; simpl; [| reflexivity].
  rewrite <- (filter_range_ext self self' pos cp layout Hc Hk).
  destruct (Chariot_filter_range_by_closest_pieces self pos cp layout) as [col|];
    simpl; [| reflexivity].
  destruct (get_offsets_from_positions pos row) as [h|]; simpl; [| reflexivity].
  destruct (get_offsets_from_positions pos col) as [v|]; simpl; [| reflexivity].
  unfold eq_but_attack, same_core in *. simpl. intuition.
Qed.

Lemma map_attack_range_entry_ext (layout : Layout) (d1 t1 d2 t2 : dict Piece)
  (k k' : string) (self self' : Piece) :
  sim self self' ->
  (forall s s',
      same_core s self -> same_core s' self' -> same_rule s s' ->
      lookup_equiv (d1 ++ (k, s) :: t1)%list (d2 ++ (k', s') :: t2)%list
      /\ opt_rel same_rule
           (Pieces_get_piece_by_pos (d1 ++ (k, s) :: t1)%list (p_pos self))
           (Pieces_get_piece_by_pos (d2 ++ (k', s') :: t2)%list (p_pos self))) ->
  map_attack_range_entry list_of_set layout d1 k self t1
  = map_attack_range_entry list_of_set layout d2 k' self' t2.
Proof.
  intros Hsim Hctx. pose proof (sim_core _ _ Hsim) as Hcore.
  pose proof Hcore as (Hc & _ & _ & Hk & _ & Hp).
  assert (Plain : is_chariot_class (p_class self) = false ->
                  forall offsets,
                    (ar <- Piece_map_attack_range_from_offsets self layout
                             (d1 ++ (k, self) :: t1)%list offsets ;;
                     Ok (set_attack_range self ar))
                    = (ar <- Piece_map_attack_range_from_offsets self' layout
                               (d2 ++ (k', self') :: t2)%list offsets ;;
                       Ok (set_attack_range self' ar))).
  { intros E offsets.
    pose proof (sim_eq_but_attack _ _ Hsim E) as Heq.
    destruct (Hctx self self' (same_core_refl _) (same_core_refl _)
                (eq_but_attack_rule _ _ Heq)) as [Hl Hr].
    rewrite (map_attack_range_from_offsets_ext self self' layout _ _ offsets
               Hl Hr Hp Hk).
    apply bind_ext. intros ar _. now rewrite (eq_but_attack_set _ _ ar Heq). }
  assert (Ranged :
            (self1 <- Chariot_update_ranges list_of_set self (p_pos self) layout ;;
             ar <- Piece_map_attack_range_from_offsets self1 layout
                     (d1 ++ (k, self1) :: t1)%list (p_range self1) ;;
             Ok (set_attack_range self1 ar))
            = (self1 <- Chariot_update_ranges list_of_set self' (p_pos self) layout ;;
               ar <- Piece_map_attack_range_from_offsets self1 layout
                       (d2 ++ (k', self1) :: t2)%list (p_range self1) ;;
               Ok (set_attack_range self1 ar))).
  { pose proof (Chariot_update_ranges_ext self self' (p_pos self) layout Hcore) as Hu.
    destruct (Chariot_update_ranges list_of_set self (p_pos self) layout)
      as [s|e] eqn:E1;
      destruct (Chariot_update_ranges list_of_set self' (p_pos self) layout)
        as [s'|e'] eqn:E2;
      try contradiction; simpl; [| now subst].
    pose proof (same_core_sym _ _ (Chariot_update_ranges_core _ _ _ _ _ E1)) as Hs.
    pose proof (same_core_sym _ _ (Chariot_update_ranges_core _ _ _ _ _ E2)) as Hs'.
    destruct (Hctx s s' Hs Hs' (eq_but_attack_rule _ _ Hu)) as [Hl Hr].
    pose proof Hu as ((_ & _ & _ & Hk1 & _ & Hp1) & Hrng & _).
    pose proof Hs as (_ & _ & _ & _ & _ & Hps).
    rewrite <- Hps in Hr.
    rewrite (map_attack_range_from_offsets_ext s s' layout _ _ (p_range s)
               Hl Hr Hp1 Hk1).
    rewrite Hrng. apply bind_ext. intros ar _.
    now rewrite (eq_but_attack_set _ _ ar Hu). }
  unfold map_attack_range_entry. rewrite <- Hc.
  destruct (p_class self) eqn:Ecl.
  1-4: replace (p_range self') with (p_range self)
         by (destruct Hsim as [_ H]; rewrite Ecl in H; now destruct (H eq_refl));
       now apply Plain.
  3: { rewrite <- Hp, <- Hk. apply bind_ext. intros behind _.
       apply bind_ext. intros offsets _. now apply Plain. }
  all: rewrite <- Hp; exact Ranged.
Qed.

(** The same entry against two registries that answer alike. *)
Lemma find_app_middle (f : Piece -> bool) (d t : list Piece) (x : Piece) :
  find f (d ++ x :: t)%list
  = match find f d with
    | Some y => Some y
    | None => if f x then Some x else find f t
    end.
Proof.
  induction d as [|y d IH]; simpl; [reflexivity |].
  destruct (f y); [reflexivity | exact IH].
Qed.

Lemma get_piece_by_pos_app (d t : dict Piece) (k : string) (x : Piece) (pos : string) :
  Pieces_get_piece_by_pos (d ++ (k, x) :: t)%list pos
  = match Pieces_get_piece_by_pos d pos with
    | Some y => Some y
    | None => if String.eqb (p_pos x) pos then Some x
              else Pieces_get_piece_by_pos t pos
    end.
Proof.
  unfold Pieces_get_piece_by_pos, dict_values. rewrite map_app. simpl.
  apply find_app_middle.
Qed.

Lemma get_piece_by_label_app (d t : dict Piece) (k : string) (x : Piece)
  (label : string) :
  Pieces_get_piece_by_label (d ++ (k, x) :: t)%list label
  = match Pieces_get_piece_by_label d label with
    | Some y => Some y
    | None => if String.eqb k label then Some x
              else Pieces_get_piece_by_label t label
    end.
Proof.
  unfold Pieces_get_piece_by_label.
  induction d as [|[k0 y] d IH]; simpl; [reflexivity |].
  destruct (String.eqb k0 label); [reflexivity | exact IH].
Qed.

Lemma get_piece_by_pos_none (d : dict Piece) (pos : string) :
  ~ In pos (map p_pos (dict_values d)) -> Pieces_get_piece_by_pos d pos = None.
Proof.
  unfold Pieces_get_piece_by_pos. intros H.
  destruct (find _ _) as [y|] eqn:E; [| reflexivity].
  apply find_some in E. destruct E as [Hy E]. apply String.eqb_eq in E.
  exfalso. apply H. rewrite <- E. now apply in_map.
Qed.

Lemma get_piece_by_label_none (d : dict Piece) (label : string) :
  ~ In label (dict_keys d) -> Pieces_get_piece_by_label d label = None.
Proof.
  unfold Pieces_get_piece_by_label. intros H.
  destruct (dict_get d label) eqn:E; [| reflexivity].
  exfalso. apply H. apply dict_mem_keys. unfold dict_mem. now rewrite E.
Qed.

Lemma positions_app_middle (d t : dict Piece) (k : string) (x : Piece) :
  map p_pos (dict_values (d ++ (k, x) :: t)%list)
  = (map p_pos (dict_values d) ++ p_pos x :: map p_pos (dict_values t))%list.
Proof. unfold dict_values. now rewrite !map_app. Qed.

Lemma keys_app_middle {V : Type} (d t : dict V) (k : string) (x : V) :
  dict_keys (d ++ (k, x) :: t)%list = (dict_keys d ++ k :: dict_keys t)%list.
Proof. unfold dict_keys. now rewrite !map_app. Qed.

(** In a registry with one piece per square and one entry per label, the
    entry under [k] answers the lookups for its square and its label. *)
Lemma lookup_replaced (d t : dict Piece) (k : string) (self s : Piece) :
  NoDup (dict_keys (d ++ (k, self) :: t)%list) ->
  positions_unique (d ++ (k, self) :: t)%list ->
  same_core s self ->
  (forall pos,
      Pieces_get_piece_by_pos (d ++ (k, s) :: t)%list pos
      = if String.eqb (p_pos self) pos then Some s
        else Pieces_get_piece_by_pos (d ++ (k, self) :: t)%list pos)
  /\ (forall label,
         Pieces_get_piece_by_label (d ++ (k, s) :: t)%list label
         = if String.eqb k label then Some s
           else Pieces_get_piece_by_label (d ++ (k, self) :: t)%list label).
Proof.
  intros Hk Hp Hs. pose proof Hs as (_ & _ & _ & _ & _ & Hpos).
  unfold positions_unique in Hp. rewrite positions_app_middle in Hp.
  rewrite keys_app_middle in Hk.
  apply NoDup_remove_2 in Hp. apply NoDup_remove_2 in Hk.
  split.
  - intros pos. rewrite !get_piece_by_pos_app, Hpos.
    destruct (String.eqb (p_pos self) pos) eqn:E; [| reflexivity].
    apply String.eqb_eq in E. subst pos.
    rewrite get_piece_by_pos_none; [reflexivity |].
    intros Hin. apply Hp. apply in_or_app. now left.
  - intros label. rewrite !get_piece_by_label_app.
    destruct (String.eqb k label) eqn:E; [| reflexivity].
    apply String.eqb_eq in E. subst label.
    rewrite get_piece_by_label_none; [reflexivity |].
    intros Hin. apply Hk. apply in_or_app. now left.
Qed.

Lemma fresh_entry_loop (layout : Layout) (done todo ctx : dict Piece)
  (k : string) (self : Piece) :
  NoDup (dict_keys (done ++ (k, self) :: todo)%list) ->
  positions_unique (done ++ (k, self) :: todo)%list ->
  lookup_equiv ctx (done ++ (k, self) :: todo)%list ->
  map_attack_range_entry list_of_set layout done k self todo
  = fresh_entry list_of_set layout ctx (k, self).
Proof.
  intros Hk Hp Hl. unfold fresh_entry. simpl fst. simpl snd.
  apply map_attack_range_entry_ext; [apply sim_refl |].
  intros s s' Hs Hs' Hrule.
  destruct (lookup_replaced done todo k self s Hk Hp Hs) as [Bp Bl].
  pose proof Hs' as (_ & _ & _ & _ & _ & Hpos').
  destruct Hl as [Lp Ll].
  split; [split |].
  - intros pos. rewrite Bp. simpl app.
    unfold Pieces_get_piece_by_pos at 2. simpl. rewrite Hpos'.
    destruct (String.eqb (p_pos self) pos).
    + simpl. eapply same_core_trans; [exact Hs | now apply same_core_sym].
    + apply opt_rel_sym; [apply same_core_sym | apply Lp].
  - intros label. rewrite Bl. simpl app.
    unfold Pieces_get_piece_by_label at 2. simpl.
    destruct (String.eqb k label).
    + simpl. eapply same_core_trans; [exact Hs | now apply same_core_sym].
    + apply opt_rel_sym; [apply same_core_sym | apply Ll].
  - rewrite Bp, String.eqb_refl. simpl app.
    unfold Pieces_get_piece_by_pos. simpl. rewrite Hpos', String.eqb_refl.
    exact Hrule.
Qed.

Lemma fresh_entry_ext (layout : Layout) (ctx ctx' : dict Piece)
  (e e' : string * Piece) :
  lookup_equiv ctx ctx' -> fst e = fst e' -> sim (snd e) (snd e') ->
  fresh_entry list_of_set layout ctx e = fresh_entry list_of_set layout ctx' e'.
Proof.
  intros [Lp Ll] Hk Hsim. unfold fresh_entry.
  apply map_attack_range_entry_ext; [exact Hsim |].
  intros s s' Hs Hs' Hrule. simpl app.
  pose proof Hs as (_ & _ & _ & _ & _ & Hpos).
  pose proof Hs' as (_ & _ & _ & _ & _ & Hpos').
  pose proof (sim_core _ _ Hsim) as Hcore.
  pose proof Hcore as (_ & _ & _ & _ & _ & Hpp).
  assert (Hss : same_core s s').
  { eapply same_core_trans; [exact Hs |].
    eapply same_core_trans; [exact Hcore | now apply same_core_sym]. }
  split; [split |].
  - intros pos. unfold Pieces_get_piece_by_pos. simpl.
    rewrite Hpos, Hpos', <- Hpp.
    destruct (String.eqb (p_pos (snd e)) pos); [exact Hss | apply Lp].
  - intros label. unfold Pieces_get_piece_by_label. simpl. rewrite <- Hk.
    destruct (String.eqb (fst e) label); [exact Hss | apply Ll].
  - unfold Pieces_get_piece_by_pos. simpl.
    rewrite Hpos, Hpos', <- Hpp, String.eqb_refl. exact Hrule.
Qed.

End EntryExt.

(** *** The loop of [map_all_attack_ranges] as a map over the entries *)

Lemma map_res_ext {A B : Type} (f f' : A -> res B) (l l' : list A)
  (R : A -> A -> Prop) :
  (forall a a', R a a' -> f a = f' a') -> Forall2 R l l' ->
  map_res f l = map_res f' l'.
Proof.
  intros H. induction 1 as [|a a' l l' Ha _ IH]; simpl; [reflexivity |].
  rewrite (H a a' Ha), IH. reflexivity.
Qed.

Lemma map_res_fixed {A : Type} (f : A -> res A) (l : list A) :
  map_res f l = Ok l -> forall a, In a l -> f a = Ok a.
Proof.
  induction l as [|x l IH]; simpl; intros H a Ha; [contradiction |].
  apply bind_ok in H. destruct H as (b & Hb & H).
  apply bind_ok in H. destruct H as (bs & Hbs & H).
  inversion H; subst. destruct Ha as [<-|Ha]; [exact Hb | now apply IH].
Qed.

Lemma map_res_all {A : Type} (f : A -> res A) (l : list A) :
  (forall a, In a l -> f a = Ok a) -> map_res f l = Ok l.
Proof.
  induction l as [|x l IH]; simpl; intros H; [reflexivity |].
  rewrite (H x (or_introl eq_refl)). simpl.
  rewrite IH by (intros a Ha; apply H; now right). reflexivity.
Qed.

Section LoopAsMap.

Variable list_of_set : list Offset -> list Offset.

Lemma map_attack_ranges_loop_map (layout : Layout) (ctx todo : dict Piece) :
  forall done,
    NoDup (dict_keys (done ++ todo)%list) ->
    positions_unique (done ++ todo)%list ->
    lookup_equiv ctx (done ++ todo)%list ->
    map_attack_ranges_loop list_of_set layout done todo
    = (todo' <- map_res (fresh_pair list_of_set layout ctx) todo ;;
       Ok (done ++ todo')%list).
Proof.
  induction todo as [|[k self] r IH]; intros done Hk Hp Hl; simpl.
  - now rewrite app_nil_r.
  - rewrite (fresh_entry_loop list_of_set layout done r ctx k self Hk Hp Hl).
    unfold fresh_pair at 1. simpl fst.
    destruct (fresh_entry list_of_set layout ctx (k, self)) as [self'|e] eqn:E;
      simpl; [| reflexivity].
    pose proof E as Hcore. unfold fresh_entry in Hcore.
    apply map_attack_range_entry_sound in Hcore. destruct Hcore as [Hcore _].
    simpl in Hcore.
    assert (Hce : core_eq (done ++ (k, self) :: r)%list
                    ((done ++ [(k, self')]) ++ r)%list).
    { rewrite <- app_assoc. apply core_eq_app; [apply core_eq_refl |].
      constructor; [split; [reflexivity | exact Hcore] | apply core_eq_refl]. }
    rewrite IH.
    + destruct (map_res (fresh_pair list_of_set layout ctx) r); simpl;
        [| reflexivity].
      now rewrite <- app_assoc.
    + now rewrite <- (core_eq_keys _ _ Hce).
    + unfold positions_unique. now rewrite <- (core_eq_positions _ _ Hce).
    + eapply lookup_equiv_trans; [exact Hl | now apply core_eq_lookup].
Qed.

(** A registry that [map_all_attack_ranges] leaves as it is stays a
    fixed point when its entries are listed in another order and their
    caches are replaced. *)
Lemma map_attack_ranges_loop_reordered (layout : Layout) (ps ps_r d : dict Piece) :
  NoDup (dict_keys ps) -> positions_unique ps ->
  map_attack_ranges_loop list_of_set layout [] ps = Ok ps ->
  Permutation ps ps_r -> lookup_equiv ps ps_r ->
  sim_eq ps_r d ->
  map_attack_ranges_loop list_of_set layout [] d = Ok ps_r.
Proof.
  intros Hk Hp Hfix Hperm Hl Hsim.
  pose proof (sim_eq_core _ _ Hsim) as Hcore.
  assert (Hk_r : NoDup (dict_keys ps_r)).
  { eapply Permutation_NoDup; [| exact Hk]. unfold dict_keys.
    now apply Permutation_map. }
  assert (Hp_r : positions_unique ps_r).
  { unfold positions_unique in *. eapply Permutation_NoDup; [| exact Hp].
    unfold dict_values. now do 2 apply Permutation_map. }
  rewrite (map_attack_ranges_loop_map layout ps ps []) in Hfix
    by (try assumption; apply lookup_equiv_refl).
  apply bind_ok in Hfix. destruct Hfix as (ps' & Hfix & E).
  inversion E; subst ps'. clear E.
  pose proof (map_res_fixed _ _ Hfix) as Hall.
  rewrite (map_attack_ranges_loop_map layout ps d []).
  - rewrite (map_res_ext (fresh_pair list_of_set layout ps)
               (fresh_pair list_of_set layout ps) d ps_r
               (fun x y => fst y = fst x /\ sim (snd y) (snd x))).
    + rewrite map_res_all; [reflexivity |].
      intros e He. apply Hall. eapply Permutation_in; [| exact He].
      now apply Permutation_sym.
    + intros e e' [Hke Hse]. unfold fresh_pair.
      rewrite (fresh_entry_ext list_of_set layout ps ps e e'
                 (lookup_equiv_refl ps) (eq_sym Hke) (sim_sym _ _ Hse)).
      now rewrite Hke.
    + clear - Hsim. induction Hsim as [|x y a b [H1 H2] _ IH]; constructor; auto.
  - simpl. now rewrite <- (core_eq_keys _ _ Hcore).
  - simpl. unfold positions_unique. now rewrite <- (core_eq_positions _ _ Hcore).
  - simpl. eapply lookup_equiv_trans; [exact Hl | now apply core_eq_lookup].
Qed.

End LoopAsMap.

(** *** The layout is a function of what stands where *)

Lemma mapi_mapi {A B C : Type} (f : nat -> B -> C) (g : nat -> A -> B)
  (l : list A) :
  forall i, mapi f i (mapi g i l) = mapi (fun i a => f i (g i a)) i l.
Proof. induction l as [|a l IH]; intros i; simpl; [reflexivity | now rewrite IH]. Qed.

Lemma mapi_ext {A B : Type} (f g : nat -> A -> B) (l : list A) :
  (forall i a, f i a = g i a) -> forall i, mapi f i l = mapi g i l.
Proof.
  intros H. induction l as [|a l IH]; intros i; simpl; [reflexivity |].
  now rewrite H, IH.
Qed.

Lemma Board_update_layout_shape (layout : Layout) (a b : dict Piece) :
  Board_update_layout (Board_update_layout layout a) b = Board_update_layout layout b.
Proof.
  unfold Board_update_layout. rewrite mapi_mapi. apply mapi_ext.
  intros i row. now rewrite mapi_mapi.
Qed.

Lemma find_app_two (f : Piece -> bool) (a b : list Piece) :
  find f (a ++ b)%list = match find f a with Some y => Some y | None => find f b end.
Proof.
  induction a as [|x a IH]; simpl; [reflexivity |].
  destruct (f x); [reflexivity | exact IH].
Qed.

Lemma pieces_by_pos_get (l : list Piece) (pos : string) :
  NoDup (map p_pos l) ->
  dict_get (fold_left (fun acc piece => dict_set acc (p_pos piece) piece) l []) pos
  = find (fun p => String.eqb (p_pos p) pos) l.
Proof.
  induction l as [|p l IH] using rev_ind; intros Hnd; [reflexivity |].
  rewrite fold_left_app. simpl. rewrite dict_get_set.
  rewrite map_app in Hnd. simpl in Hnd.
  assert (Hl : NoDup (map p_pos l)) by (now apply NoDup_app_remove_r in Hnd).
  assert (Hp : ~ In (p_pos p) (map p_pos l)).
  { apply NoDup_remove_2 in Hnd. rewrite app_nil_r in Hnd. exact Hnd. }
  rewrite find_app_two. rewrite IH by exact Hl.
  destruct (String.eqb (p_pos p) pos) eqn:E.
  - apply String.eqb_eq in E. subst pos.
    destruct (find _ l) as [y|] eqn:F; [| simpl; now rewrite String.eqb_refl].
    apply find_some in F. destruct F as [Hy F]. apply String.eqb_eq in F.
    exfalso. apply Hp. rewrite <- F. now apply in_map.
  - simpl. rewrite E. destruct (find _ l); reflexivity.
Qed.

Lemma Board_update_layout_ext (layout : Layout) (a b : dict Piece) :
  positions_unique a -> positions_unique b -> lookup_equiv a b ->
  Board_update_layout layout a = Board_update_layout layout b.
Proof.
  intros Ha Hb [Hl _]. unfold Board_update_layout.
  apply mapi_ext. intros i row. apply mapi_ext. intros j _.
  unfold layout_cell. destruct (Board_get_pos_from_coordinates i j) as [pos|];
    [| reflexivity].
  unfold Pieces_get_pieces_by_pos.
  rewrite (pieces_by_pos_get _ pos Ha), (pieces_by_pos_get _ pos Hb).
  specialize (Hl pos). unfold Pieces_get_piece_by_pos in Hl.
  destruct (find _ (dict_values a)) as [p|], (find _ (dict_values b)) as [q|];
    simpl in Hl; try contradiction; [| reflexivity].
  now destruct Hl as (_ & -> & _).
Qed.

(** *** Moving a piece there and back *)

Lemma dict_del_split {V : Type} (d : dict V) (k : string) (v : V) :
  NoDup (dict_keys d) -> In (k, v) d ->
  exists a b, d = (a ++ (k, v) :: b)%list /\ dict_del d k = Ok (a ++ b)%list.
Proof.
  unfold dict_keys. induction d as [|[k0 v0] d IH]; simpl; intros Hnd Hin;
    [contradiction |].
  inversion Hnd as [|? ? Hk Hnd']; subst.
  destruct Hin as [E|Hin].
  - inversion E; subst. exists [], d. rewrite String.eqb_refl. auto.
  - destruct (String.eqb k0 k) eqn:E.
    + apply String.eqb_eq in E. subst k0. exfalso. apply Hk.
      apply in_map_iff. exists (k, v). auto.
    + destruct (IH Hnd' Hin) as (a & b & -> & Hdel).
      exists ((k0, v0) :: a), b. simpl. rewrite Hdel. auto.
Qed.

Lemma dict_set_new {V : Type} (d : dict V) (k : string) (v : V) :
  ~ In k (dict_keys d) -> dict_set d k v = (d ++ [(k, v)])%list.
Proof.
  unfold dict_keys. induction d as [|[k0 v0] d IH]; simpl; intros H; [reflexivity |].
  destruct (String.eqb k0 k) eqn:E.
  - apply String.eqb_eq in E. subst. exfalso. apply H. now left.
  - rewrite IH; [reflexivity |]. intros Hin. apply H. now right.
Qed.

Lemma sim_update_pos (p q : Piece) (pos pos' : string) :
  sim (update_pos p pos) q -> p_pos p = pos' -> sim p (update_pos q pos').
Proof.
  intros [Hc H] Hp. unfold sim, same_core in *. simpl in *.
  destruct Hc as (? & ? & ? & ? & ? & ?). repeat split; try assumption;
    try (symmetry; assumption); apply H; assumption.
Qed.

Lemma move_there_and_back (d0 : dict Piece) (pos1 pos2 : string) :
  ~ In pos2 (map p_pos (dict_values d0)) ->
  forall d1 d1',
    move_piece_at d0 pos1 pos2 = Ok d1 -> sim_eq d1 d1' ->
    exists d2, move_piece_at d1' pos2 pos1 = Ok d2 /\ sim_eq d0 d2.
Proof.
  unfold dict_values.
  induction d0 as [|[k p] r IH]; simpl; intros Hpos d1 d1' Hmove Hsim;
    [discriminate Hmove |].
  destruct (String.eqb (p_pos p) pos1) eqn:E.
  - apply String.eqb_eq in E. inversion Hmove; subst d1. clear Hmove.
    inversion Hsim as [|x [k' p'] ? r' [Hk Hs] Hr]; subst. simpl in Hk, Hs.
    subst k'. simpl.
    pose proof (sim_core _ _ Hs) as (_ & _ & _ & _ & _ & Hp'). simpl in Hp'.
    rewrite <- Hp', String.eqb_refl.
    eexists. split; [reflexivity |].
    constructor; [split; [reflexivity |] | exact Hr].
    simpl. eapply sim_update_pos; [exact Hs | reflexivity].
  - apply bind_ok in Hmove. destruct Hmove as (r1 & Hr1 & Hd). inversion Hd; subst d1.
    inversion Hsim as [|x [k' p'] ? r1' [Hk Hs] Hr]; subst. simpl in Hk, Hs.
    subst k'. simpl.
    pose proof (sim_core _ _ Hs) as (_ & _ & _ & _ & _ & Hp').
    rewrite <- Hp'.
    replace (String.eqb (p_pos p) pos2) with false
      by (symmetry; apply String.eqb_neq; intros E2; apply Hpos; now left).
    destruct (IH (fun H => Hpos (or_intror H)) r1 r1' Hr1 Hr) as (d2 & -> & Hd2).
    simpl. eexists. split; [reflexivity |].
    constructor; [split; [reflexivity | exact Hs] | exact Hd2].
Qed.

Lemma get_piece_by_pos_None_positions (d : dict Piece) (pos : string) :
  Pieces_get_piece_by_pos d pos = None -> ~ In pos (map p_pos (dict_values d)).
Proof.
  unfold Pieces_get_piece_by_pos. intros H Hin.
  apply in_map_iff in Hin. destruct Hin as (p & Hp & Hin).
  apply (find_none _ _ H) in Hin. rewrite Hp, String.eqb_refl in Hin. discriminate.
Qed.

Lemma dict_get_app {V : Type} (a b : dict V) (k : string) :
  dict_get (a ++ b)%list k
  = match dict_get a k with Some y => Some y | None => dict_get b k end.
Proof.
  induction a as [|[k0 v0] a IH]; simpl; [reflexivity |].
  destruct (String.eqb k0 k); [reflexivity | exact IH].
Qed.

(** Taking an entry out and putting it back behind the others changes
    no lookup. *)
Lemma moved_to_end_lookups (a b : dict Piece) (k : string) (q : Piece) :
  NoDup (dict_keys (a ++ (k, q) :: b)%list) ->
  positions_unique (a ++ (k, q) :: b)%list ->
  (forall pos, Pieces_get_piece_by_pos ((a ++ b) ++ [(k, q)])%list pos
               = Pieces_get_piece_by_pos (a ++ (k, q) :: b)%list pos)
  /\ (forall label, Pieces_get_piece_by_label ((a ++ b) ++ [(k, q)])%list label
                    = Pieces_get_piece_by_label (a ++ (k, q) :: b)%list label).
Proof.
  intros Hk Hp. unfold positions_unique in Hp.
  rewrite positions_app_middle in Hp. rewrite keys_app_middle in Hk.
  apply NoDup_remove_2 in Hp. apply NoDup_remove_2 in Hk.
  split.
  - intros pos. rewrite get_piece_by_pos_app.
    unfold Pieces_get_piece_by_pos, dict_values.
    rewrite !map_app, !find_app_two. simpl.
    destruct (find _ (map snd a)); [reflexivity |].
    destruct (String.eqb (p_pos q) pos) eqn:E; [| now destruct (find _ (map snd b))].
    apply String.eqb_eq in E. subst pos.
    destruct (find _ (map snd b)) as [y|] eqn:F; [| reflexivity].
    apply find_some in F. destruct F as [Hy F]. apply String.eqb_eq in F.
    exfalso. apply Hp. apply in_or_app. right. rewrite <- F.
    unfold dict_values. now apply in_map.
  - intros label. rewrite get_piece_by_label_app.
    unfold Pieces_get_piece_by_label. rewrite !dict_get_app. simpl.
    destruct (dict_get a label); [reflexivity |].
    destruct (String.eqb k label) eqn:E; [| now destruct (dict_get b label)].
    apply String.eqb_eq in E. subst label.
    destruct (dict_get b k) eqn:F; [| reflexivity].
    exfalso. apply Hk. apply in_or_app. right.
    apply dict_mem_keys. unfold dict_mem. now rewrite F.
Qed.

(** *** The state after the undo *)

Lemma to_opt_Permutation (l l' : list string) :
  Permutation l l' -> opt_rel (@Permutation string) (to_opt l) (to_opt l').
Proof.
  intros H. destruct l as [|a l], l' as [|b l']; simpl; auto.
  - apply Permutation_nil in H. discriminate.
  - apply Permutation_sym, Permutation_nil in H. discriminate.
Qed.

Lemma files_same_attackers (m m' : dict (list string)) (color : string)
  (ps ps' : dict Piece) :
  files m (fun sq => attackers color sq (dict_values ps)) ->
  files m' (fun sq => attackers color sq (dict_values ps')) ->
  Permutation ps ps' ->
  same_attackers m m'.
Proof.
  intros Hm Hm' Hp sq. rewrite (Hm sq), (Hm' sq).
  apply to_opt_Permutation. unfold attackers.
  apply Permutation_flat_map. unfold dict_values. now apply Permutation_map.
Qed.

Lemma files_same_map (m m' : dict (list string)) (f : string -> list string) :
  files m f -> files m' f -> same_map m m'.
Proof. intros H H' sq. now rewrite (H sq), (H' sq). Qed.

Lemma update_attack_ranges_maps (d : dict Piece) (r b r' b' : dict (list string))
  (c c' : option Piece) :
  red_attack_map (Pieces_update_attack_ranges (mkPieces d r b c))
  = red_attack_map (Pieces_update_attack_ranges (mkPieces d r' b' c'))
  /\ black_attack_map (Pieces_update_attack_ranges (mkPieces d r b c))
     = black_attack_map (Pieces_update_attack_ranges (mkPieces d r' b' c')).
Proof.
  unfold Pieces_update_attack_ranges. simpl.
  destruct (fold_left fold_piece_attacks (dict_values d) ([], [])). simpl. auto.
Qed.

Section UndoSymmetry.

Variable list_of_set : list Offset -> list Offset.

Lemma map_attack_range_entry_sim (layout : Layout) (done todo : dict Piece)
  (k : string) (self self' : Piece) :
  map_attack_range_entry list_of_set layout done k self todo = Ok self' ->
  sim self self'.
Proof.
  intros H. pose proof (map_attack_range_entry_sound _ _ _ _ _ _ _ H) as [Hc _].
  split; [exact Hc |]. intros E. unfold map_attack_range_entry in H.
  destruct (p_class self); try discriminate E.
  1-4: apply bind_ok in H; destruct H as (ar & _ & H); inversion H; subst;
       simpl; auto.
  apply bind_ok in H. destruct H as (behind & _ & H).
  apply bind_ok in H. destruct H as (offsets & _ & H).
  apply bind_ok in H. destruct H as (ar & _ & H). inversion H; subst.
  simpl. auto.
Qed.

Lemma map_attack_ranges_loop_sim (layout : Layout) (todo : dict Piece) :
  forall done out,
    map_attack_ranges_loop list_of_set layout done todo = Ok out ->
    exists todo', out = (done ++ todo')%list /\ sim_eq todo todo'.
Proof.
  induction todo as [|[k self] r IH]; simpl; intros done out H.
  - inversion H; subst. exists []. rewrite app_nil_r. split; [reflexivity | constructor].
  - apply bind_ok in H. destruct H as (self' & He & H).
    apply map_attack_range_entry_sim in He.
    apply IH in H. destruct H as (r' & -> & Hr).
    exists ((k, self') :: r'). split; [now rewrite <- app_assoc |].
    constructor; [split; [reflexivity | exact He] | exact Hr].
Qed.

(** What a consistent game knows about itself. *)
Lemma consistent_fixed (g : XiangqiGame) :
  refresh list_of_set g = Ok g ->
  Board_update_layout (board g) (pieces_dict (pieces g)) = board g
  /\ map_attack_ranges_loop list_of_set (board g) [] (pieces_dict (pieces g))
     = Ok (pieces_dict (pieces g))
  /\ files (red_attack_map (pieces g))
       (fun sq => attackers "R" sq (dict_values (pieces_dict (pieces g))))
  /\ files (black_attack_map (pieces g))
       (fun sq => attackers "B" sq (dict_values (pieces_dict (pieces g)))).
Proof.
  unfold refresh. intros H. apply bind_ok in H. destruct H as (P & HP & H).
  destruct g as [L Pg st pl]. simpl in *. injection H as HL HPg. subst P.
  rewrite HL in HP. split; [exact HL |].
  destruct (map_all_attack_ranges_result list_of_set L Pg Pg HP)
    as (_ & _ & Fr & Fb & _).
  split; [| split; assumption].
  unfold Pieces_map_all_attack_ranges in HP.
  apply bind_ok in HP. destruct HP as (d & Hd & HP). rewrite Hd. f_equal.
  inversion HP as [E].
  destruct (update_attack_ranges_files
              (mkPieces d (red_attack_map Pg) (black_attack_map Pg)
                 (captured_piece Pg))) as (_ & _ & Ed & _).
  rewrite E in Ed. simpl in Ed. congruence.
Qed.

(** The registry after capture, relocation, recomputation, relocation
    back and restoration: the entries of the registry before the
    attempt, the captured one last, up to the caches. *)
Lemma undo_registry (P P1 : Pieces) (pos1 pos2 player : string)
  (d1 d1' : dict Piece) (r b : dict (list string)) :
  NoDup (dict_keys (pieces_dict P)) -> keyed_by_label (pieces_dict P) ->
  positions_unique (pieces_dict P) ->
  candidate_checks (pieces_dict P) pos1 pos2 player = true ->
  Pieces_remove_captured_piece P pos2 player = Ok P1 ->
  move_piece_at (pieces_dict P1) pos1 pos2 = Ok d1 ->
  sim_eq d1 d1' ->
  exists d2 d3 ps_r,
    move_piece_at d1' pos2 pos1 = Ok d2
    /\ Pieces_restore_captured_piece (mkPieces d2 r b (captured_piece P1))
       = mkPieces d3 r b None
    /\ sim_eq ps_r d3
    /\ Permutation (pieces_dict P) ps_r
    /\ (forall pos, Pieces_get_piece_by_pos ps_r pos
                    = Pieces_get_piece_by_pos (pieces_dict P) pos)
    /\ (forall label, Pieces_get_piece_by_label ps_r label
                      = Pieces_get_piece_by_label (pieces_dict P) label)
    /\ (Pieces_get_piece_by_pos (pieces_dict P) pos2 = None -> ps_r = pieces_dict P).
Proof.
  intros Hk Hkey Hp Hchk Hrem Hmove Hsim.
  unfold Pieces_remove_captured_piece in Hrem.
  unfold candidate_checks in Hchk.
  apply andb_true_iff in Hchk. destruct Hchk as [Hchk Hsq].
  destruct (Pieces_get_piece_by_pos (pieces_dict P) pos1) as [m|]; [| discriminate Hsq].
  apply andb_true_iff in Hsq. destruct Hsq as [_ Hfriend].
  destruct (Pieces_get_piece_by_pos (pieces_dict P) pos2) as [q|] eqn:Hq.
  - apply negb_true_iff in Hfriend. rewrite Hfriend in Hrem. cbn [negb] in Hrem.
    destruct (get_piece_by_pos_In _ _ _ Hq) as [Hqin Hqpos].
    pose proof (get_piece_by_label_keyed _ q Hk Hkey Hqin) as Hql.
    unfold Pieces_get_piece_by_label in Hql. rewrite Hql in Hrem.
    assert (Hin : In (p_label q, q) (pieces_dict P)).
    { unfold dict_values in Hqin. apply in_map_iff in Hqin.
      destruct Hqin as ([k q'] & E & Hin). simpl in E. subst q'.
      unfold keyed_by_label in Hkey. rewrite Forall_forall in Hkey.
      pose proof (Hkey _ Hin) as E. simpl in E. now subst k. }
    destruct (dict_del_split _ _ _ Hk Hin) as (a0 & b0 & Hsplit & Hdel).
    rewrite Hdel in Hrem. cbn [bind] in Hrem. inversion Hrem; subst P1. clear Hrem.
    simpl in Hmove. simpl captured_piece.
    rewrite Hsplit in Hk, Hp.
    destruct (moved_to_end_lookups a0 b0 (p_label q) q Hk Hp) as [Lp Ll].
    assert (Hpos2 : ~ In pos2 (map p_pos (dict_values (a0 ++ b0)%list))).
    { unfold positions_unique in Hp. rewrite positions_app_middle in Hp.
      apply NoDup_remove_2 in Hp. rewrite Hqpos in Hp.
      unfold dict_values. rewrite map_app, map_app. exact Hp. }
    destruct (move_there_and_back _ pos1 pos2 Hpos2 d1 d1' Hmove Hsim)
      as (d2 & Hd2 & Hs2).
    exists d2, (d2 ++ [(p_label q, q)])%list, ((a0 ++ b0) ++ [(p_label q, q)])%list.
    split; [exact Hd2 |]. split.
    + unfold Pieces_restore_captured_piece. simpl.
      rewrite dict_set_new; [reflexivity |].
      rewrite <- (core_eq_keys _ _ (sim_eq_core _ _ Hs2)).
      rewrite keys_app_middle in Hk. apply NoDup_remove_2 in Hk.
      unfold dict_keys. rewrite map_app. exact Hk.
    + split; [apply sim_eq_app; [exact Hs2 | apply sim_eq_refl] |].
      rewrite Hsplit. split; [| split; [exact Lp | split; [exact Ll |]]].
      * rewrite <- app_assoc. apply Permutation_app_head.
        change ((p_label q, q) :: b0) with ([(p_label q, q)] ++ b0)%list.
        apply Permutation_app_comm.
      * intros E. discriminate E.
  - inversion Hrem; subst P1. clear Hrem. simpl in Hmove. simpl captured_piece.
    pose proof (get_piece_by_pos_None_positions _ _ Hq) as Hpos2.
    destruct (move_there_and_back _ pos1 pos2 Hpos2 d1 d1' Hmove Hsim)
      as (d2 & Hd2 & Hs2).
    exists d2, d2, (pieces_dict P).
    split; [exact Hd2 |]. split; [reflexivity |]. split; [exact Hs2 |].
    split; [apply Permutation_refl |]. auto.
Qed.

End UndoSymmetry.

Section UndoTheorem.

Variable list_of_set : list Offset -> list Offset.

Lemma equal_lookups_equiv (a b : dict Piece) :
  (forall pos, Pieces_get_piece_by_pos a pos = Pieces_get_piece_by_pos b pos) ->
  (forall label, Pieces_get_piece_by_label a label = Pieces_get_piece_by_label b label) ->
  lookup_equiv a b.
Proof.
  intros Hp Hl. split; intros x; [rewrite Hp | rewrite Hl];
    apply opt_rel_refl, same_core_refl.
Qed.

(** C1, amended.  In a consistent game, an attempt that passes the
    validation and is rejected for check returns [False] and leaves the
    board layout, the registry (the same piece, on the same square, under
    every label), the player and the game state as they were; the
    captured-piece buffer is empty afterwards, hence as before whenever
    it was empty; each attack map has the same keys and, under each key,
    the same attackers, possibly listed in another order.  When the
    attempt was not a capture the registry and the attack maps are equal
    to the ones before, order included. *)
Theorem C1_undo_restores (g : XiangqiGame) (pos1 pos2 : string) (test : bool) :
  consistent list_of_set g ->
  rejected_for_check list_of_set g pos1 pos2 ->
  exists g2,
    XiangqiGame_make_move list_of_set g pos1 pos2 test = Ok (false, g2)
    /\ same_registry (pieces_dict (pieces g2)) (pieces_dict (pieces g))
    /\ board g2 = board g
    /\ same_attackers (red_attack_map (pieces g2)) (red_attack_map (pieces g))
    /\ same_attackers (black_attack_map (pieces g2)) (black_attack_map (pieces g))
    /\ captured_piece (pieces g2) = None
    /\ (captured_piece (pieces g) = None ->
        captured_piece (pieces g2) = captured_piece (pieces g))
    /\ current_player g2 = current_player g
    /\ current_game_state g2 = current_game_state g
    /\ (Pieces_get_piece_by_pos (pieces_dict (pieces g)) pos2 = None ->
        pieces_dict (pieces g2) = pieces_dict (pieces g)
        /\ same_map (red_attack_map (pieces g2)) (red_attack_map (pieces g))
        /\ same_map (black_attack_map (pieces g2)) (black_attack_map (pieces g))).
Proof.
  intros (Hk & Hkey & Hp & Hfix) (Hs & Hv & g1 & Ha & Hc).
  destruct (consistent_fixed list_of_set g Hfix) as (HL & Hloop & Fr & Fb).
  pose proof (is_valid_move_candidate _ _ _ _ _ Hv) as Hchk.
  pose proof Ha as Ha'. unfold apply_move in Ha'.
  apply bind_ok in Ha'. destruct Ha' as (P1 & Hrem & Ha').
  apply bind_ok in Ha'. destruct Ha' as (d1 & Hmove & Href).
  unfold refresh in Href. simpl in Href.
  apply bind_ok in Href. destruct Href as (P1' & Hmap & Hg1).
  injection Hg1 as Hg1.
  unfold Pieces_map_all_attack_ranges in Hmap. simpl in Hmap.
  apply bind_ok in Hmap. destruct Hmap as (d1' & Hloop1 & HP1').
  injection HP1' as HP1'.
  apply map_attack_ranges_loop_sim in Hloop1.
  destruct Hloop1 as (d1'' & E & Hsim1). simpl in E. subst d1''.
  destruct (update_attack_ranges_files
              (mkPieces d1' (red_attack_map P1) (black_attack_map P1)
                 (captured_piece P1))) as (_ & _ & Ed1 & Ec1).
  rewrite HP1' in Ed1, Ec1. simpl in Ed1, Ec1.
  destruct (undo_registry (pieces g) P1 pos1 pos2 (current_player g) d1 d1'
              (red_attack_map P1') (black_attack_map P1')
              Hk Hkey Hp Hchk Hrem Hmove Hsim1)
    as (d2 & d3 & ps_r & Hback & Hrestore & Hsim3 & Hperm & Lp & Ll & Hsame).
  assert (Hequiv : lookup_equiv (pieces_dict (pieces g)) ps_r).
  { apply lookup_equiv_sym. now apply equal_lookups_equiv. }
  assert (Hk_r : NoDup (dict_keys ps_r)).
  { eapply Permutation_NoDup; [| exact Hk]. unfold dict_keys.
    now apply Permutation_map. }
  assert (Hp_r : positions_unique ps_r).
  { unfold positions_unique in *. eapply Permutation_NoDup; [| exact Hp].
    unfold dict_values. now do 2 apply Permutation_map. }
  pose proof (sim_eq_core _ _ Hsim3) as Hcore3.
  assert (Hp3 : positions_unique d3).
  { unfold positions_unique. now rewrite <- (core_eq_positions _ _ Hcore3). }
  assert (Hlayout : Board_update_layout (board g1) d3 = board g).
  { rewrite <- Hg1. simpl. rewrite Board_update_layout_shape.
    rewrite <- HL at 2.
    apply Board_update_layout_ext; [exact Hp3 | exact Hp |].
    apply lookup_equiv_sym.
    eapply lookup_equiv_trans; [exact Hequiv | now apply core_eq_lookup]. }
  pose proof (map_attack_ranges_loop_reordered list_of_set (board g)
                (pieces_dict (pieces g)) ps_r d3 Hk Hp Hloop Hperm Hequiv Hsim3)
    as Hloop3.
  set (P3 := Pieces_update_attack_ranges
               (mkPieces ps_r (red_attack_map P1') (black_attack_map P1') None)).
  set (g2 := mkGame (board g) P3 (current_game_state g) (current_player g)).
  assert (Hundo : XiangqiGame_undo_move list_of_set g1 pos1 pos2 = Ok g2).
  { unfold XiangqiGame_undo_move.
    assert (Epieces : pieces g1 = P1') by (rewrite <- Hg1; reflexivity).
    rewrite Epieces, Ed1, Hback. cbn [bind].
    unfold set_pieces_dict. rewrite Ec1, Hrestore.
    unfold refresh. cbn [set_pieces board pieces pieces_dict].
    rewrite Hlayout.
    unfold Pieces_map_all_attack_ranges. cbn [pieces_dict]. rewrite Hloop3.
    cbn [bind red_attack_map black_attack_map captured_piece].
    fold P3. rewrite <- Hg1. reflexivity. }
  destruct (update_attack_ranges_files
              (mkPieces ps_r (red_attack_map P1') (black_attack_map P1') None))
    as (Fr3 & Fb3 & Ed3 & Ec3).
  fold P3 in Fr3, Fb3, Ed3, Ec3. simpl in Fr3, Fb3, Ed3, Ec3.
  exists g2. split.
  - unfold XiangqiGame_make_move, make_move_body.
    rewrite Hs, Hv. cbn [bind]. rewrite Ha. cbn [bind]. rewrite Hc. cbn [bind].
    rewrite Hundo. reflexivity.
  - simpl. rewrite Ed3, Ec3.
    split; [exact Ll |]. split; [reflexivity |].
    split; [apply (files_same_attackers _ _ "R" ps_r (pieces_dict (pieces g)));
            [exact Fr3 | exact Fr | now apply Permutation_sym] |].
    split; [apply (files_same_attackers _ _ "B" ps_r (pieces_dict (pieces g)));
            [exact Fb3 | exact Fb | now apply Permutation_sym] |].
    split; [reflexivity |]. split; [intros E; now rewrite E |].
    split; [reflexivity |]. split; [reflexivity |].
    intros Hnone. specialize (Hsame Hnone). subst ps_r.
    split; [reflexivity |].
    split; eapply files_same_map; eassumption.
Qed.

End UndoTheorem.

Lemma C1_witness :
  exists g2,
    XiangqiGame_make_move first_occurrences pinned_soldier_game "e4" "e5" false
    = Ok (false, g2)
    /\ board g2 = board pinned_soldier_game
    /\ same_registry (pieces_dict (pieces g2))
         (pieces_dict (pieces pinned_soldier_game))
    /\ same_attackers (black_attack_map (pieces g2))
         (black_attack_map (pieces pinned_soldier_game))
    /\ captured_piece (pieces g2) = None.
Proof.
  destruct (C1_undo_restores first_occurrences pinned_soldier_game "e4" "e5" false)
    as (g2 & Hm & Hr & Hb & _ & Hbl & Hc & _).
  - split; [apply nodup_strings_NoDup; vm_compute; reflexivity |].
    split; [repeat constructor |].
    split; [apply nodup_strings_NoDup; vm_compute; reflexivity |].
    vm_compute. reflexivity.
  - split; [reflexivity |]. split; [vm_compute; reflexivity |].
    eexists. split; vm_compute; reflexivity.
  - exists g2. auto.
Defined.

(** ** The board as a coordinate system *)

Lemma columns_nth (j : nat) (c : string) :
  nth_error Board_columns j = Some c ->
  (j < 9)%nat /\ str_in c Board_columns = true /\ list_index c Board_columns = Ok j
  /\ py_ord c = Ok (97 + Z.of_nat j).
Proof.
  intros H.
  do 9 (destruct j as [|j];
        [inversion H; subst; repeat split; try lia; reflexivity |]).
  destruct j; discriminate H.
Qed.

Lemma rows_nth (i : nat) (r : string) :
  nth_error Board_rows i = Some r ->
  (i < 10)%nat /\ str_in r Board_rows = true /\ list_index r Board_rows = Ok i
  /\ py_int r = Ok (Z.of_nat i + 1) /\ py_str (Z.of_nat i + 1) = r.
Proof.
  intros H.
  do 10 (destruct i as [|i];
         [inversion H; subst; repeat split; try lia; reflexivity |]).
  destruct i; discriminate H.
Qed.

Lemma coordinates_of_square (i j : nat) (c r : string) :
  nth_error Board_columns j = Some c -> nth_error Board_rows i = Some r ->
  Board_get_coordinates_from_pos (c ++ r) = Some (i, j).
Proof.
  intros Hc Hr.
  do 9 (destruct j as [|j];
        [inversion Hc; subst;
         do 10 (destruct i as [|i]; [inversion Hr; subst; reflexivity |]);
         destruct i; discriminate Hr |]).
  destruct j; discriminate Hc.
Qed.

(** X1.  [is_valid_pos] accepts exactly the ninety squares: a file
    letter from [a] to [i] followed by a rank from [1] to [10], with
    nothing before, between or after. *)
Theorem X1_valid_pos_squares (pos : string) :
  Board_is_valid_pos pos = true
  <-> exists c r, In c Board_columns /\ In r Board_rows /\ pos = c ++ r.
Proof.
  split.
  - unfold Board_is_valid_pos. intros H.
    destruct (Board_get_coordinates_from_pos pos) as [[i j]|] eqn:E; [| discriminate H].
    apply coordinates_some in E. destruct E as (c & Hc & Hi & Hj).
    apply list_index_nth in Hi, Hj. apply nth_error_In in Hi, Hj.
    exists c, (str_tail pos). auto using str_get0_tail.
  - intros (c & r & Hc & Hr & ->).
    apply In_nth_error in Hc, Hr. destruct Hc as [j Hj], Hr as [i Hi].
    unfold Board_is_valid_pos. now rewrite (coordinates_of_square i j c r Hj Hi).
Qed.

Lemma pos_of_coordinates (pos : string) (i j : nat) :
  Board_get_coordinates_from_pos pos = Some (i, j) ->
  Board_get_pos_from_coordinates i j = Some pos.
Proof.
  intros E. apply coordinates_some in E. destruct E as (c & Hc & Hi & Hj).
  apply list_index_nth in Hi, Hj. unfold Board_get_pos_from_coordinates.
  rewrite Hi, Hj. f_equal. symmetry. now apply str_get0_tail.
Qed.

(** X2.  [get_coordinates_from_pos] and [get_pos_from_coordinates] are
    inverse to each other: a position has the coordinates (row, column)
    exactly when the coordinates name that position. *)
Theorem X2_coordinates_round_trip (pos : string) (i j : nat) :
  Board_get_coordinates_from_pos pos = Some (i, j)
  <-> Board_get_pos_from_coordinates i j = Some pos.
Proof.
  split; [apply pos_of_coordinates |].
  unfold Board_get_pos_from_coordinates.
  - destruct (nth_error Board_columns j) as [c|] eqn:Hc; [| discriminate].
    destruct (nth_error Board_rows i) as [r|] eqn:Hr; [| discriminate].
    intros E. inversion E; subst. now apply coordinates_of_square.
Qed.

Lemma nth_file_cells (layout : Layout) (i j : nat) (row : list string) :
  nth_error layout i = Some row ->
  nth i (file_cells layout j) Board_empty = nth j row Board_empty.
Proof.
  unfold file_cells. revert i. induction layout as [|x l IH]; intros [|i] H;
    simpl in *; try discriminate.
  - now inversion H.
  - now apply IH.
Qed.

Lemma column_cells_range (layout : Layout) (j lo hi : nat) :
  (j < 9)%nat -> Forall (fun row => List.length row = 9%nat) layout ->
  forall rows i, (i + rows <= List.length layout)%nat ->
    column_cells layout i j lo hi rows
    = Ok (map (fun k => nth k (file_cells layout j) Board_empty)
            (filter (fun k => Nat.leb lo k && Nat.leb k hi) (seq i rows))).
Proof.
  intros Hj Hrows. induction rows as [|n IH]; intros i Hi; [reflexivity |].
  cbn [column_cells seq filter].
  rewrite IH by lia.
  destruct (nth_error layout i) as [row|] eqn:Hrow;
    [| apply nth_error_None in Hrow; lia].
  destruct (Nat.leb lo i && Nat.leb i hi); cbn [bind]; [| reflexivity].
  unfold list_get. rewrite Hrow. cbn [bind].
  rewrite Forall_forall in Hrows.
  pose proof (Hrows row (nth_error_In _ _ Hrow)) as Hlen.
  destruct (nth_error row j) as [v|] eqn:Hv;
    [| apply nth_error_None in Hv; lia].
  cbn [bind app map]. rewrite (nth_file_cells layout i j row Hrow).
  now rewrite (nth_error_nth row j Board_empty Hv).
Qed.

Lemma filter_seq_range (lo hi : nat) :
  (lo <= hi)%nat -> (hi < 10)%nat ->
  filter (fun k => Nat.leb lo k && Nat.leb k hi) (seq 0 10) = seq lo (S hi - lo).
Proof.
  intros H1 H2.
  do 10 (destruct hi as [|hi];
         [do 10 (destruct lo as [|lo]; [reflexivity || lia |]); lia |]).
  lia.
Qed.

(** X3.  [get_column] on a board of ten rows of nine cells: for an
    ascending range of ranks it returns the cells of the file on those
    ranks, from the low rank to the high one; for a descending range it
    returns [None] (the value of [list.reverse()]), not the reversed
    cells. *)
Theorem X3_get_column_range (layout : Layout) (col pos1 pos2 : string)
  (j i1 i2 : nat) :
  well_shaped layout ->
  nth_error Board_columns j = Some col ->
  nth_error Board_rows i1 = Some pos1 ->
  nth_error Board_rows i2 = Some pos2 ->
  Board_get_column layout col pos1 pos2
  = Ok (if Nat.ltb i2 i1 then None
        else Some (map (fun i => nth i (file_cells layout j) Board_empty)
                     (seq i1 (S i2 - i1)))).
Proof.
  intros [Hlen Hrows] Hc H1 H2.
  destruct (columns_nth j col Hc) as (Hj & Hcin & _).
  destruct (rows_nth i1 pos1 H1) as (Hi1 & Hin1 & _ & Hint1 & _).
  destruct (rows_nth i2 pos2 H2) as (Hi2 & Hin2 & _ & Hint2 & _).
  unfold Board_get_column. rewrite Hcin, Hin1, Hin2, Hint1, Hint2.
  cbn [negb orb bind].
  assert (Elo : Z.min (Z.of_nat i1 + 1) (Z.of_nat i2 + 1)
                = Z.of_nat (Nat.min i1 i2) + 1) by lia.
  assert (Ehi : Z.max (Z.of_nat i1 + 1) (Z.of_nat i2 + 1)
                = Z.of_nat (Nat.max i1 i2) + 1) by lia.
  rewrite Elo, Ehi.
  assert (Hlo : exists r, nth_error Board_rows (Nat.min i1 i2) = Some r).
  { destruct (nth_error Board_rows (Nat.min i1 i2)) eqn:E; [eauto |].
    apply nth_error_None in E. simpl in E. lia. }
  assert (Hhi : exists r, nth_error Board_rows (Nat.max i1 i2) = Some r).
  { destruct (nth_error Board_rows (Nat.max i1 i2)) eqn:E; [eauto |].
    apply nth_error_None in E. simpl in E. lia. }
  destruct Hlo as [rlo Hlo], Hhi as [rhi Hhi].
  destruct (rows_nth _ _ Hlo) as (_ & _ & _ & _ & Slo).
  destruct (rows_nth _ _ Hhi) as (_ & _ & _ & _ & Shi).
  rewrite Slo, Shi.
  rewrite (coordinates_of_square _ _ _ _ Hc Hlo),
    (coordinates_of_square _ _ _ _ Hc Hhi).
  cbn [fst snd]. unfold Board_height.
  rewrite (column_cells_range layout j _ _ Hj Hrows 10 0) by lia.
  cbn [bind]. f_equal.
  destruct (Z.of_nat i2 + 1 <? Z.of_nat i1 + 1) eqn:E.
  - apply Z.ltb_lt in E.
    replace (Nat.ltb i2 i1) with true by (symmetry; apply Nat.ltb_lt; lia).
    reflexivity.
  - apply Z.ltb_ge in E.
    replace (Nat.ltb i2 i1) with false by (symmetry; apply Nat.ltb_ge; lia).
    replace (Nat.min i1 i2) with i1 by lia.
    replace (Nat.max i1 i2) with i2 by lia.
    rewrite filter_seq_range by lia. reflexivity.
Qed.

Lemma X3_witness :
  Board_get_column Board_start_layout "e" "7" "10"
  = Ok (Some ["SB3"; "---"; "---"; "GB1"])
  /\ Board_get_column Board_start_layout "e" "10" "7" = Ok None.
Proof.
  split.
  - apply (X3_get_column_range Board_start_layout "e" "7" "10" 4 6 9);
      [apply start_layout_well_shaped | reflexivity ..].
  - apply (X3_get_column_range Board_start_layout "e" "10" "7" 4 9 6);
      [apply start_layout_well_shaped | reflexivity ..].
Defined.
Lemma py_slice_nat {A : Type} (l : list A) (lo hi : nat) :
  (lo <= List.length l)%nat -> (hi <= List.length l)%nat ->
  py_slice l (Z.of_nat lo) (Z.of_nat hi) = firstn (hi - lo) (skipn lo l).
Proof.
  intros H1 H2. unfold py_slice, clamp_index, norm_index.
  replace (Z.of_nat lo <? 0) with false by (symmetry; apply Z.ltb_ge; lia).
  replace (Z.of_nat hi <? 0) with false by (symmetry; apply Z.ltb_ge; lia).
  do 2 f_equal; lia.
Qed.

Lemma firstn_skipn_nth {A : Type} (d : A) (l : list A) :
  forall lo n, (lo + n <= List.length l)%nat ->
               firstn n (skipn lo l) = map (fun k => nth k l d) (seq lo n).
Proof.
  induction l as [|a l IH]; intros lo n H.
  - simpl in H. assert (lo = 0%nat) by lia. assert (n = 0%nat) by lia.
    subst. reflexivity.
  - destruct lo as [|lo].
    + destruct n as [|n]; [reflexivity |].
      simpl. f_equal. simpl in H.
      rewrite <- seq_shift, map_map.
      specialize (IH 0%nat n). simpl in IH. apply IH. lia.
    + simpl in H. simpl skipn. rewrite IH by lia.
      rewrite <- (seq_shift n lo), map_map. reflexivity.
Qed.

(** X4.  [get_row] on a board of ten rows of nine cells returns the
    cells of the rank from the first file to the second, both included;
    when the first file lies after the second the answer is the empty
    list (where [get_column] answers [None]). *)
Theorem X4_get_row_range (layout : Layout) (row pos1 pos2 : string)
  (i j1 j2 : nat) (line : list string) :
  well_shaped layout ->
  nth_error Board_rows i = Some row ->
  nth_error Board_columns j1 = Some pos1 ->
  nth_error Board_columns j2 = Some pos2 ->
  nth_error layout i = Some line ->
  Board_get_row layout row pos1 pos2
  = Ok (Some (map (fun j => nth j line Board_empty) (seq j1 (S j2 - j1)))).
Proof.
  intros [Hlen Hrows] Hr H1 H2 Hline.
  destruct (rows_nth i row Hr) as (Hi & Hin & _ & Hint & _).
  destruct (columns_nth j1 pos1 H1) as (Hj1 & Hin1 & _ & Ho1).
  destruct (columns_nth j2 pos2 H2) as (Hj2 & Hin2 & _ & Ho2).
  unfold Board_get_row. rewrite Hin, Hin1, Hin2, Hint, Ho1, Ho2.
  cbn [negb orb bind]. unfold norm_index. rewrite Hlen.
  replace (Z.of_nat i + 1 - 1 <? 0) with false by (symmetry; apply Z.ltb_ge; lia).
  replace ((0 <=? Z.of_nat i + 1 - 1) && (Z.of_nat i + 1 - 1 <? Z.of_nat 10))
    with true by (symmetry; apply andb_true_iff; split;
                  [apply Z.leb_le | apply Z.ltb_lt]; lia).
  replace (Z.to_nat (Z.of_nat i + 1 - 1)) with i by lia.
  unfold list_get. rewrite Hline. cbn [bind]. do 2 f_equal.
  rewrite Forall_forall in Hrows.
  pose proof (Hrows line (nth_error_In _ _ Hline)) as Hl.
  replace (97 + Z.of_nat j1 - 97) with (Z.of_nat j1) by lia.
  replace (97 + Z.of_nat j2 - 97 + 1) with (Z.of_nat (S j2)) by lia.
  rewrite py_slice_nat by lia.
  destruct (Nat.le_gt_cases j1 (S j2)) as [H|H].
  - apply firstn_skipn_nth. lia.
  - replace (S j2 - j1)%nat with 0%nat by lia. reflexivity.
Qed.

Lemma X4_witness :
  Board_get_row Board_start_layout "3" "b" "h"
  = Ok (Some ["NR1"; "---"; "---"; "---"; "---"; "---"; "NR2"])
  /\ Board_get_row Board_start_layout "3" "h" "b" = Ok (Some []).
Proof.
  split.
  - apply (X4_get_row_range Board_start_layout "3" "b" "h" 2 1 7
             ["---"; "NR1"; "---"; "---"; "---"; "---"; "---"; "NR2"; "---"]);
      [apply start_layout_well_shaped | reflexivity ..].
  - apply (X4_get_row_range Board_start_layout "3" "h" "b" 2 7 1
             ["---"; "NR1"; "---"; "---"; "---"; "---"; "---"; "NR2"; "---"]);
      [apply start_layout_well_shaped | reflexivity ..].
Defined.

Lemma square_nth (i j : nat) (c r : string) :
  nth_error Board_columns j = Some c -> nth_error Board_rows i = Some r ->
  square i j = c ++ r.
Proof.
  intros Hc Hr. unfold square.
  now rewrite (nth_error_nth _ _ "" Hc), (nth_error_nth _ _ "" Hr).
Qed.

(** X5.  [get_row_positions] and [get_column_positions] list the squares
    of a rank between two files, and of a file between two ranks, both
    ends included and in ascending order; a descending range gives the
    empty list. *)
Theorem X5_line_positions (i i1 i2 j j1 j2 : nat)
  (row col r1 r2 c1 c2 : string) :
  nth_error Board_rows i = Some row ->
  nth_error Board_columns j1 = Some c1 -> nth_error Board_columns j2 = Some c2 ->
  nth_error Board_columns j = Some col ->
  nth_error Board_rows i1 = Some r1 -> nth_error Board_rows i2 = Some r2 ->
  Board_get_row_positions row c1 c2
  = Ok (Some (map (fun k => square i k) (seq j1 (S j2 - j1))))
  /\ Board_get_column_positions col r1 r2
     = Ok (Some (map (fun k => square k j) (seq i1 (S i2 - i1)))).
Proof.
  intros Hrow Hc1 Hc2 Hcol Hr1 Hr2.
  destruct (rows_nth i row Hrow) as (Hi & Hin & _).
  destruct (columns_nth j1 c1 Hc1) as (Hj1 & Hin1 & _ & Ho1).
  destruct (columns_nth j2 c2 Hc2) as (Hj2 & Hin2 & _ & Ho2).
  destruct (columns_nth j col Hcol) as (Hj & Hcin & _).
  destruct (rows_nth i1 r1 Hr1) as (Hi1 & Hrin1 & _ & Hint1 & _).
  destruct (rows_nth i2 r2 Hr2) as (Hi2 & Hrin2 & _ & Hint2 & _).
  assert (Lc : List.length Board_columns = 9%nat) by reflexivity.
  assert (Lr : List.length Board_rows = 10%nat) by reflexivity.
  split.
  - unfold Board_get_row_positions. rewrite Hin, Hin1, Hin2, Ho1, Ho2.
    cbn [negb orb bind]. do 2 f_equal.
    replace (97 + Z.of_nat j1 - 97) with (Z.of_nat j1) by lia.
    replace (97 + Z.of_nat j2 - 97 + 1) with (Z.of_nat (S j2)) by lia.
    rewrite py_slice_nat by lia.
    destruct (Nat.le_gt_cases j1 (S j2)) as [H|H].
    + rewrite (firstn_skipn_nth "") by lia.
      rewrite map_map. apply map_ext_in. intros k Hk. apply in_seq in Hk.
      unfold square. now rewrite (nth_error_nth _ _ "" Hrow).
    + replace (S j2 - j1)%nat with 0%nat by lia. reflexivity.
  - unfold Board_get_column_positions. rewrite Hcin, Hrin1, Hrin2, Hint1, Hint2.
    cbn [negb orb bind]. do 2 f_equal.
    replace (Z.of_nat i1 + 1 - 1) with (Z.of_nat i1) by lia.
    replace (Z.of_nat i2 + 1) with (Z.of_nat (S i2)) by lia.
    rewrite py_slice_nat by lia.
    destruct (Nat.le_gt_cases i1 (S i2)) as [H|H].
    + rewrite (firstn_skipn_nth "") by lia.
      rewrite map_map. apply map_ext_in. intros k Hk.
      unfold square. now rewrite (nth_error_nth _ _ "" Hcol).
    + replace (S i2 - i1)%nat with 0%nat by lia. reflexivity.
Qed.

Lemma X5_witness :
  Board_get_row_positions "4" "c" "e" = Ok (Some ["c4"; "d4"; "e4"])
  /\ Board_get_column_positions "e" "8" "10" = Ok (Some ["e8"; "e9"; "e10"]).
Proof.
  apply (X5_line_positions 3 7 9 4 2 4 "4" "e" "8" "10" "c" "e"); reflexivity.
Defined.

Lemma nth_error_mapi {A B : Type} (f : nat -> A -> B) (l : list A) :
  forall s i, nth_error (mapi f s l) i = option_map (f (s + i)%nat) (nth_error l i).
Proof.
  induction l as [|a l IH]; intros s [|i]; simpl; try reflexivity.
  - now rewrite Nat.add_0_r.
  - rewrite IH. now rewrite Nat.add_succ_r.
Qed.

Lemma length_mapi {A B : Type} (f : nat -> A -> B) (l : list A) :
  forall s, List.length (mapi f s l) = List.length l.
Proof. induction l as [|a l IH]; intros s; simpl; [reflexivity | now rewrite IH]. Qed.

Lemma Forall_mapi {A B : Type} (f : nat -> A -> B) (P : B -> Prop) (l : list A) :
  (forall i a, In a l -> P (f i a)) -> forall s, Forall P (mapi f s l).
Proof.
  induction l as [|a l IH]; intros H s; simpl; constructor.
  - apply H. now left.
  - apply IH. intros i b Hb. apply H. now right.
Qed.

(** X6.  After [update_layout] the board shows the registry: on every
    square stands the label of the piece the registry has there, or the
    empty marker when it has none; the shape of the board is kept. *)
Theorem X6_update_layout_shows_registry (layout : Layout) (ps : dict Piece) :
  well_shaped layout -> positions_unique ps ->
  well_shaped (Board_update_layout layout ps)
  /\ forall pos, Board_is_valid_pos pos = true ->
       Board_get_value_at_pos (Board_update_layout layout ps) pos
       = Some match Pieces_get_piece_by_pos ps pos with
              | Some piece => p_label piece
              | None => Board_empty
              end.
Proof.
  intros [Hlen Hrows] Hu. split.
  - unfold well_shaped, Board_update_layout. rewrite length_mapi.
    split; [exact Hlen |].
    apply Forall_mapi. intros i row Hrow. rewrite length_mapi.
    rewrite Forall_forall in Hrows. now apply Hrows.
  - intros pos Hv. unfold Board_is_valid_pos in Hv.
    unfold Board_get_value_at_pos.
    destruct (Board_get_coordinates_from_pos pos) as [[i j]|] eqn:E;
      [| discriminate Hv].
    destruct (coordinates_facts pos i j E) as (_ & Hi & Hj & _).
    unfold Board_update_layout. rewrite nth_error_mapi.
    destruct (nth_error layout i) as [row|] eqn:Hrow;
      [| apply nth_error_None in Hrow; lia].
    cbn [option_map]. rewrite nth_error_mapi.
    rewrite Forall_forall in Hrows.
    pose proof (Hrows row (nth_error_In _ _ Hrow)) as Hl.
    destruct (nth_error row j) as [v|] eqn:Hcell;
      [| apply nth_error_None in Hcell; lia].
    cbn [option_map Nat.add]. f_equal. unfold layout_cell.
    rewrite (pos_of_coordinates pos i j E).
    unfold Pieces_get_pieces_by_pos. rewrite (pieces_by_pos_get _ pos Hu).
    reflexivity.
Qed.

Lemma X6_witness :
  Board_get_value_at_pos
    (Board_update_layout Board_start_layout (pieces_dict (pieces pinned_soldier_game)))
    "e5"
  = Some "SB3".
Proof.
  destruct (X6_update_layout_shows_registry Board_start_layout
              (pieces_dict (pieces pinned_soldier_game))) as [_ H].
  - exact start_layout_well_shaped.
  - apply nodup_strings_NoDup. vm_compute. reflexivity.
  - apply (H "e5"). reflexivity.
Defined.
(** ** The Advisor, the Elephant and the Horse *)

Lemma side_of_cases (player : string) :
  (player = Board_red /\ side_of player = Board_red)
  \/ (player = Board_black /\ side_of player = Board_black)
  \/ (String.eqb player Board_red = false /\ String.eqb player Board_black = false
      /\ side_of player = "").
Proof.
  unfold side_of.
  destruct (String.eqb player Board_red) eqn:E1;
    [apply String.eqb_eq in E1; auto |].
  destruct (String.eqb player Board_black) eqn:E2;
    [apply String.eqb_eq in E2; auto |].
  auto.
Qed.

Lemma is_in_palace_side (pos player : string) :
  Board_is_in_palace pos player = Board_is_in_palace pos (side_of player).
Proof.
  destruct (side_of_cases player) as [[-> ->]|[[-> ->]|(E1 & E2 & ->)]];
    try reflexivity.
  unfold Board_is_in_palace. now rewrite E1.
Qed.

Lemma is_behind_river_side (pos player : string) :
  Board_is_behind_river pos player = Board_is_behind_river pos (side_of player).
Proof.
  destruct (side_of_cases player) as [[-> ->]|[[-> ->]|(E1 & E2 & ->)]];
    try reflexivity.
  unfold Board_is_behind_river. now rewrite E1, E2.
Qed.

Lemma on_own_bank_side (pos player : string) :
  on_own_bank player pos = on_own_bank (side_of player) pos.
Proof.
  destruct (side_of_cases player) as [[-> ->]|[[-> ->]|(E1 & E2 & ->)]];
    try reflexivity.
  unfold on_own_bank. now rewrite E1, E2.
Qed.

Lemma Advisor_rule_checked (pos1 pos2 : string) :
  Board_is_valid_pos pos1 = true -> Board_is_valid_pos pos2 = true ->
  forallb (fun side =>
             res_bool_eqb (Advisor_is_valid_move pos1 pos2 [] [] side)
               (Ok (Board_is_in_palace pos2 side && one_diagonal_step pos1 pos2)))
    [Board_red; Board_black; ""] = true.
Proof.
  revert pos1 pos2. apply forall_valid_positions. vm_compute. reflexivity.
Qed.

(** X7.  The Advisor's rule: between two squares of the board, the move
    is valid exactly when the destination lies in the palace of the
    player and is one diagonal step away; the call never raises. *)
Theorem X7_advisor_rule (pos1 pos2 : string) (layout : Layout) (ps : dict Piece)
  (player : string) :
  Board_is_valid_pos pos1 = true -> Board_is_valid_pos pos2 = true ->
  Advisor_is_valid_move pos1 pos2 layout ps player
  = Ok (Board_is_in_palace pos2 player && one_diagonal_step pos1 pos2).
Proof.
  intros H1 H2. pose proof (Advisor_rule_checked pos1 pos2 H1 H2) as H.
  cbn [forallb] in H.
  apply andb_true_iff in H. destruct H as [HR H].
  apply andb_true_iff in H. destruct H as [HB H].
  apply andb_true_iff in H. destruct H as [HN _].
  apply res_bool_eqb_eq in HR, HB, HN.
  rewrite (is_in_palace_side pos2 player).
  unfold Advisor_is_valid_move in *.
  rewrite (is_in_palace_side pos2 player).
  destruct (side_of_cases player) as [[_ ->]|[[_ ->]|(_ & _ & ->)]]; assumption.
Qed.

Lemma X7_witness :
  Advisor_is_valid_move "d1" "e2" Board_start_layout [] "R" = Ok true
  /\ Advisor_is_valid_move "e2" "d3" Board_start_layout [] "R" = Ok true
  /\ Advisor_is_valid_move "d3" "c4" Board_start_layout [] "R" = Ok false.
Proof.
  split; [| split].
  - apply (X7_advisor_rule "d1" "e2" Board_start_layout [] "R"); reflexivity.
  - apply (X7_advisor_rule "e2" "d3" Board_start_layout [] "R"); reflexivity.
  - apply (X7_advisor_rule "d3" "c4" Board_start_layout [] "R"); reflexivity.
Defined.

Ltac split_binds :=
  repeat first
    [ reflexivity
    | match goal with
      | |- context [bind ?m _] =>
          lazymatch m with
          | context [bind _ _] => fail
          | context [if _ then _ else _] => fail
          | _ => destruct m; cbn [bind]
          end
      | |- context [if ?b then _ else _] =>
          lazymatch b with
          | context [bind _ _] => fail
          | context [if _ then _ else _] => fail
          | _ => destruct b; cbn [bind]
          end
      end ].

Lemma Elephant_is_valid_move_lookup (pos1 pos2 : string) (layout : Layout)
  (ps : dict Piece) (player : string) :
  Elephant_is_valid_move pos1 pos2 layout ps player
  = (eye <- Elephant_eye_lookup pos1 pos2 player ;;
     match eye with
     | Some middle_pos => Ok (negb (is_some (Pieces_get_piece_by_pos ps middle_pos)))
     | None => Ok false
     end).
Proof. unfold Elephant_is_valid_move, Elephant_eye_lookup. split_binds. Qed.

Lemma Elephant_eye_checked (pos1 pos2 : string) :
  Board_is_valid_pos pos1 = true -> Board_is_valid_pos pos2 = true ->
  forallb (fun side =>
             res_option_eqb (Elephant_eye_lookup pos1 pos2 side)
               (Ok (if on_own_bank side pos2 && two_diagonal_steps pos1 pos2
                    then Some (elephant_eye pos1 pos2) else None)))
    [Board_red; Board_black; ""] = true.
Proof.
  revert pos1 pos2. apply forall_valid_positions. vm_compute. reflexivity.
Qed.

Lemma option_string_eqb_eq (a b : option string) :
  option_string_eqb a b = true -> a = b.
Proof.
  destruct a, b; simpl; try discriminate; [| reflexivity].
  intros H. apply String.eqb_eq in H. now subst.
Qed.

Lemma res_option_eqb_eq (a b : res (option string)) :
  res_option_eqb a b = true -> a = b.
Proof.
  destruct a, b; simpl; try discriminate.
  intros H. apply option_string_eqb_eq in H. now subst.
Qed.

(** X8.  The Elephant's rule: between two squares of the board, the move
    is valid exactly when the destination lies on the player's bank of
    the river, two diagonal steps away, and the registry has no piece on
    the square in between; the call never raises. *)
Theorem X8_elephant_rule (pos1 pos2 : string) (layout : Layout) (ps : dict Piece)
  (player : string) :
  Board_is_valid_pos pos1 = true -> Board_is_valid_pos pos2 = true ->
  Elephant_is_valid_move pos1 pos2 layout ps player
  = Ok (on_own_bank player pos2 && two_diagonal_steps pos1 pos2
        && negb (is_some (Pieces_get_piece_by_pos ps (elephant_eye pos1 pos2)))).
Proof.
  intros H1 H2. pose proof (Elephant_eye_checked pos1 pos2 H1 H2) as H.
  cbn [forallb] in H.
  apply andb_true_iff in H. destruct H as [HR H].
  apply andb_true_iff in H. destruct H as [HB H].
  apply andb_true_iff in H. destruct H as [HN _].
  apply res_option_eqb_eq in HR, HB, HN.
  rewrite Elephant_is_valid_move_lookup.
  assert (E : Elephant_eye_lookup pos1 pos2 player
              = Elephant_eye_lookup pos1 pos2 (side_of player)).
  { unfold Elephant_eye_lookup. now rewrite is_behind_river_side. }
  rewrite E, (on_own_bank_side pos2 player).
  destruct (side_of_cases player) as [[_ ->]|[[_ ->]|(_ & _ & ->)]];
    [rewrite HR | rewrite HB | rewrite HN]; cbn [bind];
    match goal with
    | |- context [if ?b then _ else _] => destruct b; reflexivity
    end.
Qed.

Lemma X8_witness :
  Elephant_is_valid_move "c1" "e3" (board start_game)
    (pieces_dict (pieces start_game)) "R" = Ok true
  /\ Elephant_is_valid_move "d3" "f5" screened_file_layout
       screened_file_pieces "R" = Ok false.
Proof.
  split.
  - apply (X8_elephant_rule "c1" "e3" (board start_game)
             (pieces_dict (pieces start_game)) "R"); reflexivity.
  - apply (X8_elephant_rule "d3" "f5" screened_file_layout
             screened_file_pieces "R"); reflexivity.
Defined.
Lemma Horse_is_valid_move_lookups (self : Piece) (pos1 pos2 : string)
  (layout : Layout) (ps : dict Piece) (player : string) :
  Horse_is_valid_move self pos1 pos2 layout ps player
  = (row <- Horse_row_lookup (p_range self) pos1 pos2 ;;
     match row with
     | None => Ok false
     | Some leg =>
         if match leg with
            | Some sq => is_some (Pieces_get_piece_by_pos ps sq)
            | None => false
            end
         then Ok false
         else
           col <- Horse_col_lookup pos1 pos2 ;;
           Ok (negb match col with
                    | Some sq => is_some (Pieces_get_piece_by_pos ps sq)
                    | None => false
                    end)
     end).
Proof. unfold Horse_is_valid_move, Horse_row_lookup, Horse_col_lookup. split_binds. Qed.

Lemma horse_lookups_checked_all (pos1 pos2 : string) :
  Board_is_valid_pos pos1 = true -> Board_is_valid_pos pos2 = true ->
  horse_lookups_checked pos1 pos2 = true.
Proof.
  revert pos1 pos2. apply forall_valid_positions. vm_compute. reflexivity.
Qed.

(** X9.  The Horse's rule: between two squares of the board, the move is
    valid exactly when it goes two squares along a rank or a file and one
    square sideways, and the registry has no piece on the square next to
    the origin in the direction of the long side; the call never
    raises. *)
Theorem X9_horse_rule (self : Piece) (pos1 pos2 : string) (layout : Layout)
  (ps : dict Piece) (player : string) :
  p_range self = class_range Horse ->
  Board_is_valid_pos pos1 = true -> Board_is_valid_pos pos2 = true ->
  Horse_is_valid_move self pos1 pos2 layout ps player
  = Ok (horse_step pos1 pos2
        && negb (is_some (Pieces_get_piece_by_pos ps (horse_leg pos1 pos2)))).
Proof.
  intros Hr H1 H2. pose proof (horse_lookups_checked_all pos1 pos2 H1 H2) as H.
  unfold horse_lookups_checked in H.
  rewrite Horse_is_valid_move_lookups, Hr.
  destruct (Horse_row_lookup (class_range Horse) pos1 pos2) as [[[sq|]|]|];
    try discriminate H; cbn [bind].
  - destruct (Horse_col_lookup pos1 pos2) as [[sq'|]|]; try discriminate H.
    apply andb_true_iff in H. destruct H as [-> H].
    apply String.eqb_eq in H. subst sq. cbn [bind andb].
    destruct (is_some _); reflexivity.
  - destruct (Horse_col_lookup pos1 pos2) as [[sq'|]|]; try discriminate H.
    apply andb_true_iff in H. destruct H as [-> H].
    apply String.eqb_eq in H. subst sq'. reflexivity.
  - apply negb_true_iff in H. rewrite H. reflexivity.
Qed.

Lemma X9_witness :
  Horse_is_valid_move red_horse "b1" "c3" (board start_game)
    (pieces_dict (pieces start_game)) "R" = Ok true
  /\ Horse_is_valid_move red_horse "b1" "d2" (board start_game)
       (pieces_dict (pieces start_game)) "R" = Ok false.
Proof.
  split.
  - apply (X9_horse_rule red_horse "b1" "c3" (board start_game)
             (pieces_dict (pieces start_game)) "R"); reflexivity.
  - apply (X9_horse_rule red_horse "b1" "d2" (board start_game)
             (pieces_dict (pieces start_game)) "R"); reflexivity.
Defined.
(** ** The Chariot *)

Lemma Chariot_filter_side_sub (layout : Layout) (side : list string) (p : string) :
  In p (Chariot_filter_side_of_piece side layout) -> In p side.
Proof.
  induction side as [|q r IH]; simpl; [tauto |].
  destruct (Board_get_value_at_pos layout q) as [label|].
  - destruct (String.eqb label Board_empty); simpl; intuition.
  - simpl. intuition.
Qed.

Lemma Cannon_filter_side_loop_sub (layout : Layout) (color : string)
  (side : list string) :
  forall leaped out p,
    Cannon_filter_side_loop color leaped side layout = Ok out ->
    In p out -> In p side.
Proof.
  induction side as [|q r IH]; simpl; intros leaped out p H Hin.
  - inversion H; subst. contradiction.
  - destruct (Board_get_value_at_pos layout q) as [label|]; [| discriminate H].
    destruct (negb (String.eqb label Board_empty)).
    + destruct (negb leaped).
      * apply bind_ok in H. destruct H as (c & _ & H).
        apply bind_ok in H. destruct H as (rest & Hrest & H).
        destruct (String.eqb c color); inversion H; subst out.
        -- destruct Hin as [Hin|Hin]; [now left | right; eauto].
        -- right. eauto.
      * apply bind_ok in H. destruct H as (c & _ & H).
        destruct (negb (String.eqb c color)); inversion H; subst out;
          simpl in Hin; intuition.
    + apply bind_ok in H. destruct H as (rest & Hrest & H).
      destruct (negb leaped); inversion H; subst out.
      * destruct Hin as [Hin|Hin]; [now left | right; eauto].
      * right. eauto.
Qed.

Lemma filter_side_of_piece_sub (self : Piece) (layout : Layout)
  (side out : list string) (p : string) :
  filter_side_of_piece self side layout = Ok out -> In p out -> In p side.
Proof.
  unfold filter_side_of_piece, Cannon_filter_side_of_piece. intros H Hin.
  destruct (p_class self);
    try (inversion H; subst out; now apply Chariot_filter_side_sub in Hin).
  eapply Cannon_filter_side_loop_sub; eassumption.
Qed.

Lemma filter_range_sub (self : Piece) (layout : Layout) (pos : string)
  (arr out : list string) (p : string) :
  Chariot_filter_range_by_closest_pieces self pos (Some arr) layout = Ok out ->
  In p out -> p = pos \/ In p arr.
Proof.
  unfold Chariot_filter_range_by_closest_pieces. intros H Hin.
  apply bind_ok in H. destruct H as (i & _ & H).
  apply bind_ok in H. destruct H as (l & Hl & H).
  apply bind_ok in H. destruct H as (i' & _ & H).
  apply bind_ok in H. destruct H as (r & Hr & H).
  inversion H; subst out. clear H.
  apply in_app_or in Hin. destruct Hin as [Hin|Hin].
  - apply in_rev in Hin. apply (filter_side_of_piece_sub _ _ _ _ _ Hl) in Hin.
    apply in_rev in Hin. right.
    rewrite <- (firstn_skipn i arr). apply in_or_app. now left.
  - simpl in Hin. destruct Hin as [Hin|Hin]; [now left |].
    apply (filter_side_of_piece_sub _ _ _ _ _ Hr) in Hin. right.
    rewrite <- (firstn_skipn (i' + 1) arr). apply in_or_app. now right.
Qed.

Lemma lines_on_line_all (pos : string) :
  Board_is_valid_pos pos = true -> lines_on_line pos = true.
Proof.
  intros H. apply valid_pos_in in H. revert pos H. apply forallb_forall.
  vm_compute. reflexivity.
Qed.

Section ChariotRule.

Variable list_of_set : list Offset -> list Offset.

Lemma update_ranges_on_lines (self self1 : Piece) (layout : Layout)
  (pos1 pos2 : string) :
  Board_is_valid_pos pos1 = true ->
  Chariot_update_ranges list_of_set self pos1 layout = Ok self1 ->
  In pos2 (p_pos_range self1) ->
  same_line pos1 pos2 = true /\ Board_is_valid_pos pos2 = true.
Proof.
  intros H1 Hu Hin.
  destruct (lines_facts pos1 H1) as (f & Er & Ef & Ec & Ir & Ic & Vr & Vc & _).
  pose proof (lines_on_line_all pos1 H1) as Hl. unfold lines_on_line in Hl.
  rewrite forallb_forall in Hl.
  assert (Hself : same_line pos1 pos1 = true).
  { unfold same_line. destruct (valid_pos_coordinates _ H1) as (i & j & ->).
    now rewrite Nat.eqb_refl. }
  unfold Chariot_update_ranges in Hu. rewrite Er in Hu. cbn [bind] in Hu.
  apply bind_ok in Hu. destruct Hu as (row & Hrow & Hu).
  rewrite Ef in Hu. cbn [bind] in Hu. rewrite Ec in Hu. cbn [bind] in Hu.
  apply bind_ok in Hu. destruct Hu as (col & Hcol & Hu).
  apply bind_ok in Hu. destruct Hu as (h & _ & Hu).
  apply bind_ok in Hu. destruct Hu as (v & _ & Hu).
  inversion Hu; subst self1. clear Hu. cbn [set_ranges p_pos_range] in Hin.
  rewrite Forall_forall in Vr, Vc.
  apply in_app_or in Hin. destruct Hin as [Hin|Hin].
  - apply (filter_range_sub _ _ _ _ _ _ Hrow) in Hin.
    destruct Hin as [->|Hin]; [auto |].
    split; [apply Hl; apply in_or_app; now left | now apply Vr].
  - apply (filter_range_sub _ _ _ _ _ _ Hcol) in Hin.
    destruct Hin as [->|Hin]; [auto |].
    split; [apply Hl; apply in_or_app; now right | now apply Vc].
Qed.

(** X10.  A Chariot or a Cannon whose ranges have been updated on a
    square of the board accepts only destinations on the board that
    share the rank or the file of that square. *)
Theorem X10_chariot_cannon_stay_on_line (self self1 : Piece) (layout : Layout)
  (pos1 pos2 : string) (layout' : Layout) (ps : dict Piece) (player : string) :
  Board_is_valid_pos pos1 = true ->
  Chariot_update_ranges list_of_set self pos1 layout = Ok self1 ->
  Chariot_is_valid_move self1 pos1 pos2 layout' ps player = Ok true ->
  same_line pos1 pos2 = true /\ Board_is_valid_pos pos2 = true.
Proof.
  intros H1 Hu Hv. apply (update_ranges_on_lines self self1 layout); try assumption.
  unfold Chariot_is_valid_move in Hv. apply str_in_In.
  destruct (str_in pos2 (p_pos_range self1)); [reflexivity | discriminate Hv].
Qed.

Lemma Chariot_filter_side_keeps (layout : Layout) (side : list string) :
  Forall (fun q => exists cell, Board_get_value_at_pos layout q = Some cell) side ->
  NoDup side ->
  forall p pre,
    before_in p side = Some pre ->
    (In p (Chariot_filter_side_of_piece side layout)
     <-> count_occupied layout pre = 0%nat).
Proof.
  induction 1 as [|q r (qcell & Hv) _ IH]; intros Hnd p pre Hpre;
    [discriminate Hpre |].
  inversion Hnd as [|? ? Hq Hnd']; subst.
  cbn [before_in] in Hpre. cbn [Chariot_filter_side_of_piece]. rewrite Hv.
  destruct (String.eqb q p) eqn:Eqp.
  - apply String.eqb_eq in Eqp. subst q. inversion Hpre; subst pre.
    split; [reflexivity |]. intros _.
    destruct (String.eqb qcell Board_empty); now left.
  - destruct (before_in p r) as [pre'|] eqn:Hpre'; [| discriminate Hpre].
    cbn [option_map] in Hpre. inversion Hpre; subst pre.
    assert (Hne : q <> p) by (apply String.eqb_neq; exact Eqp).
    unfold count_occupied. cbn [filter]. unfold occupied at 1. rewrite Hv.
    destruct (String.eqb qcell Board_empty); cbn [negb].
    + fold (count_occupied layout pre'). rewrite <- (IH Hnd' p pre' Hpre').
      simpl. intuition.
    + simpl. split; [intros [E|[]]; contradiction | discriminate].
Qed.

Lemma valid_shown (layout : Layout) (l : list string) :
  well_shaped layout ->
  Forall (fun p => Board_is_valid_pos p = true) l ->
  Forall (fun q => exists cell, Board_get_value_at_pos layout q = Some cell) l.
Proof.
  intros Hw H. eapply Forall_impl; [| exact H].
  intros p Hp. destruct (value_at_valid layout p Hw Hp) as (cell & _ & E & _).
  eauto.
Qed.

Lemma Chariot_side_off (layout : Layout) (pos2 : string) (side : list string) :
  off_side pos2 side = true ->
  (In pos2 (Chariot_filter_side_of_piece side layout) <-> False).
Proof.
  intros Hoff. split; [| tauto]. intros Hin.
  apply Chariot_filter_side_sub, str_in_In in Hin.
  unfold off_side in Hoff. rewrite Hin in Hoff. discriminate.
Qed.

Lemma Chariot_side_reach (layout : Layout) (pos1 pos2 : string)
  (side : list string) :
  Forall (fun q => exists cell, Board_get_value_at_pos layout q = Some cell) side ->
  NoDup side ->
  reaches pos1 pos2 side = true ->
  (In pos2 (Chariot_filter_side_of_piece side layout)
   <-> pieces_between layout pos1 pos2 = 0%nat).
Proof.
  intros Hs Hnd Hr. unfold reaches in Hr.
  destruct (before_in pos2 side) as [pre|] eqn:Hpre; [| discriminate Hr].
  rewrite (Chariot_filter_side_keeps layout side Hs Hnd pos2 pre Hpre).
  assert (Hcount : count_occupied layout pre = pieces_between layout pos1 pos2).
  { unfold count_occupied, pieces_between.
    apply orb_true_iff in Hr. destruct Hr as [E|E];
      apply list_string_eqb_eq in E; subst pre;
      [reflexivity | apply filter_rev_length]. }
  now rewrite Hcount.
Qed.

(** The range of a Chariot after [_update_ranges]. *)
Lemma Chariot_update_ranges_scan (self : Piece) (layout : Layout) (pos1 : string) :
  p_class self = Chariot ->
  well_shaped layout ->
  Board_is_valid_pos pos1 = true ->
  exists self1,
    Chariot_update_ranges list_of_set self pos1 layout = Ok self1
    /\ forall pos2,
         Board_is_valid_pos pos2 = true -> pos1 <> pos2 ->
         same_line pos1 pos2 = true ->
         str_in pos2 (p_pos_range self1)
         = Nat.eqb (pieces_between layout pos1 pos2) 0.
Proof.
  intros Hc Hw H1.
  destruct (lines_facts pos1 H1) as (f & Er & Ef & Ec & Ir & Ic & Vr & Vc & Nr & Nc).
  set (l := Chariot_filter_side_of_piece (side_before pos1 (row_line pos1)) layout).
  set (r := Chariot_filter_side_of_piece (side_after pos1 (row_line pos1)) layout).
  set (d := Chariot_filter_side_of_piece (side_before pos1 (col_line pos1)) layout).
  set (u := Chariot_filter_side_of_piece (side_after pos1 (col_line pos1)) layout).
  assert (Erow : Chariot_filter_range_by_closest_pieces self pos1
                   (Some (row_line pos1)) layout
                 = Ok (rev l ++ [pos1] ++ r)%list).
  { unfold Chariot_filter_range_by_closest_pieces, filter_side_of_piece.
    rewrite Hc, Ir. reflexivity. }
  assert (Ecol : Chariot_filter_range_by_closest_pieces self pos1
                   (Some (col_line pos1)) layout
                 = Ok (rev d ++ [pos1] ++ u)%list).
  { unfold Chariot_filter_range_by_closest_pieces, filter_side_of_piece.
    rewrite Hc, Ic. reflexivity. }
  assert (Vsb : forall arr, Forall (fun p => Board_is_valid_pos p = true) arr ->
                  Forall (fun p => Board_is_valid_pos p = true) (side_before pos1 arr)).
  { intros arr Ha. rewrite Forall_forall in *. intros p Hp.
    apply Ha. eapply side_before_sub. exact Hp. }
  assert (Vsa : forall arr, Forall (fun p => Board_is_valid_pos p = true) arr ->
                  Forall (fun p => Board_is_valid_pos p = true) (side_after pos1 arr)).
  { intros arr Ha. rewrite Forall_forall in *. intros p Hp.
    apply Ha. eapply side_after_sub. exact Hp. }
  assert (Vrow : Forall (fun p => Board_is_valid_pos p = true)
                   (rev l ++ [pos1] ++ r)%list).
  { pose proof (Vsb _ Vr) as Hb. pose proof (Vsa _ Vr) as Ha.
    rewrite Forall_forall in *. intros p Hp.
    apply in_app_or in Hp. destruct Hp as [Hp|Hp].
    - apply in_rev in Hp. apply Hb. now apply Chariot_filter_side_sub in Hp.
    - simpl in Hp. destruct Hp as [Hp|Hp]; [subst p; exact H1 |].
      apply Ha. now apply Chariot_filter_side_sub in Hp. }
  assert (Vcol : Forall (fun p => Board_is_valid_pos p = true)
                   (rev d ++ [pos1] ++ u)%list).
  { pose proof (Vsb _ Vc) as Hb. pose proof (Vsa _ Vc) as Ha.
    rewrite Forall_forall in *. intros p Hp.
    apply in_app_or in Hp. destruct Hp as [Hp|Hp].
    - apply in_rev in Hp. apply Hb. now apply Chariot_filter_side_sub in Hp.
    - simpl in Hp. destruct Hp as [Hp|Hp]; [subst p; exact H1 |].
      apply Ha. now apply Chariot_filter_side_sub in Hp. }
  destruct (get_offsets_from_positions_ok pos1 _ H1 Vrow) as (h & Eh).
  destruct (get_offsets_from_positions_ok pos1 _ H1 Vcol) as (v & Ev).
  eexists. split.
  - unfold Chariot_update_ranges.
    rewrite Er. cbn [bind]. rewrite Erow. cbn [bind].
    rewrite Ef. cbn [bind]. rewrite Ec. cbn [bind]. rewrite Ecol. cbn [bind].
    rewrite Eh. cbn [bind]. rewrite Ev. cbn [bind]. reflexivity.
  - intros pos2 H2 Hne Hline. cbn [set_ranges p_pos_range].
    apply bool_eq_iff. rewrite str_in_In, Nat.eqb_eq.
    pose proof (directions_checked_all pos1 pos2 H1 H2) as D.
    unfold directions_checked in D.
    replace (String.eqb pos1 pos2) with false in D
      by (symmetry; apply String.eqb_neq; exact Hne).
    rewrite Hline in D. cbn [negb orb] in D.
    pose proof (Chariot_side_off layout pos2 (side_before pos1 (row_line pos1))) as Ol.
    pose proof (Chariot_side_off layout pos2 (side_after pos1 (row_line pos1))) as Or.
    pose proof (Chariot_side_off layout pos2 (side_before pos1 (col_line pos1))) as Od.
    pose proof (Chariot_side_off layout pos2 (side_after pos1 (col_line pos1))) as Ou.
    pose proof (Chariot_side_reach layout pos1 pos2 _
                  (valid_shown layout _ Hw (Vsb _ Vr)) (side_before_NoDup pos1 _ Nr))
      as Rl.
    pose proof (Chariot_side_reach layout pos1 pos2 _
                  (valid_shown layout _ Hw (Vsa _ Vr)) (side_after_NoDup pos1 _ Nr))
      as Rr.
    pose proof (Chariot_side_reach layout pos1 pos2 _
                  (valid_shown layout _ Hw (Vsb _ Vc)) (side_before_NoDup pos1 _ Nc))
      as Rd.
    pose proof (Chariot_side_reach layout pos1 pos2 _
                  (valid_shown layout _ Hw (Vsa _ Vc)) (side_after_NoDup pos1 _ Nc))
      as Ru.
    fold l in Ol, Rl. fold r in Or, Rr. fold d in Od, Rd. fold u in Ou, Ru.
    assert (Hin : In pos2 ((rev l ++ [pos1] ++ r) ++ rev d ++ [pos1] ++ u)%list
                  <-> In pos2 l \/ In pos2 r \/ In pos2 d \/ In pos2 u).
    { rewrite !in_app_iff. rewrite <- !in_rev. simpl. intuition. }
    rewrite Hin.
    repeat (apply orb_true_iff in D; destruct D as [D|D]);
      repeat (apply andb_true_iff in D;
              let H := fresh "D" in destruct D as [D H]);
      repeat match goal with
             | H : ?X = true, F : ?X = true -> (_ <-> _) |- _ =>
                 rewrite (F H); clear F
             end;
      tauto.
Qed.

(** X11.  The Chariot's rule: a Chariot whose ranges have been updated
    on the current layout, asked for another square of the board, is
    answered [True] exactly when the square shares its rank or its file
    and the layout shows no piece strictly between the two squares. *)
Theorem X11_chariot_rule (self : Piece) (layout : Layout) (pos1 pos2 : string) :
  p_class self = Chariot ->
  well_shaped layout ->
  Board_is_valid_pos pos1 = true -> Board_is_valid_pos pos2 = true ->
  pos1 <> pos2 ->
  exists self1,
    Chariot_update_ranges list_of_set self pos1 layout = Ok self1
    /\ forall (layout' : Layout) (ps : dict Piece) (player : string),
         Chariot_is_valid_move self1 pos1 pos2 layout' ps player
         = Ok (same_line pos1 pos2
               && Nat.eqb (pieces_between layout pos1 pos2) 0).
Proof.
  intros Hc Hw H1 H2 Hne.
  destruct (Chariot_update_ranges_scan self layout pos1 Hc Hw H1) as (self1 & Hu & Hr).
  exists self1. split; [exact Hu |]. intros layout' ps player.
  unfold Chariot_is_valid_move.
  destruct (same_line pos1 pos2) eqn:Hline.
  - rewrite (Hr pos2 H2 Hne Hline). cbn [andb].
    destruct (Nat.eqb (pieces_between layout pos1 pos2) 0); reflexivity.
  - destruct (str_in pos2 (p_pos_range self1)) eqn:Hin; [| reflexivity].
    apply str_in_In in Hin.
    destruct (update_ranges_on_lines self self1 layout pos1 pos2 H1 Hu Hin) as [E _].
    rewrite E in Hline. discriminate.
Qed.

End ChariotRule.

Lemma X10_witness :
  same_line "b3" "b10" = true /\ Board_is_valid_pos "b10" = true.
Proof.
  apply (X10_chariot_cannon_stay_on_line first_occurrences red_cannon
           (piece_at start_game "b3") (board start_game) "b3" "b10"
           (board start_game) (pieces_dict (pieces start_game)) "R");
    vm_compute; reflexivity.
Defined.

Lemma X11_witness :
  exists self1,
    Chariot_update_ranges first_occurrences red_chariot "a1" (board start_game)
    = Ok self1
    /\ Chariot_is_valid_move self1 "a1" "a3" (board start_game)
         (pieces_dict (pieces start_game)) "R" = Ok true
    /\ Chariot_is_valid_move self1 "a1" "a5" (board start_game)
         (pieces_dict (pieces start_game)) "R" = Ok false
    /\ Chariot_is_valid_move self1 "a1" "b2" (board start_game)
         (pieces_dict (pieces start_game)) "R" = Ok false.
Proof.
  destruct (X11_chariot_rule first_occurrences red_chariot (board start_game)
              "a1" "a3") as (self1 & Hu & H);
    [ reflexivity | exact start_layout_well_shaped
    | vm_compute; reflexivity | vm_compute; reflexivity | discriminate | ].
  exists self1. split; [exact Hu |]. split; [apply H |].
  vm_compute in Hu. inversion Hu; subst self1. split; vm_compute; reflexivity.
Defined.
(** ** The river and the palaces *)

Lemma is_behind_river_checked (pos : string) :
  Board_is_valid_pos pos = true ->
  forallb (fun side =>
             res_bool_eqb (Board_is_behind_river pos side)
               (Ok (on_own_bank side pos)))
    [Board_red; Board_black; ""] = true.
Proof.
  intros H. apply valid_pos_in in H. revert pos H. apply forallb_forall.
  vm_compute. reflexivity.
Qed.

Lemma is_behind_river_valid (pos color : string) :
  Board_is_valid_pos pos = true ->
  Board_is_behind_river pos color = Ok (on_own_bank color pos).
Proof.
  intros H. pose proof (is_behind_river_checked pos H) as C.
  cbn [forallb] in C.
  apply andb_true_iff in C. destruct C as [HR C].
  apply andb_true_iff in C. destruct C as [HB C].
  apply andb_true_iff in C. destruct C as [HN _].
  apply res_bool_eqb_eq in HR, HB, HN.
  rewrite is_behind_river_side, (on_own_bank_side pos color).
  destruct (side_of_cases color) as [[_ ->]|[[_ ->]|(_ & _ & ->)]]; assumption.
Qed.

(** X12.  On a square of the board [is_behind_river] never raises: it
    answers [True] exactly for Red on the ranks 1 to 5 and for Black on
    the ranks 6 to 10, and [False] for any other color. *)
Theorem X12_is_behind_river_on_board (pos color : string) :
  Board_is_valid_pos pos = true ->
  Board_is_behind_river pos color = Ok (on_own_bank color pos).
Proof. exact (is_behind_river_valid pos color). Qed.

Lemma X12_witness :
  Board_is_behind_river "e5" "R" = Ok true
  /\ Board_is_behind_river "e6" "R" = Ok false
  /\ Board_is_behind_river "e6" "B" = Ok true
  /\ Board_is_behind_river "e6" "G" = Ok false.
Proof.
  split; [| split; [| split]].
  - apply (X12_is_behind_river_on_board "e5" "R"). reflexivity.
  - apply (X12_is_behind_river_on_board "e6" "R"). reflexivity.
  - apply (X12_is_behind_river_on_board "e6" "B"). reflexivity.
  - apply (X12_is_behind_river_on_board "e6" "G"). reflexivity.
Defined.

(** X13.  What [Pieces.is_valid_move] never accepts: a General or an
    Advisor leaving the palace of the player, and an Elephant crossing
    the river. *)
Theorem X13_palace_and_river_confinement (layout : Layout) (ps : dict Piece)
  (pos1 pos2 player : string) (piece : Piece) :
  Pieces_is_valid_move layout ps pos1 pos2 player = Ok true ->
  Pieces_get_piece_by_pos ps pos1 = Some piece ->
  (p_class piece = General \/ p_class piece = Advisor ->
   Board_is_in_palace pos2 player = true)
  /\ (p_class piece = Elephant -> on_own_bank player pos2 = true).
Proof.
  unfold Pieces_is_valid_move. intros H Hp.
  destruct (Board_is_valid_pos pos1); [| discriminate H].
  destruct (Board_is_valid_pos pos2) eqn:H2; [| discriminate H].
  cbn [negb orb] in H.
  destruct (String.eqb pos1 pos2); [discriminate H |].
  rewrite Hp in H.
  destruct (negb (String.eqb (p_color piece) player)); [discriminate H |].
  destruct (match Pieces_get_piece_by_pos ps pos2 with
            | Some q => String.eqb (p_color q) player
            | None => false
            end); [discriminate H |].
  split.
  - intros [E|E]; rewrite E in H.
    + unfold General_is_valid_move in H.
      destruct (Board_is_in_palace pos2 player); [reflexivity | discriminate H].
    + unfold Advisor_is_valid_move in H.
      destruct (Board_is_in_palace pos2 player); [reflexivity | discriminate H].
  - intros E. rewrite E in H. unfold Elephant_is_valid_move in H.
    rewrite (is_behind_river_valid pos2 player H2) in H. cbn [bind] in H.
    destruct (on_own_bank player pos2); [reflexivity | discriminate H].
Qed.

Lemma X13_witness :
  (p_class red_general = General \/ p_class red_general = Advisor ->
   Board_is_in_palace "e2" "R" = true)
  /\ (p_class red_general = Elephant -> on_own_bank "R" "e2" = true).
Proof.
  apply (X13_palace_and_river_confinement (board start_game)
           (pieces_dict (pieces start_game)) "e1" "e2" "R" red_general);
    vm_compute; reflexivity.
Defined.

(** ** The attack range of a Soldier *)

Lemma from_offsets_In (self : Piece) (layout : Layout) (ps : dict Piece)
  (offsets : list Offset) :
  forall ar d,
    Piece_map_attack_range_from_offsets self layout ps offsets = Ok ar ->
    In d ar ->
    exists offset, In offset offsets
                   /\ offset_destination (p_pos self) offset = Ok d
                   /\ Pieces_is_valid_move layout ps (p_pos self) d (p_color self)
                      = Ok true.
Proof.
  induction offsets as [|offset r IH]; simpl; intros ar d H Hin.
  - inversion H; subst. contradiction.
  - apply bind_ok in H. destruct H as (c & Hc & H).
    apply bind_ok in H. destruct H as (col & Hcol & H).
    apply bind_ok in H. destruct H as (n & Hn & H).
    apply bind_ok in H. destruct H as (ok & Hok & H).
    apply bind_ok in H. destruct H as (rest & Hrest & H).
    inversion H; subst ar. clear H.
    assert (Hrec : In d rest ->
                   exists offset0,
                     (offset = offset0 \/ In offset0 r)
                     /\ offset_destination (p_pos self) offset0 = Ok d
                     /\ Pieces_is_valid_move layout ps (p_pos self) d (p_color self)
                        = Ok true).
    { intros Hd. destruct (IH rest d Hrest Hd) as (o & Ho & Hdest & Hv).
      exists o. auto. }
    destruct ok; [| auto].
    destruct Hin as [<-|Hin]; [| auto].
    exists offset. split; [now left |]. split; [| exact Hok].
    unfold offset_destination. rewrite Hc. cbn [bind]. rewrite Hcol. cbn [bind].
    rewrite Hn. reflexivity.
Qed.

Lemma map_res_In {A B : Type} (f : A -> res B) (l : list A) :
  forall l' b, map_res f l = Ok l' -> In b l' -> exists a, In a l /\ f a = Ok b.
Proof.
  induction l as [|x l IH]; simpl; intros l' b H Hin.
  - inversion H; subst. contradiction.
  - apply bind_ok in H. destruct H as (y & Hy & H).
    apply bind_ok in H. destruct H as (ys & Hys & H).
    inversion H; subst l'. destruct Hin as [<-|Hin].
    + exists x. auto.
    + destruct (IH ys b Hys Hin) as (a & Ha & Hf). exists a. auto.
Qed.

Lemma soldier_offsets_checked_all (pos : string) :
  Board_is_valid_pos pos = true -> soldier_offsets_checked pos = true.
Proof.
  intros H. apply valid_pos_in in H. revert pos H. apply forallb_forall.
  vm_compute. reflexivity.
Qed.

Section SoldierRange.

Variable list_of_set : list Offset -> list Offset.

Lemma soldier_entry_forward (layout : Layout) (ctx : dict Piece) (k : string)
  (self self' : Piece) :
  p_class self = Soldier ->
  map_attack_range_entry list_of_set layout [] k self ctx = Ok self' ->
  forall d, In d (p_attack_range self') ->
            soldier_forward (p_color self) (p_pos self) d = true.
Proof.
  intros Hc H d Hd. unfold map_attack_range_entry in H. rewrite Hc in H.
  apply bind_ok in H. destruct H as (behind & Hb & H).
  apply bind_ok in H. destruct H as (offsets & Ho & H).
  apply bind_ok in H. destruct H as (ar & Har & H).
  inversion H; subst self'. clear H. cbn [set_attack_range p_attack_range] in Hd.
  destruct (from_offsets_In _ _ _ _ _ _ Har Hd) as (offset & Hoff & Hdest & Hv).
  cbn [app] in Hv.
  assert (Hcolor : p_color self = Board_red \/ p_color self = Board_black).
  { unfold Soldier_range_hi, Soldier_range_lo in Ho.
    destruct (String.eqb (p_color self) "R") eqn:E1;
      [left; now apply String.eqb_eq |].
    destruct (String.eqb (p_color self) "B") eqn:E2;
      [right; now apply String.eqb_eq |].
    destruct (negb behind); discriminate Ho. }
  assert (Hoffs : In offset (offsets_of (Soldier_range_hi (p_color self))
                             ++ offsets_of (Soldier_range_lo (p_color self)))%list).
  { apply in_or_app.
    destruct (negb behind); rewrite Ho; cbn [offsets_of]; auto. }
  unfold Pieces_is_valid_move in Hv.
  destruct (Board_is_valid_pos (p_pos self)) eqn:H1; [| discriminate Hv].
  destruct (Board_is_valid_pos d) eqn:H2; [| discriminate Hv].
  cbn [negb orb] in Hv.
  destruct (String.eqb (p_pos self) d); [discriminate Hv |].
  unfold Pieces_get_piece_by_pos at 1 in Hv. cbn [dict_values map snd find] in Hv.
  rewrite String.eqb_refl in Hv.
  rewrite String.eqb_refl in Hv. cbn [negb] in Hv.
  destruct (match Pieces_get_piece_by_pos ((k, self) :: ctx) d with
            | Some q => String.eqb (p_color q) (p_color self)
            | None => false
            end); [discriminate Hv |].
  rewrite Hc in Hv.
  rewrite (Soldier_is_valid_move_color self (soldier_of (p_color self))
             (p_pos self) d layout [] ((k, self) :: ctx) [] (p_color self) eq_refl)
    in Hv.
  rewrite (soldier_rule_checked (p_color self) Hcolor _ _ H1 H2) in Hv.
  injection Hv as Hrule.
  pose proof (soldier_offsets_checked_all (p_pos self) H1) as C.
  unfold soldier_offsets_checked in C. rewrite forallb_forall in C.
  assert (Hin : In (p_color self) [Board_red; Board_black]).
  { simpl. destruct Hcolor as [->| ->]; auto. }
  specialize (C _ Hin). rewrite forallb_forall in C.
  specialize (C _ Hoffs). rewrite Hdest, H2, Hrule in C. cbn [andb implb] in C.
  exact C.
Qed.

(** X14.  After [map_all_attack_ranges] on a registry with one piece per
    square, the attack range of every Soldier holds nothing but the
    square straight ahead of it: the sideways squares that
    [Soldier.is_valid_move] accepts once the river is crossed are never
    part of it, hence never in an attack map or among the moves
    [get_all_possible_moves] lists. *)
Theorem X14_soldier_attack_range_forward (layout : Layout) (P P' : Pieces)
  (q : Piece) (d : string) :
  NoDup (dict_keys (pieces_dict P)) ->
  positions_unique (pieces_dict P) ->
  Pieces_map_all_attack_ranges list_of_set layout P = Ok P' ->
  In q (dict_values (pieces_dict P')) ->
  p_class q = Soldier ->
  In d (p_attack_range q) ->
  soldier_forward (p_color q) (p_pos q) d = true.
Proof.
  intros Hk Hp Hmap Hq Hc Hd.
  unfold Pieces_map_all_attack_ranges in Hmap.
  apply bind_ok in Hmap. destruct Hmap as (d' & Hloop & HP'). inversion HP' as [E].
  destruct (update_attack_ranges_files
              (mkPieces d' (red_attack_map P) (black_attack_map P)
                 (captured_piece P))) as (_ & _ & Ed & _).
  rewrite E in Ed. simpl in Ed. rewrite Ed in Hq. clear E Ed HP'.
  rewrite (map_attack_ranges_loop_map list_of_set layout (pieces_dict P)
             (pieces_dict P) [] Hk Hp (lookup_equiv_refl _)) in Hloop.
  apply bind_ok in Hloop. destruct Hloop as (todo' & Hres & Hd').
  injection Hd' as Hd'. simpl in Hd'. subst d'.
  unfold dict_values in Hq. apply in_map_iff in Hq.
  destruct Hq as ([k' q'] & Eq & Hq). simpl in Eq. subst q'.
  destruct (map_res_In _ _ _ _ Hres Hq) as ([k self] & Hin & Hf).
  unfold fresh_pair in Hf. apply bind_ok in Hf. destruct Hf as (r & Hr & Hf).
  inversion Hf; subst. unfold fresh_entry in Hr. simpl in Hr.
  pose proof (map_attack_range_entry_sound _ _ _ _ _ _ _ Hr) as [Hcore _].
  destruct Hcore as (Hclass & _ & _ & Hcolor & _ & Hpos).
  rewrite <- Hcolor, <- Hpos.
  eapply soldier_entry_forward; [| exact Hr | exact Hd]. congruence.
Qed.

End SoldierRange.

Lemma X14_witness :
  Soldier_is_valid_move (soldier_of "R") "e6" "d6" crossed_soldier_layout
    (pieces_dict crossed_soldier_registry) "R" = Ok true
  /\ soldier_forward "R" "e6" "d6" = false
  /\ forall q d,
       In q (dict_values (pieces_dict crossed_soldier_registry)) ->
       p_class q = Soldier -> In d (p_attack_range q) ->
       soldier_forward (p_color q) (p_pos q) d = true.
Proof.
  split; [vm_compute; reflexivity |]. split; [vm_compute; reflexivity |].
  intros q d.
  apply (X14_soldier_attack_range_forward first_occurrences crossed_soldier_layout
           (mkPieces crossed_soldier_pieces [] [] None) crossed_soldier_registry q d).
  - apply nodup_strings_NoDup. vm_compute. reflexivity.
  - apply nodup_strings_NoDup. vm_compute. reflexivity.
  - vm_compute. reflexivity.
Defined.
(** ** The attack maps and the list of moves *)

Lemma In_attackers (color sq : string) (ps : list Piece) (p : Piece) :
  In p ps -> p_color p = color -> In sq (p_attack_range p) ->
  In (p_label p) (attackers color sq ps).
Proof.
  intros Hp Hc Hsq. unfold attackers. apply in_flat_map. exists p.
  split; [exact Hp |]. unfold attacks_of. rewrite Hc, String.eqb_refl.
  apply in_map_iff. exists sq. split; [reflexivity |].
  apply filter_In. split; [exact Hsq | apply String.eqb_refl].
Qed.

Lemma labels_at_files (m : dict (list string)) (f : string -> list string)
  (sq : string) :
  files m f -> labels_at m sq = f sq.
Proof.
  intros H. unfold labels_at. rewrite (H sq). now destruct (f sq).
Qed.

Lemma files_attack_map (P : Pieces) (color : string) :
  color = Board_red \/ color = Board_black ->
  files (Pieces_get_attack_map (Pieces_update_attack_ranges P) color)
    (fun sq => attackers color sq (dict_values (pieces_dict P))).
Proof.
  destruct (update_attack_ranges_files P) as (Fr & Fb & _).
  intros [-> | ->]; assumption.
Qed.

(** X15.  What [_update_attack_ranges] builds: under a square, the
    attack map of a color lists a label exactly when a piece of that
    color with that label has the square in its attack range, and the
    square is a key of the map exactly when some piece of the color
    attacks it. *)
Theorem X15_attack_map_lists_attackers (P : Pieces) (color sq : string) :
  color = Board_red \/ color = Board_black ->
  (forall label,
      In label (labels_at (Pieces_get_attack_map (Pieces_update_attack_ranges P) color) sq)
      <-> exists p, attacked_by (pieces_dict P) color sq p /\ p_label p = label)
  /\ (dict_mem (Pieces_get_attack_map (Pieces_update_attack_ranges P) color) sq = true
      <-> exists p, attacked_by (pieces_dict P) color sq p).
Proof.
  intros Hc. pose proof (files_attack_map P color Hc) as F. split.
  - intros label. rewrite (labels_at_files _ _ sq F). split.
    + intros H. apply attackers_In in H. destruct H as (p & Hp & Hcol & Hl & Hsq).
      exists p. unfold attacked_by. auto.
    + intros (p & (Hp & Hcol & Hsq) & <-). now apply In_attackers.
  - unfold dict_mem. rewrite (F sq). split.
    + intros H.
      destruct (attackers color sq (dict_values (pieces_dict P))) as [|label r] eqn:E;
        [discriminate H |].
      assert (Hin : In label (attackers color sq (dict_values (pieces_dict P))))
        by (rewrite E; now left).
      apply attackers_In in Hin. destruct Hin as (p & Hp & Hcol & _ & Hsq).
      exists p. unfold attacked_by. auto.
    + intros (p & Hp & Hcol & Hsq).
      pose proof (In_attackers color sq _ p Hp Hcol Hsq) as Hin.
      destruct (attackers color sq (dict_values (pieces_dict P)));
        [contradiction | reflexivity].
Qed.

Lemma X15_witness :
  (forall label,
      In label (labels_at (Pieces_get_attack_map
                             (Pieces_update_attack_ranges (pieces start_game)) "R") "e2")
      <-> exists p, attacked_by (pieces_dict (pieces start_game)) "R" "e2" p
                    /\ p_label p = label)
  /\ labels_at (Pieces_get_attack_map
                  (Pieces_update_attack_ranges (pieces start_game)) "R") "e2"
     = ["AR1"; "GR1"; "AR2"].
Proof.
  split; [| vm_compute; reflexivity].
  apply (X15_attack_map_lists_attackers (pieces start_game) "R" "e2").
  left. reflexivity.
Defined.

Lemma moves_of_labels_In (ps : dict Piece) (pos2 : string) (labels : list string) :
  forall moves o d,
    moves_of_labels ps pos2 labels = Ok moves ->
    (In (o, d) moves
     <-> d = pos2 /\ exists label p, In label labels
                                     /\ Pieces_get_piece_by_label ps label = Some p
                                     /\ p_pos p = o).
Proof.
  induction labels as [|label r IH]; simpl; intros moves o d H.
  - inversion H; subst. split; [intros [] | intros (_ & l & p & [] & _)].
  - destruct (Pieces_get_piece_by_label ps label) as [p|] eqn:E; [| discriminate H].
    apply bind_ok in H. destruct H as (rest & Hrest & H). inversion H; subst moves.
    simpl. rewrite (IH rest o d Hrest). split.
    + intros [Eq|(Hd & l & q & Hl & Hq & Ho)].
      * inversion Eq; subst. split; [reflexivity |]. exists label, p. auto.
      * split; [exact Hd |]. exists l, q. auto.
    + intros (Hd & l & q & [Hl|Hl] & Hq & Ho).
      * subst l. rewrite E in Hq. inversion Hq; subst. now left.
      * right. split; [exact Hd |]. exists l, q. auto.
Qed.

Lemma moves_of_items_In (ps : dict Piece) (items : dict (list string)) :
  forall moves o d,
    moves_of_items ps items = Ok moves ->
    (In (o, d) moves
     <-> exists labels label p,
           In (d, labels) items /\ In label labels
           /\ Pieces_get_piece_by_label ps label = Some p /\ p_pos p = o).
Proof.
  induction items as [|[pos2 labels] r IH]; simpl; intros moves o d H.
  - inversion H; subst. split; [intros [] | intros (ls & l & p & [] & _)].
  - apply bind_ok in H. destruct H as (here & Hhere & H).
    apply bind_ok in H. destruct H as (rest & Hrest & H). inversion H; subst moves.
    rewrite in_app_iff, (moves_of_labels_In ps pos2 labels here o d Hhere),
      (IH rest o d Hrest).
    split.
    + intros [(Hd & l & p & Hl & Hp & Ho)|(ls & l & p & Hin & Hl & Hp & Ho)].
      * subst d. exists labels, l, p. auto.
      * exists ls, l, p. auto.
    + intros (ls & l & p & [E|Hin] & Hl & Hp & Ho).
      * inversion E; subst. left. split; [reflexivity |]. exists l, p. auto.
      * right. exists ls, l, p. auto.
Qed.

Lemma dict_get_Some_In {V : Type} (d : dict V) (k : string) (v : V) :
  dict_get d k = Some v -> In (k, v) d.
Proof.
  induction d as [|[k0 v0] d IH]; simpl; [discriminate |].
  destruct (String.eqb k0 k) eqn:E.
  - apply String.eqb_eq in E. intros H. inversion H; subst. now left.
  - intros H. right. now apply IH.
Qed.

Section MoveList.

Variable list_of_set : list Offset -> list Offset.

(** The moves [get_all_possible_moves] lists after
    [map_all_attack_ranges]. *)
Lemma all_possible_moves_listed (layout : Layout) (P P' : Pieces)
  (color : string) :
  NoDup (dict_keys (pieces_dict P)) ->
  keyed_by_label (pieces_dict P) ->
  Pieces_map_all_attack_ranges list_of_set layout P = Ok P' ->
  color = Board_red \/ color = Board_black ->
  exists moves,
    Pieces_get_all_possible_moves P' color = Ok moves
    /\ forall pos1 pos2,
         In (pos1, pos2) moves
         <-> exists p, attacked_by (pieces_dict P') color pos2 p /\ p_pos p = pos1.
Proof.
  intros Hk Hkey Hmap Hc.
  destruct (map_all_attack_ranges_result list_of_set layout P P' Hmap)
    as (Hcore & _ & Fr & Fb & Nr & Nb & _).
  assert (Hk' : NoDup (dict_keys (pieces_dict P')))
    by (now rewrite <- (core_eq_keys _ _ Hcore)).
  assert (Hkey' : keyed_by_label (pieces_dict P'))
    by (eapply core_eq_keyed; eassumption).
  set (m := Pieces_get_attack_map P' color).
  assert (F : files m (fun sq => attackers color sq (dict_values (pieces_dict P')))).
  { unfold m. destruct Hc as [-> | ->]; assumption. }
  assert (Nm : NoDup (dict_keys m)).
  { unfold m. destruct Hc as [-> | ->]; assumption. }
  assert (Hlabels : forall sq labels label,
             In (sq, labels) m -> In label labels ->
             exists p, attacked_by (pieces_dict P') color sq p /\ p_label p = label
                       /\ Pieces_get_piece_by_label (pieces_dict P') label = Some p).
  { intros sq labels label Hin Hl.
    pose proof (dict_get_In m sq labels Nm Hin) as G. rewrite (F sq) in G.
    apply to_opt_Some in G. destruct G as [G _]. rewrite <- G in Hl.
    apply attackers_In in Hl. destruct Hl as (p & Hp & Hcol & Hlab & Hsq).
    exists p. unfold attacked_by. repeat split; try assumption.
    rewrite <- Hlab. now apply get_piece_by_label_keyed. }
  destruct (moves_of_items_ok (pieces_dict P') m (fun _ _ => True))
    as (moves & Hmoves & _).
  { intros sq labels label Hin Hl.
    destruct (Hlabels sq labels label Hin Hl) as (p & _ & _ & Hp). exists p. auto. }
  exists moves. split; [exact Hmoves |]. intros pos1 pos2.
  unfold Pieces_get_all_possible_moves in Hmoves. fold m in Hmoves.
  rewrite (moves_of_items_In _ _ moves pos1 pos2 Hmoves). split.
  - intros (labels & label & p & Hin & Hl & Hp & Ho).
    destruct (Hlabels pos2 labels label Hin Hl) as (p' & Ha & _ & Hp').
    rewrite Hp in Hp'. inversion Hp'; subst p'. exists p. auto.
  - intros (p & (Hp & Hcol & Hsq) & Ho).
    pose proof (In_attackers color pos2 _ p Hp Hcol Hsq) as Hin.
    destruct (attackers color pos2 (dict_values (pieces_dict P'))) as [|l r] eqn:E;
      [contradiction |].
    exists (l :: r), (p_label p), p. repeat split; try assumption.
    + apply dict_get_Some_In. rewrite (F pos2), E. reflexivity.
    + now apply get_piece_by_label_keyed.
Qed.

(** X16.  After [map_all_attack_ranges] on a registry keyed by the
    labels of its pieces, [get_all_possible_moves] does not raise and
    lists a pair (origin, destination) exactly when a piece of the color
    stands on the origin and has the destination in its attack range. *)
Theorem X16_all_possible_moves_are_attack_ranges (layout : Layout) (P P' : Pieces)
  (color : string) :
  NoDup (dict_keys (pieces_dict P)) ->
  keyed_by_label (pieces_dict P) ->
  Pieces_map_all_attack_ranges list_of_set layout P = Ok P' ->
  color = Board_red \/ color = Board_black ->
  exists moves,
    Pieces_get_all_possible_moves P' color = Ok moves
    /\ forall pos1 pos2,
         In (pos1, pos2) moves
         <-> exists p, attacked_by (pieces_dict P') color pos2 p /\ p_pos p = pos1.
Proof. exact (all_possible_moves_listed layout P P' color). Qed.

End MoveList.

Lemma X16_witness :
  exists moves,
    Pieces_get_all_possible_moves (pieces start_game) "R" = Ok moves
    /\ forall pos1 pos2,
         In (pos1, pos2) moves
         <-> exists p, attacked_by (pieces_dict (pieces start_game)) "R" pos2 p
                       /\ p_pos p = pos1.
Proof.
  apply (X16_all_possible_moves_are_attack_ranges first_occurrences
           (board start_game) (pieces start_game) (pieces start_game) "R").
  - apply nodup_strings_NoDup. vm_compute. reflexivity.
  - repeat constructor.
  - vm_compute. reflexivity.
  - left. reflexivity.
Defined.
(** ** Capturing a piece and putting it back *)

Lemma dict_get_removed {V : Type} (a b : dict V) (k : string) (v : V) (k' : string) :
  NoDup (dict_keys (a ++ (k, v) :: b)%list) ->
  dict_get (a ++ b)%list k'
  = if String.eqb k k' then None else dict_get (a ++ (k, v) :: b)%list k'.
Proof.
  intros Hnd. rewrite keys_app_middle in Hnd. apply NoDup_remove_2 in Hnd.
  rewrite !dict_get_app. simpl.
  destruct (String.eqb k k') eqn:E.
  - apply String.eqb_eq in E. subst k'.
    destruct (dict_get a k) eqn:Ea.
    + exfalso. apply Hnd. apply in_or_app. left.
      apply dict_mem_keys. unfold dict_mem. now rewrite Ea.
    + destruct (dict_get b k) eqn:Eb; [| reflexivity].
      exfalso. apply Hnd. apply in_or_app. right.
      apply dict_mem_keys. unfold dict_mem. now rewrite Eb.
  - reflexivity.
Qed.

(** X17.  [_remove_captured_piece] on a registry keyed by its labels
    with one piece per square does not raise.  A piece of the other
    side on the square leaves the registry and fills the buffer; in
    every other case the registry is kept and the buffer emptied.
    [_restore_captured_piece] then empties the buffer and gives back a
    registry with the same entries, which answers every lookup by label
    and by square as before the capture. *)
Theorem X17_capture_round_trip (P : Pieces) (pos player : string) :
  NoDup (dict_keys (pieces_dict P)) ->
  keyed_by_label (pieces_dict P) ->
  positions_unique (pieces_dict P) ->
  exists P1,
    Pieces_remove_captured_piece P pos player = Ok P1
    /\ captured_piece P1
       = match Pieces_get_piece_by_pos (pieces_dict P) pos with
         | Some q => if String.eqb (p_color q) player then None else Some q
         | None => None
         end
    /\ (forall label,
           Pieces_get_piece_by_label (pieces_dict P1) label
           = match captured_piece P1 with
             | Some q =>
                 if String.eqb (p_label q) label then None
                 else Pieces_get_piece_by_label (pieces_dict P) label
             | None => Pieces_get_piece_by_label (pieces_dict P) label
             end)
    /\ captured_piece (Pieces_restore_captured_piece P1) = None
    /\ Permutation (pieces_dict P) (pieces_dict (Pieces_restore_captured_piece P1))
    /\ (forall label,
           Pieces_get_piece_by_label
             (pieces_dict (Pieces_restore_captured_piece P1)) label
           = Pieces_get_piece_by_label (pieces_dict P) label)
    /\ (forall sq,
           Pieces_get_piece_by_pos (pieces_dict (Pieces_restore_captured_piece P1)) sq
           = Pieces_get_piece_by_pos (pieces_dict P) sq).
Proof.
  intros Hk Hkey Hp. unfold Pieces_remove_captured_piece.
  destruct (Pieces_get_piece_by_pos (pieces_dict P) pos) as [q|] eqn:Hq.
  - destruct (String.eqb (p_color q) player) eqn:Hcol; cbn [negb].
    + eexists. split; [reflexivity |]. simpl. unfold Pieces_restore_captured_piece.
      simpl. auto 10.
    + destruct (get_piece_by_pos_In _ _ _ Hq) as [Hqin Hqpos].
      pose proof (get_piece_by_label_keyed _ q Hk Hkey Hqin) as Hql.
      unfold Pieces_get_piece_by_label in Hql. rewrite Hql.
      assert (Hin : In (p_label q, q) (pieces_dict P)).
      { unfold dict_values in Hqin. apply in_map_iff in Hqin.
        destruct Hqin as ([k q'] & E & Hin). simpl in E. subst q'.
        unfold keyed_by_label in Hkey. rewrite Forall_forall in Hkey.
        pose proof (Hkey _ Hin) as E. simpl in E. now subst k. }
      destruct (dict_del_split _ _ _ Hk Hin) as (a & b & Hsplit & Hdel).
      rewrite Hdel. cbn [bind]. eexists. split; [reflexivity |].
      cbn [captured_piece pieces_dict]. split; [reflexivity |].
      rewrite Hsplit in Hk, Hp |- *.
      destruct (moved_to_end_lookups a b (p_label q) q Hk Hp) as [Lp Ll].
      split.
      { intros label. unfold Pieces_get_piece_by_label.
        apply dict_get_removed. exact Hk. }
      unfold Pieces_restore_captured_piece. cbn [captured_piece pieces_dict].
      rewrite dict_set_new.
      2:{ rewrite keys_app_middle in Hk. apply NoDup_remove_2 in Hk.
          unfold dict_keys. rewrite map_app. exact Hk. }
      split; [reflexivity |]. split; [| split; assumption].
      rewrite <- app_assoc. apply Permutation_app_head.
      change ((p_label q, q) :: b) with ([(p_label q, q)] ++ b)%list.
      apply Permutation_app_comm.
  - eexists. split; [reflexivity |]. simpl. unfold Pieces_restore_captured_piece.
    simpl. auto 10.
Qed.

Lemma X17_witness :
  exists P1,
    Pieces_remove_captured_piece (pieces pinned_soldier_game) "e5" "R" = Ok P1
    /\ option_map p_label (captured_piece P1) = Some "SB3"
    /\ Pieces_get_piece_by_label (pieces_dict P1) "SB3" = None
    /\ Pieces_get_piece_by_label
         (pieces_dict (Pieces_restore_captured_piece P1)) "SB3"
       = Pieces_get_piece_by_label (pieces_dict (pieces pinned_soldier_game)) "SB3".
Proof.
  destruct (X17_capture_round_trip (pieces pinned_soldier_game) "e5" "R")
    as (P1 & H1 & Hc & Hl & _ & _ & Hr & _).
  - apply nodup_strings_NoDup. vm_compute. reflexivity.
  - repeat constructor.
  - apply nodup_strings_NoDup. vm_compute. reflexivity.
  - exists P1. split; [exact H1 |].
    vm_compute in H1. inversion H1; subst P1.
    split; [reflexivity |]. split; [reflexivity |]. apply Hr.
Defined.
(** ** The protocol of [make_move] *)

Section Protocol.

Variable list_of_set : list Offset -> list Offset.

Lemma probe_moves_player (moves : list (string * string)) :
  forall g g' answer,
    probe_moves list_of_set g moves = Ok (answer, g') ->
    current_player g' = current_player g
    /\ current_game_state g' = current_game_state g.
Proof.
  induction moves as [|[o d] r IH]; simpl; intros g g' answer H.
  - inversion H; subst. auto.
  - apply bind_ok in H. destruct H as ([ok g1] & Hp & H).
    destruct (probe_move_player list_of_set _ _ _ _ _ Hp) as [E1 E2].
    destruct ok.
    + inversion H; subst. auto.
    + destruct (IH _ _ _ H) as [E3 E4]. split; congruence.
Qed.

Lemma update_game_state_player (g g' : XiangqiGame) :
  XiangqiGame_update_game_state list_of_set g = Ok g' ->
  current_player g' = current_player g
  /\ (current_game_state g' = current_game_state g
      \/ current_game_state g' = winner_when_stuck (current_player g)).
Proof.
  unfold XiangqiGame_update_game_state, XiangqiGame_is_game_over. intros H.
  apply bind_ok in H. destruct H as ([over g1] & Hover & H).
  apply bind_ok in Hover. destruct Hover as (moves & _ & Hprobe).
  destruct (probe_moves_player _ _ _ _ Hprobe) as [E1 E2].
  destruct over.
  - unfold winner_when_stuck. rewrite <- E1.
    destruct (String.eqb (current_player g1) Board_red);
      inversion H; subst g'; simpl; auto.
  - inversion H; subst g'. auto.
Qed.

(** X18.  The protocol of [make_move].  A call that answers [False], and
    any call with [test] set, leaves the player to move and the game
    state as they were.  A call that answers [True] without [test] was
    made in an unfinished game on a move that passes the shared checks
    of the registry; it hands the turn to the other side, and the game
    is then either still unfinished or won by the side that has just
    moved, never by the side that is to move. *)
Theorem X18_make_move_protocol (g g' : XiangqiGame) (pos1 pos2 : string)
  (test answer : bool) :
  XiangqiGame_make_move list_of_set g pos1 pos2 test = Ok (answer, g') ->
  (answer && negb test = false ->
   current_player g' = current_player g
   /\ current_game_state g' = current_game_state g)
  /\ (answer = true ->
      current_game_state g = UNFINISHED
      /\ candidate_checks (pieces_dict (pieces g)) pos1 pos2 (current_player g) = true)
  /\ (answer && negb test = true ->
      current_player g'
      = (if String.eqb (current_player g) Board_red then Board_black else Board_red)
      /\ (current_game_state g' = UNFINISHED
          \/ current_game_state g' = winner_when_stuck (current_player g'))).
Proof.
  unfold XiangqiGame_make_move, make_move_body. intros H.
  destruct (current_game_state g) eqn:Hs;
    try (inversion H; subst; rewrite Hs; repeat split; auto; discriminate).
  apply bind_ok in H. destruct H as (valid & Hv & H).
  destruct valid;
    [| inversion H; subst; rewrite Hs; repeat split; auto; discriminate].
  pose proof (is_valid_move_candidate _ _ _ _ _ Hv) as Hchk.
  apply bind_ok in H. destruct H as (g1 & Ha & H).
  destruct (apply_move_player list_of_set _ _ _ _ Ha) as [P1 S1].
  apply bind_ok in H. destruct H as (check & _ & H).
  assert (Hundo : forall b,
             (g2 <- XiangqiGame_undo_move list_of_set g1 pos1 pos2 ;; Ok (b, g2))
             = Ok (answer, g') ->
             answer = b
             /\ current_player g' = current_player g
             /\ current_game_state g' = UNFINISHED).
  { intros b Hu. apply bind_ok in Hu. destruct Hu as (g2 & Hu & E).
    inversion E; subst.
    destruct (undo_move_player list_of_set _ _ _ _ Hu) as [P2 S2].
    repeat split; congruence. }
  assert (Haccept : test = false ->
             (g2 <- XiangqiGame_update_game_state list_of_set
                      (XiangqiGame_switch_player g1) ;; Ok (true, g2))
             = Ok (answer, g') ->
             answer = true
             /\ current_player g'
                = (if String.eqb (current_player g) Board_red
                   then Board_black else Board_red)
             /\ (current_game_state g' = UNFINISHED
                 \/ current_game_state g' = winner_when_stuck (current_player g'))).
  { intros _ Hu. apply bind_ok in Hu. destruct Hu as (g2 & Hu & E).
    inversion E; subst.
    destruct (update_game_state_player _ _ Hu) as [P2 S2].
    simpl in P2, S2. rewrite P1 in P2. rewrite S1, Hs in S2.
    split; [reflexivity |]. split; [exact P2 |].
    rewrite P2. rewrite P1 in S2. exact S2. }
  destruct check as [[|]|].
  - destruct (Hundo false H) as (-> & E1 & E2).
    repeat split; auto; discriminate.
  - destruct test.
    + destruct (Hundo true H) as (-> & E1 & E2).
      repeat split; auto; discriminate.
    + destruct (Haccept eq_refl H) as (-> & E1 & E2).
      repeat split; auto; discriminate.
  - destruct test.
    + destruct (Hundo true H) as (-> & E1 & E2).
      repeat split; auto; discriminate.
    + destruct (Haccept eq_refl H) as (-> & E1 & E2).
      repeat split; auto; discriminate.
Qed.

End Protocol.

Lemma X18_witness :
  current_player red_won_game = "B"
  /\ current_game_state red_won_game = RED_WON
  /\ current_player before_mate_game = "R".
Proof.
  destruct (X18_make_move_protocol first_occurrences before_mate_game red_won_game
              "b5" "e5" false true) as (_ & _ & H).
  - vm_compute. reflexivity.
  - destruct (H eq_refl) as [Hp Hs]. split; [exact Hp |].
    split; [| reflexivity].
    destruct Hs as [Hs|Hs]; [vm_compute in Hs; discriminate Hs | exact Hs].
Defined.
(** ** The invariant of the game *)

Lemma map_res_Forall2 {A B : Type} (f : A -> res B) (l : list A) :
  forall l', map_res f l = Ok l' -> Forall2 (fun a b => f a = Ok b) l l'.
Proof.
  induction l as [|x l IH]; simpl; intros l' H.
  - inversion H; subst. constructor.
  - apply bind_ok in H. destruct H as (y & Hy & H).
    apply bind_ok in H. destruct H as (ys & Hys & H).
    inversion H; subst l'. constructor; auto.
Qed.

Lemma update_attack_ranges_irrelevant (d : dict Piece) (r b r' b' : dict (list string))
  (c : option Piece) :
  Pieces_update_attack_ranges (mkPieces d r b c)
  = Pieces_update_attack_ranges (mkPieces d r' b' c).
Proof. reflexivity. Qed.

Lemma update_attack_ranges_dict (P : Pieces) :
  pieces_dict (Pieces_update_attack_ranges P) = pieces_dict P
  /\ captured_piece (Pieces_update_attack_ranges P) = captured_piece P.
Proof. destruct (update_attack_ranges_files P) as (_ & _ & H1 & H2). auto. Qed.

Lemma Permutation_keys (a b : dict Piece) :
  Permutation a b -> NoDup (dict_keys a) -> NoDup (dict_keys b).
Proof.
  intros Hp Hk. eapply Permutation_NoDup; [| exact Hk]. unfold dict_keys.
  now apply Permutation_map.
Qed.

Lemma Permutation_positions (a b : dict Piece) :
  Permutation a b -> positions_unique a -> positions_unique b.
Proof.
  unfold positions_unique. intros Hp Hu. eapply Permutation_NoDup; [| exact Hu].
  unfold dict_values. now do 2 apply Permutation_map.
Qed.

Lemma Permutation_keyed (a b : dict Piece) :
  Permutation a b -> keyed_by_label a -> keyed_by_label b.
Proof.
  unfold keyed_by_label. intros Hp Hk. rewrite Forall_forall in *.
  intros e He. apply Hk. eapply Permutation_in; [| exact He].
  now apply Permutation_sym.
Qed.

Lemma Forall2_sim_source (f : string * Piece -> res (string * Piece))
  (l l' : dict Piece) (e' : string * Piece) :
  Forall2 (fun a b => f a = Ok b) l l' -> sim_eq l l' -> In e' l' ->
  exists e, f e = Ok e' /\ fst e = fst e' /\ sim (snd e) (snd e').
Proof.
  induction 1 as [|e y l l' Hf _ IH]; intros Hsim He'; [contradiction |].
  inversion Hsim as [|? ? ? ? [Hk Hs] Hsim']; subst.
  destruct He' as [<-|He']; [exists e; auto |].
  now apply IH.
Qed.

Section Invariant.

Variable list_of_set : list Offset -> list Offset.

(** What [update_layout] and [map_all_attack_ranges] compute is left as
    it is when they run again. *)
Lemma refresh_fixed (g g1 : XiangqiGame) :
  NoDup (dict_keys (pieces_dict (pieces g))) ->
  positions_unique (pieces_dict (pieces g)) ->
  refresh list_of_set g = Ok g1 ->
  refresh list_of_set g1 = Ok g1
  /\ sim_eq (pieces_dict (pieces g)) (pieces_dict (pieces g1))
  /\ captured_piece (pieces g1) = captured_piece (pieces g).
Proof.
  intros Hk Hp H. unfold refresh in H.
  apply bind_ok in H. destruct H as (P1 & Hmap & H).
  injection H as H. subst g1. cbn [board pieces current_game_state current_player].
  set (ps := pieces_dict (pieces g)) in *.
  set (L1 := Board_update_layout (board g) ps) in *.
  unfold Pieces_map_all_attack_ranges in Hmap. fold ps in Hmap.
  apply bind_ok in Hmap. destruct Hmap as (d1 & Hloop & HP1).
  injection HP1 as HP1.
  destruct (update_attack_ranges_dict
              (mkPieces d1 (red_attack_map (pieces g)) (black_attack_map (pieces g))
                 (captured_piece (pieces g)))) as [Ed Ec].
  rewrite HP1 in Ed, Ec. cbn [pieces_dict captured_piece] in Ed, Ec.
  pose proof (map_attack_ranges_loop_sim list_of_set _ _ _ _ Hloop)
    as (d1' & E & Hsim).
  simpl in E. subst d1'.
  pose proof (sim_eq_core _ _ Hsim) as Hcore.
  assert (Hk1 : NoDup (dict_keys d1)) by (now rewrite <- (core_eq_keys _ _ Hcore)).
  assert (Hp1 : positions_unique d1).
  { unfold positions_unique. now rewrite <- (core_eq_positions _ _ Hcore). }
  split; [| split; [now rewrite Ed | exact Ec]].
  unfold refresh. cbn [board pieces current_game_state current_player].
  rewrite Ed.
  assert (HL : Board_update_layout L1 d1 = L1).
  { unfold L1. rewrite Board_update_layout_shape.
    apply Board_update_layout_ext; try assumption.
    apply lookup_equiv_sym. now apply core_eq_lookup. }
  rewrite HL. unfold Pieces_map_all_attack_ranges. rewrite Ed.
  rewrite (map_attack_ranges_loop_map list_of_set L1 ps ps [] Hk Hp
             (lookup_equiv_refl _)) in Hloop.
  apply bind_ok in Hloop. destruct Hloop as (todo' & Hres & E).
  injection E as E. simpl in E. subst todo'.
  rewrite (map_attack_ranges_loop_map list_of_set L1 ps d1 [] Hk1 Hp1
             (core_eq_lookup _ _ Hcore)).
  assert (Hfix : map_res (fresh_pair list_of_set L1 ps) d1 = Ok d1).
  { apply map_res_all. intros e' He'.
    apply map_res_Forall2 in Hres.
    assert (Hex : exists e, fresh_pair list_of_set L1 ps e = Ok e'
                            /\ fst e = fst e' /\ sim (snd e) (snd e')).
    { eapply Forall2_sim_source; eassumption. }
    destruct Hex as (e & Hf & Hke & Hse).
    unfold fresh_pair in *.
    rewrite <- (fresh_entry_ext list_of_set L1 ps ps e e'
                  (lookup_equiv_refl ps) Hke Hse).
    apply bind_ok in Hf. destruct Hf as (r & Hr & Hf). rewrite Hr. cbn [bind].
    inversion Hf as [E']. destruct e' as [k' q']. simpl in *.
    inversion E'. reflexivity. }
  rewrite Hfix. cbn [bind app]. rewrite Ec.
  rewrite (update_attack_ranges_irrelevant d1 _ _ (red_attack_map (pieces g))
             (black_attack_map (pieces g))).
  rewrite HP1. reflexivity.
Qed.

End Invariant.
Lemma move_piece_at_split (d : dict Piece) (pos new_pos : string) :
  forall d1,
    move_piece_at d pos new_pos = Ok d1 ->
    exists a k p b,
      d = (a ++ (k, p) :: b)%list
      /\ d1 = (a ++ (k, update_pos p new_pos) :: b)%list
      /\ p_pos p = pos /\ ~ In pos (map p_pos (dict_values a)).
Proof.
  induction d as [|[k p] r IH]; simpl; intros d1 H; [discriminate H |].
  destruct (String.eqb (p_pos p) pos) eqn:E.
  - apply String.eqb_eq in E. inversion H; subst d1.
    exists [], k, p, r. simpl. auto.
  - apply bind_ok in H. destruct H as (r' & Hr & H). inversion H; subst d1.
    destruct (IH r' Hr) as (a & k' & p' & b & -> & -> & Hp & Hn).
    exists ((k, p) :: a), k', p', b. simpl. repeat split; try assumption.
    intros [Hin|Hin]; [| now apply Hn].
    apply String.eqb_neq in E. now apply E.
Qed.

Lemma get_piece_by_pos_removed (a b : dict Piece) (k : string) (q : Piece)
  (sq : string) :
  positions_unique (a ++ (k, q) :: b)%list ->
  Pieces_get_piece_by_pos (a ++ b)%list sq
  = if String.eqb (p_pos q) sq then None
    else Pieces_get_piece_by_pos (a ++ (k, q) :: b)%list sq.
Proof.
  intros Hp. unfold positions_unique in Hp. rewrite positions_app_middle in Hp.
  apply NoDup_remove_2 in Hp.
  rewrite get_piece_by_pos_app.
  unfold Pieces_get_piece_by_pos at 1. unfold dict_values. rewrite map_app, find_app_two.
  fold (dict_values a). fold (dict_values b).
  fold (Pieces_get_piece_by_pos a sq). fold (Pieces_get_piece_by_pos b sq).
  destruct (String.eqb (p_pos q) sq) eqn:E.
  - apply String.eqb_eq in E. subst sq.
    rewrite (get_piece_by_pos_none a), (get_piece_by_pos_none b);
      [reflexivity | |]; intros Hin; apply Hp; apply in_or_app; auto.
  - reflexivity.
Qed.

(** The registry after [_remove_captured_piece] and the relocation of
    the moving piece. *)
Lemma relocation_registry (P P1 : Pieces) (pos1 pos2 player : string)
  (d1 : dict Piece) :
  NoDup (dict_keys (pieces_dict P)) -> keyed_by_label (pieces_dict P) ->
  positions_unique (pieces_dict P) ->
  candidate_checks (pieces_dict P) pos1 pos2 player = true ->
  Pieces_remove_captured_piece P pos2 player = Ok P1 ->
  move_piece_at (pieces_dict P1) pos1 pos2 = Ok d1 ->
  NoDup (dict_keys d1) /\ keyed_by_label d1 /\ positions_unique d1
  /\ Pieces_get_piece_by_pos d1 pos1 = None
  /\ (exists mover, Pieces_get_piece_by_pos (pieces_dict P) pos1 = Some mover
                    /\ Pieces_get_piece_by_pos d1 pos2 = Some (update_pos mover pos2))
  /\ (forall sq, sq <> pos1 -> sq <> pos2 ->
                 Pieces_get_piece_by_pos d1 sq
                 = Pieces_get_piece_by_pos (pieces_dict P) sq)
  /\ List.length d1
     = (List.length (pieces_dict P)
        - if is_some (Pieces_get_piece_by_pos (pieces_dict P) pos2) then 1 else 0)%nat.
Proof.
  intros Hk Hkey Hp Hchk Hrem Hmove.
  unfold candidate_checks in Hchk.
  apply andb_true_iff in Hchk. destruct Hchk as [Hchk Hsq].
  apply andb_true_iff in Hchk. destruct Hchk as [_ Hne].
  apply negb_true_iff, String.eqb_neq in Hne.
  destruct (Pieces_get_piece_by_pos (pieces_dict P) pos1) as [m|] eqn:Hm;
    [| discriminate Hsq].
  apply andb_true_iff in Hsq. destruct Hsq as [_ Hfriend].
  (* the registry after the capture *)
  assert (Hd0 : NoDup (dict_keys (pieces_dict P1)) /\ keyed_by_label (pieces_dict P1)
                /\ positions_unique (pieces_dict P1)
                /\ ~ In pos2 (map p_pos (dict_values (pieces_dict P1)))
                /\ (forall sq, sq <> pos2 ->
                               Pieces_get_piece_by_pos (pieces_dict P1) sq
                               = Pieces_get_piece_by_pos (pieces_dict P) sq)
                /\ List.length (pieces_dict P1)
                   = (List.length (pieces_dict P)
                      - if is_some (Pieces_get_piece_by_pos (pieces_dict P) pos2)
                        then 1 else 0)%nat).
  { unfold Pieces_remove_captured_piece in Hrem.
    destruct (Pieces_get_piece_by_pos (pieces_dict P) pos2) as [q|] eqn:Hq.
    - apply negb_true_iff in Hfriend. rewrite Hfriend in Hrem. cbn [negb] in Hrem.
      destruct (get_piece_by_pos_In _ _ _ Hq) as [Hqin Hqpos].
      pose proof (get_piece_by_label_keyed _ q Hk Hkey Hqin) as Hql.
      unfold Pieces_get_piece_by_label in Hql. rewrite Hql in Hrem.
      assert (Hin : In (p_label q, q) (pieces_dict P)).
      { unfold dict_values in Hqin. apply in_map_iff in Hqin.
        destruct Hqin as ([k q'] & E & Hin). simpl in E. subst q'.
        unfold keyed_by_label in Hkey. rewrite Forall_forall in Hkey.
        pose proof (Hkey _ Hin) as E. simpl in E. now subst k. }
      destruct (dict_del_split _ _ _ Hk Hin) as (a0 & b0 & Hsplit & Hdel).
      rewrite Hdel in Hrem. cbn [bind] in Hrem. inversion Hrem; subst P1. clear Hrem.
      cbn [pieces_dict]. rewrite Hsplit in *.
      split.
      { rewrite keys_app_middle in Hk. apply NoDup_remove_1 in Hk.
        unfold dict_keys. rewrite map_app. exact Hk. }
      split.
      { unfold keyed_by_label in *. rewrite Forall_app in *.
        destruct Hkey as [Ha Hb]. inversion Hb; subst. auto. }
      pose proof Hp as Hp'. unfold positions_unique in Hp'.
      rewrite positions_app_middle in Hp'.
      split.
      { apply NoDup_remove_1 in Hp'. unfold positions_unique, dict_values.
        rewrite !map_app. exact Hp'. }
      split.
      { apply NoDup_remove_2 in Hp'. rewrite Hqpos in Hp'.
        unfold dict_values. rewrite !map_app. exact Hp'. }
      split.
      { intros sq Hsq. rewrite (get_piece_by_pos_removed a0 b0 (p_label q) q sq Hp).
        rewrite Hqpos.
        replace (String.eqb pos2 sq) with false
          by (symmetry; apply String.eqb_neq; congruence).
        reflexivity. }
      rewrite !length_app. simpl. lia.
    - inversion Hrem; subst P1. clear Hrem. cbn [pieces_dict is_some].
      repeat split; try assumption.
      + now apply get_piece_by_pos_None_positions.
      + lia. }
  destruct Hd0 as (Hk0 & Hkey0 & Hp0 & Hfree & Hsame & Hlen).
  destruct (move_piece_at_split _ _ _ _ Hmove) as (a & k & p & b & Ed0 & Ed1 & Hpp & Hna).
  rewrite Ed0 in *. subst d1.
  assert (Hm0 : Pieces_get_piece_by_pos (a ++ (k, p) :: b)%list pos1 = Some p).
  { rewrite get_piece_by_pos_app, (get_piece_by_pos_none a pos1 Hna).
    now rewrite Hpp, String.eqb_refl. }
  assert (Hmp : m = p).
  { rewrite (Hsame pos1 Hne) in Hm0. congruence. }
  subst m.
  pose proof Hp0 as Hp0'. unfold positions_unique in Hp0'.
  rewrite positions_app_middle in Hp0'.
  assert (Hnb : ~ In pos1 (map p_pos (dict_values b))).
  { apply NoDup_remove_2 in Hp0'. rewrite Hpp in Hp0'.
    intros Hin. apply Hp0'. apply in_or_app. now right. }
  rewrite positions_app_middle in Hfree.
  assert (Hfa : ~ In pos2 (map p_pos (dict_values a)))
    by (intros Hin; apply Hfree; apply in_or_app; now left).
  assert (Hfb : ~ In pos2 (map p_pos (dict_values b)))
    by (intros Hin; apply Hfree; apply in_or_app; right; now right).
  split; [now rewrite keys_app_middle in * |].
  split.
  { unfold keyed_by_label in *. rewrite Forall_app in *.
    destruct Hkey0 as [Ha Hb]. inversion Hb; subst. split; [exact Ha |].
    constructor; assumption. }
  split.
  { unfold positions_unique. rewrite positions_app_middle.
    cbn [update_pos p_pos].
    apply NoDup_remove_1 in Hp0' as Hrest.
    apply NoDup_remove_2 in Hp0' as Hmid.
    clear - Hrest Hfa Hfb.
    induction (map p_pos (dict_values a)) as [|x l IH]; simpl in *.
    - constructor; assumption.
    - inversion Hrest as [|? ? Hx Hl]; subst. constructor.
      + intros Hin. apply in_app_or in Hin. destruct Hin as [Hin|[Hin|Hin]].
        * apply Hx. apply in_or_app. now left.
        * apply Hfa. left. now symmetry.
        * apply Hx. apply in_or_app. now right.
      + apply IH; [| exact Hl]. intros Hin. apply Hfa. now right. }
  split.
  { rewrite get_piece_by_pos_app, (get_piece_by_pos_none a pos1 Hna).
    cbn [update_pos p_pos].
    replace (String.eqb pos2 pos1) with false
      by (symmetry; apply String.eqb_neq; congruence).
    now apply get_piece_by_pos_none. }
  split.
  { exists p. split; [reflexivity |].
    rewrite get_piece_by_pos_app, (get_piece_by_pos_none a pos2 Hfa).
    cbn [update_pos p_pos]. now rewrite String.eqb_refl. }
  split.
  { intros sq H1 H2. rewrite <- (Hsame sq H2).
    rewrite !get_piece_by_pos_app. cbn [update_pos p_pos].
    replace (String.eqb pos2 sq) with false
      by (symmetry; apply String.eqb_neq; congruence).
    replace (String.eqb (p_pos p) sq) with false
      by (symmetry; apply String.eqb_neq; congruence).
    reflexivity. }
  rewrite <- Hlen. rewrite !length_app. reflexivity.
Qed.
Lemma same_attackers_refl (m : dict (list string)) : same_attackers m m.
Proof. intros sq. apply opt_rel_refl. intros a. apply Permutation_refl. Qed.

Lemma same_attackers_trans (a b c : dict (list string)) :
  same_attackers a b -> same_attackers b c -> same_attackers a c.
Proof.
  intros H1 H2 sq. eapply opt_rel_trans; [| apply H1 | apply H2].
  intros x y z. apply Permutation_trans.
Qed.


Lemma unchanged_refl (g : XiangqiGame) : unchanged g g.
Proof.
  unfold unchanged. repeat split; auto using same_attackers_refl.
Qed.

Lemma unchanged_trans (a b c : XiangqiGame) :
  unchanged a b -> unchanged b c -> unchanged a c.
Proof.
  intros (B1 & P1 & Lp1 & Ll1 & R1 & K1 & C1) (B2 & P2 & Lp2 & Ll2 & R2 & K2 & C2).
  unfold unchanged. repeat split.
  - congruence.
  - eapply Permutation_trans; eassumption.
  - intros pos. now rewrite Lp2, Lp1.
  - intros label. now rewrite Ll2, Ll1.
  - eapply same_attackers_trans; eassumption.
  - eapply same_attackers_trans; eassumption.
  - congruence.
Qed.


Section Moves.

Variable list_of_set : list Offset -> list Offset.

Lemma consistent_turn (g : XiangqiGame) (s : GameState) (player : string) :
  consistent list_of_set g ->
  consistent list_of_set (mkGame (board g) (pieces g) s player).
Proof.
  destruct g as [L P st pl]. unfold consistent, refresh. simpl.
  intros (Hk & Hkey & Hp & Hfix). repeat split; try assumption.
  apply bind_ok in Hfix. destruct Hfix as (P' & HP' & E).
  injection E as E1 E2. rewrite HP'. cbn [bind]. now rewrite E1, E2.
Qed.

(** The game after the speculative part of [make_move]. *)
Lemma apply_move_consistent (g g1 : XiangqiGame) (pos1 pos2 : string) :
  consistent list_of_set g ->
  candidate_checks (pieces_dict (pieces g)) pos1 pos2 (current_player g) = true ->
  apply_move list_of_set g pos1 pos2 = Ok g1 ->
  consistent list_of_set g1
  /\ relocated (pieces_dict (pieces g)) (pieces_dict (pieces g1)) pos1 pos2.
Proof.
  intros (Hk & Hkey & Hp & Hfix) Hchk Ha. unfold apply_move in Ha.
  apply bind_ok in Ha. destruct Ha as (P1 & Hrem & Ha).
  apply bind_ok in Ha. destruct Ha as (d1 & Hmove & Href).
  destruct (relocation_registry (pieces g) P1 pos1 pos2 (current_player g) d1
              Hk Hkey Hp Hchk Hrem Hmove)
    as (Hk1 & Hkey1 & Hp1 & Hfrom & (m & Hm & Hto) & Hrest & Hlen).
  destruct (refresh_fixed list_of_set (set_pieces g (set_pieces_dict P1 d1)) g1
              Hk1 Hp1 Href) as (Hfix1 & Hsim & _).
  cbn [set_pieces set_pieces_dict pieces pieces_dict] in Hsim.
  pose proof (sim_eq_core _ _ Hsim) as Hcore.
  split.
  - split; [now rewrite <- (core_eq_keys _ _ Hcore) |].
    split; [eapply core_eq_keyed; eassumption |].
    split; [| exact Hfix1].
    unfold positions_unique. now rewrite <- (core_eq_positions _ _ Hcore).
  - unfold relocated. split; [| split; [| split]].
    + pose proof (get_piece_by_pos_core _ _ pos1 Hcore) as H.
      rewrite Hfrom in H.
      destruct (Pieces_get_piece_by_pos (pieces_dict (pieces g1)) pos1);
        [contradiction | reflexivity].
    + pose proof (get_piece_by_pos_core _ _ pos2 Hcore) as H.
      rewrite Hto in H.
      destruct (Pieces_get_piece_by_pos (pieces_dict (pieces g1)) pos2) as [m'|];
        [| contradiction].
      exists m, m'. auto.
    + intros sq H1 H2. rewrite <- (Hrest sq H1 H2).
      exact (get_piece_by_pos_core _ _ sq Hcore).
    + rewrite <- Hlen. symmetry. eapply Forall2_length. exact Hcore.
Qed.

(** The game after [_undo_move] has taken the speculative part back. *)
Lemma undo_after_apply_returns (g g1 : XiangqiGame) (pos1 pos2 : string) :
  consistent list_of_set g ->
  candidate_checks (pieces_dict (pieces g)) pos1 pos2 (current_player g) = true ->
  apply_move list_of_set g pos1 pos2 = Ok g1 ->
  exists g2,
    XiangqiGame_undo_move list_of_set g1 pos1 pos2 = Ok g2
    /\ consistent list_of_set g2 /\ unchanged g g2
    /\ current_game_state g2 = current_game_state g
    /\ captured_piece (pieces g2) = None.
Proof.
  intros (Hk & Hkey & Hp & Hfix) Hchk Ha.
  destruct (consistent_fixed list_of_set g Hfix) as (HL & Hloop & Fr & Fb).
  pose proof Ha as Ha'. unfold apply_move in Ha'.
  apply bind_ok in Ha'. destruct Ha' as (P1 & Hrem & Ha').
  apply bind_ok in Ha'. destruct Ha' as (d1 & Hmove & Href).
  unfold refresh in Href. simpl in Href.
  apply bind_ok in Href. destruct Href as (P1' & Hmap & Hg1).
  injection Hg1 as Hg1.
  unfold Pieces_map_all_attack_ranges in Hmap. simpl in Hmap.
  apply bind_ok in Hmap. destruct Hmap as (d1' & Hloop1 & HP1').
  injection HP1' as HP1'.
  apply map_attack_ranges_loop_sim in Hloop1.
  destruct Hloop1 as (d1'' & E & Hsim1). simpl in E. subst d1''.
  destruct (update_attack_ranges_files
              (mkPieces d1' (red_attack_map P1) (black_attack_map P1)
                 (captured_piece P1))) as (_ & _ & Ed1 & Ec1).
  rewrite HP1' in Ed1, Ec1. simpl in Ed1, Ec1.
  destruct (undo_registry (pieces g) P1 pos1 pos2 (current_player g) d1 d1'
              (red_attack_map P1') (black_attack_map P1')
              Hk Hkey Hp Hchk Hrem Hmove Hsim1)
    as (d2 & d3 & ps_r & Hback & Hrestore & Hsim3 & Hperm & Lp & Ll & Hsame).
  assert (Hequiv : lookup_equiv (pieces_dict (pieces g)) ps_r).
  { apply lookup_equiv_sym. now apply equal_lookups_equiv. }
  pose proof (Permutation_keys _ _ Hperm Hk) as Hk_r.
  pose proof (Permutation_positions _ _ Hperm Hp) as Hp_r.
  pose proof (Permutation_keyed _ _ Hperm Hkey) as Hkey_r.
  pose proof (sim_eq_core _ _ Hsim3) as Hcore3.
  assert (Hp3 : positions_unique d3).
  { unfold positions_unique. now rewrite <- (core_eq_positions _ _ Hcore3). }
  assert (Hlayout : Board_update_layout (board g1) d3 = board g).
  { rewrite <- Hg1. simpl. rewrite Board_update_layout_shape.
    rewrite <- HL at 2.
    apply Board_update_layout_ext; [exact Hp3 | exact Hp |].
    apply lookup_equiv_sym.
    eapply lookup_equiv_trans; [exact Hequiv | now apply core_eq_lookup]. }
  pose proof (map_attack_ranges_loop_reordered list_of_set (board g)
                (pieces_dict (pieces g)) ps_r d3 Hk Hp Hloop Hperm Hequiv Hsim3)
    as Hloop3.
  set (P3 := Pieces_update_attack_ranges
               (mkPieces ps_r (red_attack_map P1') (black_attack_map P1') None)).
  set (g3 := mkGame (board g) P3 (current_game_state g) (current_player g)).
  assert (Hundo : XiangqiGame_undo_move list_of_set g1 pos1 pos2 = Ok g3).
  { unfold XiangqiGame_undo_move.
    assert (Epieces : pieces g1 = P1') by (rewrite <- Hg1; reflexivity).
    rewrite Epieces, Ed1, Hback. cbn [bind].
    unfold set_pieces_dict. rewrite Ec1, Hrestore.
    unfold refresh. cbn [set_pieces board pieces pieces_dict].
    rewrite Hlayout.
    unfold Pieces_map_all_attack_ranges. cbn [pieces_dict]. rewrite Hloop3.
    cbn [bind red_attack_map black_attack_map captured_piece].
    fold P3. rewrite <- Hg1. reflexivity. }
  exists g3. split; [exact Hundo |].
  destruct (update_attack_ranges_files
              (mkPieces ps_r (red_attack_map P1') (black_attack_map P1') None))
    as (Fr3 & Fb3 & Ed3 & Ec3).
  fold P3 in Fr3, Fb3, Ed3, Ec3. simpl in Fr3, Fb3, Ed3, Ec3.
  split; [| split; [| split]].
  - unfold consistent, g3. cbn [pieces]. rewrite Ed3.
    split; [exact Hk_r |]. split; [exact Hkey_r |]. split; [exact Hp_r |].
    unfold refresh. cbn [board pieces current_game_state current_player].
    rewrite Ed3.
    assert (HLr : Board_update_layout (board g) ps_r = board g).
    { rewrite <- HL at 2.
      apply Board_update_layout_ext; [exact Hp_r | exact Hp |].
      now apply lookup_equiv_sym. }
    rewrite HLr. unfold Pieces_map_all_attack_ranges. rewrite Ed3.
    rewrite (map_attack_ranges_loop_reordered list_of_set (board g)
               (pieces_dict (pieces g)) ps_r ps_r Hk Hp Hloop Hperm Hequiv
               (sim_eq_refl ps_r)).
    cbn [bind]. rewrite Ec3.
    rewrite (update_attack_ranges_irrelevant ps_r _ _ (red_attack_map P1')
               (black_attack_map P1')).
    reflexivity.
  - unfold unchanged, g3. cbn [board pieces current_player]. rewrite Ed3.
    split; [reflexivity |]. split; [exact Hperm |].
    split; [exact Lp |]. split; [exact Ll |].
    split; [apply (files_same_attackers _ _ "R" ps_r (pieces_dict (pieces g)));
            [exact Fr3 | exact Fr | now apply Permutation_sym] |].
    split; [apply (files_same_attackers _ _ "B" ps_r (pieces_dict (pieces g)));
            [exact Fb3 | exact Fb | now apply Permutation_sym] |].
    reflexivity.
  - reflexivity.
  - exact Ec3.
Qed.

Lemma undo_after_apply (g g1 g2 : XiangqiGame) (pos1 pos2 : string) :
  consistent list_of_set g ->
  candidate_checks (pieces_dict (pieces g)) pos1 pos2 (current_player g) = true ->
  apply_move list_of_set g pos1 pos2 = Ok g1 ->
  XiangqiGame_undo_move list_of_set g1 pos1 pos2 = Ok g2 ->
  consistent list_of_set g2 /\ unchanged g g2
  /\ current_game_state g2 = current_game_state g
  /\ captured_piece (pieces g2) = None.
Proof.
  intros Hc Hchk Ha Hu.
  destruct (undo_after_apply_returns g g1 pos1 pos2 Hc Hchk Ha) as (g3 & Hu3 & H).
  rewrite Hu in Hu3. injection Hu3 as <-. exact H.
Qed.

(** A call that does not reach the last branch of [make_move]. *)
Lemma make_move_body_unchanged (after_accept : XiangqiGame -> res XiangqiGame)
  (g g' : XiangqiGame) (pos1 pos2 : string) (test answer : bool) :
  consistent list_of_set g ->
  make_move_body list_of_set after_accept g pos1 pos2 test = Ok (answer, g') ->
  answer && negb test = false ->
  consistent list_of_set g' /\ unchanged g g'
  /\ current_game_state g' = current_game_state g.
Proof.
  intros Hc H Hans. unfold make_move_body in H.
  destruct (current_game_state g) eqn:Hs;
    try (inversion H; subst; rewrite Hs; auto using unchanged_refl).
  apply bind_ok in H. destruct H as (valid & Hv & H).
  destruct valid; [| inversion H; subst; rewrite Hs; auto using unchanged_refl].
  pose proof (is_valid_move_candidate _ _ _ _ _ Hv) as Hchk.
  apply bind_ok in H. destruct H as (g1 & Ha & H).
  apply bind_ok in H. destruct H as (check & _ & H).
  assert (Hundo : forall b,
             (g2 <- XiangqiGame_undo_move list_of_set g1 pos1 pos2 ;; Ok (b, g2))
             = Ok (answer, g') ->
             consistent list_of_set g' /\ unchanged g g'
             /\ current_game_state g' = UNFINISHED).
  { intros b Hu. apply bind_ok in Hu. destruct Hu as (g2 & Hu & E).
    inversion E; subst.
    destruct (undo_after_apply g g1 g' pos1 pos2 Hc Hchk Ha Hu) as (C & U & S & _).
    rewrite Hs in S. auto. }
  destruct check as [[|]|]; [now apply (Hundo false) | |];
    (destruct test; [now apply (Hundo true) |]);
    apply bind_ok in H; destruct H as (g2 & _ & E); inversion E; subst;
    discriminate Hans.
Qed.

Lemma probe_moves_unchanged (moves : list (string * string)) :
  forall g g' answer,
    consistent list_of_set g ->
    probe_moves list_of_set g moves = Ok (answer, g') ->
    consistent list_of_set g' /\ unchanged g g'
    /\ current_game_state g' = current_game_state g.
Proof.
  induction moves as [|[o d] r IH]; simpl; intros g g' answer Hc H.
  - inversion H; subst. auto using unchanged_refl.
  - apply bind_ok in H. destruct H as ([ok g1] & Hp & H).
    unfold probe_move in Hp.
    destruct (make_move_body_unchanged _ g g1 o d true ok Hc Hp)
      as (C1 & U1 & S1); [now destruct ok |].
    destruct ok.
    + inversion H; subst. auto.
    + destruct (IH g1 g' answer C1 H) as (C2 & U2 & S2).
      split; [exact C2 |]. split; [eapply unchanged_trans; eassumption |].
      congruence.
Qed.

Lemma update_game_state_unchanged (g g' : XiangqiGame) :
  consistent list_of_set g ->
  XiangqiGame_update_game_state list_of_set g = Ok g' ->
  consistent list_of_set g' /\ unchanged g g'.
Proof.
  unfold XiangqiGame_update_game_state, XiangqiGame_is_game_over. intros Hc H.
  apply bind_ok in H. destruct H as ([over g1] & Hover & H).
  apply bind_ok in Hover. destruct Hover as (moves & _ & Hprobe).
  destruct (probe_moves_unchanged _ _ _ _ Hc Hprobe) as (C1 & U1 & _).
  assert (Hset : forall s, consistent list_of_set (set_game_state g1 s)
                           /\ unchanged g (set_game_state g1 s)).
  { intros s. split; [apply (consistent_turn g1 s (current_player g1) C1) |].
    exact U1. }
  destruct over; [| inversion H; subst; auto].
  destruct (String.eqb (current_player g1) Board_red); inversion H; subst; apply Hset.
Qed.

(** Every call of [make_move] that returns keeps the game consistent;
    an accepted move leaves the game as the speculative part made it,
    with the turn handed over. *)
Lemma make_move_invariant (g g' : XiangqiGame) (pos1 pos2 : string)
  (test answer : bool) :
  consistent list_of_set g ->
  XiangqiGame_make_move list_of_set g pos1 pos2 test = Ok (answer, g') ->
  consistent list_of_set g'
  /\ (answer && negb test = true ->
      exists g1 check,
        candidate_checks (pieces_dict (pieces g)) pos1 pos2 (current_player g) = true
        /\ apply_move list_of_set g pos1 pos2 = Ok g1
        /\ XiangqiGame_is_in_check g1 (current_player g) = Ok check
        /\ check <> Some true
        /\ unchanged (XiangqiGame_switch_player g1) g').
Proof.
  intros Hc H.
  destruct (answer && negb test) eqn:Hans.
  2:{ destruct (make_move_body_unchanged _ g g' pos1 pos2 test answer Hc H Hans)
        as (C & _). split; [exact C | discriminate]. }
  apply andb_true_iff in Hans. destruct Hans as [-> Ht].
  apply negb_true_iff in Ht. subst test.
  unfold XiangqiGame_make_move, make_move_body in H.
  destruct (current_game_state g) eqn:Hs; try (inversion H; fail).
  apply bind_ok in H. destruct H as (valid & Hv & H).
  destruct valid; [| inversion H].
  pose proof (is_valid_move_candidate _ _ _ _ _ Hv) as Hchk.
  apply bind_ok in H. destruct H as (g1 & Ha & H).
  destruct (apply_move_player list_of_set _ _ _ _ Ha) as [P1 S1].
  apply bind_ok in H. destruct H as (check & Hcheck & H).
  destruct (apply_move_consistent g g1 pos1 pos2 Hc Hchk Ha) as [C1 _].
  assert (Hlast : (g2 <- XiangqiGame_update_game_state list_of_set
                           (XiangqiGame_switch_player g1) ;; Ok (true, g2))
                  = Ok (true, g') ->
                  consistent list_of_set g'
                  /\ unchanged (XiangqiGame_switch_player g1) g').
  { intros Hu. apply bind_ok in Hu. destruct Hu as (g2 & Hu & E).
    inversion E; subst.
    apply (update_game_state_unchanged _ _ (consistent_turn g1 _ _ C1) Hu). }
  rewrite P1 in Hcheck.
  destruct check as [[|]|].
  - apply bind_ok in H. destruct H as (g2 & _ & E). inversion E.
  - destruct (Hlast H) as [C U]. split; [exact C |]. intros _.
    exists g1, (Some false).
    split; [exact Hchk |]. split; [exact Ha |]. split; [exact Hcheck |].
    split; [discriminate | exact U].
  - destruct (Hlast H) as [C U]. split; [exact C |]. intros _.
    exists g1, None.
    split; [exact Hchk |]. split; [exact Ha |]. split; [exact Hcheck |].
    split; [discriminate | exact U].
Qed.

End Moves.
Lemma start_game_consistent : consistent first_occurrences start_game.
Proof.
  split; [apply nodup_strings_NoDup; vm_compute; reflexivity |].
  split; [repeat constructor |].
  split; [apply nodup_strings_NoDup; vm_compute; reflexivity |].
  vm_compute. reflexivity.
Qed.

Section GameInvariant.

Variable list_of_set : list Offset -> list Offset.

(** X19.  Consistency is an invariant of the game: whatever a caller
    submits to [make_move], with or without [test], and whatever the
    answers are, the game that results has a registry keyed by the
    labels with one piece per square, and a board, caches and attack
    maps that [update_layout] and [map_all_attack_ranges] would leave as
    they are. *)
Theorem X19_consistency_is_invariant (attempts : list (string * string * bool)) :
  forall (g g' : XiangqiGame) (answers : list bool),
    consistent list_of_set g ->
    make_moves list_of_set g attempts = Ok (answers, g') ->
    consistent list_of_set g'.
Proof.
  induction attempts as [|[[pos1 pos2] test] r IH]; simpl; intros g g' answers Hc H.
  - inversion H; subst. exact Hc.
  - apply bind_ok in H. destruct H as ([answer g1] & Hm & H).
    apply bind_ok in H. destruct H as ([rest g2] & Hr & H).
    inversion H; subst.
    destruct (make_move_invariant list_of_set g g1 pos1 pos2 test answer Hc Hm)
      as [C1 _].
    exact (IH g1 g' rest C1 Hr).
Qed.

(** X20.  A call of [make_move] that answers [False], for whatever
    reason, and any call with [test] set, whatever it answers, changes
    nothing a caller can see: the board, the entries of the registry
    and its answers to lookups by label and by square, the attackers
    each attack map lists under each square, the player to move and the
    game state are as before. *)
Theorem X20_rejections_and_probes_change_nothing (g g' : XiangqiGame)
  (pos1 pos2 : string) (test answer : bool) :
  consistent list_of_set g ->
  XiangqiGame_make_move list_of_set g pos1 pos2 test = Ok (answer, g') ->
  answer && negb test = false ->
  unchanged g g' /\ current_game_state g' = current_game_state g.
Proof.
  intros Hc H Hans.
  destruct (make_move_body_unchanged list_of_set _ g g' pos1 pos2 test answer
              Hc H Hans) as (_ & U & S).
  auto.
Qed.

(** X21.  An accepted move changes the registry as the rules describe:
    the origin is empty afterwards, the piece that stood there stands on
    the destination, every other square holds the piece it held, and the
    registry has one entry less exactly when the destination was
    occupied.  The probes [_update_game_state] runs afterwards leave no
    trace. *)
Theorem X21_accepted_move_relocates (g g' : XiangqiGame) (pos1 pos2 : string) :
  consistent list_of_set g ->
  XiangqiGame_make_move list_of_set g pos1 pos2 false = Ok (true, g') ->
  relocated (pieces_dict (pieces g)) (pieces_dict (pieces g')) pos1 pos2.
Proof.
  intros Hc H.
  destruct (make_move_invariant list_of_set g g' pos1 pos2 false true Hc H)
    as [_ Hacc].
  destruct (Hacc eq_refl) as (g1 & check & Hchk & Ha & _ & _ & U).
  destruct (apply_move_consistent list_of_set g g1 pos1 pos2 Hc Hchk Ha)
    as [_ (Hfrom & (m & m' & Hm & Hm' & Hcore) & Hrest & Hlen)].
  destruct U as (_ & Hperm & Lp & _). cbn [XiangqiGame_switch_player pieces] in *.
  unfold relocated. rewrite !Lp. split; [exact Hfrom |].
  split; [exists m, m'; auto |]. split.
  - intros sq H1 H2. rewrite Lp. now apply Hrest.
  - rewrite <- (Permutation_length Hperm). exact Hlen.
Qed.


End GameInvariant.

Lemma X19_witness : consistent first_occurrences pinned_soldier_game.
Proof.
  apply (X19_consistency_is_invariant first_occurrences
           (map (fun m => (m, false)) pinned_soldier_moves)
           start_game pinned_soldier_game [true; true; true; true; true; true]).
  - split; [apply nodup_strings_NoDup; vm_compute; reflexivity |].
    split; [repeat constructor |].
    split; [apply nodup_strings_NoDup; vm_compute; reflexivity |].
    vm_compute. reflexivity.
  - vm_compute. reflexivity.
Defined.

Lemma X20_witness :
  XiangqiGame_make_move first_occurrences start_game "b3" "b10" true
  = Ok (true, probed_start_game)
  /\ unchanged start_game probed_start_game
  /\ current_game_state probed_start_game = current_game_state start_game.
Proof.
  split; [vm_compute; reflexivity |].
  apply (X20_rejections_and_probes_change_nothing first_occurrences start_game
           probed_start_game "b3" "b10" true true).
  - split; [apply nodup_strings_NoDup; vm_compute; reflexivity |].
    split; [repeat constructor |].
    split; [apply nodup_strings_NoDup; vm_compute; reflexivity |].
    vm_compute. reflexivity.
  - vm_compute. reflexivity.
  - reflexivity.
Defined.

Lemma before_mate_game_consistent : consistent first_occurrences before_mate_game.
Proof.
  split; [apply nodup_strings_NoDup; vm_compute; reflexivity |].
  split; [repeat constructor |].
  split; [apply nodup_strings_NoDup; vm_compute; reflexivity |].
  vm_compute. reflexivity.
Qed.

Lemma X21_witness :
  relocated (pieces_dict (pieces before_mate_game))
    (pieces_dict (pieces red_won_game)) "b5" "e5".
Proof.
  apply (X21_accepted_move_relocates first_occurrences before_mate_game
           red_won_game "b5" "e5").
  - split; [apply nodup_strings_NoDup; vm_compute; reflexivity |].
    split; [repeat constructor |].
    split; [apply nodup_strings_NoDup; vm_compute; reflexivity |].
    vm_compute. reflexivity.
  - vm_compute. reflexivity.
Defined.

(** ** The moves the termination check probes *)

Lemma head_duplicate_lookups (ps : dict Piece) (k : string) (self self1 : Piece) :
  NoDup (dict_keys ps) -> positions_unique ps -> In (k, self) ps ->
  same_core self1 self ->
  lookup_equiv ((k, self1) :: ps) ps
  /\ Pieces_get_piece_by_pos ((k, self1) :: ps) (p_pos self) = Some self1
  /\ Pieces_get_piece_by_pos ps (p_pos self) = Some self.
Proof.
  intros Hk Hp Hin Hcore.
  assert (Hpos : Pieces_get_piece_by_pos ps (p_pos self) = Some self).
  { apply get_piece_by_pos_unique; [exact Hp |].
    unfold dict_values. apply in_map_iff. exists (k, self). auto. }
  assert (Hlab : Pieces_get_piece_by_label ps k = Some self)
    by (now apply dict_get_In).
  pose proof Hcore as (_ & _ & _ & _ & _ & Epos).
  split; [| split; [| exact Hpos]].
  - split.
    + intros pos. unfold Pieces_get_piece_by_pos at 1.
      cbn [dict_values map snd find].
      destruct (String.eqb (p_pos self1) pos) eqn:E.
      * apply String.eqb_eq in E. subst pos. rewrite Epos, Hpos. exact Hcore.
      * apply opt_rel_refl, same_core_refl.
    + intros label. unfold Pieces_get_piece_by_label. cbn [dict_get].
      destruct (String.eqb k label) eqn:E.
      * apply String.eqb_eq in E. subst label.
        unfold Pieces_get_piece_by_label in Hlab. rewrite Hlab. exact Hcore.
      * apply opt_rel_refl, same_core_refl.
  - unfold Pieces_get_piece_by_pos. cbn [dict_values map snd find].
    now rewrite Epos, String.eqb_refl.
Qed.

Lemma dict_del_keys {V : Type} (d : dict V) (k : string) :
  forall d' x, dict_del d k = Ok d' -> In x (dict_keys d') -> In x (dict_keys d).
Proof.
  induction d as [|[k0 v0] d IH]; simpl; intros d' x H Hin; [discriminate H |].
  destruct (String.eqb k0 k).
  - inversion H; subst. now right.
  - apply bind_ok in H. destruct H as (r & Hr & H). inversion H; subst d'.
    simpl in Hin. destruct Hin as [Hin|Hin]; [now left | right; eauto].
Qed.

Section ProbedMoves.

Variable list_of_set : list Offset -> list Offset.

Lemma entry_attacks_valid (layout : Layout) (ctx : dict Piece) (k : string)
  (self self' : Piece) :
  map_attack_range_entry list_of_set layout [] k self ctx = Ok self' ->
  exists self1,
    same_core self1 self /\ eq_but_attack self1 self'
    /\ forall d, In d (p_attack_range self') ->
                 Pieces_is_valid_move layout ((k, self1) :: ctx) (p_pos self) d
                   (p_color self) = Ok true.
Proof.
  unfold map_attack_range_entry. intros H.
  assert (Plain : forall offsets ar,
             Piece_map_attack_range_from_offsets self layout
               ([] ++ (k, self) :: ctx)%list offsets = Ok ar ->
             exists self1,
               same_core self1 self /\ eq_but_attack self1 (set_attack_range self ar)
               /\ forall d, In d (p_attack_range (set_attack_range self ar)) ->
                            Pieces_is_valid_move layout ((k, self1) :: ctx)
                              (p_pos self) d (p_color self) = Ok true).
  { intros offsets ar Har. exists self.
    split; [apply same_core_refl |].
    split; [unfold eq_but_attack, same_core; simpl; auto 10 |].
    intros d Hd. simpl in Hd.
    exact (map_attack_range_from_offsets_sound _ _ _ _ _ Har d Hd). }
  destruct (p_class self).
  1-4: apply bind_ok in H; destruct H as (ar & Har & H); inversion H; subst self';
       eapply Plain; exact Har.
  3: { apply bind_ok in H. destruct H as (behind & _ & H).
       apply bind_ok in H. destruct H as (offsets & _ & H).
       apply bind_ok in H. destruct H as (ar & Har & H). inversion H; subst self'.
       eapply Plain; exact Har. }
  all: apply bind_ok in H; destruct H as (self1 & Hu & H);
    apply bind_ok in H; destruct H as (ar & Har & H); inversion H; subst self';
    pose proof (Chariot_update_ranges_core _ _ _ _ _ Hu) as Hcore;
    exists self1;
    (split; [now apply same_core_sym |]);
    (split; [unfold eq_but_attack, same_core; simpl; auto 10 |]);
    intros d Hd; simpl in Hd;
    destruct Hcore as (_ & _ & _ & Hcol & _ & Hpos);
    rewrite Hcol, Hpos;
    exact (map_attack_range_from_offsets_sound _ _ _ _ _ Har d Hd).
Qed.

Lemma consistent_map_all (g : XiangqiGame) :
  refresh list_of_set g = Ok g ->
  Pieces_map_all_attack_ranges list_of_set (board g) (pieces g) = Ok (pieces g).
Proof.
  unfold refresh. intros H. apply bind_ok in H. destruct H as (P & HP & H).
  destruct g as [L Pg st pl]. simpl in *. injection H as HL HPg.
  rewrite HL in HP. now subst P.
Qed.

(** The moves the termination check probes are moves of the pieces of
    the color that [Pieces.is_valid_move] accepts on the current board. *)
Lemma listed_moves_valid (g : XiangqiGame) (color : string) :
  consistent list_of_set g ->
  color = Board_red \/ color = Board_black ->
  exists moves,
    Pieces_get_all_possible_moves (pieces g) color = Ok moves
    /\ forall pos1 pos2,
         In (pos1, pos2) moves ->
         Pieces_is_valid_move (board g) (pieces_dict (pieces g)) pos1 pos2 color
         = Ok true.
Proof.
  intros (Hk & Hkey & Hp & Hfix) Hc.
  destruct (all_possible_moves_listed list_of_set (board g) (pieces g) (pieces g)
              color Hk Hkey (consistent_map_all g Hfix) Hc) as (moves & Hmoves & Hin).
  exists moves. split; [exact Hmoves |]. intros pos1 pos2 Hm.
  apply Hin in Hm. destruct Hm as (p & (Hpin & Hcol & Hd) & Hpos).
  destruct (consistent_fixed list_of_set g Hfix) as (_ & Hloop & _).
  rewrite (map_attack_ranges_loop_map list_of_set (board g) (pieces_dict (pieces g))
             (pieces_dict (pieces g)) [] Hk Hp (lookup_equiv_refl _)) in Hloop.
  apply bind_ok in Hloop. destruct Hloop as (todo' & Hres & E).
  injection E as E. simpl in E. subst todo'.
  unfold dict_values in Hpin. apply in_map_iff in Hpin.
  destruct Hpin as ([k p'] & Ep & Hpin). simpl in Ep. subst p'.
  pose proof (map_res_fixed _ _ Hres (k, p) Hpin) as Hf.
  unfold fresh_pair in Hf. apply bind_ok in Hf. destruct Hf as (r & Hr & Hf).
  simpl in Hf. injection Hf as Hf. subst r.
  unfold fresh_entry in Hr. simpl in Hr.
  destruct (entry_attacks_valid _ _ _ _ _ Hr) as (self1 & Hcore & Heq & Hvalid).
  specialize (Hvalid pos2 Hd).
  destruct (head_duplicate_lookups _ k p self1 Hk Hp Hpin Hcore)
    as (Hequiv & Hhead & Hown).
  rewrite (Pieces_is_valid_move_ext (board g) ((k, self1) :: pieces_dict (pieces g))
             (pieces_dict (pieces g)) (p_pos p) pos2 (p_color p) Hequiv) in Hvalid.
  - now rewrite <- Hpos, <- Hcol.
  - rewrite Hhead, Hown. simpl. now apply eq_but_attack_rule.
Qed.

(** X23.  In a consistent game every move [get_all_possible_moves]
    lists for [R] or [B] is accepted by [Pieces.is_valid_move] for that
    color on the current board and registry, so every probe of
    [_is_game_over] gets past the validation. *)
Theorem X23_listed_moves_pass_validation (g : XiangqiGame) (color : string) :
  consistent list_of_set g ->
  color = Board_red \/ color = Board_black ->
  exists moves,
    Pieces_get_all_possible_moves (pieces g) color = Ok moves
    /\ forall pos1 pos2,
         In (pos1, pos2) moves ->
         Pieces_is_valid_move (board g) (pieces_dict (pieces g)) pos1 pos2 color
         = Ok true.
Proof. exact (listed_moves_valid g color). Qed.

Lemma apply_move_keys (g g1 : XiangqiGame) (pos1 pos2 label : string) :
  apply_move list_of_set g pos1 pos2 = Ok g1 ->
  Pieces_get_piece_by_label (pieces_dict (pieces g)) label = None ->
  Pieces_get_piece_by_label (pieces_dict (pieces g1)) label = None.
Proof.
  intros Ha Hnone. apply get_piece_by_label_none. intros Hin.
  assert (Hg : In label (dict_keys (pieces_dict (pieces g)))).
  { unfold apply_move in Ha.
    apply bind_ok in Ha. destruct Ha as (P1 & Hrem & Ha).
    apply bind_ok in Ha. destruct Ha as (d1 & Hmove & Href).
    unfold refresh in Href. apply bind_ok in Href. destruct Href as (P1' & Hmap & E).
    injection E as E. subst g1. cbn [pieces] in Hin.
    destruct (map_all_attack_ranges_result list_of_set _ _ _ Hmap) as (Hcore & _).
    rewrite <- (core_eq_keys _ _ Hcore) in Hin.
    cbn [set_pieces set_pieces_dict pieces pieces_dict] in Hin.
    destruct (move_piece_at_split _ _ _ _ Hmove) as (a & k & p & b & Ed0 & Ed1 & _).
    assert (H0 : In label (dict_keys (pieces_dict P1))).
    { rewrite Ed0. rewrite Ed1 in Hin. now rewrite keys_app_middle in *. }
    unfold Pieces_remove_captured_piece in Hrem.
    destruct (Pieces_get_piece_by_pos (pieces_dict (pieces g)) pos2) as [q|];
      [| inversion Hrem; subst P1; exact H0].
    destruct (negb (String.eqb (p_color q) (current_player g)));
      [| inversion Hrem; subst P1; exact H0].
    destruct (dict_get (pieces_dict (pieces g)) (p_label q)); [| discriminate Hrem].
    apply bind_ok in Hrem. destruct Hrem as (d & Hd & Hrem).
    inversion Hrem; subst P1. eapply dict_del_keys; eassumption. }
  apply dict_mem_keys in Hg. unfold dict_mem in Hg.
  unfold Pieces_get_piece_by_label in Hnone. rewrite Hnone in Hg. discriminate.
Qed.

(** A side without its General cannot complete a move. *)
Lemma no_general_no_move (after_accept : XiangqiGame -> res XiangqiGame)
  (g : XiangqiGame) (pos1 pos2 : string) (test : bool) :
  current_game_state g = UNFINISHED ->
  current_player g = Board_red \/ current_player g = Board_black ->
  Pieces_get_piece_by_label (pieces_dict (pieces g))
    (own_general_label (current_player g)) = None ->
  Pieces_is_valid_move (board g) (pieces_dict (pieces g)) pos1 pos2
    (current_player g) = Ok true ->
  exists e, make_move_body list_of_set after_accept g pos1 pos2 test = Raise e.
Proof.
  intros Hs Hp Hnone Hv. unfold make_move_body. rewrite Hs, Hv. cbn [bind].
  destruct (apply_move list_of_set g pos1 pos2) as [g1|e] eqn:Ha;
    [| exists e; reflexivity].
  cbn [bind].
  destruct (apply_move_player list_of_set _ _ _ _ Ha) as [P1 _].
  pose proof (apply_move_keys _ _ _ _ _ Ha Hnone) as Hnone1.
  exists AttributeError.
  unfold XiangqiGame_is_in_check, Pieces_is_in_check. rewrite P1.
  destruct Hp as [Hp|Hp]; rewrite Hp in *; cbn in Hnone1 |- *;
    rewrite Hnone1; reflexivity.
Qed.

(** X24.  Capturing a General crashes the engine.  When an accepted
    move leaves the side that is to move next without its General in
    the registry, and that side has a move listed, the first probe of
    [_is_game_over] gets past the validation and raises: [make_move]
    does not return. *)
Theorem X24_capturing_the_general_raises (g g1 : XiangqiGame) (pos1 pos2 : string)
  (check : option bool) (first : string * string) (rest : list (string * string)) :
  consistent list_of_set g ->
  current_game_state g = UNFINISHED ->
  current_player g = Board_red \/ current_player g = Board_black ->
  Pieces_is_valid_move (board g) (pieces_dict (pieces g)) pos1 pos2
    (current_player g) = Ok true ->
  apply_move list_of_set g pos1 pos2 = Ok g1 ->
  XiangqiGame_is_in_check g1 (current_player g1) = Ok check ->
  check <> Some true ->
  Pieces_get_piece_by_label (pieces_dict (pieces g1))
    (own_general_label (current_player (XiangqiGame_switch_player g1))) = None ->
  Pieces_get_all_possible_moves (pieces g1)
    (current_player (XiangqiGame_switch_player g1)) = Ok (first :: rest) ->
  exists e, XiangqiGame_make_move list_of_set g pos1 pos2 false = Raise e.
Proof.
  intros Hc Hs Hp Hv Ha Hcheck Hne Hnone Hmoves.
  pose proof (is_valid_move_candidate _ _ _ _ _ Hv) as Hchk.
  destruct (apply_move_consistent list_of_set g g1 pos1 pos2 Hc Hchk Ha) as [C1 _].
  destruct (apply_move_player list_of_set _ _ _ _ Ha) as [P1 S1].
  set (g2 := XiangqiGame_switch_player g1) in *.
  assert (C2 : consistent list_of_set g2)
    by (apply (consistent_turn list_of_set g1 _ _ C1)).
  assert (Hp2 : current_player g2 = Board_red \/ current_player g2 = Board_black).
  { unfold g2. cbn [XiangqiGame_switch_player current_player].
    destruct (String.eqb (current_player g1) Board_red); auto. }
  destruct (listed_moves_valid g2 (current_player g2) C2 Hp2)
    as (moves & Hlisted & Hvalid).
  change (pieces g2) with (pieces g1) in Hlisted.
  rewrite Hmoves in Hlisted. injection Hlisted as <-.
  destruct first as [o d].
  specialize (Hvalid o d (or_introl eq_refl)).
  destruct (no_general_no_move (fun g' => Ok g') g2 o d true) as (e & Hraise);
    try assumption.
  { unfold g2. cbn [XiangqiGame_switch_player current_game_state]. congruence. }
  exists e.
  unfold XiangqiGame_make_move, make_move_body.
  rewrite Hs, Hv. cbn [bind]. rewrite Ha. cbn [bind]. rewrite Hcheck. cbn [bind].
  assert (Hlast : (g3 <- XiangqiGame_update_game_state list_of_set g2 ;;
                   Ok (true, g3)) = Raise e).
  { unfold XiangqiGame_update_game_state, XiangqiGame_is_game_over.
    change (pieces g2) with (pieces g1). rewrite Hmoves. cbn [bind probe_moves fst snd].
    unfold probe_move. rewrite Hraise. reflexivity. }
  destruct check as [[|]|]; [congruence | exact Hlast | exact Hlast].
Qed.

End ProbedMoves.

Lemma soldier_raid_game_reached :
  make_moves first_occurrences start_game
    (map (fun m => (m, false)) soldier_raid_moves)
  = Ok ([true; true; true; true; true; true; true; true; true; true; true;
         true; true; true], soldier_raid_game).
Proof. vm_compute. reflexivity. Qed.

Lemma X23_witness :
  exists moves,
    Pieces_get_all_possible_moves (pieces pinned_soldier_game) "B" = Ok moves
    /\ forall pos1 pos2,
         In (pos1, pos2) moves ->
         Pieces_is_valid_move (board pinned_soldier_game)
           (pieces_dict (pieces pinned_soldier_game)) pos1 pos2 "B" = Ok true.
Proof.
  apply (X23_listed_moves_pass_validation first_occurrences pinned_soldier_game "B").
  - split; [apply nodup_strings_NoDup; vm_compute; reflexivity |].
    split; [repeat constructor |].
    split; [apply nodup_strings_NoDup; vm_compute; reflexivity |].
    vm_compute. reflexivity.
  - right. reflexivity.
Defined.

Lemma X24_witness :
  exists e,
    XiangqiGame_make_move first_occurrences soldier_raid_game "d10" "e10" false
    = Raise e.
Proof.
  apply (X24_capturing_the_general_raises first_occurrences soldier_raid_game
           general_taken_game "d10" "e10" (Some false) ("a7", "a6")
           (match Pieces_get_all_possible_moves (pieces general_taken_game) "B" with
            | Ok (_ :: rest) => rest
            | _ => []
            end)).
  - split; [apply nodup_strings_NoDup; vm_compute; reflexivity |].
    split; [repeat constructor |].
    split; [apply nodup_strings_NoDup; vm_compute; reflexivity |].
    vm_compute. reflexivity.
  - reflexivity.
  - left. reflexivity.
  - vm_compute. reflexivity.
  - vm_compute. reflexivity.
  - vm_compute. reflexivity.
  - discriminate.
  - vm_compute. reflexivity.
  - vm_compute. reflexivity.
Defined.

(** The crash is reached by legal play from the initial position: the
    fifteenth move of the game, Red's Soldier taking the Black General
    sideways, raises [AttributeError]. *)
Example general_capture_reached :
  make_moves first_occurrences start_game
    (map (fun m => (m, false)) (soldier_raid_moves ++ [("d10", "e10")]))
  = Raise AttributeError.
Proof. vm_compute. reflexivity. Qed.
(** ** When the game ends, and what a check is *)

Section Verdicts.

Variable list_of_set : list Offset -> list Offset.

(** X25.  The verdict of the termination check.  After an accepted move
    the game is declared won exactly when the side that is to move has
    no listed move whose probe is answered [True]; otherwise it stays
    unfinished. *)
Theorem X25_won_exactly_when_no_probe_survives (g g' : XiangqiGame)
  (pos1 pos2 : string) :
  XiangqiGame_make_move list_of_set g pos1 pos2 false = Ok (true, g') ->
  exists g1,
    apply_move list_of_set g pos1 pos2 = Ok g1
    /\ (current_game_state g' <> UNFINISHED
        <-> exists moves g2,
              Pieces_get_all_possible_moves (pieces g1)
                (current_player (XiangqiGame_switch_player g1)) = Ok moves
              /\ all_probes_fail list_of_set (XiangqiGame_switch_player g1) moves g2).
Proof.
  unfold XiangqiGame_make_move, make_move_body. intros H.
  destruct (current_game_state g) eqn:Hs; try (inversion H; fail).
  apply bind_ok in H. destruct H as (valid & Hv & H).
  destruct valid; [| inversion H].
  apply bind_ok in H. destruct H as (g1 & Ha & H).
  destruct (apply_move_player list_of_set _ _ _ _ Ha) as [P1 S1].
  exists g1. split; [exact Ha |].
  apply bind_ok in H. destruct H as (check & _ & H).
  assert (Hlast : (g2 <- XiangqiGame_update_game_state list_of_set
                           (XiangqiGame_switch_player g1) ;; Ok (true, g2))
                  = Ok (true, g')).
  { destruct check as [[|]|]; [| exact H | exact H].
    apply bind_ok in H. destruct H as (g2 & _ & E). inversion E. }
  clear H. apply bind_ok in Hlast. destruct Hlast as (g2 & Hu & E).
  inversion E; subst g2. clear E.
  set (g0 := XiangqiGame_switch_player g1) in *.
  assert (S0 : current_game_state g0 = UNFINISHED)
    by (unfold g0; cbn [XiangqiGame_switch_player current_game_state]; congruence).
  unfold XiangqiGame_update_game_state, XiangqiGame_is_game_over in Hu.
  apply bind_ok in Hu. destruct Hu as ([over g3] & Hover & Hu).
  apply bind_ok in Hover. destruct Hover as (moves & Hmoves & Hprobe).
  change (pieces g0) with (pieces g1) in Hmoves.
  destruct (probe_moves_player list_of_set _ _ _ _ Hprobe) as [_ S3].
  destruct over.
  - split.
    + intros _. exists moves, g3. split; [exact Hmoves |].
      now apply all_probes_fail_loop.
    + intros _.
      destruct (String.eqb (current_player g3) Board_red); inversion Hu; subst g';
        discriminate.
  - inversion Hu; subst g3. split.
    + intros Hne. exfalso. apply Hne. congruence.
    + intros (moves' & g4 & Hm' & Hfail).
      rewrite Hmoves in Hm'. inversion Hm'; subst moves'.
      apply all_probes_fail_loop in Hfail. rewrite Hprobe in Hfail. discriminate.
Qed.


End Verdicts.

Lemma X25_witness :
  exists g1,
    apply_move first_occurrences before_mate_game "b5" "e5" = Ok g1
    /\ (current_game_state red_won_game <> UNFINISHED
        <-> exists moves g2,
              Pieces_get_all_possible_moves (pieces g1)
                (current_player (XiangqiGame_switch_player g1)) = Ok moves
              /\ all_probes_fail first_occurrences (XiangqiGame_switch_player g1)
                   moves g2).
Proof.
  apply (X25_won_exactly_when_no_probe_survives first_occurrences before_mate_game
           red_won_game "b5" "e5").
  vm_compute. reflexivity.
Defined.

(** ** The rules do not raise on a sound registry *)

Lemma cells_labelled_nonempty (layout : Layout) :
  cells_labelled layout -> cells_nonempty layout.
Proof.
  unfold cells_labelled, cells_nonempty. intros H.
  eapply Forall_impl; [| exact H]. intros row Hrow.
  eapply Forall_impl; [| exact Hrow]. intros cell [c Hc] ->. discriminate Hc.
Qed.

Lemma dict_get_values {V : Type} (d : dict V) (k : string) (v : V) :
  dict_get d k = Some v -> In v (dict_values d).
Proof.
  intros H. apply dict_get_Some_In in H. unfold dict_values.
  apply in_map_iff. exists (k, v). auto.
Qed.

Lemma pieces_sound_In (ps : dict Piece) (p : Piece) :
  pieces_sound ps -> In p (dict_values ps) -> piece_sound p.
Proof.
  unfold pieces_sound, dict_values. intros H Hin. rewrite Forall_forall in H.
  apply in_map_iff in Hin. destruct Hin as (e & <- & He). now apply H.
Qed.

Lemma General_is_valid_move_total (self : Piece) (pos1 pos2 : string)
  (layout : Layout) (ps : dict Piece) (player : string) :
  p_type self <> "" ->
  well_shaped layout -> cells_nonempty layout ->
  Board_is_valid_pos pos1 = true -> Board_is_valid_pos pos2 = true ->
  pieces_sound ps ->
  exists b, General_is_valid_move self pos1 pos2 layout ps player = Ok b.
Proof.
  intros Ht Hw Hne H1 H2 Hps. unfold General_is_valid_move.
  destruct (negb (Board_is_in_palace pos2 player)); [eauto |].
  rewrite (one_point_orthogonally_checked pos1 pos2 H1 H2). cbn [bind].
  destruct (negb (one_orthogonal_step pos1 pos2)); [eauto |].
  destruct (Pieces_get_piece_by_label ps
              (if String.eqb player Board_red then "GB1" else "GR1"))
    as [eg|] eqn:Heg; [| eauto].
  assert (Hev : Board_is_valid_pos (p_pos eg) = true).
  { apply dict_get_values in Heg. apply (pieces_sound_In ps eg Hps Heg). }
  destruct (valid_pos_coordinates _ H2) as (i2 & j2 & C2).
  destruct (valid_pos_coordinates _ Hev) as (ie & je & Ce).
  destruct (coordinates_facts _ _ _ C2) as (I2 & L2 & J2 & c2 & G2 & N2 & O2).
  destruct (coordinates_facts _ _ _ Ce) as (Ie & Le & Je & ce & Ge & Ne & Oe).
  rewrite Ge, G2. cbn [bind].
  destruct (String.eqb ce c2); [| eauto].
  rewrite (Board_get_column_file layout c2 j2 Hw N2). cbn [bind].
  rewrite I2, Ie. cbn [bind].
  assert (Hlen : List.length (file_cells layout j2) = 10%nat).
  { unfold file_cells. rewrite length_map. apply Hw. }
  unfold py_list_set, norm_index. rewrite Hlen.
  replace (Z.of_nat i2 + 1 - 1) with (Z.of_nat i2) by lia.
  replace (Z.of_nat ie + 1 - 1) with (Z.of_nat ie) by lia.
  replace (Z.of_nat i2 <? 0) with false by (symmetry; apply Z.ltb_ge; lia).
  replace ((0 <=? Z.of_nat i2) && (Z.of_nat i2 <? Z.of_nat 10)) with true
    by (symmetry; apply andb_true_iff; split; [apply Z.leb_le | apply Z.ltb_lt]; lia).
  cbn [bind]. rewrite Nat2Z.id.
  replace (Z.min (Z.of_nat i2) (Z.of_nat ie)) with (Z.of_nat (Nat.min i2 ie)) by lia.
  replace (Z.max (Z.of_nat i2 + 1) (Z.of_nat ie + 1))
    with (Z.of_nat (S (Nat.max i2 ie))) by lia.
  rewrite py_slice_range by (rewrite length_set_nth, Hlen; lia).
  rewrite all_start_with_filter.
  - cbn [bind]. destruct (forallb _ _); eauto.
  - apply Forall_forall. intros x Hx.
    apply In_nth with (d := Board_empty) in Hx. destruct Hx as (n & Hn & <-).
    rewrite length_firstn, length_skipn, length_set_nth, Hlen in Hn.
    rewrite nth_firstn.
    replace (Nat.ltb n (S (Nat.max i2 ie) - Nat.min i2 ie)) with true
      by (symmetry; apply Nat.ltb_lt; lia).
    rewrite nth_skipn.
    assert (Hall : Forall (fun cell => cell <> "")
                     (set_nth (file_cells layout j2) i2 (p_type self))).
    { apply Forall_set_nth; [now apply file_cells_nonempty | exact Ht]. }
    rewrite Forall_forall in Hall. apply Hall. apply nth_In.
    rewrite length_set_nth, Hlen. lia.
Qed.

Lemma Advisor_is_valid_move_total (pos1 pos2 : string) (layout : Layout)
  (ps : dict Piece) (player : string) :
  Board_is_valid_pos pos1 = true -> Board_is_valid_pos pos2 = true ->
  exists b, Advisor_is_valid_move pos1 pos2 layout ps player = Ok b.
Proof.
  intros H1 H2. pose proof (Advisor_rule_checked pos1 pos2 H1 H2) as H.
  cbn [forallb] in H.
  apply andb_true_iff in H. destruct H as [HR H].
  apply andb_true_iff in H. destruct H as [HB H].
  apply andb_true_iff in H. destruct H as [HN _].
  apply res_bool_eqb_eq in HR, HB, HN.
  unfold Advisor_is_valid_move in *.
  rewrite (is_in_palace_side pos2 player).
  destruct (side_of_cases player) as [[_ ->]|[[_ ->]|(_ & _ & ->)]]; eauto.
Qed.

Lemma Elephant_is_valid_move_total (pos1 pos2 : string) (layout : Layout)
  (ps : dict Piece) (player : string) :
  Board_is_valid_pos pos1 = true -> Board_is_valid_pos pos2 = true ->
  exists b, Elephant_is_valid_move pos1 pos2 layout ps player = Ok b.
Proof.
  intros H1 H2. pose proof (Elephant_eye_checked pos1 pos2 H1 H2) as H.
  cbn [forallb] in H.
  apply andb_true_iff in H. destruct H as [HR H].
  apply andb_true_iff in H. destruct H as [HB H].
  apply andb_true_iff in H. destruct H as [HN _].
  apply res_option_eqb_eq in HR, HB, HN.
  rewrite Elephant_is_valid_move_lookup.
  assert (E : Elephant_eye_lookup pos1 pos2 player
              = Elephant_eye_lookup pos1 pos2 (side_of player)).
  { unfold Elephant_eye_lookup. now rewrite is_behind_river_side. }
  rewrite E.
  destruct (side_of_cases player) as [[_ ->]|[[_ ->]|(_ & _ & ->)]];
    [rewrite HR | rewrite HB | rewrite HN]; cbn [bind];
    match goal with
    | |- context [if ?b then _ else _] => destruct b; eauto
    end.
Qed.

Lemma Horse_is_valid_move_total (self : Piece) (pos1 pos2 : string)
  (layout : Layout) (ps : dict Piece) (player : string) :
  p_range self = class_range Horse ->
  Board_is_valid_pos pos1 = true -> Board_is_valid_pos pos2 = true ->
  exists b, Horse_is_valid_move self pos1 pos2 layout ps player = Ok b.
Proof.
  intros Hr H1 H2. pose proof (horse_lookups_checked_all pos1 pos2 H1 H2) as H.
  unfold horse_lookups_checked in H.
  rewrite Horse_is_valid_move_lookups, Hr.
  destruct (Horse_row_lookup (class_range Horse) pos1 pos2) as [[[sq|]|]|];
    try discriminate H; cbn [bind]; [| | eauto].
  - destruct (is_some _); [eauto |].
    destruct (Horse_col_lookup pos1 pos2) as [[sq'|]|]; try discriminate H.
    cbn [bind]. eauto.
  - destruct (Horse_col_lookup pos1 pos2) as [[sq'|]|]; try discriminate H.
    cbn [bind]. eauto.
Qed.

(** [Pieces.is_valid_move] does not raise. *)
Lemma Pieces_is_valid_move_total (layout : Layout) (ps : dict Piece)
  (pos1 pos2 player : string) :
  well_shaped layout -> cells_labelled layout -> pieces_sound ps ->
  player = Board_red \/ player = Board_black ->
  exists b, Pieces_is_valid_move layout ps pos1 pos2 player = Ok b.
Proof.
  intros Hw Hl Hps Hplayer. unfold Pieces_is_valid_move.
  destruct (Board_is_valid_pos pos1) eqn:H1; [| eexists; reflexivity].
  destruct (Board_is_valid_pos pos2) eqn:H2; [| eexists; reflexivity].
  cbn [negb orb].
  destruct (String.eqb pos1 pos2); [eexists; reflexivity |].
  destruct (Pieces_get_piece_by_pos ps pos1) as [p|] eqn:Hp; [| eexists; reflexivity].
  destruct (String.eqb (p_color p) player) eqn:Hc; cbn [negb]; [| eexists; reflexivity].
  apply String.eqb_eq in Hc.
  destruct (match Pieces_get_piece_by_pos ps pos2 with
            | Some q => String.eqb (p_color q) player
            | None => false
            end); [eexists; reflexivity |].
  destruct (get_piece_by_pos_In _ _ _ Hp) as [Hin _].
  destruct (pieces_sound_In ps p Hps Hin) as (_ & _ & _ & Ht & Hr).
  destruct (p_class p) eqn:Hclass.
  - apply General_is_valid_move_total; try assumption.
    now apply cells_labelled_nonempty.
  - now apply Advisor_is_valid_move_total.
  - now apply Elephant_is_valid_move_total.
  - apply Horse_is_valid_move_total; try assumption. apply Hr. reflexivity.
  - unfold Chariot_is_valid_move. destruct (negb _); eexists; reflexivity.
  - unfold Chariot_is_valid_move. destruct (negb _); eexists; reflexivity.
  - rewrite (Soldier_is_valid_move_color p (soldier_of player) pos1 pos2 layout []
               ps [] player Hc).
    rewrite (soldier_rule_checked player Hplayer pos1 pos2 H1 H2). eexists; reflexivity.
Qed.
(** ** The attack ranges can always be mapped *)

Lemma class_range_bounded (c : PieceClass) : offsets_bounded (class_range c).
Proof. destruct c; repeat constructor; simpl; lia. Qed.

Lemma soldier_ranges_bounded (color : string) (offsets : list Offset) (hi : bool) :
  (if hi then Soldier_range_hi color else Soldier_range_lo color) = Ok offsets ->
  offsets_bounded offsets.
Proof.
  unfold Soldier_range_hi, Soldier_range_lo.
  destruct hi, (String.eqb color "R"), (String.eqb color "B"); intros H;
    inversion H; subst; repeat constructor; simpl; lia.
Qed.

Lemma ord0_coordinates (pos : string) (i j : nat) :
  Board_get_coordinates_from_pos pos = Some (i, j) ->
  ord0 pos = Ok (97 + Z.of_nat j) /\ (j < 9)%nat.
Proof.
  intros C. destruct (coordinates_facts _ _ _ C) as (_ & _ & Hj & c & Hc & _ & Ho).
  unfold ord0. rewrite Hc. cbn [bind]. auto.
Qed.

Lemma get_offsets_bounded (target_pos : string) (pos_list : list string) :
  Board_is_valid_pos target_pos = true ->
  Forall (fun p => Board_is_valid_pos p = true) pos_list ->
  forall offsets,
    get_offsets_from_positions target_pos pos_list = Ok offsets ->
    offsets_bounded offsets.
Proof.
  intros Ht. destruct (valid_pos_coordinates _ Ht) as (it & jt & Ct).
  destruct (ord0_coordinates _ _ _ Ct) as [Ot Jt].
  induction 1 as [|move r Hm _ IH]; simpl; intros offsets H.
  - inversion H; subst. constructor.
  - destruct (valid_pos_coordinates _ Hm) as (im & jm & Cm).
    destruct (ord0_coordinates _ _ _ Cm) as [Om Jm].
    rewrite Om, Ot in H. cbn [bind] in H.
    assert (Hdx : -8 <= 97 + Z.of_nat jm - (97 + Z.of_nat jt) <= 8) by lia.
    remember (97 + Z.of_nat jm - (97 + Z.of_nat jt)) as dx eqn:Edx. clear Edx.
    apply bind_ok in H. destruct H as (c & _ & H).
    apply bind_ok in H. destruct H as (d & _ & H).
    apply bind_ok in H. destruct H as (rest & Hrest & H).
    injection H as <-. constructor; [exact Hdx | now apply IH].
Qed.

Lemma from_offsets_total (self : Piece) (layout : Layout) (ps : dict Piece)
  (offsets : list Offset) :
  well_shaped layout -> cells_labelled layout -> pieces_sound ps ->
  Board_is_valid_pos (p_pos self) = true ->
  p_color self = Board_red \/ p_color self = Board_black ->
  offsets_bounded offsets ->
  exists ar, Piece_map_attack_range_from_offsets self layout ps offsets = Ok ar.
Proof.
  intros Hw Hl Hps Hv Hc.
  destruct (valid_pos_coordinates _ Hv) as (i & j & C).
  destruct (ord0_coordinates _ _ _ C) as [Ho Hj].
  destruct (coordinates_facts _ _ _ C) as (Hi & _).
  induction 1 as [|offset r Hb _ (rest & IH)]; simpl; [eauto |].
  rewrite Ho. cbn [bind]. unfold py_chr.
  replace ((0 <=? 97 + Z.of_nat j + fst offset)
           && (97 + Z.of_nat j + fst offset <? 256)) with true
    by (symmetry; apply andb_true_iff; split; [apply Z.leb_le | apply Z.ltb_lt]; lia).
  cbn [bind]. rewrite Hi. cbn [bind].
  destruct (Pieces_is_valid_move_total layout ps (p_pos self)
              (String (ascii_of_N (Z.to_N (97 + Z.of_nat j + fst offset))) ""
               ++ py_str (Z.of_nat i + 1 + snd offset))
              (p_color self) Hw Hl Hps Hc) as (ok & ->).
  cbn [bind]. rewrite IH. cbn [bind]. eauto.
Qed.

Lemma piece_sound_core (p q : Piece) :
  same_core p q -> piece_sound p ->
  (is_chariot_class (p_class q) = false -> p_range q = p_range p) ->
  piece_sound q.
Proof.
  intros (Hcl & Hla & Hty & Hco & _ & Hpo) (Hv & Hc & Hl & Ht & Hr) Hrange.
  unfold piece_sound. rewrite <- Hpo, <- Hco, <- Hla, <- Hty, <- Hcl.
  repeat split; try assumption.
  intros E. rewrite <- Hcl in Hrange. rewrite (Hrange E). now apply Hr.
Qed.

Section Mapping.

Variable list_of_set : list Offset -> list Offset.
Hypothesis list_of_set_members : lists_members list_of_set.

Lemma Chariot_update_ranges_total (self : Piece) (layout : Layout) (pos : string) :
  is_chariot_class (p_class self) = true ->
  well_shaped layout -> cells_labelled layout ->
  Board_is_valid_pos pos = true ->
  exists self1,
    Chariot_update_ranges list_of_set self pos layout = Ok self1
    /\ offsets_bounded (p_range self1).
Proof.
  intros Hc Hw Hl H1.
  assert (Hex : exists self1,
             Chariot_update_ranges list_of_set self pos layout = Ok self1).
  { destruct (p_class self) eqn:E; try discriminate Hc.
    - destruct (Chariot_update_ranges_scan list_of_set self layout pos E Hw H1)
        as (self1 & Hu & _). eauto.
    - destruct (Cannon_update_ranges list_of_set self layout pos E Hw Hl H1)
        as (self1 & Hu & _). eauto. }
  destruct Hex as (self1 & Hu). exists self1. split; [exact Hu |].
  destruct (lines_facts pos H1) as (f & Er & Ef & Ec & _ & _ & Vr & Vc & _).
  unfold Chariot_update_ranges in Hu. rewrite Er in Hu. cbn [bind] in Hu.
  apply bind_ok in Hu. destruct Hu as (row & Hrow & Hu).
  rewrite Ef in Hu. cbn [bind] in Hu. rewrite Ec in Hu. cbn [bind] in Hu.
  apply bind_ok in Hu. destruct Hu as (col & Hcol & Hu).
  apply bind_ok in Hu. destruct Hu as (h & Hh & Hu).
  apply bind_ok in Hu. destruct Hu as (v & Hv & Hu).
  inversion Hu; subst self1. clear Hu. cbn [set_ranges p_range].
  assert (Vrow : Forall (fun p => Board_is_valid_pos p = true) row).
  { rewrite Forall_forall in *. intros p Hp.
    destruct (filter_range_sub _ _ _ _ _ _ Hrow Hp) as [->|Hin]; auto. }
  assert (Vcol : Forall (fun p => Board_is_valid_pos p = true) col).
  { rewrite Forall_forall in *. intros p Hp.
    destruct (filter_range_sub _ _ _ _ _ _ Hcol Hp) as [->|Hin]; auto. }
  pose proof (get_offsets_bounded pos row H1 Vrow h Hh) as Bh.
  pose proof (get_offsets_bounded pos col H1 Vcol v Hv) as Bv.
  unfold offsets_bounded in *. rewrite Forall_forall in *.
  intros x Hx. apply list_of_set_members in Hx. apply in_app_or in Hx.
  destruct Hx; auto.
Qed.

Lemma map_attack_range_entry_total (layout : Layout) (done todo : dict Piece)
  (k : string) (self : Piece) :
  well_shaped layout -> cells_labelled layout ->
  pieces_sound (done ++ (k, self) :: todo)%list ->
  exists self',
    map_attack_range_entry list_of_set layout done k self todo = Ok self'
    /\ piece_sound self'.
Proof.
  intros Hw Hl Hps.
  assert (Hself : piece_sound self).
  { unfold pieces_sound in Hps. rewrite Forall_app in Hps.
    destruct Hps as [_ Hps]. now inversion Hps. }
  pose proof Hself as (Hv & Hc & Hlab & Ht & Hr).
  assert (Plain : forall offsets,
             offsets_bounded offsets ->
             exists ar,
               Piece_map_attack_range_from_offsets self layout
                 (done ++ (k, self) :: todo)%list offsets = Ok ar
               /\ piece_sound (set_attack_range self ar)).
  { intros offsets Hb.
    destruct (from_offsets_total self layout _ offsets Hw Hl Hps Hv Hc Hb) as (ar & Har).
    exists ar. split; [exact Har |].
    apply (piece_sound_core self); [unfold same_core; simpl; auto 10 | exact Hself |].
    reflexivity. }
  unfold map_attack_range_entry.
  destruct (p_class self) eqn:Hclass.
  1-4: destruct (Plain (p_range self)) as (ar & -> & Hs);
       [rewrite Hr by reflexivity; apply class_range_bounded |];
       cbn [bind]; eauto.
  3: { rewrite (is_behind_river_valid (p_pos self) (p_color self) Hv). cbn [bind].
       assert (Hoff : exists offsets,
                  (if negb (on_own_bank (p_color self) (p_pos self))
                   then Soldier_range_hi (p_color self)
                   else Soldier_range_lo (p_color self)) = Ok offsets).
       { unfold Soldier_range_hi, Soldier_range_lo.
         destruct Hc as [-> | ->]; destruct (negb _); cbn; eauto. }
       destruct Hoff as (offsets & Hoff). rewrite Hoff. cbn [bind].
       destruct (Plain offsets) as (ar & -> & Hs);
         [eapply soldier_ranges_bounded; exact Hoff |].
       cbn [bind]. eauto. }
  all: destruct (Chariot_update_ranges_total self layout (p_pos self))
      as (self1 & Hu & Hb);
    [rewrite Hclass; reflexivity | assumption | assumption | assumption |];
    rewrite Hu; cbn [bind];
    pose proof (Chariot_update_ranges_core _ _ _ _ _ Hu) as Hcore;
    pose proof (Chariot_update_ranges_color _ _ _ _ _ Hu) as (Hcol1 & Hcl1 & Hpos1);
    assert (Hs1 : piece_sound self1)
      by (apply (piece_sound_core self self1 Hcore Hself);
          rewrite Hcl1, Hclass; discriminate);
    assert (Hps1 : pieces_sound (done ++ (k, self1) :: todo)%list)
      by (unfold pieces_sound in *; rewrite Forall_app in *;
          destruct Hps as [Hd Ht']; split; [exact Hd |];
          inversion Ht'; subst; constructor; assumption);
    destruct (from_offsets_total self1 layout _ (p_range self1) Hw Hl Hps1)
      as (ar & Har);
    [now rewrite Hpos1 | now rewrite Hcol1 | exact Hb |];
    rewrite Har; cbn [bind]; eexists; (split; [reflexivity |]);
    apply (piece_sound_core self1); [unfold same_core; simpl; auto 10 | exact Hs1 |];
    reflexivity.
Qed.

Lemma map_attack_ranges_loop_total (layout : Layout) (todo : dict Piece) :
  well_shaped layout -> cells_labelled layout ->
  forall done,
    pieces_sound (done ++ todo)%list ->
    exists out, map_attack_ranges_loop list_of_set layout done todo = Ok out
                /\ pieces_sound out.
Proof.
  intros Hw Hl. induction todo as [|[k self] r IH]; intros done Hps; simpl.
  - rewrite app_nil_r in Hps. eauto.
  - destruct (map_attack_range_entry_total layout done r k self Hw Hl Hps)
      as (self' & -> & Hs).
    cbn [bind]. apply IH. rewrite <- app_assoc. simpl.
    unfold pieces_sound in *. rewrite Forall_app in *.
    destruct Hps as [Hd Ht]. split; [exact Hd |].
    inversion Ht; subst. constructor; assumption.
Qed.

End Mapping.
(** ** The speculative part of a move returns *)

Lemma pieces_by_pos_member (l : list Piece) (pos : string) (piece : Piece) :
  dict_get (fold_left (fun acc p => dict_set acc (p_pos p) p) l []) pos = Some piece ->
  In piece l.
Proof.
  induction l as [|p l IH] using rev_ind; [discriminate |].
  rewrite fold_left_app. simpl. rewrite dict_get_set. intros H.
  apply in_or_app.
  destruct (String.eqb (p_pos p) pos).
  - right. injection H as <-. now left.
  - left. now apply IH.
Qed.

Lemma update_layout_sound (layout : Layout) (ps : dict Piece) :
  well_shaped layout -> pieces_sound ps ->
  well_shaped (Board_update_layout layout ps)
  /\ cells_labelled (Board_update_layout layout ps).
Proof.
  intros [Hl Hr] Hps. split.
  - unfold well_shaped, Board_update_layout. rewrite length_mapi.
    split; [exact Hl |]. apply Forall_mapi. intros i row Hin.
    rewrite length_mapi. rewrite Forall_forall in Hr. now apply Hr.
  - unfold cells_labelled, Board_update_layout.
    apply Forall_mapi. intros i row _. apply Forall_mapi. intros j _ _.
    unfold layout_cell.
    destruct (Board_get_pos_from_coordinates i j) as [pos|];
      [| eexists; reflexivity].
    destruct (dict_get (Pieces_get_pieces_by_pos ps) pos) as [piece|] eqn:E;
      [| eexists; reflexivity].
    apply pieces_by_pos_member in E.
    destruct (pieces_sound_In ps piece Hps E) as (_ & _ & Hlab & _). eauto.
Qed.

Lemma dict_keys_lookup (d : dict Piece) (label : string) :
  In label (dict_keys d) <-> Pieces_get_piece_by_label d label <> None.
Proof.
  rewrite <- dict_mem_keys. unfold dict_mem, Pieces_get_piece_by_label.
  destruct (dict_get d label); split; intros H;
    try reflexivity; try discriminate; now contradiction H.
Qed.

Lemma move_piece_at_returns (d : dict Piece) (pos new_pos : string) :
  In pos (map p_pos (dict_values d)) ->
  exists d1, move_piece_at d pos new_pos = Ok d1.
Proof.
  induction d as [|[k p] r IH]; simpl; intros H; [contradiction |].
  destruct (String.eqb (p_pos p) pos) eqn:E; [eauto |].
  destruct H as [H|H]; [apply String.eqb_neq in E; contradiction |].
  destruct (IH H) as (r' & ->). cbn [bind]. eauto.
Qed.

Lemma remove_captured_returns (P : Pieces) (pos player : string) :
  NoDup (dict_keys (pieces_dict P)) -> keyed_by_label (pieces_dict P) ->
  exists P1,
    Pieces_remove_captured_piece P pos player = Ok P1
    /\ (forall e, In e (pieces_dict P1) -> In e (pieces_dict P))
    /\ (forall p, In p (dict_values (pieces_dict P)) -> p_pos p <> pos ->
                  In p (dict_values (pieces_dict P1)))
    /\ (forall label,
           In label (dict_keys (pieces_dict P)) ->
           (forall q, Pieces_get_piece_by_pos (pieces_dict P) pos = Some q ->
                      p_label q <> label) ->
           In label (dict_keys (pieces_dict P1))).
Proof.
  intros Hk Hkey. unfold Pieces_remove_captured_piece.
  destruct (Pieces_get_piece_by_pos (pieces_dict P) pos) as [q|] eqn:Hq;
    [| eexists; split; [reflexivity |]; cbn [pieces_dict]; auto].
  destruct (negb (String.eqb (p_color q) player));
    [| eexists; split; [reflexivity |]; cbn [pieces_dict]; auto].
  destruct (get_piece_by_pos_In _ _ _ Hq) as [Hin Hpos].
  pose proof (get_piece_by_label_keyed _ _ Hk Hkey Hin) as Hlab.
  unfold Pieces_get_piece_by_label in Hlab. rewrite Hlab.
  destruct (dict_del_split _ _ _ Hk (dict_get_Some_In _ _ _ Hlab))
    as (a & b & Ed & Hdel).
  rewrite Hdel. cbn [bind]. eexists. split; [reflexivity |]. cbn [pieces_dict].
  rewrite Ed. split; [| split].
  - intros e He. apply in_app_or in He. apply in_or_app.
    destruct He; [now left | right; now right].
  - intros p Hp Hne. unfold dict_values in *. rewrite map_app in *.
    apply in_app_or in Hp. apply in_or_app.
    destruct Hp as [Hp|[Hp|Hp]]; [now left | | now right].
    simpl in Hp. subst p. contradiction.
  - intros label Hl Hne. rewrite keys_app_middle in Hl. unfold dict_keys.
    rewrite map_app. apply in_app_or in Hl. apply in_or_app.
    destruct Hl as [Hl|[Hl|Hl]]; [now left | | now right].
    exfalso. now apply (Hne q).
Qed.

Section Speculation.

Variable list_of_set : list Offset -> list Offset.
Hypothesis list_of_set_members : lists_members list_of_set.

Lemma refresh_total (g : XiangqiGame) :
  well_shaped (board g) -> pieces_sound (pieces_dict (pieces g)) ->
  exists g1,
    refresh list_of_set g = Ok g1
    /\ well_shaped (board g1) /\ cells_labelled (board g1)
    /\ pieces_sound (pieces_dict (pieces g1)).
Proof.
  intros Hw Hps. unfold refresh, Pieces_map_all_attack_ranges.
  destruct (update_layout_sound (board g) _ Hw Hps) as [Hw1 Hl1].
  destruct (map_attack_ranges_loop_total list_of_set list_of_set_members
              (Board_update_layout (board g) (pieces_dict (pieces g)))
              (pieces_dict (pieces g)) Hw1 Hl1 [] Hps) as (out & -> & Hout).
  cbn [bind]. eexists. split; [reflexivity |].
  cbn [board pieces]. split; [exact Hw1 |]. split; [exact Hl1 |].
  destruct (update_attack_ranges_dict
              (mkPieces out (red_attack_map (pieces g)) (black_attack_map (pieces g))
                 (captured_piece (pieces g)))) as [-> _].
  exact Hout.
Qed.

Lemma apply_move_total (g : XiangqiGame) (pos1 pos2 : string) :
  NoDup (dict_keys (pieces_dict (pieces g))) ->
  keyed_by_label (pieces_dict (pieces g)) ->
  well_shaped (board g) -> pieces_sound (pieces_dict (pieces g)) ->
  candidate_checks (pieces_dict (pieces g)) pos1 pos2 (current_player g) = true ->
  exists g1,
    apply_move list_of_set g pos1 pos2 = Ok g1
    /\ well_shaped (board g1) /\ cells_labelled (board g1)
    /\ pieces_sound (pieces_dict (pieces g1))
    /\ (forall label,
           Pieces_get_piece_by_label (pieces_dict (pieces g)) label <> None ->
           (forall q, Pieces_get_piece_by_pos (pieces_dict (pieces g)) pos2 = Some q ->
                      p_label q <> label) ->
           Pieces_get_piece_by_label (pieces_dict (pieces g1)) label <> None).
Proof.
  intros Hk Hkey Hw Hps Hchk.
  destruct (remove_captured_returns (pieces g) pos2 (current_player g) Hk Hkey)
    as (P1 & Hrem & Hsub & Hkept & Hlabels).
  unfold candidate_checks in Hchk.
  apply andb_true_iff in Hchk. destruct Hchk as [Hchk Hm].
  apply andb_true_iff in Hchk. destruct Hchk as [Hchk Hne].
  apply andb_true_iff in Hchk. destruct Hchk as [H1 H2].
  apply negb_true_iff in Hne. apply String.eqb_neq in Hne.
  destruct (Pieces_get_piece_by_pos (pieces_dict (pieces g)) pos1) as [m|] eqn:Em;
    [| discriminate Hm].
  destruct (get_piece_by_pos_In _ _ _ Em) as [Hin Hpos].
  assert (Hin1 : In pos1 (map p_pos (dict_values (pieces_dict P1)))).
  { rewrite <- Hpos. apply in_map. apply Hkept; [exact Hin | now rewrite Hpos]. }
  destruct (move_piece_at_returns (pieces_dict P1) pos1 pos2 Hin1) as (d1 & Hmove).
  destruct (move_piece_at_split _ _ _ _ Hmove) as (a & k & p & b & Ed0 & Ed1 & Hp & _).
  assert (Hps0 : pieces_sound (pieces_dict P1)).
  { unfold pieces_sound in *. rewrite Forall_forall in *. auto. }
  assert (Hps1 : pieces_sound d1).
  { unfold pieces_sound in *. rewrite Ed0 in Hps0. rewrite Ed1.
    rewrite Forall_app in *. destruct Hps0 as [Ha Hb]. split; [exact Ha |].
    inversion Hb as [|? ? Hpk Hb']; subst. constructor; [| exact Hb'].
    simpl in *. destruct Hpk as (_ & Hc & Hl & Ht & Hr).
    unfold piece_sound, update_pos. simpl. auto. }
  destruct (refresh_total (set_pieces g (set_pieces_dict P1 d1)) Hw Hps1)
    as (g1 & Href & Hw1 & Hl1 & Hs1).
  exists g1. unfold apply_move. rewrite Hrem. cbn [bind]. rewrite Hmove. cbn [bind].
  split; [exact Href |]. split; [exact Hw1 |]. split; [exact Hl1 |].
  split; [exact Hs1 |].
  intros label Hlab Hnot. apply dict_keys_lookup. apply dict_keys_lookup in Hlab.
  pose proof (Hlabels label Hlab Hnot) as Hl0.
  unfold refresh in Href. apply bind_ok in Href. destruct Href as (P1' & Hmap & E).
  injection E as E. subst g1. cbn [pieces].
  destruct (map_all_attack_ranges_result list_of_set _ _ _ Hmap) as (Hcore & _).
  rewrite <- (core_eq_keys _ _ Hcore).
  cbn [set_pieces set_pieces_dict pieces pieces_dict].
  rewrite Ed0 in Hl0. rewrite Ed1. rewrite keys_app_middle in *. exact Hl0.
Qed.

End Speculation.
(** ** [make_move] returns *)

Lemma is_in_check_own_returns (g : XiangqiGame) :
  current_player g = Board_red \/ current_player g = Board_black ->
  Pieces_get_piece_by_label (pieces_dict (pieces g))
    (own_general_label (current_player g)) <> None ->
  exists b, XiangqiGame_is_in_check g (current_player g) = Ok (Some b).
Proof.
  unfold XiangqiGame_is_in_check, Pieces_is_in_check, own_general_label.
  intros [-> | ->] H; cbn in *.
  - destruct (Pieces_get_piece_by_label (pieces_dict (pieces g)) "GR1");
      [eauto | now contradiction H].
  - destruct (Pieces_get_piece_by_label (pieces_dict (pieces g)) "GB1");
      [eauto | now contradiction H].
Qed.

Lemma own_general_present (ps : dict Piece) (player : string) :
  both_generals ps ->
  Pieces_get_piece_by_label ps (own_general_label player) <> None.
Proof.
  intros [Hr Hb]. unfold own_general_label.
  now destruct (String.eqb player Board_red).
Qed.

(** A piece of the other side is not the mover's General. *)
Lemma captured_not_own_general (q : Piece) (player : string) :
  piece_sound q ->
  player = Board_red \/ player = Board_black ->
  String.eqb (p_color q) player = false ->
  p_label q <> own_general_label player.
Proof.
  intros (_ & _ & Hl & _) Hp Hc E. rewrite E in Hl.
  apply String.eqb_neq in Hc. apply Hc.
  destruct Hp as [-> | ->]; cbn in Hl; now injection Hl as <-.
Qed.

Section Returns.

Variable list_of_set : list Offset -> list Offset.
Hypothesis list_of_set_members : lists_members list_of_set.

Lemma playable_cells (g : XiangqiGame) :
  playable list_of_set g -> cells_labelled (board g).
Proof.
  intros ((_ & _ & _ & Hfix) & Hw & Hps & _).
  destruct (consistent_fixed list_of_set g Hfix) as (HL & _).
  rewrite <- HL. now apply update_layout_sound.
Qed.

Lemma unchanged_playable (g g' : XiangqiGame) :
  playable list_of_set g -> consistent list_of_set g' -> unchanged g g' ->
  playable list_of_set g'.
Proof.
  intros (_ & Hw & Hps & Hp & Hr & Hb) Hc (Eb & Hperm & _ & Ll & _ & _ & Epl).
  split; [exact Hc |]. rewrite Eb, Epl. split; [exact Hw |].
  split; [| split; [exact Hp |]].
  - unfold pieces_sound in *. eapply Permutation_Forall; eassumption.
  - unfold both_generals. now rewrite !Ll.
Qed.

(** The speculative part, the test for check and the way back. *)
Lemma speculation_returns (g : XiangqiGame) (pos1 pos2 : string) :
  playable list_of_set g ->
  candidate_checks (pieces_dict (pieces g)) pos1 pos2 (current_player g) = true ->
  exists g1 b g2,
    apply_move list_of_set g pos1 pos2 = Ok g1
    /\ XiangqiGame_is_in_check g1 (current_player g1) = Ok (Some b)
    /\ XiangqiGame_undo_move list_of_set g1 pos1 pos2 = Ok g2
    /\ well_shaped (board g1)
    /\ pieces_sound (pieces_dict (pieces g1))
    /\ (spares_generals (pieces_dict (pieces g)) pos2 ->
        both_generals (pieces_dict (pieces g1))).
Proof.
  intros (Hc & Hw & Hps & Hp & Hg) Hchk.
  pose proof Hc as (Hk & Hkey & _).
  destruct (apply_move_total list_of_set list_of_set_members g pos1 pos2
              Hk Hkey Hw Hps Hchk) as (g1 & Ha & Hw1 & _ & Hs1 & Hlab).
  destruct (apply_move_player list_of_set _ _ _ _ Ha) as [P1 _].
  assert (Hown : Pieces_get_piece_by_label (pieces_dict (pieces g1))
                   (own_general_label (current_player g1)) <> None).
  { rewrite P1. apply Hlab; [now apply own_general_present |].
    intros q Hq. destruct (get_piece_by_pos_In _ _ _ Hq) as [Hin _].
    apply captured_not_own_general;
      [exact (pieces_sound_In _ _ Hps Hin) | exact Hp |].
    unfold candidate_checks in Hchk. rewrite Hq in Hchk.
    destruct (Pieces_get_piece_by_pos (pieces_dict (pieces g)) pos1);
      [| now rewrite andb_false_r in Hchk].
    destruct (String.eqb (p_color q) (current_player g)); [| reflexivity].
    now rewrite !andb_false_r in Hchk. }
  destruct (is_in_check_own_returns g1) as (b & Hb);
    [now rewrite P1 | exact Hown |].
  destruct (undo_after_apply_returns list_of_set g g1 pos1 pos2 Hc Hchk Ha)
    as (g2 & Hu & _).
  exists g1, b, g2. repeat (split; [assumption |]).
  intros Hsp. destruct Hg as [Hr Hbk]. split; apply Hlab; try assumption;
    intros q Hq; now destruct (Hsp q Hq).
Qed.

(** [make_move] returns when what it runs after an accepted move does. *)
Lemma make_move_body_returns (after_accept : XiangqiGame -> res XiangqiGame)
  (g : XiangqiGame) (pos1 pos2 : string) (test : bool) :
  playable list_of_set g ->
  (forall g1,
      candidate_checks (pieces_dict (pieces g)) pos1 pos2 (current_player g) = true ->
      apply_move list_of_set g pos1 pos2 = Ok g1 ->
      exists g2, after_accept g1 = Ok g2) ->
  exists answer g',
    make_move_body list_of_set after_accept g pos1 pos2 test = Ok (answer, g').
Proof.
  intros Hpl Hafter. unfold make_move_body.
  destruct (current_game_state g); eauto.
  pose proof Hpl as (_ & Hw & Hps & Hp & _).
  destruct (Pieces_is_valid_move_total (board g) (pieces_dict (pieces g)) pos1 pos2
              (current_player g) Hw (playable_cells g Hpl) Hps Hp) as (valid & Hv).
  rewrite Hv. cbn [bind]. destruct valid; [| eauto].
  pose proof (is_valid_move_candidate _ _ _ _ _ Hv) as Hchk.
  destruct (speculation_returns g pos1 pos2 Hpl Hchk)
    as (g1 & b & g2 & Ha & Hb & Hu & _).
  rewrite Ha. cbn [bind]. rewrite Hb. cbn [bind]. rewrite Hu. cbn [bind].
  destruct b; [eauto |]. destruct test; [eauto |].
  destruct (Hafter g1 Hchk Ha) as (g3 & ->). cbn [bind]. eauto.
Qed.

Lemma probe_moves_return (moves : list (string * string)) :
  forall g,
    playable list_of_set g ->
    exists answer g', probe_moves list_of_set g moves = Ok (answer, g').
Proof.
  induction moves as [|[o d] r IH]; simpl; intros g Hpl; [eauto |].
  destruct (make_move_body_returns (fun g' => Ok g') g o d true Hpl)
    as (ok & g1 & Hprobe); [eauto |].
  unfold probe_move. rewrite Hprobe. cbn [bind].
  destruct ok; [eauto |].
  pose proof Hpl as (Hc & _).
  destruct (make_move_body_unchanged list_of_set _ g g1 o d true false Hc Hprobe)
    as (C1 & U1 & _); [reflexivity |].
  apply IH. now apply (unchanged_playable g).
Qed.

Lemma update_game_state_returns (g : XiangqiGame) :
  playable list_of_set g ->
  exists g', XiangqiGame_update_game_state list_of_set g = Ok g'.
Proof.
  intros Hpl. pose proof Hpl as (Hc & _ & _ & Hp & _).
  unfold XiangqiGame_update_game_state, XiangqiGame_is_game_over.
  destruct (listed_moves_valid list_of_set g (current_player g) Hc Hp)
    as (moves & -> & _).
  cbn [bind].
  destruct (probe_moves_return moves g Hpl) as (over & g1 & ->). cbn [bind].
  destruct over; [| eauto].
  destruct (String.eqb (current_player g1) Board_red); eauto.
Qed.

Lemma switch_player_playable (g : XiangqiGame) :
  consistent list_of_set g -> well_shaped (board g) ->
  pieces_sound (pieces_dict (pieces g)) ->
  both_generals (pieces_dict (pieces g)) ->
  playable list_of_set (XiangqiGame_switch_player g).
Proof.
  intros Hc Hw Hps Hg. unfold XiangqiGame_switch_player.
  split; [now apply consistent_turn |]. cbn.
  split; [exact Hw |]. split; [exact Hps |]. split; [| exact Hg].
  match goal with |- context [if ?c then _ else _] => destruct c end;
    [right | left]; reflexivity.
Qed.

(** X27.  [make_move] returns, whatever squares and whatever [test] it
    is given, in every game that is consistent, has sound pieces on a
    ten by nine board, a player [R] or [B] and both Generals, as long as
    the destination is not the square of a General; and the game it
    returns is such a game again.  No attempt that spares the Generals
    can therefore make the engine raise, now or later. *)
Theorem X27_make_move_returns (g : XiangqiGame) (pos1 pos2 : string) (test : bool) :
  playable list_of_set g ->
  spares_generals (pieces_dict (pieces g)) pos2 ->
  exists answer g',
    XiangqiGame_make_move list_of_set g pos1 pos2 test = Ok (answer, g')
    /\ playable list_of_set g'.
Proof.
  intros Hpl Hsp. pose proof Hpl as (Hc & Hw & Hps & Hp & Hg).
  assert (Hnext : forall g1,
             apply_move list_of_set g pos1 pos2 = Ok g1 ->
             candidate_checks (pieces_dict (pieces g)) pos1 pos2 (current_player g)
             = true ->
             playable list_of_set (XiangqiGame_switch_player g1)).
  { intros g1 Ha Hchk.
    destruct (speculation_returns g pos1 pos2 Hpl Hchk)
      as (g1' & _ & _ & Ha' & _ & _ & Hw1 & Hs1 & Hg1).
    rewrite Ha in Ha'. injection Ha' as <-.
    destruct (apply_move_consistent list_of_set g g1 pos1 pos2 Hc Hchk Ha) as [C1 _].
    apply switch_player_playable; auto. }
  destruct (make_move_body_returns
              (fun g' => XiangqiGame_update_game_state list_of_set
                           (XiangqiGame_switch_player g'))
              g pos1 pos2 test Hpl) as (answer & g' & Hm).
  { intros g1 Hchk Ha. apply update_game_state_returns. now apply Hnext. }
  exists answer, g'. split; [exact Hm |].
  destruct (make_move_invariant list_of_set g g' pos1 pos2 test answer Hc Hm)
    as [C' Hacc].
  destruct (answer && negb test) eqn:Hans.
  - destruct (Hacc eq_refl) as (g1 & check & Hchk & Ha & _ & _ & U).
    apply (unchanged_playable (XiangqiGame_switch_player g1)); auto.
  - destruct (make_move_body_unchanged list_of_set _ g g' pos1 pos2 test answer
                Hc Hm Hans) as (_ & U & _).
    now apply (unchanged_playable g).
Qed.

End Returns.
Lemma pieces_soundb_sound (ps : dict Piece) :
  pieces_soundb ps = true -> pieces_sound ps.
Proof.
  unfold pieces_soundb, pieces_sound. intros H. rewrite forallb_forall in H.
  apply Forall_forall. intros e He. specialize (H e He).
  unfold piece_soundb in H.
  apply andb_true_iff in H. destruct H as [H Hr].
  apply andb_true_iff in H. destruct H as [H Ht].
  apply andb_true_iff in H. destruct H as [H Hl].
  apply andb_true_iff in H. destruct H as [Hv Hc].
  split; [exact Hv |]. split; [| split; [| split]].
  - apply orb_true_iff in Hc. destruct Hc as [Hc|Hc]; apply String.eqb_eq in Hc; auto.
  - destruct (str_get1 (p_label (snd e))) as [c|]; [| discriminate Hl].
    apply String.eqb_eq in Hl. now subst c.
  - apply negb_true_iff in Ht. now apply String.eqb_neq in Ht.
  - intros Hcl. rewrite Hcl in Hr. cbn [orb] in Hr.
    destruct (list_eq_dec offset_eq_dec (p_range (snd e)) (class_range (p_class (snd e))));
      [assumption | discriminate Hr].
Qed.

Lemma first_occurrences_members : lists_members first_occurrences.
Proof.
  intros l x H. unfold first_occurrences in H.
  apply in_rev in H. apply nodup_In in H. now apply in_rev.
Qed.

Lemma last_occurrences_members : lists_members last_occurrences.
Proof. intros l x H. unfold last_occurrences in H. now apply nodup_In in H. Qed.

Lemma start_game_playable : playable first_occurrences start_game.
Proof.
  split; [exact start_game_consistent |].
  split; [split; [reflexivity | repeat constructor] |].
  split; [apply pieces_soundb_sound; vm_compute; reflexivity |].
  split; [left; reflexivity |].
  split; vm_compute; discriminate.
Qed.

Lemma X27_witness :
  exists answer g',
    XiangqiGame_make_move first_occurrences start_game "a1" "a2" false
    = Ok (answer, g')
    /\ playable first_occurrences g'.
Proof.
  apply (X27_make_move_returns first_occurrences first_occurrences_members
           start_game "a1" "a2" false).
  - exact start_game_playable.
  - intros q Hq. vm_compute in Hq. discriminate Hq.
Defined.

(** *** The constructor under any order of [list(set(..))] *)

Lemma Chariot_update_ranges_any_order (los1 los2 : list Offset -> list Offset)
  (self self1 : Piece) (pos : string) (layout : Layout) :
  Chariot_update_ranges los1 self pos layout = Ok self1 ->
  exists self2, Chariot_update_ranges los2 self pos layout = Ok self2.
Proof.
  unfold Chariot_update_ranges. intros H.
  apply bind_ok in H. destruct H as (rp & -> & H). cbn [bind].
  apply bind_ok in H. destruct H as (row & -> & H). cbn [bind].
  apply bind_ok in H. destruct H as (f & -> & H). cbn [bind].
  apply bind_ok in H. destruct H as (cp & -> & H). cbn [bind].
  apply bind_ok in H. destruct H as (col & -> & H). cbn [bind].
  apply bind_ok in H. destruct H as (h & -> & H). cbn [bind].
  apply bind_ok in H. destruct H as (v & -> & H). cbn [bind].
  eauto.
Qed.

Lemma same_make_refl (a : dict Piece) : same_make a a.
Proof.
  induction a; constructor; auto. split; [reflexivity |].
  split; [apply same_core_refl | reflexivity].
Qed.

Lemma same_make_set (a b : dict Piece) (k : string) (p q : Piece) :
  same_make a b -> same_core p q ->
  (is_chariot_class (p_class p) = false -> p_range q = p_range p) ->
  same_make (dict_set a k p) (dict_set b k q).
Proof.
  intros H Hc Hr. induction H as [|[k1 x] [k2 y] a b (Hk & Hs & Hx) Hab IH]; simpl.
  - constructor; [| constructor]. auto.
  - simpl in Hk. subst k2. destruct (String.eqb k1 k).
    + constructor; [| assumption]. auto.
    + constructor; [| exact IH]. auto.
Qed.

Lemma same_make_core (a b : dict Piece) : same_make a b -> core_eq a b.
Proof.
  induction 1 as [|x y a b (Hk & Hs & _) _ IH]; constructor; auto.
Qed.

Lemma same_make_sound (a b : dict Piece) :
  same_make a b -> pieces_sound a -> pieces_sound b.
Proof.
  unfold pieces_sound.
  induction 1 as [|x y a b (Hk & Hs & Hr) _ IH]; intros Ha; inversion Ha; subst;
    constructor; auto.
  apply (piece_sound_core (snd x)); [exact Hs | assumption |].
  intros Hc. apply Hr. destruct Hs as (-> & _). exact Hc.
Qed.

Section AnyOrder.

Variables los1 los2 : list Offset -> list Offset.

Lemma initialize_square_any_order (layout : Layout) (acc acc' out : dict Piece)
  (i j : nat) (square : string) :
  same_make acc acc' ->
  initialize_square los1 layout acc i j square = Ok out ->
  exists out',
    initialize_square los2 layout acc' i j square = Ok out' /\ same_make out out'.
Proof.
  intros Hrel H. unfold initialize_square in *.
  apply bind_ok in H. destruct H as (t & -> & H). cbn [bind].
  destruct (class_of_square t) as [c|]; [| injection H as <-; eauto].
  destruct (Board_get_pos_from_coordinates i j) as [pos|]; [| discriminate H].
  apply bind_ok in H. destruct H as (p & Hp & H). rewrite Hp. cbn [bind].
  assert (Hclass : p_class p = c).
  { unfold Piece_init in Hp.
    repeat (apply bind_ok in Hp; destruct Hp as (? & _ & Hp)).
    injection Hp as <-. reflexivity. }
  apply bind_ok in H. destruct H as (p1 & Hp1 & H). injection H as <-.
  assert (Plain : Ok p = Ok p1 ->
                  exists out',
                    Ok (dict_set acc' square p) = Ok out'
                    /\ same_make (dict_set acc square p1) out').
  { intros E. injection E as <-. eexists. split; [reflexivity |].
    apply same_make_set; auto using same_core_refl. }
  destruct c eqn:Ec; try (cbn [bind]; now apply Plain).
  all: destruct (Chariot_update_ranges_any_order los1 los2 _ _ _ _ Hp1) as (p2 & Hp2);
    rewrite Hp2; cbn [bind]; eexists; (split; [reflexivity |]);
    pose proof (Chariot_update_ranges_core _ _ _ _ _ Hp1) as C1;
    pose proof (Chariot_update_ranges_core _ _ _ _ _ Hp2) as C2;
    pose proof (Chariot_update_ranges_color _ _ _ _ _ Hp1) as (_ & Hcl & _);
    apply same_make_set;
    [exact Hrel
    | eapply same_core_trans; [apply same_core_sym; exact C1 | exact C2]
    | rewrite Hcl, Hclass; discriminate ].
Qed.

Lemma initialize_row_any_order (layout : Layout) (i : nat) (row : list string) :
  forall acc acc' j out,
    same_make acc acc' ->
    initialize_row los1 layout acc i j row = Ok out ->
    exists out',
      initialize_row los2 layout acc' i j row = Ok out' /\ same_make out out'.
Proof.
  induction row as [|square r IH]; simpl; intros acc acc' j out Hrel H.
  - injection H as <-. eauto.
  - apply bind_ok in H. destruct H as (acc1 & Hsq & H).
    destruct (initialize_square_any_order _ _ _ _ _ _ _ Hrel Hsq) as (acc1' & -> & Hrel1).
    cbn [bind]. eapply IH; eassumption.
Qed.

Lemma initialize_rows_any_order (layout : Layout) (rows : Layout) :
  forall acc acc' i out,
    same_make acc acc' ->
    initialize_rows los1 layout acc i rows = Ok out ->
    exists out',
      initialize_rows los2 layout acc' i rows = Ok out' /\ same_make out out'.
Proof.
  induction rows as [|row r IH]; simpl; intros acc acc' i out Hrel H.
  - injection H as <-. eauto.
  - apply bind_ok in H. destruct H as (acc1 & Hrow & H).
    destruct (initialize_row_any_order _ _ _ _ _ _ _ Hrel Hrow) as (acc1' & -> & Hrel1).
    cbn [bind]. eapply IH; eassumption.
Qed.

End AnyOrder.

(** X28.  Whatever order [list(set(..))] lists the offsets in, the
    constructor returns: a game on the start layout with Red to move and
    the state [UNFINISHED], consistent, with sound pieces and both
    Generals. *)
Theorem X28_new_game_is_playable (list_of_set : list Offset -> list Offset) :
  lists_members list_of_set ->
  exists g,
    XiangqiGame_init list_of_set = Ok g
    /\ playable list_of_set g
    /\ board g = Board_start_layout
    /\ current_player g = Board_red
    /\ current_game_state g = UNFINISHED.
Proof.
  intros Hlos.
  assert (Href : exists d,
             initialize_rows first_occurrences Board_start_layout [] 0%nat
               Board_start_layout = Ok d
             /\ nodup_strings (dict_keys d) = true
             /\ keyed_by_label d
             /\ nodup_strings (map p_pos (dict_values d)) = true
             /\ pieces_soundb d = true
             /\ Board_update_layout Board_start_layout d = Board_start_layout
             /\ both_generals d).
  { eexists. split; [vm_compute; reflexivity |].
    split; [vm_compute; reflexivity |].
    split; [repeat constructor |].
    split; [vm_compute; reflexivity |].
    split; [vm_compute; reflexivity |].
    split; [vm_compute; reflexivity |].
    split; vm_compute; discriminate. }
  destruct Href as (d & Hd & Hkd & Hkeyd & Hpd & Hsd & HLd & Hgd).
  apply nodup_strings_NoDup in Hkd, Hpd. apply pieces_soundb_sound in Hsd.
  destruct (initialize_rows_any_order first_occurrences list_of_set _ _ _ _ _ _
              (same_make_refl []) Hd) as (d0 & Hd0 & Hmake).
  pose proof (same_make_core _ _ Hmake) as Hcore0.
  assert (Hinit : Pieces_init list_of_set Board_start_layout
                  = Ok (mkPieces d0 [] [] None))
    by (unfold Pieces_init; now rewrite Hd0).
  assert (Hk : NoDup (dict_keys d0)) by (now rewrite <- (core_eq_keys _ _ Hcore0)).
  assert (Hp : positions_unique d0)
    by (unfold positions_unique; now rewrite <- (core_eq_positions _ _ Hcore0)).
  pose proof (core_eq_keyed _ _ Hcore0 Hkeyd) as Hkey.
  pose proof (same_make_sound _ _ Hmake Hsd) as Hs.
  assert (HL : Board_update_layout Board_start_layout d0 = Board_start_layout).
  { rewrite <- HLd at 2. symmetry.
    apply Board_update_layout_ext; [exact Hpd | exact Hp | now apply core_eq_lookup]. }
  assert (Hg : both_generals d0).
  { destruct Hgd as [Hr Hb]. split; apply dict_keys_lookup;
      rewrite <- (core_eq_keys _ _ Hcore0); now apply dict_keys_lookup. }
  set (g0 := mkGame Board_start_layout (mkPieces d0 [] [] None) UNFINISHED Board_red).
  assert (Hw : well_shaped Board_start_layout)
    by (split; [reflexivity | repeat constructor]).
  destruct (refresh_total list_of_set Hlos g0 Hw Hs) as (g1 & Href & Hw1 & _ & Hs1).
  destruct (refresh_fixed list_of_set g0 g1 Hk Hp Href) as (Hfix & Hsim & _).
  pose proof (sim_eq_core _ _ Hsim) as Hcore.
  pose proof Href as Href'. unfold refresh in Href'.
  cbn [g0 board pieces pieces_dict current_game_state current_player] in Href'.
  rewrite HL in Href'.
  apply bind_ok in Href'. destruct Href' as (P1 & Hmap & E). injection E as E.
  exists g1. unfold XiangqiGame_init. rewrite Hinit. cbn [bind].
  rewrite Hmap. cbn [bind]. rewrite E.
  split; [reflexivity |].
  split; [| rewrite <- E; auto].
  split.
  { split; [now rewrite <- (core_eq_keys _ _ Hcore) |].
    split; [eapply core_eq_keyed; eassumption |].
    split; [| exact Hfix].
    unfold positions_unique. now rewrite <- (core_eq_positions _ _ Hcore). }
  split; [exact Hw1 |]. split; [exact Hs1 |].
  split; [rewrite <- E; left; reflexivity |].
  destruct Hg as [Hr Hb]. split; apply dict_keys_lookup;
    rewrite <- (core_eq_keys _ _ Hcore); now apply dict_keys_lookup.
Qed.

Lemma X28_witness :
  exists g,
    XiangqiGame_init last_occurrences = Ok g
    /\ playable last_occurrences g
    /\ board g = Board_start_layout
    /\ current_player g = Board_red
    /\ current_game_state g = UNFINISHED.
Proof. apply (X28_new_game_is_playable last_occurrences). exact last_occurrences_members. Defined.
